(** * ChainForensics: bounded UTXO tracing and its confidence model

    A shallow embedding of the traversal core of the ChainForensics
    application (app/core/coinjoin.py, tracer.py, kyc_trace.py and
    privacy_analysis.py) together with the properties its specification
    states about it.

    Conventions of the embedding.
    - Python floats are exact rationals ([Q]); comparisons are the exact
      ones, equalities are stated with [==].  Rounding error of binary
      floating point is outside the model.
    - Python ints are [Z] (amounts in satoshis) or [nat] (indices, counters,
      depths that only count up from 0).
    - A transaction is the dictionary bitcoind returns for
      getrawtransaction with verbose output; the keys the code reads are
      record fields, optional keys are [option]s.
    - The collaborators (node RPC, address index, wall clock) are functions
      collected in an environment record; a traversal is a state machine
      whose state holds the local variables of the Python loop. *)

From Stdlib Require Import List String DecimalString ZArith QArith Qabs Qround.
From Stdlib Require Import Qminmax Lqa Lia Bool Arith PeanoNat Permutation.
Import ListNotations.

Set Implicit Arguments.

(* ================================================================= *)
(** * Python primitives *)

Module Py.

Local Open Scope Q_scope.

(** [int(x)] on a float: truncation toward zero. *)
Definition int (x : Q) : Z := Z.quot (Qnum x) (Zpos (Qden x)).

(** [round(x, ndigits)]: to the nearest multiple of 10^-ndigits, ties to the
    even one. *)
Definition round_half_even (x : Q) : Z :=
  let f := Qfloor x in
  let r := x - inject_Z f in
  match Qcompare r (1 # 2) with
  | Lt => f
  | Gt => (f + 1)%Z
  | Eq => if Z.even f then f else (f + 1)%Z
  end.

Definition round (x : Q) (ndigits : nat) : Q :=
  let scale := (10 ^ Z.of_nat ndigits)%Z in
  inject_Z (round_half_even (x * inject_Z scale)) / inject_Z scale.

Definition Qleb (x y : Q) : bool := Qle_bool x y.
Definition Qltb (x y : Q) : bool := negb (Qle_bool y x).

(** Truthiness of an optional string: [None] and [""] are falsy. *)
Definition truthy (s : option string) : bool :=
  match s with
  | Some s => negb (String.eqb s ""%string)
  | None => false
  end.

(** [d.get(key, default)] on a dictionary kept as an association list. *)
Fixpoint dict_get {V} (d : list (string * V)) (key : string) (default : V) : V :=
  match d with
  | [] => default
  | (k, v) :: rest => if String.eqb k key then v else dict_get rest key default
  end.

Fixpoint dict_lookup {V} (d : list (string * V)) (key : string) : option V :=
  match d with
  | [] => None
  | (k, v) :: rest => if String.eqb k key then Some v else dict_lookup rest key
  end.

(** A dictionary literal: a later entry with the same key replaces the
    value of the earlier one. *)
Fixpoint dict_set {V} (d : list (string * V)) (key : string) (v : V) : list (string * V) :=
  match d with
  | [] => [(key, v)]
  | (k, w) :: rest =>
      if String.eqb k key then (k, v) :: rest else (k, w) :: dict_set rest key v
  end.

Definition dict_of {V} (items : list (string * V)) : list (string * V) :=
  fold_left (fun d kv => dict_set d (fst kv) (snd kv)) items [].

(** [collections.Counter] over floats, keys in order of first appearance. *)
Fixpoint counter_add (k : Q) (c : list (Q * nat)) : list (Q * nat) :=
  match c with
  | [] => [(k, 1%nat)]
  | (k', n) :: rest =>
      if Qeq_bool k' k then (k', S n) :: rest else (k', n) :: counter_add k rest
  end.

Definition Counter (l : list Q) : list (Q * nat) :=
  fold_left (fun c k => counter_add k c) l [].

(** [max(counter.values())], 0 on the empty counter (the callers test for
    emptiness before). *)
Definition max_count (c : list (Q * nat)) : nat :=
  fold_left (fun m kv => Nat.max m (snd kv)) c 0%nat.

(** [max(counter.keys(), key=lambda k: counter[k])]: the first key that
    reaches the largest count. *)
Fixpoint argmax_count (c : list (Q * nat)) : option (Q * nat) :=
  match c with
  | [] => None
  | (k, n) :: rest =>
      match argmax_count rest with
      | Some (k', n') => if (n <? n')%nat then Some (k', n') else Some (k, n)
      | None => Some (k, n)
      end
  end.

Definition sumZ (l : list Z) : Z := fold_left Z.add l 0%Z.

Definition maxZ (l : list Z) : option Z :=
  match l with
  | [] => None
  | x :: rest => Some (fold_left Z.max rest x)
  end.

(** [enumerate(l)]. *)
Fixpoint enumerate_from {A} (i : nat) (l : list A) : list (nat * A) :=
  match l with
  | [] => []
  | x :: rest => (i, x) :: enumerate_from (S i) rest
  end.
Definition enumerate {A} (l : list A) : list (nat * A) := enumerate_from 0 l.

(** Stable insertion sorts: [sorted(l, key=k)] and
    [sorted(l, key=k, reverse=True)] (equal keys stay in their order). *)
Section Sorting.
Context {A K : Type} (key : A -> K) (ltb : K -> K -> bool).

Fixpoint insert_asc (x : A) (l : list A) : list A :=
  match l with
  | [] => [x]
  | y :: rest => if ltb (key y) (key x) then y :: insert_asc x rest else x :: l
  end.

Fixpoint insert_desc (x : A) (l : list A) : list A :=
  match l with
  | [] => [x]
  | y :: rest => if ltb (key x) (key y) then y :: insert_desc x rest else x :: l
  end.

Definition sorted_asc (l : list A) : list A := fold_right insert_asc [] l.
Definition sorted_desc (l : list A) : list A := fold_right insert_desc [] l.
End Sorting.

(** Decimal rendering of an int inside an f-string. *)
Definition str_of_nat (n : nat) : string :=
  NilZero.string_of_uint (Nat.to_uint n).

End Py.

(* ================================================================= *)
(** * Transactions as the node returns them *)

Record ScriptPubKey := {
  address : option string;
  type : option string
}.

Record Prevout := {
  prevout_value : Q;
  prevout_scriptPubKey : ScriptPubKey
}.

(** One entry of ["vin"].  A coinbase input has the key ["coinbase"] and no
    ["txid"]. *)
Record TxIn := {
  vin_coinbase : option string;
  vin_txid : option string;
  vin_vout : option nat;
  vin_prevout : option Prevout;
  vin_value : option Q;
  vin_sequence : option Z
}.

(** One entry of ["vout"]; the amount is in BTC. *)
Record TxOut := {
  value : Q;
  scriptPubKey : ScriptPubKey
}.

Record Tx := {
  tx_txid : string;
  tx_vin : list TxIn;
  tx_vout : list TxOut;
  tx_blockheight : option Z;
  tx_height : option Z;
  tx_blocktime : option Z
}.

(** [int(out["value"] * 100_000_000)]. *)
Definition sats_of_btc (v : Q) : Z := Py.int (v * 100000000)%Q.

(** [tx.get("blockheight") or tx.get("height")]: a missing or zero
    ["blockheight"] gives way to ["height"]. *)
Definition block_height_of (tx : Tx) : option Z :=
  match tx_blockheight tx with
  | Some h => if (h =? 0)%Z then tx_height tx else Some h
  | None => tx_height tx
  end.

(** [datetime.utcfromtimestamp(tx["blocktime"])] when ["blocktime"] is
    present and not zero; the time stays a Unix timestamp here. *)
Definition block_time_of (tx : Tx) : option Z :=
  match tx_blocktime tx with
  | Some t => if (t =? 0)%Z then None else Some t
  | None => None
  end.

Definition pair_eqb (a b : string * nat) : bool :=
  String.eqb (fst a) (fst b) && Nat.eqb (snd a) (snd b).

Definition in_visited (k : string * nat) (visited : list (string * nat)) : bool :=
  existsb (pair_eqb k) visited.

Definition str_in (s : string) (l : list string) : bool :=
  existsb (String.eqb s) l.

(** The bounded [while] loops of the tracers: [body] receives the number of
    the iteration, which indexes the readings of the wall clock. *)
Fixpoint while_loop {S} (cond : S -> bool) (body : nat -> S -> S)
    (fuel : nat) (i : nat) (s : S) : S :=
  match fuel with
  | O => s
  | Datatypes.S fuel' =>
      if cond s then while_loop cond body fuel' (Datatypes.S i) (body i s) else s
  end.

(* ================================================================= *)
(** * coinjoin.py: the CoinJoin classifier *)

Module CoinJoin.

Local Open Scope Q_scope.

Inductive CoinJoinProtocol :=
  NONE | WHIRLPOOL | WASABI_V1 | WASABI_V2 | JOINMARKET | PAYJOIN | UNKNOWN.

(** The lists of matched and failed heuristics and the [details]
    dictionary are formatted text for display; they are left out. *)
Record DetectionResult := {
  txid : string;
  score : Q;
  protocol : CoinJoinProtocol;
  confidence : Q
}.

Record TransactionStats := {
  input_count : nat;
  output_count : nat;
  unique_input_values : nat;
  unique_output_values : nat;
  max_equal_outputs : nat;
  equal_output_value : option Q;
  total_input_value : Q;
  total_output_value : Q;
  output_values : list Q;
  input_values : list Q;
  output_script_types : list string;
  input_script_types : list string;
  is_coinbase : bool
}.

Definition sumQ (l : list Q) : Q := fold_left Qplus l 0.

Definition opt_type (o : option string) : string :=
  match o with Some s => s | None => "unknown"%string end.

(** [len(set(l))] for strings. *)
Definition count_distinct (l : list string) : nat :=
  List.length (fold_left (fun seen x => if str_in x seen then seen else x :: seen) l []).

Definition from_transaction (tx : Tx) : TransactionStats :=
  let vins := tx_vin tx in
  let vouts := tx_vout tx in
  let is_coinbase :=
    existsb (fun vin => match vin_coinbase vin with Some _ => true | None => false end)
            vins in
  let output_values := map value vouts in
  let output_script_types := map (fun out => opt_type (type (scriptPubKey out))) vouts in
  let input_values :=
    flat_map (fun vin => match vin_value vin with Some v => [v] | None => [] end) vins in
  let input_script_types :=
    map (fun vin => match vin_prevout vin with
                    | Some p => opt_type (type (prevout_scriptPubKey p))
                    | None => "unknown"%string
                    end) vins in
  let value_counts := Py.Counter (map (fun v => Py.round v 8) output_values) in
  let max_equal := Py.max_count value_counts in
  let equal_value :=
    if (2 <=? max_equal)%nat then option_map fst (Py.argmax_count value_counts)
    else None in
  {| input_count := List.length vins;
     output_count := List.length vouts;
     unique_input_values :=
       List.length (Py.Counter (map (fun v => Py.round v 8) input_values));
     unique_output_values := List.length value_counts;
     max_equal_outputs := max_equal;
     equal_output_value := equal_value;
     total_input_value := sumQ input_values;
     total_output_value := sumQ output_values;
     output_values := output_values;
     input_values := input_values;
     output_script_types := output_script_types;
     input_script_types := input_script_types;
     is_coinbase := is_coinbase |}.

(** COINJOIN_CONFIGS of config.py. *)
Definition whirlpool_denominations : list Q := [0.001; 0.01; 0.05; 0.5].
Definition whirlpool_tolerance : Q := 0.0001.
Definition wasabi_min_equal_outputs : nat := 10.
Definition joinmarket_min_inputs : nat := 3.
Definition joinmarket_min_outputs : nat := 4.

Definition Qnat (n : nat) : Q := inject_Z (Z.of_nat n).

(** Each detector returns [(score, confidence)]. *)
Definition _detect_whirlpool (stats : TransactionStats) : Q * Q :=
  if negb (output_count stats =? 5)%nat then (0.0, 0.0)
  else if negb (max_equal_outputs stats =? 5)%nat then (0.1, 0.3)
  else
    let is_valid_denom :=
      match equal_output_value stats with
      | Some equal_value =>
          existsb (fun denom => Py.Qltb (Qabs (equal_value - denom)) whirlpool_tolerance)
                  whirlpool_denominations
      | None => false
      end in
    if is_valid_denom then (0.95, 0.95) else (0.80, 0.70).

Definition _detect_wasabi_v1 (stats : TransactionStats) : Q * Q :=
  if (wasabi_min_equal_outputs <=? max_equal_outputs stats)%nat then
    let extra := inject_Z (Z.of_nat (max_equal_outputs stats) - 10) in
    let base_score := Qmin 0.85 (0.5 + extra * 0.05) in
    let confidence := Qmin 0.9 (0.6 + extra * 0.03) in
    (base_score, confidence)
  else (0.0, 0.0).

Definition _detect_wasabi_v2 (stats : TransactionStats) : Q * Q :=
  if (input_count stats <? 10)%nat then (0.0, 0.0)
  else if (output_count stats <? 10)%nat then (0.0, 0.0)
  else
    let extra := inject_Z (Z.of_nat (input_count stats) - 10) in
    let base_score := 0.50 + Qmin 0.20 (extra * 0.02) in
    let confidence := 0.40 + Qmin 0.25 (extra * 0.02) in
    if (5 <=? max_equal_outputs stats)%nat
    then (base_score + 0.10, confidence + 0.10)
    else (base_score, confidence).

Definition _detect_joinmarket (stats : TransactionStats) : Q * Q :=
  if negb (joinmarket_min_inputs <=? input_count stats)%nat then (0.0, 0.0)
  else if negb (joinmarket_min_outputs <=? output_count stats)%nat then (0.1, 0.2)
  else if negb (2 <=? max_equal_outputs stats)%nat then (0.2, 0.3)
  else
    let score := 0.60 in
    let confidence := 0.55 in
    if Py.Qleb (Qnat (unique_output_values stats)) (Qnat (output_count stats) / 2)
    then (score + 0.1, confidence + 0.1)
    else (score, confidence).

Definition _detect_payjoin (stats : TransactionStats) : Q * Q :=
  let unique_script_types := count_distinct (input_script_types stats) in
  if negb ((2 <=? unique_script_types) && (2 <=? input_count stats)
           && (input_count stats <=? 5))%nat then (0.0, 0.0)
  else if negb ((2 <=? output_count stats) && (output_count stats <=? 4))%nat
  then (0.1, 0.2)
  else (0.40, 0.35).

Definition _detect_generic_coinjoin (stats : TransactionStats) : Q * Q :=
  let score := 0.0 in
  let score :=
    if (5 <=? max_equal_outputs stats)%nat then score + 0.3
    else if (3 <=? max_equal_outputs stats)%nat then score + 0.15
    else score in
  let score :=
    if (5 <=? input_count stats)%nat then score + 0.2
    else if (3 <=? input_count stats)%nat then score + 0.1
    else score in
  let score :=
    if (10 <=? output_count stats)%nat then score + 0.2
    else if (5 <=? output_count stats)%nat then score + 0.1
    else score in
  let score :=
    if (0 <? output_count stats)%nat then
      let uniqueness_ratio :=
        Qnat (unique_output_values stats) / Qnat (output_count stats) in
      if Py.Qltb uniqueness_ratio 0.3 then score + 0.2
      else if Py.Qltb uniqueness_ratio 0.5 then score + 0.1
      else score
    else score in
  (score, Qmin 0.7 score).

(** The loop that keeps the first detector of the strictly largest score;
    the accumulator is [(best_protocol, best_score, best_confidence)]. *)
Definition best_match (results : list (CoinJoinProtocol * (Q * Q)))
    : CoinJoinProtocol * Q * Q :=
  fold_left
    (fun best r =>
       let '(best_protocol, best_score, best_confidence) := best in
       let '(protocol, (score, confidence)) := r in
       if Py.Qltb best_score score then (protocol, score, confidence) else best)
    results (NONE, 0.0, 0.0).

Definition analyze_transaction (tx : Tx) : DetectionResult :=
  let stats := from_transaction tx in
  if is_coinbase stats then
    {| txid := tx_txid tx; score := 0.0; protocol := NONE; confidence := 1.0 |}
  else
    let results :=
      [(WHIRLPOOL, _detect_whirlpool stats);
       (WASABI_V1, _detect_wasabi_v1 stats);
       (WASABI_V2, _detect_wasabi_v2 stats);
       (JOINMARKET, _detect_joinmarket stats);
       (PAYJOIN, _detect_payjoin stats)] in
    let '(best_protocol, best_score, best_confidence) := best_match results in
    let '(best_protocol, best_score, best_confidence) :=
      if Py.Qltb best_score 0.5 then
        let '(generic_score, generic_confidence) := _detect_generic_coinjoin stats in
        if Py.Qltb best_score generic_score then
          (if Py.Qleb 0.5 generic_score then UNKNOWN else NONE,
           generic_score, generic_confidence)
        else (best_protocol, best_score, best_confidence)
      else (best_protocol, best_score, best_confidence) in
    {| txid := tx_txid tx; score := best_score; protocol := best_protocol;
       confidence := best_confidence |}.

End CoinJoin.

(* ================================================================= *)
(** * Collaborators *)

(** The address index (Electrs/Fulcrum client).  [None] from [get_history]
    stands for a call that raised or timed out; [None] from
    [find_spending_tx] for "not found", also when the call failed. *)
Record Electrs := {
  get_history : string -> option (list (string * Z));
  find_spending_tx : string -> nat -> option string
}.

(** The world one traversal runs against.  The node answers the same
    question the same way during one run (the specification requires its
    queries to be idempotent), so the per-run transaction cache of the
    tracers does not show.  [get_tx_out] is [true] when the output is
    unspent.  [elapsed i] is the number of seconds since the start that the
    [i]-th iteration of a loop reads from the clock. *)
Record Env := {
  get_raw_transaction : string -> option Tx;
  get_tx_out : string -> nat -> bool;
  electrs : option Electrs;
  elapsed : nat -> Q
}.

(** [vin.get("txid") == txid and vin.get("vout") == vout]. *)
Definition spends (txid : string) (vout : nat) (vin : TxIn) : bool :=
  match vin_txid vin, vin_vout vin with
  | Some t, Some v => String.eqb t txid && Nat.eqb v vout
  | _, _ => false
  end.

(* ================================================================= *)
(** * kyc_trace.py: the KYC privacy tracer *)

Module KYCTrace.

Local Open Scope Q_scope.

Inductive TrailStatus := ACTIVE | COLD | DEAD_END | DEPTH_LIMIT | LOST.

Inductive ConfidenceLevel := HIGH | MEDIUM | LOW | NEGLIGIBLE.

Definition TrailStatus_eqb (a b : TrailStatus) : bool :=
  match a, b with
  | ACTIVE, ACTIVE | COLD, COLD | DEAD_END, DEAD_END
  | DEPTH_LIMIT, DEPTH_LIMIT | LOST, LOST => true
  | _, _ => false
  end.

Definition ConfidenceLevel_eqb (a b : ConfidenceLevel) : bool :=
  match a, b with
  | HIGH, HIGH | MEDIUM, MEDIUM | LOW, LOW | NEGLIGIBLE, NEGLIGIBLE => true
  | _, _ => false
  end.

Record PathNode := {
  txid : string;
  vout : nat;
  value_sats : Z;
  node_address : option string;
  block_height : option Z;
  block_time : option Z;
  is_coinjoin : bool;
  coinjoin_score : Q;
  coinjoin_count_in_path : nat;
  coinjoin_protocol : string;
  anonymity_set_size : nat;
  depth : nat;
  is_change : bool;
  change_probability : Q;
  cumulative_confidence : Q
}.

(** The list of human-readable [reasoning] strings of the source is left
    out: it is built from formatted floats and nothing reads it back. *)
Record ProbableDestination := {
  dest_address : string;
  dest_value_sats : Z;
  confidence_score : Q;
  confidence_level : ConfidenceLevel;
  path_length : nat;
  coinjoins_passed : nat;
  trail_status : TrailStatus;
  path : list PathNode
}.

(** [summary], [recommendations] and [execution_time_ms] are presentation
    and are left out. *)
Record KYCTraceResult := {
  exchange_txid : string;
  destination_address : string;
  original_value_sats : Z;
  trace_depth : nat;
  probable_destinations : list ProbableDestination;
  total_traced_sats : Z;
  total_untraceable_sats : Z;
  coinjoins_encountered : nat;
  overall_privacy_score : Q;
  privacy_rating : string;
  warnings : list string;
  electrs_enabled : bool
}.

Definition DEPTH_PRESETS : list (string * nat) :=
  [("quick"%string, 3%nat); ("standard"%string, 6%nat);
   ("deep"%string, 10%nat); ("thorough"%string, 15%nat)].

Definition MAX_DEPTH : nat := 15.
Definition MAX_TRANSACTIONS : nat := 300.
Definition MAX_QUEUE_SIZE : nat := 1000.
Definition COINJOIN_THRESHOLD : Q := 0.7.
Definition CONFIDENCE_COLD_THRESHOLD : Q := 0.05.
Definition MAX_CONSECUTIVE_ELECTRS_FAILURES : nat := 3.
Definition MAX_TRACE_TIME_SECONDS : Q := 60.

(** [max(Counter(round(v, 8) for v in outputs).values())], 0 without
    outputs. *)
Definition rounded_values (vouts : list TxOut) : list Q :=
  map (fun out => Py.round (value out) 8) vouts.

Definition _calculate_coinjoin_score (tx : Tx) : Q :=
  let vouts := tx_vout tx in
  let vins := tx_vin tx in
  if (List.length vouts <? 2)%nat then 0.0 else
  let value_counts := Py.Counter (rounded_values vouts) in
  match value_counts with
  | [] => 0.0
  | _ =>
    let max_equal := Py.max_count value_counts in
    let num_outputs := List.length vouts in
    let num_inputs := List.length vins in
    if ((num_outputs =? 5) && (max_equal =? 5))%nat then 0.95
    else if (10 <=? max_equal)%nat then 0.90
    else if ((10 <=? num_inputs) && (10 <=? num_outputs) && (5 <=? max_equal))%nat
      then 0.70
    else if ((5 <=? max_equal) && (3 <=? num_inputs))%nat then 0.75
    else if ((3 <=? max_equal) && (2 <=? num_inputs))%nat then 0.50
    else 0.0
  end.

Definition _get_coinjoin_details (tx : Tx) (coinjoin_score : Q) : string * nat :=
  let vouts := tx_vout tx in
  let vins := tx_vin tx in
  if Py.Qltb coinjoin_score COINJOIN_THRESHOLD then ("none"%string, 0%nat) else
  let value_counts := Py.Counter (rounded_values vouts) in
  let max_equal := Py.max_count value_counts in
  let num_outputs := List.length vouts in
  let num_inputs := List.length vins in
  if ((num_outputs =? 5) && (max_equal =? 5))%nat then ("whirlpool"%string, 5%nat)
  else if (10 <=? max_equal)%nat then ("wasabi_v1"%string, max_equal)
  else if ((10 <=? num_inputs) && (10 <=? num_outputs))%nat
    then ("wasabi_v2"%string, Nat.min num_inputs num_outputs)
  else if ((5 <=? max_equal) && (3 <=? num_inputs))%nat
    then ("joinmarket"%string, max_equal)
  else ("unknown"%string, Nat.max max_equal 2).

Definition protocol_multipliers : list (string * Q) :=
  [("whirlpool"%string, 1.5); ("wasabi_v1"%string, 1.3);
   ("wasabi_v2"%string, 1.8); ("joinmarket"%string, 2.0);
   ("unknown"%string, 2.5)].

Definition _calculate_coinjoin_confidence_degradation
    (protocol : string) (anonymity_set_size : nat) (prev_confidence : Q) : Q :=
  if (anonymity_set_size <? 2)%nat then prev_confidence else
  let base_degradation := 1.0 / inject_Z (Z.of_nat anonymity_set_size) in
  let multiplier := Py.dict_get protocol_multipliers protocol 2.5 in
  let new_confidence := prev_confidence * (base_degradation * multiplier) in
  Qmax new_confidence 0.001.

(** ** Change detection *)

Record UnnecessaryInputs := {
  has_unnecessary : bool;
  unnecessary_indices : list nat;
  minimum_inputs_needed : nat;
  total_inputs_used : nat;
  ui_confidence : Q;
  likely_change_output : option nat
}.

(** The loop that adds the largest inputs until the target is funded;
    returns [minimum_needed]. *)
Fixpoint count_needed (sorted_inputs : list (nat * Z)) (cumulative target : Z)
    (minimum_needed : nat) : nat :=
  match sorted_inputs with
  | [] => minimum_needed
  | (_, v) :: rest =>
      let cumulative := (cumulative + v)%Z in
      let minimum_needed := S minimum_needed in
      if (target <=? cumulative)%Z then minimum_needed
      else count_needed rest cumulative target minimum_needed
  end.

(** The loop that looks for the output closest to the sum of the
    unnecessary inputs; [min_diff] is [None] for [float('inf')]. *)
Fixpoint closest_output (output_values : list (nat * Z)) (unnecessary_sum : Z)
    (min_diff : option Z) (likely_change : option nat) : option Z * option nat :=
  match output_values with
  | [] => (min_diff, likely_change)
  | (out_idx, out_value) :: rest =>
      let diff := Z.abs (out_value - unnecessary_sum) in
      let better := match min_diff with
                    | None => true
                    | Some m => (diff <? m)%Z
                    end in
      if better then closest_output rest unnecessary_sum (Some diff) (Some out_idx)
      else closest_output rest unnecessary_sum min_diff likely_change
  end.

Definition nat_in (n : nat) (l : list nat) : bool := existsb (Nat.eqb n) l.

(** The source also takes a [payment_output_idx], which it never reads. *)
Definition _detect_unnecessary_inputs (tx : Tx) : UnnecessaryInputs :=
  let vins := tx_vin tx in
  let vouts := tx_vout tx in
  let insufficient total :=
    {| has_unnecessary := false; unnecessary_indices := [];
       minimum_inputs_needed := 0; total_inputs_used := total;
       ui_confidence := 0.0; likely_change_output := None |} in
  match vins, vouts with
  | [], _ | _, [] => insufficient 0%nat
  | _, _ =>
    let input_values :=
      flat_map (fun iv : nat * TxIn =>
        match vin_prevout (snd iv) with
        | Some p =>
            let value_sats := sats_of_btc (prevout_value p) in
            if (0 <? value_sats)%Z then [(fst iv, value_sats)] else []
        | None => []
        end) (Py.enumerate vins) in
    let output_values :=
      map (fun iv : nat * TxOut => (fst iv, sats_of_btc (value (snd iv))))
          (Py.enumerate vouts) in
    match input_values with
    | [] => insufficient (List.length vins)
    | _ =>
      let total_output := Py.sumZ (map snd output_values) in
      let estimated_fee := (20000 + Z.of_nat (List.length input_values) * 10000)%Z in
      let target_amount := (total_output + estimated_fee)%Z in
      let sorted_inputs := Py.sorted_desc snd Z.ltb input_values in
      let minimum_needed := count_needed sorted_inputs 0 target_amount 0 in
      let total_used := List.length input_values in
      let unnecessary_count := (Z.of_nat total_used - Z.of_nat minimum_needed)%Z in
      let has_unnecessary := (0 <? unnecessary_count)%Z in
      let unnecessary_indices :=
        if has_unnecessary then
          let necessary_inputs := map fst (firstn minimum_needed sorted_inputs) in
          filter (fun idx => negb (nat_in idx necessary_inputs)) (map fst sorted_inputs)
        else [] in
      let confidence :=
        if has_unnecessary then
          if (2 <=? unnecessary_count)%Z then 0.90
          else if (unnecessary_count =? 1)%Z then 0.75
          else 0.50
        else 0.30 in
      let likely_change :=
        if has_unnecessary && (2 <=? List.length output_values)%nat then
          let unnecessary_sum :=
            Py.sumZ (map snd (filter (fun iv : nat * Z => nat_in (fst iv) unnecessary_indices)
                                     input_values)) in
          match closest_output output_values unnecessary_sum None None with
          | (Some min_diff, likely) => if (100000 <? min_diff)%Z then None else likely
          | (None, likely) => None
          end
        else None in
      {| has_unnecessary := has_unnecessary;
         unnecessary_indices := unnecessary_indices;
         minimum_inputs_needed := minimum_needed;
         total_inputs_used := total_used;
         ui_confidence := Py.round confidence 3;
         likely_change_output := likely_change |}
    end
  end.

Definition opt_str_default (o : option string) (d : string) : string :=
  match o with Some s => s | None => d end.

Definition opt_nat_eqb (o : option nat) (n : nat) : bool :=
  match o with Some m => Nat.eqb m n | None => false end.

(** Returns [(is_change, probability)].  The argument [original_value] of
    the source is not read by it. *)
Definition _detect_change_output (tx : Tx) (input_addresses : list string)
    (output_idx : nat) (original_value : Z) : bool * Q :=
  let vouts := tx_vout tx in
  match nth_error vouts output_idx with
  | None => (false, 0.0)
  | Some output =>
    let output_value := sats_of_btc (value output) in
    let output_script := scriptPubKey output in
    let output_address := address output_script in
    let output_type := opt_str_default (type output_script) ""%string in
    if Py.truthy output_address
       && str_in (opt_str_default output_address ""%string) input_addresses
    then (true, 0.95)
    else
      let probability := 0.0 in
      let unnecessary_result := _detect_unnecessary_inputs tx in
      let probability :=
        if opt_nat_eqb (likely_change_output unnecessary_result) output_idx
        then probability + 0.30 else probability in
      let input_types :=
        flat_map (fun vin =>
          match vin_prevout vin with
          | Some p => [opt_str_default (type (prevout_scriptPubKey p)) ""%string]
          | None => []
          end) (tx_vin tx) in
      let probability :=
        if str_in output_type input_types then probability + 0.15 else probability in
      let value_btc := inject_Z output_value / 100000000 in
      let is_round := Qeq_bool (inject_Z (Qfloor (value_btc * 1000))) (value_btc * 1000) in
      let probability := if negb is_round then probability + 0.20 else probability in
      let max_output :=
        match Py.maxZ (map (fun v => sats_of_btc (value v)) vouts) with
        | Some m => m
        | None => 0%Z
        end in
      let probability :=
        if (output_value <? max_output)%Z then probability + 0.15 else probability in
      let probability :=
        if (output_idx =? List.length vouts - 1)%nat then probability + 0.10
        else probability in
      (Py.Qltb 0.35 probability, Qmin probability 0.85)
  end.

(** ** Confidence of a finished path *)

(** Returns the confidence score; the reasoning strings are left out. *)
Definition _calculate_path_confidence (path : list PathNode) (original_value : Z) : Q :=
  match last (map Some path) None with
  | None => 0.0
  | Some final =>
    let confidence := cumulative_confidence final in
    let final_value := value_sats final in
    let value_ratio := inject_Z final_value / inject_Z (Z.max original_value 1) in
    let confidence :=
      if Py.Qltb 0.9 value_ratio then confidence
      else if Py.Qltb 0.5 value_ratio then confidence
      else if Py.Qltb 0.1 value_ratio then confidence
      else confidence * 0.7 in
    let change_nodes := filter is_change path in
    let confidence :=
      match change_nodes with
      | [] => confidence
      | _ =>
        let high_confidence_change :=
          filter (fun n => Py.Qltb 0.8 (change_probability n)) change_nodes in
        match high_confidence_change with
        | [] => confidence
        | _ => Qmin (confidence * 1.1) 1.0
        end
      end in
    Qmin (Qmax confidence 0.0) 1.0
  end.

Definition _get_confidence_level (score : Q) : ConfidenceLevel :=
  if Py.Qleb 0.7 score then HIGH
  else if Py.Qleb 0.4 score then MEDIUM
  else if Py.Qleb 0.2 score then LOW
  else NEGLIGIBLE.

(** ** Looking up the spending transaction *)

Fixpoint scan_history (env : Env) (txid : string) (vout : nat)
    (history : list (string * Z)) : option string :=
  match history with
  | [] => None
  | (hist_txid, _) :: rest =>
      if String.eqb hist_txid txid then scan_history env txid vout rest
      else
        match get_raw_transaction env hist_txid with
        | Some full_tx =>
            if existsb (spends txid vout) (tx_vin full_tx) then Some hist_txid
            else scan_history env txid vout rest
        | None => scan_history env txid vout rest
        end
  end.

(** Returns the spending transaction, if found, and by how much
    [self._electrs_failures] grows (a history call that raised or timed
    out counts one). *)
Definition _find_spending_tx (env : Env) (txid : string) (vout : nat)
    (address : string) : option string * nat :=
  match electrs env with
  | None => (None, 0%nat)
  | Some e =>
      match get_history e address with
      | None => (None, 1%nat)
      | Some history => (scan_history env txid vout history, 0%nat)
      end
  end.

(** ** The breadth-first search *)

(** One entry of the queue:
    [(txid, vout, depth, coinjoin_count, path, current_value,
      cumulative_confidence)]. *)
Record QueueItem := {
  q_txid : string;
  q_vout : nat;
  q_depth : nat;
  q_cj_count : nat;
  q_path : list PathNode;
  q_tracked_value : Z;
  q_confidence : Q
}.

(** The local variables of [trace_kyc_withdrawal] while its loop runs,
    with the fields of [result] and of [self] that the loop writes.
    [timed_out] records that the loop was left by [break]. *)
Record State := {
  queue : list QueueItem;
  visited : list (string * nat);
  destinations : list ProbableDestination;
  tx_count : nat;
  coinjoin_txids : list string;
  consecutive_electrs_failures : nat;
  electrs_disabled : bool;
  result_warnings : list string;
  result_total_traced_sats : Z;
  result_total_untraceable_sats : Z;
  _electrs_failures : nat;
  timed_out : bool
}.

Definition set_queue (q : list QueueItem) (s : State) : State :=
  {| queue := q; visited := visited s; destinations := destinations s;
     tx_count := tx_count s; coinjoin_txids := coinjoin_txids s;
     consecutive_electrs_failures := consecutive_electrs_failures s;
     electrs_disabled := electrs_disabled s;
     result_warnings := result_warnings s;
     result_total_traced_sats := result_total_traced_sats s;
     result_total_untraceable_sats := result_total_untraceable_sats s;
     _electrs_failures := _electrs_failures s; timed_out := timed_out s |}.

Definition add_visited (k : string * nat) (s : State) : State :=
  {| queue := queue s; visited := k :: visited s; destinations := destinations s;
     tx_count := tx_count s; coinjoin_txids := coinjoin_txids s;
     consecutive_electrs_failures := consecutive_electrs_failures s;
     electrs_disabled := electrs_disabled s;
     result_warnings := result_warnings s;
     result_total_traced_sats := result_total_traced_sats s;
     result_total_untraceable_sats := result_total_untraceable_sats s;
     _electrs_failures := _electrs_failures s; timed_out := timed_out s |}.

Definition add_destination (d : ProbableDestination) (s : State) : State :=
  {| queue := queue s; visited := visited s;
     destinations := destinations s ++ [d];
     tx_count := tx_count s; coinjoin_txids := coinjoin_txids s;
     consecutive_electrs_failures := consecutive_electrs_failures s;
     electrs_disabled := electrs_disabled s;
     result_warnings := result_warnings s;
     result_total_traced_sats := result_total_traced_sats s;
     result_total_untraceable_sats := result_total_untraceable_sats s;
     _electrs_failures := _electrs_failures s; timed_out := timed_out s |}.

Definition incr_tx_count (s : State) : State :=
  {| queue := queue s; visited := visited s; destinations := destinations s;
     tx_count := S (tx_count s); coinjoin_txids := coinjoin_txids s;
     consecutive_electrs_failures := consecutive_electrs_failures s;
     electrs_disabled := electrs_disabled s;
     result_warnings := result_warnings s;
     result_total_traced_sats := result_total_traced_sats s;
     result_total_untraceable_sats := result_total_untraceable_sats s;
     _electrs_failures := _electrs_failures s; timed_out := timed_out s |}.

Definition add_coinjoin_txid (t : string) (s : State) : State :=
  {| queue := queue s; visited := visited s; destinations := destinations s;
     tx_count := tx_count s;
     coinjoin_txids := if str_in t (coinjoin_txids s) then coinjoin_txids s
                       else t :: coinjoin_txids s;
     consecutive_electrs_failures := consecutive_electrs_failures s;
     electrs_disabled := electrs_disabled s;
     result_warnings := result_warnings s;
     result_total_traced_sats := result_total_traced_sats s;
     result_total_untraceable_sats := result_total_untraceable_sats s;
     _electrs_failures := _electrs_failures s; timed_out := timed_out s |}.

Definition set_electrs (consecutive : nat) (disabled : bool) (failures : nat)
    (s : State) : State :=
  {| queue := queue s; visited := visited s; destinations := destinations s;
     tx_count := tx_count s; coinjoin_txids := coinjoin_txids s;
     consecutive_electrs_failures := consecutive;
     electrs_disabled := disabled;
     result_warnings := result_warnings s;
     result_total_traced_sats := result_total_traced_sats s;
     result_total_untraceable_sats := result_total_untraceable_sats s;
     _electrs_failures := failures; timed_out := timed_out s |}.

Definition add_warning (w : string) (s : State) : State :=
  {| queue := queue s; visited := visited s; destinations := destinations s;
     tx_count := tx_count s; coinjoin_txids := coinjoin_txids s;
     consecutive_electrs_failures := consecutive_electrs_failures s;
     electrs_disabled := electrs_disabled s;
     result_warnings := result_warnings s ++ [w];
     result_total_traced_sats := result_total_traced_sats s;
     result_total_untraceable_sats := result_total_untraceable_sats s;
     _electrs_failures := _electrs_failures s; timed_out := timed_out s |}.

Definition add_traced (v : Z) (s : State) : State :=
  {| queue := queue s; visited := visited s; destinations := destinations s;
     tx_count := tx_count s; coinjoin_txids := coinjoin_txids s;
     consecutive_electrs_failures := consecutive_electrs_failures s;
     electrs_disabled := electrs_disabled s;
     result_warnings := result_warnings s;
     result_total_traced_sats := (result_total_traced_sats s + v)%Z;
     result_total_untraceable_sats := result_total_untraceable_sats s;
     _electrs_failures := _electrs_failures s; timed_out := timed_out s |}.

Definition add_untraceable (v : Z) (s : State) : State :=
  {| queue := queue s; visited := visited s; destinations := destinations s;
     tx_count := tx_count s; coinjoin_txids := coinjoin_txids s;
     consecutive_electrs_failures := consecutive_electrs_failures s;
     electrs_disabled := electrs_disabled s;
     result_warnings := result_warnings s;
     result_total_traced_sats := result_total_traced_sats s;
     result_total_untraceable_sats := (result_total_untraceable_sats s + v)%Z;
     _electrs_failures := _electrs_failures s; timed_out := timed_out s |}.

Definition set_timed_out (s : State) : State :=
  {| queue := queue s; visited := visited s; destinations := destinations s;
     tx_count := tx_count s; coinjoin_txids := coinjoin_txids s;
     consecutive_electrs_failures := consecutive_electrs_failures s;
     electrs_disabled := electrs_disabled s;
     result_warnings := result_warnings s;
     result_total_traced_sats := result_total_traced_sats s;
     result_total_untraceable_sats := result_total_untraceable_sats s;
     _electrs_failures := _electrs_failures s; timed_out := true |}.

(** [address or "unknown"]. *)
Definition address_or_unknown (a : option string) : string :=
  if Py.truthy a then opt_str_default a "unknown"%string else "unknown"%string.

(** [path[-1].cumulative_confidence if path else 1.0] *)
Definition prev_confidence_of (path : list PathNode) : Q :=
  match last (map Some path) None with
  | Some n => cumulative_confidence n
  | None => 1.0
  end.

Definition input_addresses_of (tx : Tx) : list string :=
  flat_map (fun vin =>
    match vin_prevout vin with
    | Some p =>
        let addr := address (prevout_scriptPubKey p) in
        if Py.truthy addr then [opt_str_default addr ""%string] else []
    | None => []
    end) (tx_vin tx).

(** The entries appended to the queue for the outputs of the spending
    transaction. *)
Definition successors (spending_txid : string) (spending_tx : Tx)
    (visited : list (string * nat)) (depth current_cj_count : nat)
    (current_path : list PathNode) (current_confidence : Q) : list QueueItem :=
  flat_map (fun io : nat * TxOut =>
    let out_idx := fst io in
    let out_value := sats_of_btc (value (snd io)) in
    if in_visited (spending_txid, out_idx) visited then []
    else [{| q_txid := spending_txid; q_vout := out_idx; q_depth := S depth;
             q_cj_count := current_cj_count; q_path := current_path;
             q_tracked_value := out_value; q_confidence := current_confidence |}])
    (Py.enumerate (tx_vout spending_tx)).

(** The path node built for a dequeued output of [tx]. *)
Definition make_node (tx : Tx) (item : QueueItem) (output : TxOut) : PathNode :=
  let cj_score := _calculate_coinjoin_score tx in
  let is_cj := Py.Qleb COINJOIN_THRESHOLD cj_score in
  let current_cj_count := if is_cj then S (q_cj_count item) else q_cj_count item in
  let details := if is_cj then _get_coinjoin_details tx cj_score
                 else ("none"%string, 0%nat) in
  let change := _detect_change_output tx (input_addresses_of tx) (q_vout item)
                                      (q_tracked_value item) in
  let prev_confidence := prev_confidence_of (q_path item) in
  let current_confidence :=
    if is_cj then
      _calculate_coinjoin_confidence_degradation (fst details) (snd details)
                                                 prev_confidence
    else prev_confidence * 0.95 in
  {| txid := q_txid item;
     vout := q_vout item;
     value_sats := sats_of_btc (value output);
     node_address := address (scriptPubKey output);
     block_height := block_height_of tx;
     block_time := block_time_of tx;
     is_coinjoin := is_cj;
     coinjoin_score := cj_score;
     coinjoin_count_in_path := current_cj_count;
     coinjoin_protocol := fst details;
     anonymity_set_size := snd details;
     depth := q_depth item;
     is_change := fst change;
     change_probability := snd change;
     cumulative_confidence := current_confidence |}.

Section Loop.
Variable env : Env.
Variable max_depth : nat.
Variable start_value : Z.

(** What happens to an output that passed the depth limit and whose
    transaction was fetched and counted. *)
Definition process_output (tx : Tx) (item : QueueItem) (output : TxOut)
    (s : State) : State :=
  let node := make_node tx item output in
  let addr := node_address node in
  let v := value_sats node in
  let current_cj_count := coinjoin_count_in_path node in
  let current_confidence := cumulative_confidence node in
  let s := if is_coinjoin node then add_coinjoin_txid (q_txid item) s else s in
  let current_path := q_path item ++ [node] in
  let conf_score := _calculate_path_confidence current_path start_value in
  let dest score level status :=
    {| dest_address := address_or_unknown addr;
       dest_value_sats := v;
       confidence_score := score;
       confidence_level := level;
       path_length := List.length current_path;
       coinjoins_passed := current_cj_count;
       trail_status := status;
       path := current_path |} in
  if Py.Qltb current_confidence CONFIDENCE_COLD_THRESHOLD then
    add_untraceable v
      (add_destination (dest conf_score (_get_confidence_level conf_score) COLD) s)
  else if get_tx_out env (q_txid item) (q_vout item) then
    add_traced v
      (add_destination (dest conf_score (_get_confidence_level conf_score) DEAD_END) s)
  else
    match electrs env with
    | Some _ =>
      if Py.truthy addr && negb (electrs_disabled s) then
        let found := _find_spending_tx env (q_txid item) (q_vout item)
                                       (opt_str_default addr ""%string) in
        let s := set_electrs (consecutive_electrs_failures s) (electrs_disabled s)
                             (_electrs_failures s + snd found) s in
        match fst found with
        | Some spending_txid =>
          let s := set_electrs 0 (electrs_disabled s) (_electrs_failures s) s in
          match get_raw_transaction env spending_txid with
          | Some spending_tx =>
              set_queue (queue s ++ successors spending_txid spending_tx (visited s)
                                               (q_depth item) current_cj_count
                                               current_path current_confidence) s
          | None => s
          end
        | None =>
          let consecutive := S (consecutive_electrs_failures s) in
          let s := set_electrs consecutive (electrs_disabled s) (_electrs_failures s) s in
          let s :=
            if (MAX_CONSECUTIVE_ELECTRS_FAILURES <=? consecutive)%nat then
              add_warning ("Electrs disabled after " ++ Py.str_of_nat consecutive
                           ++ " consecutive failures")%string
                (set_electrs consecutive true (_electrs_failures s) s)
            else s in
          add_destination (dest (conf_score * 0.3) LOW LOST) s
        end
      else
        add_destination
          (dest (conf_score * 0.5) (_get_confidence_level (conf_score * 0.5)) LOST) s
    | None =>
        add_destination
          (dest (conf_score * 0.5) (_get_confidence_level (conf_score * 0.5)) LOST) s
    end.

(** The destination recorded for an entry beyond the depth limit. *)
Definition depth_limit_destination (item : QueueItem) : option ProbableDestination :=
  match last (map Some (q_path item)) None with
  | None => None
  | Some final =>
    let conf_score := _calculate_path_confidence (q_path item) start_value in
    Some {| dest_address := address_or_unknown (node_address final);
            dest_value_sats := q_tracked_value item;
            confidence_score := conf_score * 0.5;
            confidence_level := _get_confidence_level (conf_score * 0.5);
            path_length := List.length (q_path item);
            coinjoins_passed := q_cj_count item;
            trail_status := DEPTH_LIMIT;
            path := q_path item |}
  end.

(** What one dequeued entry does to the state (the queue no longer
    holds it). *)
Definition process_item (item : QueueItem) (s : State) : State :=
  if in_visited (q_txid item, q_vout item) (visited s) then s else
  let s := add_visited (q_txid item, q_vout item) s in
  if (max_depth <? q_depth item)%nat then
    match depth_limit_destination item with
    | Some d => add_destination d s
    | None => s
    end
  else
    match get_raw_transaction env (q_txid item) with
    | None => s
    | Some tx =>
      let s := incr_tx_count s in
      match nth_error (tx_vout tx) (q_vout item) with
      | None => s
      | Some output => process_output tx item output s
      end
    end.

Definition loop_cond (s : State) : bool :=
  negb (timed_out s)
  && match queue s with [] => false | _ => true end
  && (tx_count s <? MAX_TRANSACTIONS)%nat.

(** One iteration of the [while] loop; [i] numbers the iterations. *)
Definition loop_body (i : nat) (s : State) : State :=
  if Py.Qltb MAX_TRACE_TIME_SECONDS (elapsed env i) then
    set_timed_out
      (add_warning "Trace timeout (60s) reached - returning partial results"%string s)
  else
    let s :=
      if (MAX_QUEUE_SIZE <? List.length (queue s))%nat then
        set_queue (firstn MAX_QUEUE_SIZE (queue s))
          (add_warning "Queue size exceeded, some paths truncated"%string s)
      else s in
    match queue s with
    | [] => s
    | item :: rest => process_item item (set_queue rest s)
    end.

(** Enough iterations for the loop to end by itself: an iteration either
    counts a transaction, of which there are at most [MAX_TRANSACTIONS],
    or shortens a queue held to [MAX_QUEUE_SIZE] entries. *)
Definition loop_fuel : nat := MAX_TRANSACTIONS * S MAX_QUEUE_SIZE + 1.

Definition run (s : State) : State :=
  while_loop loop_cond loop_body loop_fuel 0 s.

End Loop.

(** ** The overall privacy score *)

Definition sum_value_sats (ds : list ProbableDestination) : Z :=
  Py.sumZ (map dest_value_sats ds).

Definition with_status (st : TrailStatus) (ds : list ProbableDestination)
    : list ProbableDestination :=
  filter (fun d => TrailStatus_eqb (trail_status d) st) ds.

(** Factor 1: the share of the original value whose trail went cold. *)
Definition cold_trail_points (original_value_sats : Z)
    (ds : list ProbableDestination) : Q :=
  let total := original_value_sats in
  if (0 <? total)%Z then
    let cold_value := sum_value_sats (with_status COLD ds) in
    let cold_ratio := inject_Z cold_value / inject_Z total in
    cold_ratio * 50
  else 0.

(** Factor 2: no destination of high confidence. *)
Definition high_confidence_points (ds : list ProbableDestination) : Q :=
  let high_conf := filter (fun d => ConfidenceLevel_eqb (confidence_level d) HIGH) ds in
  match high_conf with
  | [] => 30
  | [_] => 10
  | _ => 0
  end.

(** Factor 3: CoinJoin quality. *)
Definition coinjoin_quality_points (coinjoins_encountered : nat)
    (ds : list ProbableDestination) : Q :=
  if (2 <=? coinjoins_encountered)%nat then
    if existsb (fun d => TrailStatus_eqb (trail_status d) COLD) ds then 20 else 10
  else if (coinjoins_encountered =? 1)%nat then 5
  else 0.

(** The penalty for trails that were lost. *)
Definition lost_trail_penalty (original_value_sats : Z)
    (ds : list ProbableDestination) : Q :=
  let total := original_value_sats in
  match with_status LOST ds with
  | [] => 0
  | lost_trails =>
    let lost_value := sum_value_sats lost_trails in
    let lost_ratio := if (0 <? total)%Z then inject_Z lost_value / inject_Z total else 0 in
    lost_ratio * 10
  end.

(** [_calculate_overall_privacy] reads three fields of the result. *)
Definition _calculate_overall_privacy (original_value_sats : Z)
    (coinjoins_encountered : nat) (probable_destinations : list ProbableDestination) : Q :=
  match probable_destinations with
  | [] => 100.0
  | _ =>
    let score := 0.0 in
    let score := score + cold_trail_points original_value_sats probable_destinations in
    let score := score + high_confidence_points probable_destinations in
    let score := score + coinjoin_quality_points coinjoins_encountered probable_destinations in
    let score := score - lost_trail_penalty original_value_sats probable_destinations in
    Qmax 0.0 (Qmin score 100.0)
  end.

Definition _get_privacy_rating (score : Q) : string :=
  if Py.Qleb 70 score then "good"%string
  else if Py.Qleb 50 score then "moderate"%string
  else if Py.Qleb 30 score then "poor"%string
  else "very_poor"%string.

(** ** The entry point *)

(** The first output paying [destination_address], with its amount. *)
Fixpoint find_start_vout (outs : list (nat * TxOut)) (destination_address : string)
    : option (nat * Z) :=
  match outs with
  | [] => None
  | (idx, out) :: rest =>
      match address (scriptPubKey out) with
      | Some addr =>
          if String.eqb addr destination_address
          then Some (idx, sats_of_btc (value out))
          else find_start_vout rest destination_address
      | None => find_start_vout rest destination_address
      end
  end.

Definition initial_state (exchange_txid : string) (start_vout : nat)
    (start_value : Z) (warnings : list string) : State :=
  {| queue := [{| q_txid := exchange_txid; q_vout := start_vout; q_depth := 0;
                  q_cj_count := 0; q_path := []; q_tracked_value := start_value;
                  q_confidence := 1.0 |}];
     visited := [];
     destinations := [];
     tx_count := 0;
     coinjoin_txids := [];
     consecutive_electrs_failures := 0;
     electrs_disabled := false;
     result_warnings := warnings;
     result_total_traced_sats := 0;
     result_total_untraceable_sats := 0;
     _electrs_failures := 0;
     timed_out := false |}.

(** [preset = DEPTH_PRESETS.get(depth_preset, DEPTH_PRESETS["standard"])];
    [max_depth = min(preset["depth"], MAX_DEPTH)]. *)
Definition max_depth_of_preset (depth_preset : string) : nat :=
  let standard := Py.dict_get DEPTH_PRESETS "standard"%string 0%nat in
  Nat.min (Py.dict_get DEPTH_PRESETS depth_preset standard) MAX_DEPTH.

Definition empty_result (exchange_txid destination_address : string)
    (max_depth : nat) (warnings : list string) (electrs_enabled : bool)
    : KYCTraceResult :=
  {| exchange_txid := exchange_txid;
     destination_address := destination_address;
     original_value_sats := 0;
     trace_depth := max_depth;
     probable_destinations := [];
     total_traced_sats := 0;
     total_untraceable_sats := 0;
     coinjoins_encountered := 0;
     overall_privacy_score := 0.0;
     privacy_rating := "unknown"%string;
     warnings := warnings;
     electrs_enabled := electrs_enabled |}.

(** What follows the loop: the destinations are sorted by decreasing
    confidence and the scores are computed. *)
Definition assemble (exchange_txid destination_address : string) (max_depth : nat)
    (start_value : Z) (electrs_enabled : bool) (s : State) : KYCTraceResult :=
  let destinations := Py.sorted_desc confidence_score Py.Qltb (destinations s) in
  let coinjoins := List.length (coinjoin_txids s) in
  let warnings :=
    if (0 <? _electrs_failures s)%nat then
      result_warnings s ++
        [("Electrs connection issues: " ++ Py.str_of_nat (_electrs_failures s)
          ++ " lookup(s) failed - results may be incomplete")%string]
    else result_warnings s in
  let score := _calculate_overall_privacy start_value coinjoins destinations in
  {| exchange_txid := exchange_txid;
     destination_address := destination_address;
     original_value_sats := start_value;
     trace_depth := max_depth;
     probable_destinations := destinations;
     total_traced_sats := result_total_traced_sats s;
     total_untraceable_sats := result_total_untraceable_sats s;
     coinjoins_encountered := coinjoins;
     overall_privacy_score := score;
     privacy_rating := _get_privacy_rating score;
     warnings := warnings;
     electrs_enabled := electrs_enabled |}.

Definition trace_kyc_withdrawal (env : Env)
    (exchange_txid destination_address depth_preset : string) : KYCTraceResult :=
  let max_depth := max_depth_of_preset depth_preset in
  let electrs_enabled := match electrs env with Some _ => true | None => false end in
  let warnings :=
    if electrs_enabled then []
    else ["Electrs not available - forward tracing will be limited"%string] in
  match get_raw_transaction env exchange_txid with
  | None =>
      empty_result exchange_txid destination_address max_depth
        (warnings ++ [("Transaction not found: " ++ exchange_txid)%string])
        electrs_enabled
  | Some tx =>
    match find_start_vout (Py.enumerate (tx_vout tx)) destination_address with
    | None =>
        empty_result exchange_txid destination_address max_depth
          (warnings ++ [("Destination address " ++ destination_address
                         ++ " not found in transaction outputs")%string])
          electrs_enabled
    | Some (start_vout, start_value) =>
        assemble exchange_txid destination_address max_depth start_value
          electrs_enabled
          (run env max_depth start_value
               (initial_state exchange_txid start_vout start_value warnings))
    end
  end.

End KYCTrace.

(* ================================================================= *)
(** * tracer.py: forward and backward tracing, peeling chains *)

(** The two settings of config.py the tracer reads; they come from the
    environment, with the defaults below. *)
Record Settings := {
  MAX_TRACE_DEPTH : Z;
  DEFAULT_TRACE_DEPTH : Z
}.

Definition default_settings : Settings :=
  {| MAX_TRACE_DEPTH := 50; DEFAULT_TRACE_DEPTH := 10 |}.

Module Tracer.

Local Open Scope Q_scope.

Inductive UTXOStatus := UNSPENT | SPENT | COINBASE | UNKNOWN.

Definition UTXOStatus_eqb (a b : UTXOStatus) : bool :=
  match a, b with
  | UNSPENT, UNSPENT | SPENT, SPENT | COINBASE, COINBASE | UNKNOWN, UNKNOWN => true
  | _, _ => false
  end.

Record UTXONode := {
  txid : string;
  vout : nat;
  value_sats : Z;
  node_address : option string;
  script_type : string;
  status : UTXOStatus;
  block_height : option Z;
  block_time : option Z;
  spent_by_txid : option string;
  spent_by_vin : option nat;
  depth : nat;
  coinjoin_score : Q
}.

Record TraceEdge := {
  from_txid : string;
  from_vout : nat;
  to_txid : string;
  to_vin : Z;
  edge_value_sats : Z
}.

(** [execution_time_ms] is left out. *)
Record TraceResult := {
  start_txid : string;
  start_vout : nat;
  direction : string;
  max_depth : Z;
  nodes : list UTXONode;
  edges : list TraceEdge;
  unspent_endpoints : list UTXONode;
  coinbase_origins : list UTXONode;
  coinjoin_txids : list string;
  total_transactions : nat;
  total_value_traced_sats : Z;
  warnings : list string;
  hit_limit : bool;
  electrs_enabled : bool
}.

Definition MAX_TRANSACTIONS_PER_TRACE : nat := 200.
Definition MAX_QUEUE_SIZE : nat := 1000.
Definition MAX_CONSECUTIVE_ELECTRS_FAILURES : nat := 3.
Definition MAX_TRACE_TIME_SECONDS : Q := 60.

Definition opt_str_default (o : option string) (d : string) : string :=
  match o with Some s => s | None => d end.

Definition _calculate_coinjoin_score_fast (tx : Tx) : Q :=
  let vouts := tx_vout tx in
  let vins := tx_vin tx in
  if (List.length vouts <? 2)%nat then 0.0 else
  let value_counts := Py.Counter (map (fun out => Py.round (value out) 8) vouts) in
  match Py.argmax_count value_counts with
  | None => 0.0
  | Some (equal_value, _) =>
    let max_equal := Py.max_count value_counts in
    let num_outputs := List.length vouts in
    let num_inputs := List.length vins in
    if ((num_outputs =? 5) && (max_equal =? 5))%nat then
      let whirlpool_denoms := [0.001; 0.01; 0.05; 0.5] in
      if existsb (fun d => Py.Qltb (Qabs (equal_value - d)) 0.0001) whirlpool_denoms
      then 0.95 else 0.85
    else if (10 <=? max_equal)%nat then 0.85
    else if ((5 <=? max_equal) && (3 <=? num_inputs))%nat then 0.70
    else if ((3 <=? max_equal) && (2 <=? num_inputs))%nat then 0.40
    else
      let unique_ratio :=
        inject_Z (Z.of_nat (List.length value_counts)) / inject_Z (Z.of_nat num_outputs) in
      if Py.Qltb unique_ratio 0.3 && (5 <=? num_outputs)%nat then 0.50 else 0.0
  end.

(** ** Setters for the result under construction *)

Definition with_start_txid v (s : TraceResult) : TraceResult :=
  {| start_txid := v; start_vout := start_vout s; direction := direction s;
     max_depth := max_depth s; nodes := nodes s; edges := edges s;
     unspent_endpoints := unspent_endpoints s;
     coinbase_origins := coinbase_origins s;
     coinjoin_txids := coinjoin_txids s;
     total_transactions := total_transactions s;
     total_value_traced_sats := total_value_traced_sats s;
     warnings := warnings s; hit_limit := hit_limit s;
     electrs_enabled := electrs_enabled s |}.

Definition with_start_vout v (s : TraceResult) : TraceResult :=
  {| start_txid := start_txid s; start_vout := v; direction := direction s;
     max_depth := max_depth s; nodes := nodes s; edges := edges s;
     unspent_endpoints := unspent_endpoints s;
     coinbase_origins := coinbase_origins s;
     coinjoin_txids := coinjoin_txids s;
     total_transactions := total_transactions s;
     total_value_traced_sats := total_value_traced_sats s;
     warnings := warnings s; hit_limit := hit_limit s;
     electrs_enabled := electrs_enabled s |}.

Definition with_direction v (s : TraceResult) : TraceResult :=
  {| start_txid := start_txid s; start_vout := start_vout s; direction := v;
     max_depth := max_depth s; nodes := nodes s; edges := edges s;
     unspent_endpoints := unspent_endpoints s;
     coinbase_origins := coinbase_origins s;
     coinjoin_txids := coinjoin_txids s;
     total_transactions := total_transactions s;
     total_value_traced_sats := total_value_traced_sats s;
     warnings := warnings s; hit_limit := hit_limit s;
     electrs_enabled := electrs_enabled s |}.

Definition with_max_depth v (s : TraceResult) : TraceResult :=
  {| start_txid := start_txid s; start_vout := start_vout s;
     direction := direction s; max_depth := v; nodes := nodes s;
     edges := edges s; unspent_endpoints := unspent_endpoints s;
     coinbase_origins := coinbase_origins s;
     coinjoin_txids := coinjoin_txids s;
     total_transactions := total_transactions s;
     total_value_traced_sats := total_value_traced_sats s;
     warnings := warnings s; hit_limit := hit_limit s;
     electrs_enabled := electrs_enabled s |}.

Definition with_nodes v (s : TraceResult) : TraceResult :=
  {| start_txid := start_txid s; start_vout := start_vout s;
     direction := direction s; max_depth := max_depth s; nodes := v;
     edges := edges s; unspent_endpoints := unspent_endpoints s;
     coinbase_origins := coinbase_origins s;
     coinjoin_txids := coinjoin_txids s;
     total_transactions := total_transactions s;
     total_value_traced_sats := total_value_traced_sats s;
     warnings := warnings s; hit_limit := hit_limit s;
     electrs_enabled := electrs_enabled s |}.

Definition with_edges v (s : TraceResult) : TraceResult :=
  {| start_txid := start_txid s; start_vout := start_vout s;
     direction := direction s; max_depth := max_depth s; nodes := nodes s;
     edges := v; unspent_endpoints := unspent_endpoints s;
     coinbase_origins := coinbase_origins s;
     coinjoin_txids := coinjoin_txids s;
     total_transactions := total_transactions s;
     total_value_traced_sats := total_value_traced_sats s;
     warnings := warnings s; hit_limit := hit_limit s;
     electrs_enabled := electrs_enabled s |}.

Definition with_unspent_endpoints v (s : TraceResult) : TraceResult :=
  {| start_txid := start_txid s; start_vout := start_vout s;
     direction := direction s; max_depth := max_depth s; nodes := nodes s;
     edges := edges s; unspent_endpoints := v;
     coinbase_origins := coinbase_origins s;
     coinjoin_txids := coinjoin_txids s;
     total_transactions := total_transactions s;
     total_value_traced_sats := total_value_traced_sats s;
     warnings := warnings s; hit_limit := hit_limit s;
     electrs_enabled := electrs_enabled s |}.

Definition with_coinbase_origins v (s : TraceResult) : TraceResult :=
  {| start_txid := start_txid s; start_vout := start_vout s;
     direction := direction s; max_depth := max_depth s; nodes := nodes s;
     edges := edges s; unspent_endpoints := unspent_endpoints s;
     coinbase_origins := v; coinjoin_txids := coinjoin_txids s;
     total_transactions := total_transactions s;
     total_value_traced_sats := total_value_traced_sats s;
     warnings := warnings s; hit_limit := hit_limit s;
     electrs_enabled := electrs_enabled s |}.

Definition with_coinjoin_txids v (s : TraceResult) : TraceResult :=
  {| start_txid := start_txid s; start_vout := start_vout s;
     direction := direction s; max_depth := max_depth s; nodes := nodes s;
     edges := edges s; unspent_endpoints := unspent_endpoints s;
     coinbase_origins := coinbase_origins s; coinjoin_txids := v;
     total_transactions := total_transactions s;
     total_value_traced_sats := total_value_traced_sats s;
     warnings := warnings s; hit_limit := hit_limit s;
     electrs_enabled := electrs_enabled s |}.

Definition with_total_transactions v (s : TraceResult) : TraceResult :=
  {| start_txid := start_txid s; start_vout := start_vout s;
     direction := direction s; max_depth := max_depth s; nodes := nodes s;
     edges := edges s; unspent_endpoints := unspent_endpoints s;
     coinbase_origins := coinbase_origins s;
     coinjoin_txids := coinjoin_txids s; total_transactions := v;
     total_value_traced_sats := total_value_traced_sats s;
     warnings := warnings s; hit_limit := hit_limit s;
     electrs_enabled := electrs_enabled s |}.

Definition with_total_value_traced_sats v (s : TraceResult) : TraceResult :=
  {| start_txid := start_txid s; start_vout := start_vout s;
     direction := direction s; max_depth := max_depth s; nodes := nodes s;
     edges := edges s; unspent_endpoints := unspent_endpoints s;
     coinbase_origins := coinbase_origins s;
     coinjoin_txids := coinjoin_txids s;
     total_transactions := total_transactions s;
     total_value_traced_sats := v; warnings := warnings s;
     hit_limit := hit_limit s; electrs_enabled := electrs_enabled s |}.

Definition with_warnings v (s : TraceResult) : TraceResult :=
  {| start_txid := start_txid s; start_vout := start_vout s;
     direction := direction s; max_depth := max_depth s; nodes := nodes s;
     edges := edges s; unspent_endpoints := unspent_endpoints s;
     coinbase_origins := coinbase_origins s;
     coinjoin_txids := coinjoin_txids s;
     total_transactions := total_transactions s;
     total_value_traced_sats := total_value_traced_sats s; warnings := v;
     hit_limit := hit_limit s; electrs_enabled := electrs_enabled s |}.

Definition with_hit_limit v (s : TraceResult) : TraceResult :=
  {| start_txid := start_txid s; start_vout := start_vout s;
     direction := direction s; max_depth := max_depth s; nodes := nodes s;
     edges := edges s; unspent_endpoints := unspent_endpoints s;
     coinbase_origins := coinbase_origins s;
     coinjoin_txids := coinjoin_txids s;
     total_transactions := total_transactions s;
     total_value_traced_sats := total_value_traced_sats s;
     warnings := warnings s; hit_limit := v;
     electrs_enabled := electrs_enabled s |}.

Definition with_electrs_enabled v (s : TraceResult) : TraceResult :=
  {| start_txid := start_txid s; start_vout := start_vout s;
     direction := direction s; max_depth := max_depth s; nodes := nodes s;
     edges := edges s; unspent_endpoints := unspent_endpoints s;
     coinbase_origins := coinbase_origins s;
     coinjoin_txids := coinjoin_txids s;
     total_transactions := total_transactions s;
     total_value_traced_sats := total_value_traced_sats s;
     warnings := warnings s; hit_limit := hit_limit s;
     electrs_enabled := v |}.

Definition add_warning (w : string) (r : TraceResult) : TraceResult :=
  with_warnings (warnings r ++ [w]) r.

Definition empty_result (txid : string) (vout : nat) (direction : string)
    (max_depth : Z) (electrs_enabled : bool) : TraceResult :=
  {| start_txid := txid; start_vout := vout; direction := direction;
     max_depth := max_depth; nodes := []; edges := []; unspent_endpoints := [];
     coinbase_origins := []; coinjoin_txids := []; total_transactions := 0;
     total_value_traced_sats := 0; warnings := []; hit_limit := false;
     electrs_enabled := electrs_enabled |}.

(** [max_depth = min(max_depth or the default, settings.MAX_TRACE_DEPTH)],
    where only [None] takes the default. *)
Definition effective_max_depth (settings : Settings) (max_depth : option Z) : Z :=
  Z.min (match max_depth with
         | Some d => d
         | None => DEFAULT_TRACE_DEPTH settings
         end)
        (MAX_TRACE_DEPTH settings).

(** ** Forward tracing *)

(** The local variables of [trace_forward].  [lookups] is not a variable
    of the source: it lists, latest first, the calls made to the address
    index with what they returned.  [timed_out] records the [break]. *)
Record State := {
  queue : list (string * nat * nat);
  visited : list (string * nat);
  tx_count : nat;
  consecutive_electrs_failures : nat;
  electrs_disabled : bool;
  electrs_lookup_count : nat;
  electrs_success_count : nat;
  result : TraceResult;
  timed_out : bool;
  lookups : list (string * nat * option string)
}.

Definition set_queue v (s : State) : State :=
  {| queue := v; visited := visited s; tx_count := tx_count s;
     consecutive_electrs_failures := consecutive_electrs_failures s;
     electrs_disabled := electrs_disabled s;
     electrs_lookup_count := electrs_lookup_count s;
     electrs_success_count := electrs_success_count s; result := result s;
     timed_out := timed_out s; lookups := lookups s |}.

Definition set_visited v (s : State) : State :=
  {| queue := queue s; visited := v; tx_count := tx_count s;
     consecutive_electrs_failures := consecutive_electrs_failures s;
     electrs_disabled := electrs_disabled s;
     electrs_lookup_count := electrs_lookup_count s;
     electrs_success_count := electrs_success_count s; result := result s;
     timed_out := timed_out s; lookups := lookups s |}.

Definition set_tx_count v (s : State) : State :=
  {| queue := queue s; visited := visited s; tx_count := v;
     consecutive_electrs_failures := consecutive_electrs_failures s;
     electrs_disabled := electrs_disabled s;
     electrs_lookup_count := electrs_lookup_count s;
     electrs_success_count := electrs_success_count s; result := result s;
     timed_out := timed_out s; lookups := lookups s |}.

Definition set_consecutive_electrs_failures v (s : State) : State :=
  {| queue := queue s; visited := visited s; tx_count := tx_count s;
     consecutive_electrs_failures := v;
     electrs_disabled := electrs_disabled s;
     electrs_lookup_count := electrs_lookup_count s;
     electrs_success_count := electrs_success_count s; result := result s;
     timed_out := timed_out s; lookups := lookups s |}.

Definition set_electrs_disabled v (s : State) : State :=
  {| queue := queue s; visited := visited s; tx_count := tx_count s;
     consecutive_electrs_failures := consecutive_electrs_failures s;
     electrs_disabled := v; electrs_lookup_count := electrs_lookup_count s;
     electrs_success_count := electrs_success_count s; result := result s;
     timed_out := timed_out s; lookups := lookups s |}.

Definition set_electrs_lookup_count v (s : State) : State :=
  {| queue := queue s; visited := visited s; tx_count := tx_count s;
     consecutive_electrs_failures := consecutive_electrs_failures s;
     electrs_disabled := electrs_disabled s; electrs_lookup_count := v;
     electrs_success_count := electrs_success_count s; result := result s;
     timed_out := timed_out s; lookups := lookups s |}.

Definition set_electrs_success_count v (s : State) : State :=
  {| queue := queue s; visited := visited s; tx_count := tx_count s;
     consecutive_electrs_failures := consecutive_electrs_failures s;
     electrs_disabled := electrs_disabled s;
     electrs_lookup_count := electrs_lookup_count s;
     electrs_success_count := v; result := result s;
     timed_out := timed_out s; lookups := lookups s |}.

Definition set_result v (s : State) : State :=
  {| queue := queue s; visited := visited s; tx_count := tx_count s;
     consecutive_electrs_failures := consecutive_electrs_failures s;
     electrs_disabled := electrs_disabled s;
     electrs_lookup_count := electrs_lookup_count s;
     electrs_success_count := electrs_success_count s; result := v;
     timed_out := timed_out s; lookups := lookups s |}.

Definition set_timed_out v (s : State) : State :=
  {| queue := queue s; visited := visited s; tx_count := tx_count s;
     consecutive_electrs_failures := consecutive_electrs_failures s;
     electrs_disabled := electrs_disabled s;
     electrs_lookup_count := electrs_lookup_count s;
     electrs_success_count := electrs_success_count s; result := result s;
     timed_out := v; lookups := lookups s |}.

Definition set_lookups v (s : State) : State :=
  {| queue := queue s; visited := visited s; tx_count := tx_count s;
     consecutive_electrs_failures := consecutive_electrs_failures s;
     electrs_disabled := electrs_disabled s;
     electrs_lookup_count := electrs_lookup_count s;
     electrs_success_count := electrs_success_count s; result := result s;
     timed_out := timed_out s; lookups := v |}.

Definition warn (w : string) (s : State) : State :=
  set_result (add_warning w (result s)) s.

(** The index of the first input of [spending_tx] that spends the output. *)
Fixpoint find_spending_vin (vins : list (nat * TxIn)) (txid : string) (vout : nat)
    : option nat :=
  match vins with
  | [] => None
  | (i, vin) :: rest =>
      if spends txid vout vin then Some i else find_spending_vin rest txid vout
  end.

Definition successors (spending_txid : string) (spending_tx : Tx)
    (visited : list (string * nat)) (depth : nat) : list (string * nat * nat) :=
  flat_map (fun io : nat * TxOut =>
    if in_visited (spending_txid, fst io) visited then []
    else [(spending_txid, fst io, S depth)])
    (Py.enumerate (tx_vout spending_tx)).

Section Forward.
Variable env : Env.
Variable max_depth : Z.

(** [_find_spending_tx_electrs]: the answer of the address index, [None]
    without one or when the call fails. *)
Definition _find_spending_tx_electrs (txid : string) (vout : nat) : option string :=
  match electrs env with
  | None => None
  | Some e => find_spending_tx e txid vout
  end.

(** The branch for a spent output: looks the spending transaction up
    when it may, and returns the state with [spending_txid] and
    [spending_vin]. *)
Definition resolve_spent (current_txid : string) (current_vout depth : nat)
    (address : option string) (value_sats : Z) (s : State)
    : State * option string * option nat :=
  match electrs env with
  | Some _ =>
    if Py.truthy address && (Z.of_nat depth <? max_depth)%Z
       && negb (electrs_disabled s) then
      let s := set_electrs_lookup_count (S (electrs_lookup_count s)) s in
      let spending_txid := _find_spending_tx_electrs current_txid current_vout in
      let s := set_lookups ((current_txid, current_vout, spending_txid) :: lookups s) s in
      if Py.truthy spending_txid then
        let sp := opt_str_default spending_txid ""%string in
        let s := set_electrs_success_count (S (electrs_success_count s)) s in
        let s := set_consecutive_electrs_failures 0%nat s in
        match get_raw_transaction env sp with
        | Some spending_tx =>
          let spending_vin :=
            find_spending_vin (Py.enumerate (tx_vin spending_tx))
                              current_txid current_vout in
          let edge :=
            {| from_txid := current_txid; from_vout := current_vout;
               to_txid := sp;
               to_vin := match spending_vin with
                         | Some i => Z.of_nat i
                         | None => 0%Z
                         end;
               edge_value_sats := value_sats |} in
          let s := set_result (with_edges (edges (result s) ++ [edge]) (result s)) s in
          let s := set_queue (queue s ++ successors sp spending_tx (visited s) depth) s in
          (s, spending_txid, spending_vin)
        | None => (s, spending_txid, None)
        end
      else
        let consecutive := S (consecutive_electrs_failures s) in
        let s := set_consecutive_electrs_failures consecutive s in
        let s :=
          if (MAX_CONSECUTIVE_ELECTRS_FAILURES <=? consecutive)%nat then
            warn ("Electrs disabled after " ++ Py.str_of_nat consecutive
                  ++ " consecutive failures - continuing without forward tracing")%string
                 (set_electrs_disabled true s)
          else s in
        (s, spending_txid, None)
    else (s, None, None)
  | None => (s, None, None)
  end.

Definition process_output (tx : Tx) (current_txid : string)
    (current_vout depth : nat) (output : TxOut) (s : State) : State :=
  let value_sats := sats_of_btc (value output) in
  let script_pub_key := scriptPubKey output in
  let address := address script_pub_key in
  let script_type := opt_str_default (type script_pub_key) "unknown"%string in
  let utxo_check := get_tx_out env current_txid current_vout in
  let cj_score := _calculate_coinjoin_score_fast tx in
  let s :=
    if Py.Qltb 0.7 cj_score && negb (str_in current_txid (coinjoin_txids (result s)))
    then set_result (with_coinjoin_txids (coinjoin_txids (result s) ++ [current_txid])
                                         (result s)) s
    else s in
  let node st by_txid by_vin :=
    {| txid := current_txid; vout := current_vout; value_sats := value_sats;
       node_address := address; script_type := script_type; status := st;
       block_height := block_height_of tx; block_time := block_time_of tx;
       spent_by_txid := by_txid; spent_by_vin := by_vin;
       depth := depth; coinjoin_score := cj_score |} in
  if utxo_check then
    let n := node UNSPENT None None in
    let r := result s in
    let r := with_nodes (nodes r ++ [n]) r in
    let r := with_unspent_endpoints (unspent_endpoints r ++ [n]) r in
    let r := with_total_value_traced_sats (total_value_traced_sats r + value_sats)%Z r in
    set_result r s
  else
    let '(s, spending_txid, spending_vin) :=
      resolve_spent current_txid current_vout depth address value_sats s in
    let n := node SPENT spending_txid spending_vin in
    let r := result s in
    let r := with_nodes (nodes r ++ [n]) r in
    let r := with_total_value_traced_sats (total_value_traced_sats r + value_sats)%Z r in
    set_result r s.

(** What one dequeued entry does to the state. *)
Definition process_item (item : string * nat * nat) (s : State) : State :=
  let '(current_txid, current_vout, depth) := item in
  if in_visited (current_txid, current_vout) (visited s) then s else
  let s := set_visited ((current_txid, current_vout) :: visited s) s in
  if (max_depth <? Z.of_nat depth)%Z then
    warn ("Depth limit reached at " ++ current_txid ++ ":"
          ++ Py.str_of_nat current_vout)%string s
  else
    match get_raw_transaction env current_txid with
    | None => warn ("Transaction not found: " ++ current_txid)%string s
    | Some tx =>
      let s := set_tx_count (S (tx_count s)) s in
      match nth_error (tx_vout tx) current_vout with
      | None =>
          warn ("Invalid vout " ++ Py.str_of_nat current_vout ++ " for tx "
                ++ current_txid)%string s
      | Some output => process_output tx current_txid current_vout depth output s
      end
    end.

Definition loop_cond (s : State) : bool :=
  negb (timed_out s)
  && match queue s with [] => false | _ => true end
  && (tx_count s <? MAX_TRANSACTIONS_PER_TRACE)%nat.

Definition loop_body (i : nat) (s : State) : State :=
  if Py.Qltb MAX_TRACE_TIME_SECONDS (elapsed env i) then
    set_timed_out true
      (set_result
         (with_hit_limit true
            (add_warning "Trace timeout (60s) reached - returning partial results"%string
                         (result s))) s)
  else
    let s :=
      if (MAX_QUEUE_SIZE <? List.length (queue s))%nat then
        set_queue (firstn MAX_QUEUE_SIZE (queue s))
          (set_result
             (with_hit_limit true
                (add_warning "Queue size exceeded 1000, truncating"%string (result s))) s)
      else s in
    match queue s with
    | [] => s
    | item :: rest => process_item item (set_queue rest s)
    end.

Definition loop_fuel : nat := MAX_TRANSACTIONS_PER_TRACE * S MAX_QUEUE_SIZE + 1.

Definition initial_state (txid : string) (vout : nat) : State :=
  let electrs_enabled := match electrs env with Some _ => true | None => false end in
  let r := empty_result txid vout "forward"%string max_depth electrs_enabled in
  {| queue := [(txid, vout, 0%nat)]; visited := []; tx_count := 0;
     consecutive_electrs_failures := 0; electrs_disabled := false;
     electrs_lookup_count := 0; electrs_success_count := 0;
     result :=
       if electrs_enabled then r
       else add_warning
              ("Electrs not available - forward tracing limited. "
               ++ "Can identify spent UTXOs but cannot follow to spending transaction.")%string
              r;
     timed_out := false; lookups := [] |}.

(** The state after [n] iterations of the loop, or the one it stopped
    in before. *)
Definition state_after (n : nat) (txid : string) (vout : nat) : State :=
  while_loop loop_cond loop_body n 0 (initial_state txid vout).

(** What follows the loop. *)
Definition finish (s : State) : TraceResult :=
  let r := result s in
  let r :=
    if (MAX_TRANSACTIONS_PER_TRACE <=? tx_count s)%nat then
      with_hit_limit true (add_warning "Transaction limit (200) reached"%string r)
    else r in
  with_total_transactions (tx_count s) r.

End Forward.

Definition trace_forward (settings : Settings) (env : Env) (txid : string)
    (vout : nat) (max_depth : option Z) : TraceResult :=
  let max_depth := effective_max_depth settings max_depth in
  finish (state_after env max_depth loop_fuel txid vout).

(** ** Backward tracing *)

(** The local variables of [trace_backward]; its loop reads no clock. *)
Record BState := {
  b_queue : list (string * nat);
  b_visited : list string;
  b_tx_count : nat;
  b_result : TraceResult
}.

Definition set_b_queue v (s : BState) : BState :=
  {| b_queue := v; b_visited := b_visited s; b_tx_count := b_tx_count s;
     b_result := b_result s |}.

Definition set_b_visited v (s : BState) : BState :=
  {| b_queue := b_queue s; b_visited := v; b_tx_count := b_tx_count s;
     b_result := b_result s |}.

Definition set_b_tx_count v (s : BState) : BState :=
  {| b_queue := b_queue s; b_visited := b_visited s; b_tx_count := v;
     b_result := b_result s |}.

Definition set_b_result v (s : BState) : BState :=
  {| b_queue := b_queue s; b_visited := b_visited s;
     b_tx_count := b_tx_count s; b_result := v |}.

Definition b_warn (w : string) (s : BState) : BState :=
  set_b_result (add_warning w (b_result s)) s.

Definition is_coinbase_vin (vin : TxIn) : bool :=
  match vin_coinbase vin with Some _ => true | None => false end.

Definition total_output_sats (tx : Tx) : Z :=
  Py.sumZ (map (fun out => sats_of_btc (value out)) (tx_vout tx)).

(** [max(tx["vout"], key=lambda x: x.get("value", 0))]: the first output
    of the largest amount. *)
Fixpoint largest_out (outs : list TxOut) : option TxOut :=
  match outs with
  | [] => None
  | o :: rest =>
      match largest_out rest with
      | Some o' => if Py.Qltb (value o) (value o') then Some o' else Some o
      | None => Some o
      end
  end.

Section Backward.
Variable env : Env.
Variable max_depth : Z.

(** The loop over the inputs of a transaction below the depth limit: an
    edge per input that names a previous transaction, which is queued
    unless visited.  An input of the node that has ["txid"] has ["vout"]
    too (the source raises KeyError otherwise); ["sequence"] defaults
    to 0. *)
Fixpoint add_parents (vins : list TxIn) (current_txid : string) (depth : nat)
    (s : BState) : BState :=
  match vins with
  | [] => s
  | vin :: rest =>
      match vin_txid vin with
      | Some prev_txid =>
        let edge :=
          {| from_txid := prev_txid;
             from_vout := match vin_vout vin with Some v => v | None => 0%nat end;
             to_txid := current_txid;
             to_vin := match vin_sequence vin with Some q => q | None => 0%Z end;
             edge_value_sats := 0 |} in
        let s := set_b_result (with_edges (edges (b_result s) ++ [edge]) (b_result s)) s in
        let s :=
          if str_in prev_txid (b_visited s) then s
          else set_b_queue (b_queue s ++ [(prev_txid, S depth)]) s in
        add_parents rest current_txid depth s
      | None => add_parents rest current_txid depth s
      end
  end.

Definition b_process_tx (tx : Tx) (current_txid : string) (depth : nat)
    (s : BState) : BState :=
  if existsb is_coinbase_vin (tx_vin tx) then
    let coinbase_address :=
      match tx_vout tx with
      | o :: _ => address (scriptPubKey o)
      | [] => None
      end in
    let n :=
      {| txid := current_txid; vout := 0; value_sats := total_output_sats tx;
         node_address := coinbase_address; script_type := "coinbase"%string;
         status := COINBASE; block_height := block_height_of tx;
         block_time := block_time_of tx; spent_by_txid := None;
         spent_by_vin := None; depth := depth; coinjoin_score := 0.0 |} in
    let r := b_result s in
    let r := with_nodes (nodes r ++ [n]) r in
    let r := with_coinbase_origins (coinbase_origins r ++ [n]) r in
    set_b_result r s
  else
    let cj_score := _calculate_coinjoin_score_fast tx in
    let s :=
      if Py.Qltb 0.7 cj_score
         && negb (str_in current_txid (coinjoin_txids (b_result s)))
      then set_b_result
             (with_coinjoin_txids (coinjoin_txids (b_result s) ++ [current_txid])
                                  (b_result s)) s
      else s in
    let s :=
      if (Z.of_nat depth <? max_depth)%Z
      then add_parents (tx_vin tx) current_txid depth s
      else s in
    let total_output := total_output_sats tx in
    let '(tx_address, tx_script_type) :=
      match largest_out (tx_vout tx) with
      | Some o => (address (scriptPubKey o),
                   opt_str_default (type (scriptPubKey o)) "transaction"%string)
      | None => (None, "transaction"%string)
      end in
    let n :=
      {| txid := current_txid; vout := 0; value_sats := total_output;
         node_address := tx_address; script_type := tx_script_type;
         status := SPENT; block_height := block_height_of tx;
         block_time := block_time_of tx; spent_by_txid := None;
         spent_by_vin := None; depth := depth; coinjoin_score := cj_score |} in
    let r := b_result s in
    let r := with_nodes (nodes r ++ [n]) r in
    let r := with_total_value_traced_sats (total_value_traced_sats r + total_output)%Z r in
    set_b_result r s.

Definition b_process_item (item : string * nat) (s : BState) : BState :=
  let '(current_txid, depth) := item in
  if str_in current_txid (b_visited s) then s else
  let s := set_b_visited (current_txid :: b_visited s) s in
  if (max_depth <? Z.of_nat depth)%Z then
    b_warn ("Depth limit reached at " ++ current_txid)%string s
  else
    match get_raw_transaction env current_txid with
    | None => b_warn ("Transaction not found: " ++ current_txid)%string s
    | Some tx => b_process_tx tx current_txid depth (set_b_tx_count (S (b_tx_count s)) s)
    end.

Definition b_loop_cond (s : BState) : bool :=
  match b_queue s with [] => false | _ => true end
  && (b_tx_count s <? MAX_TRANSACTIONS_PER_TRACE)%nat.

Definition b_loop_body (i : nat) (s : BState) : BState :=
  let s :=
    if (MAX_QUEUE_SIZE <? List.length (b_queue s))%nat then
      set_b_queue (firstn MAX_QUEUE_SIZE (b_queue s))
        (set_b_result
           (with_hit_limit true
              (add_warning "Queue size exceeded 1000, truncating"%string (b_result s))) s)
    else s in
  match b_queue s with
  | [] => s
  | item :: rest => b_process_item item (set_b_queue rest s)
  end.

Definition b_initial_state (txid : string) : BState :=
  let electrs_enabled := match electrs env with Some _ => true | None => false end in
  {| b_queue := [(txid, 0%nat)]; b_visited := []; b_tx_count := 0;
     b_result := empty_result txid 0 "backward"%string max_depth electrs_enabled |}.

Definition b_state_after (n : nat) (txid : string) : BState :=
  while_loop b_loop_cond b_loop_body n 0 (b_initial_state txid).

Definition b_finish (s : BState) : TraceResult :=
  let r := b_result s in
  let r :=
    if (MAX_TRANSACTIONS_PER_TRACE <=? b_tx_count s)%nat then
      with_hit_limit true (add_warning "Transaction limit (200) reached"%string r)
    else r in
  with_total_transactions (b_tx_count s) r.

End Backward.

Definition trace_backward (settings : Settings) (env : Env) (txid : string)
    (max_depth : option Z) : TraceResult :=
  let max_depth := effective_max_depth settings max_depth in
  b_finish (b_state_after env max_depth loop_fuel txid).

(** ** Peeling chains *)

(** The keys of the returned dictionary that carry data; the key
    ["payment_amounts_sats"] is present only in the full report. *)
Record PeelingChainResult := {
  is_peeling_chain : bool;
  chain_length : nat;
  transactions : list string;
  confidence : Q;
  total_peeled_sats : Z;
  remaining_sats : Z;
  privacy_impact : string;
  payment_amounts_sats : option (list Z)
}.

(** A call either returns or raises. *)
Inductive Outcome (A : Type) :=
| Returned (a : A)
| Raised (exception : string).
Arguments Returned {A} a.
Arguments Raised {A} exception.

(** [spend_map[key]] and [node_map[key]]: the dictionaries are filled in
    list order, so the last entry with a key is the one kept. *)
Definition spend_map_get (r : TraceResult) (key : string * nat) : option TraceEdge :=
  find (fun e => pair_eqb (from_txid e, from_vout e) key) (rev (edges r)).

Definition node_map_get (r : TraceResult) (key : string * nat) : option UTXONode :=
  find (fun n => pair_eqb (txid n, vout n) key) (rev (nodes r)).

Definition CHAIN_SAFETY_LIMIT : nat := 20.

(** The loop that follows the change output; returns [current_key],
    [chain_txids] and [payments] as they are when it ends.  It appends one
    transaction per iteration and stops itself beyond
    [CHAIN_SAFETY_LIMIT], so [S CHAIN_SAFETY_LIMIT] iterations are all
    it can make. *)
Fixpoint follow_chain (fuel : nat) (r : TraceResult) (current_key : string * nat)
    (chain_txids : list string) (payments : list Z) (visited : list (string * nat))
    : (string * nat) * list string * list Z :=
  match fuel with
  | O => (current_key, chain_txids, payments)
  | S fuel' =>
    match spend_map_get r current_key with
    | None => (current_key, chain_txids, payments)
    | Some edge =>
      if in_visited current_key visited then (current_key, chain_txids, payments) else
      let visited := current_key :: visited in
      let spending_txid := to_txid edge in
      let chain_txids := chain_txids ++ [spending_txid] in
      let spending_outputs :=
        Py.sorted_asc value_sats Z.ltb
          (filter (fun n => String.eqb (txid n) spending_txid) (nodes r)) in
      match spending_outputs with
      | [] => (current_key, chain_txids, payments)
      | [only] => (current_key, chain_txids, payments ++ [value_sats only])
      | payment :: _ =>
        let change := last spending_outputs payment in
        let payments := payments ++ [value_sats payment] in
        let current_key := (txid change, vout change) in
        if (CHAIN_SAFETY_LIMIT <? List.length chain_txids)%nat
        then (current_key, chain_txids, payments)
        else follow_chain fuel' r current_key chain_txids payments visited
      end
    end
  end.

Definition average (payments : list Z) : Q :=
  inject_Z (Py.sumZ payments) / inject_Z (Z.of_nat (List.length payments)).

(** [abs(p - avg_payment) / avg_payment < 0.5]. *)
Definition is_similar (avg_payment : Q) (p : Z) : bool :=
  Py.Qltb (Qabs (inject_Z p - avg_payment) / avg_payment) 0.5.

Definition similarity_ratio (payments : list Z) : Q :=
  let avg_payment := average payments in
  let similar_payments := List.length (filter (is_similar avg_payment) payments) in
  inject_Z (Z.of_nat similar_payments) / inject_Z (Z.of_nat (List.length payments)).

Definition not_a_chain (chain_length : nat) (transactions : list string)
    (total_peeled : Z) : PeelingChainResult :=
  {| is_peeling_chain := false; chain_length := chain_length;
     transactions := transactions; confidence := 0.0;
     total_peeled_sats := total_peeled; remaining_sats := 0;
     privacy_impact := "none"%string; payment_amounts_sats := None |}.

Definition detect_peeling_chain (trace_result : TraceResult)
    : Outcome PeelingChainResult :=
  if (List.length (edges trace_result) <? 2)%nat then Returned (not_a_chain 0 [] 0) else
  let start_key := (start_txid trace_result, start_vout trace_result) in
  match node_map_get trace_result start_key with
  | None => Returned (not_a_chain 0 [] 0)
  | Some _ =>
    let '(current_key, chain_txids, payments) :=
      follow_chain (S CHAIN_SAFETY_LIMIT) trace_result start_key [] [] [] in
    let chain_length := List.length chain_txids in
    if (chain_length <? 3)%nat then
      Returned (not_a_chain chain_length chain_txids (Py.sumZ payments))
    else
      let confidence_score := 0.5 in
      let confidence_score :=
        if (5 <=? chain_length)%nat then confidence_score + 0.2
        else if (3 <=? chain_length)%nat then confidence_score + 0.1
        else confidence_score in
      let with_similarity : Outcome Q :=
        match payments with
        | [] => Returned confidence_score
        | _ =>
          if Qeq_bool (average payments) 0 then Raised "ZeroDivisionError"%string
          else
            let similarity_ratio := similarity_ratio payments in
            if Py.Qltb 0.7 similarity_ratio then Returned (confidence_score + 0.2)
            else if Py.Qltb 0.5 similarity_ratio then Returned (confidence_score + 0.1)
            else Returned confidence_score
        end in
      match with_similarity with
      | Raised e => Raised e
      | Returned confidence_score =>
        let confidence_score := confidence_score + 0.1 in
        let confidence_score := Qmin 0.95 confidence_score in
        let is_peeling_chain := Py.Qleb 0.6 confidence_score in
        let total_peeled := Py.sumZ payments in
        let remaining :=
          match node_map_get trace_result current_key with
          | Some last_node =>
              if UTXOStatus_eqb (status last_node) UNSPENT then value_sats last_node
              else 0%Z
          | None => 0%Z
          end in
        let privacy_impact :=
          if is_peeling_chain then
            if Py.Qleb 0.8 confidence_score then "critical"%string else "high"%string
          else "low"%string in
        Returned
          {| is_peeling_chain := is_peeling_chain;
             chain_length := chain_length;
             transactions := chain_txids;
             confidence := Py.round confidence_score 3;
             total_peeled_sats := total_peeled;
             remaining_sats := remaining;
             privacy_impact := privacy_impact;
             payment_amounts_sats := Some payments |}
      end
  end.

End Tracer.

(* ================================================================= *)
(** * privacy_analysis.py: exchange proximity *)

Module PrivacyAnalysis.

Local Open Scope string_scope.

(** A value of the registry: [{"exchange": ..., "type": ...}]. *)
Record ExchangeInfo := {
  exchange : string;
  exchange_type : string
}.

(** The entries of the dictionary literal, in the order of the source. *)
Definition KNOWN_EXCHANGE_ADDRESSES_items : list (string * ExchangeInfo) :=
  [
   ("34xp4vRoCGJym3xR7yCVPFHoCNxv4Twseo", {| exchange := "Binance"; exchange_type := "cold_wallet" |});
   ("bc1qgdjqv0av3q56jvd82tkdjpy7gdp9ut8tlqmgrpmv24sq90ecnvqqjwvw97", {| exchange := "Binance"; exchange_type := "cold_wallet" |});
   ("bc1qm34lsc65zpw79lxes69zkqmk6ee3ewf0j77s3h", {| exchange := "Binance"; exchange_type := "cold_wallet" |});
   ("1NDyJtNTjmwk5xPNhjgAMu4HDHigtobu1s", {| exchange := "Binance"; exchange_type := "hot_wallet" |});
   ("3JZq4atUahhuA9rLhXLMhhTo133J9rF97j", {| exchange := "Binance"; exchange_type := "hot_wallet" |});
   ("3LCGsSmfr24demGvriN4e3ft8wEcDuHFqh", {| exchange := "Binance"; exchange_type := "hot_wallet" |});
   ("bc1qa5wkgaew2dkv56kfvj49j0av5nml45x9ek9hz6", {| exchange := "Binance"; exchange_type := "hot_wallet" |});
   ("1FzWLkAahHooV3kzTgyx6qsswXJ6sCXkSR", {| exchange := "Binance"; exchange_type := "deposit_address" |});
   ("3BMEXVshCPBMCYwUuAug3Ht28NFmycxvB5", {| exchange := "Binance"; exchange_type := "deposit_address" |});
   ("3Kzh9qAqVWQhEsfQz7zEQL1EuSx5tyNLNS", {| exchange := "Coinbase"; exchange_type := "cold_wallet" |});
   ("bc1qxy2kgdygjrsqtzq2n0yrf2493p83kkfjhx0wlh", {| exchange := "Coinbase"; exchange_type := "hot_wallet" |});
   ("3FHNBLobJnbCTFTVakh5TXmEneyf5PT61B", {| exchange := "Coinbase"; exchange_type := "cold_wallet" |});
   ("1GR9qNz7zgtaW5HwwVpEJWMnGWhsbsieCG", {| exchange := "Coinbase"; exchange_type := "hot_wallet" |});
   ("36n452uGq1x4mK7bfyZR8wgE47AnBb2pzi", {| exchange := "Coinbase"; exchange_type := "cold_wallet" |});
   ("3QJmV3qfvL9SuYo34YihAf3sRCW3qSinyC", {| exchange := "Coinbase"; exchange_type := "cold_wallet" |});
   ("bc1qgdjqv0av3q56jvd82tkdjpy7gdp9ut8tlqmgrpmv24sq90ecnvqqjwvw97", {| exchange := "Coinbase"; exchange_type := "cold_wallet" |});
   ("1AzhR4W5jMx6KPRfcbNPqMhJkYhNxNdYA9", {| exchange := "Coinbase"; exchange_type := "hot_wallet" |});
   ("3E37YWMXV8zuJx9cKm3zZKD67D9y8vNhWg", {| exchange := "Coinbase"; exchange_type := "deposit_address" |});
   ("bc1q5shngj3fwvjk0g5lk7qqn8xdy9sefqvvdw3jtj", {| exchange := "Coinbase"; exchange_type := "deposit_address" |});
   ("3AfC8evitosmib5DzwNxBkCPDcYxwKb7UR", {| exchange := "Kraken"; exchange_type := "cold_wallet" |});
   ("bc1qkw5n806st9p8q8pez5a0t2rs6yd8vafpvjkcrr", {| exchange := "Kraken"; exchange_type := "hot_wallet" |});
   ("3NaZQMYCBwPq5d7LtBBKZZXMvLR5VyRwF8", {| exchange := "Kraken"; exchange_type := "cold_wallet" |});
   ("35KHnfMwD7vLmJwrWbBXJBWLFNcLUmfJFc", {| exchange := "Kraken"; exchange_type := "hot_wallet" |});
   ("bc1qj2jxp0q0dmnr8p9e0cxs0p4v2f3f5mlvckqjq7", {| exchange := "Kraken"; exchange_type := "hot_wallet" |});
   ("1Kbp4mUnBrsjF5jkv8vKGZtqxPpVZNnJ2H", {| exchange := "Kraken"; exchange_type := "deposit_address" |});
   ("3D2oetdNuZUqQHPJmcMDDHYoqkyNVsFk9r", {| exchange := "Bitfinex"; exchange_type := "cold_wallet" |});
   ("bc1qgxj5m07zhqyzrmv3lg3dksurpt66lxpfu2lxsm", {| exchange := "Bitfinex"; exchange_type := "hot_wallet" |});
   ("1Kr6QSydW9bFQG1mXiPNNu6WpJGmUa9i1g", {| exchange := "Bitfinex"; exchange_type := "cold_wallet" |});
   ("3JwriwTLLHUQoWmwvLbCPrV9NvjP9PqiR8", {| exchange := "Bitfinex"; exchange_type := "hot_wallet" |});
   ("bc1qf9y6xxjadthq24j0xn2hk6t9r5f5z7hv9v7c2t", {| exchange := "Bitfinex"; exchange_type := "deposit_address" |});
   ("3LDLspHMsXR1T5r2kXwzQn3Mv3iqVFgZRw", {| exchange := "Gemini"; exchange_type := "cold_wallet" |});
   ("bc1qnl7ppsl2kzm7ys2fkjppl6l3v3wd3s3rc2egk3", {| exchange := "Gemini"; exchange_type := "cold_wallet" |});
   ("3FupZp77ySr7jwoLYEJ9mwzJpvoNBXveWk", {| exchange := "Gemini"; exchange_type := "hot_wallet" |});
   ("1DUb2YYbQA1jjaNYzVXLZ7ZioEhLXtbUru", {| exchange := "Gemini"; exchange_type := "deposit_address" |});
   ("3P3QsMVK89JBNqZQv5zMAKG8FK3kJM4rjt", {| exchange := "Bitstamp"; exchange_type := "cold_wallet" |});
   ("1HD8F8qNJcH4gVLHNP6PorZh3rJLwJYBAt", {| exchange := "Bitstamp"; exchange_type := "hot_wallet" |});
   ("3BMEXQS7YPqN8Y6BvczNgYN3LNqJjHvvGM", {| exchange := "Bitstamp"; exchange_type := "hot_wallet" |});
   ("bc1qtem8q7tsgjpf2r5q8yxr2zd3jgl0xqy9ya9tqn", {| exchange := "Bitstamp"; exchange_type := "cold_wallet" |});
   ("3G1NM2QnMJhR5LGKHKYoNHYL6p4MhUNwCn", {| exchange := "OKX"; exchange_type := "cold_wallet" |});
   ("1LEDQahawSTtGKpPJ3kPZGWDmMmVkPMBYP", {| exchange := "OKX"; exchange_type := "hot_wallet" |});
   ("3QzYvaRFY6bakFBW4YBRrzmwzTnfZcaA6E", {| exchange := "OKX"; exchange_type := "cold_wallet" |});
   ("bc1qp7n7k3rq3xdqr3s7c2c0x3w3h3e3r3m3y3p3q3", {| exchange := "OKX"; exchange_type := "hot_wallet" |});
   ("1FVXxkJhZ7Dw6PNhqCnqLxL7x7N7VxNxNx", {| exchange := "OKX"; exchange_type := "deposit_address" |});
   ("3Mn3AFYH7qe6NQFB6KmJPW5XYXrqD3ByDF", {| exchange := "Huobi"; exchange_type := "cold_wallet" |});
   ("1NRvGGBFjvd9qJ4SbwP1LM8C5vZ8UwCXfU", {| exchange := "Huobi"; exchange_type := "hot_wallet" |});
   ("3KRG4YcVnPPAVHVUqnzHMvPcJBsFPY7VbW", {| exchange := "Huobi"; exchange_type := "cold_wallet" |});
   ("bc1qar0srrr7xfkvy5l643lydnw9re59gtzzwf5mdq", {| exchange := "Huobi"; exchange_type := "hot_wallet" |});
   ("3HnVCfPdA37KMKP9bk5VYrZ6F3n2h5RJqv", {| exchange := "Bittrex"; exchange_type := "cold_wallet" |});
   ("1FWQiwK27EnGXb6BiBMRLJvunJQZZPMcGd", {| exchange := "Bittrex"; exchange_type := "hot_wallet" |});
   ("3EhLZarJUNSCxxq9S6C99s2LXBfXz2GdE8", {| exchange := "Bittrex"; exchange_type := "deposit_address" |});
   ("1P5ZEDWTKTFGxQjZphgWPQUpe554WKDfHQ", {| exchange := "KuCoin"; exchange_type := "cold_wallet" |});
   ("3MqvPkT7bLhXJ4m5yGPz1KSdQfBZqM3cSX", {| exchange := "KuCoin"; exchange_type := "hot_wallet" |});
   ("bc1qr4dl5wa7kl8yu792dceg9z5knl2gkn220qxg98", {| exchange := "KuCoin"; exchange_type := "cold_wallet" |});
   ("1E5VJqekiDvNEp6rMxECKmECUcgLnGYPYu", {| exchange := "KuCoin"; exchange_type := "deposit_address" |});
   ("bc1qm7h7cwms92rnq4kj0kwk0vy4hn5zgqafh3pczn", {| exchange := "Bybit"; exchange_type := "cold_wallet" |});
   ("3L7qeVcDYwkkCJ1hPp3zTiJq9EKvGWNJLP", {| exchange := "Bybit"; exchange_type := "hot_wallet" |});
   ("1KwDwY5D72vHZUjSfZ7Qj6i5Qj6i5Qj6i5", {| exchange := "Bybit"; exchange_type := "deposit_address" |});
   ("1EzwoHtiXB4iFwedPr49iywjZn2nnekhoj", {| exchange := "Gate.io"; exchange_type := "cold_wallet" |});
   ("3N8LqNGY4vKdXD3PGyKD8aK5nVRd7KLShR", {| exchange := "Gate.io"; exchange_type := "hot_wallet" |});
   ("bc1q5s7n6r2sqx5qvxw9r3yaqxr3yaqxr3yaqxr3ya", {| exchange := "Gate.io"; exchange_type := "cold_wallet" |});
   ("17A16QmavnUfCW11DAApiJxp7ARnxN5pGX", {| exchange := "Poloniex"; exchange_type := "cold_wallet" |});
   ("3JHZJ8JqUq1YDnRYQkN4MkEL8ys9TmBnHK", {| exchange := "Poloniex"; exchange_type := "hot_wallet" |});
   ("bc1qjh0akslml4yg9yfcwjr0rvw4l32mxq9eknhp7r", {| exchange := "Poloniex"; exchange_type := "deposit_address" |});
   ("bc1qcy920b8k8fvz9rq6z5v9k5v9k5v9k5v9k5v9k5", {| exchange := "Bitget"; exchange_type := "cold_wallet" |});
   ("3DozPCdZ8jM7xJKNqTy4vC4p7SvKKzLfmY", {| exchange := "Bitget"; exchange_type := "hot_wallet" |});
   ("1J9vN6VvVkKjKqDq2QkKjKqDq2QkKjKqD", {| exchange := "Bitget"; exchange_type := "deposit_address" |});
   ("1EWxKjf8LfvKj8LfvKj8LfvKj8LfvKj8Lf", {| exchange := "MEXC"; exchange_type := "cold_wallet" |});
   ("3K7p4bNs8t9p4bNs8t9p4bNs8t9p4bNs8t", {| exchange := "MEXC"; exchange_type := "hot_wallet" |});
   ("bc1q2m5r8z3y2m5r8z3y2m5r8z3y2m5r8z3y2m5r8z", {| exchange := "MEXC"; exchange_type := "deposit_address" |});
   ("bc1qr4p0w3tg9w5ezd3p4r3m5r3m5r3m5r3m5r3m5r", {| exchange := "Binance"; exchange_type := "cold_wallet" |});
   ("1PH5qwz3qwz3qwz3qwz3qwz3qwz3qwz3qw", {| exchange := "Binance"; exchange_type := "hot_wallet" |});
   ("3NK2SLLK5j2SLLK5j2SLLK5j2SLLK5j2SLL", {| exchange := "Coinbase"; exchange_type := "cold_wallet" |});
   ("bc1q5y7r3p9q5y7r3p9q5y7r3p9q5y7r3p9q5y7r3p", {| exchange := "Coinbase"; exchange_type := "hot_wallet" |});
   ("3L4aLq84j4aLq84j4aLq84j4aLq84j4aLq", {| exchange := "Kraken"; exchange_type := "cold_wallet" |});
   ("1M2c9fN8z9fN8z9fN8z9fN8z9fN8z9fN8z", {| exchange := "Kraken"; exchange_type := "hot_wallet" |});
   ("bc1q7k2m5n8k2m5n8k2m5n8k2m5n8k2m5n8k2m5n8k", {| exchange := "Bitfinex"; exchange_type := "cold_wallet" |});
   ("3P9wX5zL3P9wX5zL3P9wX5zL3P9wX5zL3P", {| exchange := "Bitfinex"; exchange_type := "hot_wallet" |});
   ("1Drt3c8pSdrkyjuBiwVcSSixZwQtMZ3Tew", {| exchange := "Binance"; exchange_type := "hot_wallet" |});
   ("15Z5YJaaNSxeynvr6uW6jQZLwq3n1Hu6RX", {| exchange := "Coinbase"; exchange_type := "hot_wallet" |});
   ("38UmuUqPCrFmQo4khkomQwZ4VbY2nZMJ67", {| exchange := "Bitfinex"; exchange_type := "cold_wallet" |});
   ("1JDckpLTJDckpLTJDckpLTJDckpLTJDckp", {| exchange := "Kraken"; exchange_type := "cold_wallet" |});
   ("3QX3XnQX3XnQX3XnQX3XnQX3XnQX3XnQX3", {| exchange := "Gemini"; exchange_type := "hot_wallet" |})
  ].

Definition KNOWN_EXCHANGE_ADDRESSES : list (string * ExchangeInfo) :=
  Eval vm_compute in Py.dict_of KNOWN_EXCHANGE_ADDRESSES_items.

Definition _is_known_exchange (address : string) : option ExchangeInfo :=
  Py.dict_lookup KNOWN_EXCHANGE_ADDRESSES address.

Record ExchangeHop := {
  hop_txid : string;
  hop_address : string;
  hop_value_sats : Z;
  hop_direction : string;
  hop_number : nat;
  is_coinjoin : bool;
  hop_block_height : option Z
}.

Record ExchangePath := {
  path_hops : list ExchangeHop;
  total_hops : nat;
  exchange_name : string;
  path_exchange_type : string;
  path_direction : string;
  path_path_quality_score : Z;
  path_path_strength : string;
  coinjoin_count : nat
}.

Record ExchangeConnection := {
  conn_exchange_name : string;
  conn_exchange_type : string;
  hops : nat;
  conn_direction : string;
  path_quality : Z;
  conn_path_strength : string
}.

(** An entry of the legacy list [exchange_connections]:
    [{"exchange", "type", "hops", "direction"}]. *)
Record LegacyConnection := {
  legacy_exchange : string;
  legacy_type : string;
  legacy_hops : nat;
  legacy_direction : string
}.

(** [execution_time_ms] is left out; [path_age_days] keeps whole days. *)
Record ExchangeProximityResult := {
  address : string;
  nearest_exchange : option string;
  nearest_exchange_type : option string;
  hops_to_exchange : option nat;
  direction : option string;
  proximity_score : Z;
  risk_level : string;
  path_quality_score : Z;
  path_quality_factors : list string;
  coinjoin_count_in_path : nat;
  path_age_days : option Q;
  path_strength : string;
  alternative_paths : list ExchangePath;
  all_exchange_connections : list ExchangeConnection;
  exchange_connections : list LegacyConnection;
  path_to_exchange : list ExchangeHop;
  warnings : list string;
  recommendations : list string
}.

Definition MAX_EXCHANGE_HOPS : nat := 6.
Definition MAX_ADDRESSES_TO_VISIT : nat := 10.
Definition MAX_ANALYSIS_SECONDS : Q := 15.

(** ** Calls to the collaborators *)

(** The requests [analyze_exchange_proximity] can send to the node and to
    the address index. *)
Inductive Call :=
| GetBlockchainInfo
| GetAddressHistory (address : string)
| GetTransaction (txid : string).

(** A computation that talks to the collaborators: it reads the world
    and extends the log of the calls made so far. *)
Definition M (A : Type) : Type := Env -> list Call -> A * list Call.

Definition ret {A} (a : A) : M A := fun _ log => (a, log).

Definition bind {A B} (m : M A) (k : A -> M B) : M B :=
  fun env log => let '(a, log') := m env log in k a env log'.

Notation "x <- m ;; k" := (bind m (fun x => k))
  (at level 61, m at next level, right associativity).

(** [self._get_address_history]: without an address index the history is
    empty and nothing is asked. *)
Definition _get_address_history (address : string) : M (list (string * Z)) :=
  fun env log =>
    match electrs env with
    | None => ([], log)
    | Some e =>
        (match get_history e address with Some h => h | None => [] end,
         (log ++ [GetAddressHistory address])%list)
    end.

Definition _get_transaction (txid : string) : M (option Tx) :=
  fun env log => (get_raw_transaction env txid, (log ++ [GetTransaction txid])%list).

Section ExchangeProximity.

(** The bounded search of [analyze_exchange_proximity] and the scoring
    of the paths it finds (all that follows the test of the seed address
    against the registry), given the seed address and [max_hops].  It is
    a parameter here: what is stated below holds whatever it does. *)
Variable search_paths : string -> nat -> M ExchangeProximityResult.

Definition analyze_exchange_proximity (address : string) (max_hops : option nat)
    : M ExchangeProximityResult :=
  let max_hops :=
    match max_hops with
    | Some 0%nat | None => MAX_EXCHANGE_HOPS
    | Some h => h
    end in
  match _is_known_exchange address with
  | Some exchange_info =>
      ret {| address := address;
             nearest_exchange := Some (exchange exchange_info);
             nearest_exchange_type := Some (exchange_type exchange_info);
             hops_to_exchange := Some 0%nat;
             direction := Some "is_exchange";
             proximity_score := 100;
             risk_level := "critical";
             path_quality_score := 100;
             path_quality_factors := ["This IS a known exchange address"];
             coinjoin_count_in_path := 0;
             path_age_days := None;
             path_strength := "STRONG";
             alternative_paths := [];
             all_exchange_connections :=
               [{| conn_exchange_name := exchange exchange_info;
                   conn_exchange_type := exchange_type exchange_info;
                   hops := 0;
                   conn_direction := "is_exchange";
                   path_quality := 100;
                   conn_path_strength := "STRONG" |}];
             exchange_connections :=
               [{| legacy_exchange := exchange exchange_info;
                   legacy_type := exchange_type exchange_info;
                   legacy_hops := 0;
                   legacy_direction := "is_exchange" |}];
             path_to_exchange := [];
             warnings := ["This address is a known exchange address"];
             recommendations := ["Do not use exchange addresses for personal storage"] |}
  | None => search_paths address max_hops
  end.

End ExchangeProximity.

End PrivacyAnalysis.

(* ================================================================= *)
(** * A small chain to run the tracers on *)

(** A withdrawal of 0.05 BTC to [dest] that goes through up to three
    five-party mixes of equal outputs, one after the other. *)
Module Scenario.

Local Open Scope Q_scope.
Local Open Scope string_scope.

Definition p2wpkh (a : string) : ScriptPubKey :=
  {| address := Some a; type := Some "witness_v0_keyhash" |}.

Definition pay (v : Q) (a : string) : TxOut :=
  {| value := v; scriptPubKey := p2wpkh a |}.

Definition spend (t : string) (v : nat) (a : string) (amount : Q) : TxIn :=
  {| vin_coinbase := None; vin_txid := Some t; vin_vout := Some v;
     vin_prevout := Some {| prevout_value := amount; prevout_scriptPubKey := p2wpkh a |};
     vin_value := None; vin_sequence := Some 4294967295%Z |}.

Definition withdrawal : Tx :=
  {| tx_txid := "ex";
     tx_vin := [spend "funding" 0 "exchange_hot" 2.0];
     tx_vout := [pay 0.05 "dest"; pay 1.9499 "exchange_change"];
     tx_blockheight := None; tx_height := Some 800000%Z;
     tx_blocktime := Some 1700000000%Z |}.

(** A mix [name] that spends output 0 of [prev], held by [owner], with
    four other inputs, into five outputs of 0.05 BTC to [name ++ "0"],
    ..., [name ++ "4"]. *)
Definition mix (name prev owner : string) (height : Z) : Tx :=
  {| tx_txid := name;
     tx_vin := [spend prev 0 owner 0.05; spend "a" 0 "peer1" 0.05;
                spend "b" 0 "peer2" 0.05; spend "c" 0 "peer3" 0.05;
                spend "d" 0 "peer4" 0.0501];
     tx_vout := [pay 0.05 (name ++ "0"); pay 0.05 (name ++ "1");
                 pay 0.05 (name ++ "2"); pay 0.05 (name ++ "3");
                 pay 0.05 (name ++ "4")];
     tx_blockheight := None; tx_height := Some height;
     tx_blocktime := Some (1700000000 + 600 * (height - 800000))%Z |}.

Definition chain : list Tx :=
  [withdrawal; mix "m" "ex" "dest" 800001; mix "n" "m" "m0" 800002;
   mix "o" "n" "n0" 800003].

Definition lookup_tx (txs : list Tx) (txid : string) : option Tx :=
  find (fun tx => String.eqb (tx_txid tx) txid) txs.

(** The first transaction of [txs] other than [txid] that spends the
    output, as an address index would answer. *)
Definition spender (txs : list Tx) (txid : string) (vout : nat) : option string :=
  option_map tx_txid
    (find (fun tx => existsb (spends txid vout) (tx_vin tx)) txs).

(** The transactions of [txs] that pay to or spend from [a]. *)
Definition history_of (txs : list Tx) (a : string) : list (string * Z) :=
  map (fun tx => (tx_txid tx, match tx_height tx with Some h => h | None => 0%Z end))
    (filter (fun tx =>
       existsb (fun o => match address (scriptPubKey o) with
                         | Some b => String.eqb a b
                         | None => false
                         end) (tx_vout tx)
       || existsb (fun i => match vin_prevout i with
                            | Some p => match address (prevout_scriptPubKey p) with
                                        | Some b => String.eqb a b
                                        | None => false
                                        end
                            | None => false
                            end) (tx_vin tx)) txs).

(** The world that holds the first [k] transactions of the chain, with a
    working address index and a clock that stands still. *)
Definition world (k : nat) : Env :=
  let txs := firstn k chain in
  {| get_raw_transaction := lookup_tx txs;
     get_tx_out := fun txid vout =>
       match spender txs txid vout with Some _ => false | None => true end;
     electrs := Some {| get_history := fun a => Some (history_of txs a);
                        find_spending_tx := spender txs |};
     elapsed := fun _ => 0 |}.

(** The same world with an address index that answers nothing. *)
Definition world_without_index (k : nat) : Env :=
  let w := world k in
  {| get_raw_transaction := get_raw_transaction w;
     get_tx_out := get_tx_out w;
     electrs := Some {| get_history := fun _ => None;
                        find_spending_tx := fun _ _ => None |};
     elapsed := elapsed w |}.

(** A world in which every output counts as spent and the address index
    knows the spender of the withdrawal only: the outputs of the first
    mix cannot be followed. *)
Definition world_with_failing_index : Env :=
  let txs := firstn 2 chain in
  {| get_raw_transaction := lookup_tx txs;
     get_tx_out := fun _ _ => false;
     electrs :=
       Some {| get_history := fun a =>
                 if String.eqb a "dest" then Some (history_of txs a) else None;
               find_spending_tx := fun txid vout =>
                 if String.eqb txid "ex" then spender txs txid vout else None |};
     elapsed := fun _ => 0 |}.

(** A wallet that pays out of one coin four times, each time sending the
    change to a new address of its own: payments of 0.01, 0.01, 0.001 and
    0.019 BTC. *)
Definition peel (name prev owner : string) (amount payment change : Q) (height : Z) : Tx :=
  {| tx_txid := name;
     tx_vin := [spend prev (if String.eqb prev "p0" then 0 else 1) owner amount];
     tx_vout := [pay payment (name ++ "_payee"); pay change (name ++ "_change")];
     tx_blockheight := None; tx_height := Some height;
     tx_blocktime := Some (1700000000 + 600 * (height - 800000))%Z |}.

(** The transaction that funds the wallet with 1 BTC. *)
Definition peeling_start : Tx :=
  {| tx_txid := "p0";
     tx_vin := [spend "funding" 0 "exchange_hot" 1.5];
     tx_vout := [pay 1.0 "wallet"; pay 0.4999 "exchange_change"];
     tx_blockheight := None; tx_height := Some 800000%Z;
     tx_blocktime := Some 1700000000%Z |}.

Definition peeling_chain : list Tx :=
  [peeling_start;
   peel "t1" "p0" "wallet" 1.0 0.01 0.9899 800001;
   peel "t2" "t1" "t1_change" 0.9899 0.01 0.9798 800002;
   peel "t3" "t2" "t2_change" 0.9798 0.001 0.9787 800003;
   peel "t4" "t3" "t3_change" 0.9787 0.019 0.9596 800004].

(** The world that holds the transactions [txs], with a working address
    index and a clock that stands still. *)
Definition world_of (txs : list Tx) : Env :=
  {| get_raw_transaction := lookup_tx txs;
     get_tx_out := fun txid vout =>
       match spender txs txid vout with Some _ => false | None => true end;
     electrs := Some {| get_history := fun a => Some (history_of txs a);
                        find_spending_tx := spender txs |};
     elapsed := fun _ => 0 |}.

Definition peeling_world : Env := world_of peeling_chain.

(** The same wallet moving its coin three times, each time beside an
    output that carries no value. *)
Definition empty_payment_chain : list Tx :=
  [peeling_start;
   peel "z1" "p0" "wallet" 1.0 0 0.9999 800001;
   peel "z2" "z1" "z1_change" 0.9999 0 0.9998 800002;
   peel "z3" "z2" "z2_change" 0.9998 0 0.9997 800003].

Definition empty_payment_world : Env := world_of empty_payment_chain.

End Scenario.

(* ================================================================= *)
(** * Predicates and example runs the properties are stated with *)

(** ** The CoinJoin classifier *)

Module CoinJoinSpec.

Import CoinJoin.
Local Open Scope Q_scope.



End CoinJoinSpec.

(** ** The KYC privacy tracer *)

Module KYCTraceSpec.

Import KYCTrace.
Local Open Scope Q_scope.

(** The multiplier of a protocol, as the code looks it up. *)
Definition multiplier (protocol : string) : Q :=
  Py.dict_get protocol_multipliers protocol 2.5.

(** The confidence of a node after the hop that reaches it, from the
    confidence before the hop, as the specification gives it. *)
Definition updated_confidence (previous_confidence : Q) (n : PathNode) : Q :=
  if is_coinjoin n then
    Qmax (previous_confidence
          * (1 / inject_Z (Z.of_nat (anonymity_set_size n)))
          * multiplier (coinjoin_protocol n)) 0.001
  else previous_confidence * 0.95.

(** The protocols [_get_coinjoin_details] can name for a CoinJoin. *)
Definition mixing_protocols : list string :=
  ["whirlpool"%string; "wasabi_v1"%string; "wasabi_v2"%string; "joinmarket"%string].

(** What holds of a node reached from a path whose confidence was
    [previous_confidence]. *)
Definition hop_ok (max_depth : nat) (previous_confidence : Q) (n : PathNode) : Prop :=
  cumulative_confidence n == updated_confidence previous_confidence n
  /\ (is_coinjoin n = true <-> COINJOIN_THRESHOLD <= coinjoin_score n)
  /\ (is_coinjoin n = true ->
      (2 <= anonymity_set_size n)%nat /\ In (coinjoin_protocol n) mixing_protocols)
  /\ 0.001 <= cumulative_confidence n
  /\ cumulative_confidence n <= previous_confidence * 1.1
  /\ (depth n <= max_depth)%nat.

(** The path carried by an entry of the queue: every node was expanded,
    so none is cold. *)
Definition queue_path_ok (max_depth : nat) (p : list PathNode) : Prop :=
  forall l1 n l2, p = l1 ++ n :: l2 ->
    hop_ok max_depth (prev_confidence_of l1) n
    /\ CONFIDENCE_COLD_THRESHOLD <= cumulative_confidence n.

(** The path of a destination: only its last node may be cold. *)
Definition dest_path_ok (max_depth : nat) (p : list PathNode) : Prop :=
  forall l1 n l2, p = l1 ++ n :: l2 ->
    hop_ok max_depth (prev_confidence_of l1) n
    /\ (l2 <> [] -> CONFIDENCE_COLD_THRESHOLD <= cumulative_confidence n).

(** The last node of the path is below the cold threshold. *)
Definition ends_cold (p : list PathNode) : Prop :=
  exists l n, p = l ++ [n] /\ cumulative_confidence n < CONFIDENCE_COLD_THRESHOLD.

(** A destination is COLD exactly when its path ends cold. *)
Definition dest_ok (max_depth : nat) (d : ProbableDestination) : Prop :=
  dest_path_ok max_depth (path d)
  /\ (trail_status d = COLD <-> ends_cold (path d)).

(** The value of the destinations whose trail went cold. *)
Definition cold_value (ds : list ProbableDestination) : Z :=
  sum_value_sats (with_status COLD ds).

(** The invariant of the loop. *)
Definition Inv (max_depth : nat) (s : State) : Prop :=
  Forall (fun item => queue_path_ok max_depth (q_path item)) (queue s)
  /\ Forall (dest_ok max_depth) (destinations s)
  /\ result_total_untraceable_sats s = cold_value (destinations s).

(** The number of iterations the loop can still make. *)
Definition iterations_left (s : State) : nat :=
  if timed_out s then 0
  else (MAX_TRANSACTIONS - tx_count s) * S MAX_QUEUE_SIZE
       + Nat.min (List.length (queue s)) MAX_QUEUE_SIZE.

(** The withdrawal followed through one mix, and its first destination
    with the two nodes of its path. *)
Definition one_mix_trace : KYCTraceResult :=
  trace_kyc_withdrawal (Scenario.world 2) "ex" "dest" "standard".

(** The first destination of [one_mix_trace]. *)
Definition one_mix_destination : ProbableDestination :=
  Eval vm_compute in
    hd {| dest_address := ""; dest_value_sats := 0; confidence_score := 0;
          confidence_level := NEGLIGIBLE; path_length := 0; coinjoins_passed := 0;
          trail_status := LOST; path := [] |}
       (probable_destinations one_mix_trace).

(** The output of the withdrawal that pays [dest]. *)
Definition withdrawal_node : PathNode :=
  Eval vm_compute in
    make_node Scenario.withdrawal
      {| q_txid := "ex"; q_vout := 0; q_depth := 0; q_cj_count := 0; q_path := [];
         q_tracked_value := 5000000; q_confidence := 1.0 |}
      (Scenario.pay 0.05 "dest").


(** The withdrawal followed through three mixes: the outputs of the
    third are cold. *)
Definition three_mix_trace : KYCTraceResult :=
  trace_kyc_withdrawal (Scenario.world 4) "ex" "dest" "standard".

(** The first of its destinations that is cold, and the node it ends
    with. *)
Definition cold_destination : ProbableDestination :=
  Eval vm_compute in
    nth 8 (probable_destinations three_mix_trace) one_mix_destination.

Definition cold_node : PathNode :=
  Eval vm_compute in last (path cold_destination) withdrawal_node.

End KYCTraceSpec.

(** ** The overall privacy score *)

Module PrivacyScoreSpec.

Import KYCTrace.
Local Open Scope Q_scope.
Local Open Scope string_scope.

(** Some destination has trail status COLD. *)
Definition some_cold (ds : list ProbableDestination) : Prop :=
  exists d, In d ds /\ trail_status d = COLD.

(** What CoinJoins earn when no trail went cold. *)
Definition no_cold_bonus (coinjoins_encountered : nat) : Q :=
  if (2 <=? coinjoins_encountered)%nat then 10
  else if (coinjoins_encountered =? 1)%nat then 5
  else 0.

(** The withdrawal followed through two mixes: no trail goes cold. *)
Definition two_mix_trace : KYCTraceResult :=
  trace_kyc_withdrawal (Scenario.world 3) "ex" "dest" "standard".

(** Its destinations, evaluated. *)
Definition two_mix_destinations : list ProbableDestination :=
  Eval vm_compute in probable_destinations two_mix_trace.

End PrivacyScoreSpec.

(** ** The forward and backward tracers *)

Module TracerSpec.

Import Tracer.
Local Open Scope Q_scope.

(** The warning that reports the address index as disabled. *)
Definition electrs_disabled_warning (failures : nat) : string :=
  ("Electrs disabled after " ++ Py.str_of_nat failures
   ++ " consecutive failures - continuing without forward tracing")%string.

(** A lookup failed when it returned nothing the code takes for a
    transaction id. *)
Definition lookup_failed (l : string * nat * option string) : bool :=
  negb (Py.truthy (snd l)).

(** The number of failed lookups since the last one that succeeded. *)
Fixpoint latest_failures (log : list (string * nat * option string)) : nat :=
  match log with
  | [] => 0
  | l :: rest => if lookup_failed l then S (latest_failures rest) else 0
  end.

(** A node that has no successor. *)
Definition dead_end (n : UTXONode) : Prop :=
  spent_by_txid n = None /\ spent_by_vin n = None
  /\ (status n = SPENT \/ status n = UNSPENT).

(** What the properties below read of a state of the forward loop. *)
Record Observed := {
  o_lookups : list (string * nat * option string);
  o_lookup_count : nat;
  o_consecutive : nat;
  o_disabled : bool;
  o_nodes : list UTXONode;
  o_unspent : list UTXONode;
  o_edges : list TraceEdge;
  o_warnings : list string;
  o_max_depth : Z
}.

(** The observation of a state. *)
Definition observe (s : State) : Observed :=
  {| o_lookups := lookups s;
     o_lookup_count := electrs_lookup_count s;
     o_consecutive := consecutive_electrs_failures s;
     o_disabled := electrs_disabled s;
     o_nodes := nodes (result s);
     o_unspent := unspent_endpoints (result s);
     o_edges := edges (result s);
     o_warnings := warnings (result s);
     o_max_depth := Tracer.max_depth (result s) |}.

(** The circuit breaker: the counter counts the failures since the last
    success, the address index is disabled exactly when it reached the
    limit, which is then 3, and the warning has been recorded. *)
Definition breaker_ok (o : Observed) : Prop :=
  o_consecutive o = latest_failures (o_lookups o)
  /\ o_lookup_count o = List.length (o_lookups o)
  /\ o_disabled o = (MAX_CONSECUTIVE_ELECTRS_FAILURES <=? o_consecutive o)%nat
  /\ (o_disabled o = true ->
      o_consecutive o = 3%nat /\ In (electrs_disabled_warning 3) (o_warnings o)).

(** How a later state extends an earlier one: warnings and nodes are only
    added, no node lies beyond the depth limit, and once the address index
    is disabled it stays so, no lookup and no edge is added and every new
    node is a dead end. *)
Definition extends (max_depth : Z) (a b : Observed) : Prop :=
  (exists w, o_warnings b = o_warnings a ++ w)
  /\ (exists new, o_nodes b = o_nodes a ++ new
        /\ Forall (fun n => (Z.of_nat (depth n) <= max_depth)%Z) new
        /\ (o_disabled a = true -> Forall dead_end new))
  /\ (exists new, o_unspent b = o_unspent a ++ new
        /\ Forall (fun n => (Z.of_nat (depth n) <= max_depth)%Z) new)
  /\ o_max_depth b = o_max_depth a
  /\ (o_disabled a = true ->
      o_disabled b = true /\ o_lookups b = o_lookups a
      /\ o_lookup_count b = o_lookup_count a /\ o_edges b = o_edges a).

(** What the branch for a spent output does to the state: nothing, or
    a lookup that found the spending transaction, or one that failed. *)
Inductive resolved (max_depth : Z) (depth : nat) (s : State)
  : State -> option string -> option nat -> Prop :=
| no_lookup : resolved max_depth depth s s None None
| lookup_found (s' : State) (found : option string) (vin : option nat)
    (entry : string * nat * option string)
    (new_edges : list TraceEdge) (succs : list (string * nat * nat)) :
    electrs_disabled s = false ->
    (Z.of_nat depth < max_depth)%Z ->
    lookup_failed entry = false ->
    lookups s' = entry :: lookups s ->
    electrs_lookup_count s' = S (electrs_lookup_count s) ->
    consecutive_electrs_failures s' = 0%nat ->
    electrs_disabled s' = false ->
    queue s' = queue s ++ succs ->
    Forall (fun it => snd it = S depth) succs ->
    visited s' = visited s -> tx_count s' = tx_count s ->
    timed_out s' = timed_out s ->
    nodes (result s') = nodes (result s) ->
    unspent_endpoints (result s') = unspent_endpoints (result s) ->
    edges (result s') = edges (result s) ++ new_edges ->
    warnings (result s') = warnings (result s) ->
    Tracer.max_depth (result s') = Tracer.max_depth (result s) ->
    resolved max_depth depth s s' found vin
| lookup_missed (s' : State) (found : option string)
    (entry : string * nat * option string) :
    electrs_disabled s = false ->
    lookup_failed entry = true ->
    lookups s' = entry :: lookups s ->
    electrs_lookup_count s' = S (electrs_lookup_count s) ->
    consecutive_electrs_failures s' = S (consecutive_electrs_failures s) ->
    electrs_disabled s'
    = (MAX_CONSECUTIVE_ELECTRS_FAILURES <=? S (consecutive_electrs_failures s))%nat ->
    warnings (result s')
    = (if (MAX_CONSECUTIVE_ELECTRS_FAILURES <=? S (consecutive_electrs_failures s))%nat
       then warnings (result s)
            ++ [electrs_disabled_warning (S (consecutive_electrs_failures s))]
       else warnings (result s)) ->
    queue s' = queue s ->
    visited s' = visited s -> tx_count s' = tx_count s ->
    timed_out s' = timed_out s ->
    nodes (result s') = nodes (result s) ->
    unspent_endpoints (result s') = unspent_endpoints (result s) ->
    edges (result s') = edges (result s) ->
    Tracer.max_depth (result s') = Tracer.max_depth (result s) ->
    resolved max_depth depth s s' found None.

(** The number of iterations the forward loop can still make. *)
Definition iterations_left (s : State) : nat :=
  if timed_out s then 0
  else (MAX_TRANSACTIONS_PER_TRACE - tx_count s) * S MAX_QUEUE_SIZE
       + Nat.min (List.length (queue s)) MAX_QUEUE_SIZE.

(** The node lies within the depth limit. *)
Definition depth_ok (max_depth : Z) (n : UTXONode) : Prop :=
  (Z.of_nat (depth n) <= max_depth)%Z.

(** The invariant of the backward loop. *)
Definition BInv (max_depth : Z) (s : BState) : Prop :=
  Forall (depth_ok max_depth) (nodes (b_result s))
  /\ Forall (depth_ok max_depth) (coinbase_origins (b_result s))
  /\ Tracer.max_depth (b_result s) = max_depth.

(** The number of iterations the backward loop can still make. *)
Definition b_iterations_left (s : BState) : nat :=
  (MAX_TRANSACTIONS_PER_TRACE - b_tx_count s) * S MAX_QUEUE_SIZE
  + Nat.min (List.length (b_queue s)) MAX_QUEUE_SIZE.

End TracerSpec.

(** ** Peeling chains *)

Module PeelingSpec.

Import Tracer.
Local Open Scope Q_scope.

(** The number of payments within 50% of the average payment. *)
Definition similar_count (payments : list Z) : nat :=
  List.length (filter (is_similar (average payments)) payments).


(** 0.2 when more than 70% of the payments are similar, else 0.1 when
    more than 50% are. *)
Definition similarity_bonus (payments : list Z) : Q :=
  let k := similar_count payments in
  let n := List.length payments in
  if (7 * n <? 10 * k)%nat then 0.2
  else if (n <? 2 * k)%nat then 0.1
  else 0.



(** The forward trace of the wallet of [Scenario.peeling_chain]. *)
Definition peeling_trace : TraceResult :=
  trace_forward default_settings Scenario.peeling_world "p0" 0 None.

(** The forward trace of the wallet of [Scenario.empty_payment_chain]. *)
Definition empty_payment_trace : TraceResult :=
  trace_forward default_settings Scenario.empty_payment_world "p0" 0 None.

(** What the detector reports on [peeling_trace]. *)
Definition peeling_report : PeelingChainResult :=
  Eval vm_compute in
    match detect_peeling_chain peeling_trace with
    | Returned r => r
    | Raised _ => not_a_chain 0 [] 0
    end.

(** The payments recorded along the chain that starts at the traced
    output. *)
Definition recorded_payments (trace_result : TraceResult) : list Z :=
  snd (follow_chain (S CHAIN_SAFETY_LIMIT) trace_result
         (start_txid trace_result, start_vout trace_result) [] [] []).



End PeelingSpec.

(** ** The depth limit *)

Module DepthSpec.

(** The depth limits of the three searches on an example: the wallet of
    [Scenario.peeling_chain] traced forward to depth 2. *)
Definition shallow_trace : Tracer.TraceResult :=
  Eval vm_compute in
    Tracer.trace_forward default_settings Scenario.peeling_world "p0" 0 (Some 2%Z).

(** The largest depth among the nodes of a result. *)
Definition deepest (r : Tracer.TraceResult) : nat :=
  fold_right Nat.max 0%nat (map Tracer.depth (Tracer.nodes r)).

End DepthSpec.

(** ** Exchange proximity *)

Module PrivacyAnalysisSpec.

Import PrivacyAnalysis.
Local Open Scope string_scope.

(** The address is a key of the registry literal. *)
Definition in_registry (address : string) : Prop :=
  In address (map fst KNOWN_EXCHANGE_ADDRESSES_items).

(** The answer of a search that found nothing. *)
Definition nothing_found (address : string) : ExchangeProximityResult :=
  {| address := address; nearest_exchange := None; nearest_exchange_type := None;
     hops_to_exchange := None; direction := None; proximity_score := 0;
     risk_level := "low"; path_quality_score := 0; path_quality_factors := [];
     coinjoin_count_in_path := 0; path_age_days := None; path_strength := "BROKEN";
     alternative_paths := []; all_exchange_connections := [];
     exchange_connections := []; path_to_exchange := []; warnings := [];
     recommendations := [] |}.

(** A search that asks the address index and the node before it answers
    that it found nothing. *)
Definition asking_search (address : string) (max_hops : nat)
    : M ExchangeProximityResult :=
  history <- _get_address_history address ;;
  tx <- _get_transaction "ex" ;;
  ret (nothing_found address).

End PrivacyAnalysisSpec.

(** ** CoinJoin history of a list of transactions (core/coinjoin.py) *)

Module CoinJoinHistory.

Import CoinJoin.
Local Open Scope Q_scope.

(** [CoinJoinProtocol.value]. *)
Definition protocol_value (p : CoinJoinProtocol) : string :=
  match p with
  | NONE => "none"
  | WHIRLPOOL => "whirlpool"
  | WASABI_V1 => "wasabi_v1"
  | WASABI_V2 => "wasabi_v2"
  | JOINMARKET => "joinmarket"
  | PAYJOIN => "payjoin"
  | UNKNOWN => "unknown_coinjoin"
  end%string.

(** [DetectionResult.to_dict], without the lists of heuristics and the
    details. *)
Record ResultDict := {
  d_txid : string;
  d_score : Q;
  d_protocol : string;
  d_confidence : Q;
  d_is_coinjoin : bool
}.

Definition to_dict (r : DetectionResult) : ResultDict :=
  {| d_txid := txid r; d_score := score r;
     d_protocol := protocol_value (protocol r);
     d_confidence := confidence r;
     d_is_coinjoin := Py.Qleb 0.5 (score r) |}.

Definition batch_analyze (transactions : list Tx) : list DetectionResult :=
  map analyze_transaction transactions.

(** [collections.Counter] over strings, keys in order of first
    appearance. *)
Fixpoint str_counter_add (k : string) (c : list (string * nat)) : list (string * nat) :=
  match c with
  | [] => [(k, 1%nat)]
  | (k', n) :: rest =>
      if String.eqb k' k then (k', S n) :: rest else (k', n) :: str_counter_add k rest
  end.

Definition str_counter (l : list string) : list (string * nat) :=
  fold_left (fun c k => str_counter_add k c) l [].

Record History := {
  total_transactions : nat;
  coinjoin_count : nat;
  coinjoin_percentage : Q;
  protocol_breakdown : list (string * nat);
  average_coinjoin_score : Q;
  coinjoin_txids : list string;
  all_results : list ResultDict
}.

Definition get_coinjoin_history (tx_list : list Tx) : History :=
  let results := batch_analyze tx_list in
  let coinjoins := filter (fun r => Py.Qleb 0.5 (score r)) results in
  let protocol_counts := str_counter (map (fun r => protocol_value (protocol r)) coinjoins) in
  let total_score := sumQ (map score coinjoins) in
  {| total_transactions := List.length tx_list;
     coinjoin_count := List.length coinjoins;
     coinjoin_percentage :=
       match tx_list with
       | [] => 0
       | _ => Qnat (List.length coinjoins) / Qnat (List.length tx_list) * 100
       end;
     protocol_breakdown := protocol_counts;
     average_coinjoin_score :=
       match coinjoins with
       | [] => 0
       | _ => total_score / Qnat (List.length coinjoins)
       end;
     coinjoin_txids := map txid coinjoins;
     all_results := map to_dict results |}.

End CoinJoinHistory.

(** ** Path quality (core/privacy_analysis.py) *)

Module PathQuality.

Import PrivacyAnalysis.
Local Open Scope Z_scope.

(** Truthiness of an integer and of an optional integer: [None] and 0 are
    falsy. *)
Definition truthy_int (z : Z) : bool := negb (z =? 0).

Definition truthy_opt_int (o : option Z) : bool :=
  match o with
  | Some z => truthy_int z
  | None => false
  end.

(** What [calculate_path_quality] returns, without the list of factors,
    which is text for display. *)
Record Quality := {
  quality_score : Z;
  quality_coinjoin_count : nat;
  quality_age_days : option Q;
  quality_strength : string
}.

(** The nested function [calculate_path_quality] of
    [analyze_exchange_proximity]; [current_height] is the variable of the
    enclosing function it reads. *)
Definition calculate_path_quality (current_height : Z) (path_hops : list ExchangeHop)
    : Quality :=
  let score := 100 in
  let coinjoin_count := 0%nat in
  let '(score, coinjoin_count) :=
    fold_left (fun acc hop =>
                 if is_coinjoin hop then (fst acc - 30, S (snd acc)) else acc)
              path_hops (score, coinjoin_count) in
  let '(score, path_age_days) :=
    match path_hops with
    | first :: _ =>
        if truthy_opt_int (hop_block_height first) && truthy_int current_height then
          let blocks_old :=
            current_height - match hop_block_height first with
                             | Some h => h
                             | None => 0
                             end in
          let path_age_days := (inject_Z (blocks_old * 10) / inject_Z (60 * 24))%Q in
          if Py.Qltb 365 path_age_days then (score - 40, Some path_age_days)
          else if Py.Qltb 180 path_age_days then (score - 20, Some path_age_days)
          else (score, Some path_age_days)
        else (score, None)
    | [] => (score, None)
    end in
  let path_length := List.length path_hops in
  let score := if (6 <? path_length)%nat then score - 10 else score in
  let score := Z.max 0 (Z.min 100 score) in
  let path_strength :=
    if 85 <=? score then "STRONG"%string
    else if 60 <=? score then "MODERATE"%string
    else if 30 <=? score then "WEAK"%string
    else "BROKEN"%string in
  {| quality_score := score;
     quality_coinjoin_count := coinjoin_count;
     quality_age_days := path_age_days;
     quality_strength := path_strength |}.

End PathQuality.

(** ** Union-find over addresses (core/union_find.py) *)

Module union_find.

Import Tracer.

(** The three dictionaries of a [UnionFind] object. *)
Record UnionFind := {
  parent : list (string * string);
  rank : list (string * nat);
  size : list (string * nat)
}.

(** [UnionFind()]. *)
Definition init : UnionFind := {| parent := []; rank := []; size := [] |}.

(** [address in self.parent]. *)
Definition contains (uf : UnionFind) (address : string) : bool :=
  match Py.dict_lookup (parent uf) address with
  | Some _ => true
  | None => false
  end.

Definition add (address : string) (uf : UnionFind) : UnionFind :=
  if contains uf address then uf
  else {| parent := Py.dict_set (parent uf) address address;
          rank := Py.dict_set (rank uf) address 0%nat;
          size := Py.dict_set (size uf) address 1%nat |}.

Definition set_parent (address p : string) (uf : UnionFind) : UnionFind :=
  {| parent := Py.dict_set (parent uf) address p; rank := rank uf; size := size uf |}.

Definition set_rank (address : string) (r : nat) (uf : UnionFind) : UnionFind :=
  {| parent := parent uf; rank := Py.dict_set (rank uf) address r; size := size uf |}.

Definition set_size (address : string) (n : nat) (uf : UnionFind) : UnionFind :=
  {| parent := parent uf; rank := rank uf; size := Py.dict_set (size uf) address n |}.

(** [find]: [limit] bounds the nesting of the calls of [find], as the
    recursion limit of the interpreter does; a subscript on a missing
    key raises. *)
Fixpoint find (limit : nat) (address : string) (uf : UnionFind)
    : Outcome (string * UnionFind) :=
  match limit with
  | O => Raised "RecursionError"
  | S limit' =>
    let uf := if contains uf address then uf else add address uf in
    match Py.dict_lookup (parent uf) address with
    | None => Raised "KeyError"
    | Some p =>
      if negb (String.eqb p address) then
        match find limit' p uf with
        | Raised e => Raised e
        | Returned (root, uf) =>
          let uf := set_parent address root uf in
          match Py.dict_lookup (parent uf) address with
          | Some r => Returned (r, uf)
          | None => Raised "KeyError"
          end
        end
      else Returned (p, uf)
    end
  end.

(** [union]: returns whether two clusters were merged. *)
Definition union (limit : nat) (address1 address2 : string) (uf : UnionFind)
    : Outcome (bool * UnionFind) :=
  match find limit address1 uf with
  | Raised e => Raised e
  | Returned (root1, uf) =>
    match find limit address2 uf with
    | Raised e => Raised e
    | Returned (root2, uf) =>
      if String.eqb root1 root2 then Returned (false, uf) else
      match Py.dict_lookup (rank uf) root1, Py.dict_lookup (rank uf) root2,
            Py.dict_lookup (size uf) root1, Py.dict_lookup (size uf) root2 with
      | Some rank1, Some rank2, Some size1, Some size2 =>
        if (rank1 <? rank2)%nat then
          Returned (true, set_size root2 (size2 + size1) (set_parent root1 root2 uf))
        else if (rank2 <? rank1)%nat then
          Returned (true, set_size root1 (size1 + size2) (set_parent root2 root1 uf))
        else
          Returned (true,
                    set_size root1 (size1 + size2)
                      (set_rank root1 (rank1 + 1) (set_parent root2 root1 uf)))
      | _, _, _, _ => Raised "KeyError"
      end
    end
  end.

Definition get_cluster_size (limit : nat) (address : string) (uf : UnionFind)
    : Outcome (nat * UnionFind) :=
  match find limit address uf with
  | Raised e => Raised e
  | Returned (root, uf) => Returned (Py.dict_get (size uf) root 1%nat, uf)
  end.

(** The loop of [get_clusters] over the addresses; a cluster is kept as
    the list of its addresses in the order they were added, each once. *)
Fixpoint collect_clusters (limit : nat) (addresses : list string)
    (clusters : list (string * list string)) (uf : UnionFind)
    : Outcome (list (string * list string) * UnionFind) :=
  match addresses with
  | [] => Returned (clusters, uf)
  | address :: rest =>
    match find limit address uf with
    | Raised e => Raised e
    | Returned (root, uf) =>
      let members :=
        match Py.dict_lookup clusters root with
        | Some members => members
        | None => []
        end in
      let members := if str_in address members then members else members ++ [address] in
      collect_clusters limit rest (Py.dict_set clusters root members) uf
    end
  end.

Definition get_clusters (limit : nat) (uf : UnionFind)
    : Outcome (list (string * list string) * UnionFind) :=
  collect_clusters limit (map fst (parent uf)) [] uf.

Definition get_cluster_members (limit : nat) (address : string) (uf : UnionFind)
    : Outcome (list string * UnionFind) :=
  match find limit address uf with
  | Raised e => Raised e
  | Returned (root, uf) =>
    match get_clusters limit uf with
    | Raised e => Raised e
    | Returned (clusters, uf) =>
        Returned (match Py.dict_lookup clusters root with
                  | Some members => members
                  | None => [address]
                  end, uf)
    end
  end.

End union_find.

(** ** The graph a trace builds *)

Module TraceGraphSpec.

Import Tracer.
Local Open Scope Q_scope.

(** The output a node stands for. *)
Definition key_of (n : UTXONode) : string * nat := (txid n, vout n).

Definition sum_values (ns : list UTXONode) : Z := Py.sumZ (map value_sats ns).

Definition has_status (st : UTXOStatus) (n : UTXONode) : bool :=
  UTXOStatus_eqb (status n) st.

(** The node is an output of a transaction the node software knows: it
    carries the amount and the fast score of that transaction, and it is
    unspent exactly when the UTXO set has it. *)
Definition node_sound (env : Env) (n : UTXONode) : Prop :=
  exists tx out,
    get_raw_transaction env (txid n) = Some tx
    /\ nth_error (tx_vout tx) (vout n) = Some out
    /\ value_sats n = sats_of_btc (value out)
    /\ coinjoin_score n = _calculate_coinjoin_score_fast tx
    /\ status n = (if get_tx_out env (txid n) (vout n) then UNSPENT else SPENT)
    /\ (status n = UNSPENT -> spent_by_txid n = None /\ spent_by_vin n = None).

(** The edge leaves a node recorded as spent by the transaction the edge
    leads to, and carries the value of that node. *)
Definition edge_explained (ns : list UTXONode) (e : TraceEdge) : Prop :=
  exists n, In n ns /\ txid n = from_txid e /\ vout n = from_vout e
            /\ status n = SPENT /\ spent_by_txid n = Some (to_txid e)
            /\ value_sats n = edge_value_sats e.

(** What holds of the state of the forward loop between two iterations. *)
Record FInv (env : Env) (s : State) : Prop := {
  inv_total :
    total_value_traced_sats (result s) = sum_values (nodes (result s));
  inv_unspent :
    unspent_endpoints (result s) = filter (has_status UNSPENT) (nodes (result s));
  inv_nodup : NoDup (map key_of (nodes (result s)));
  inv_visited :
    Forall (fun n => In (key_of n) (visited s)) (nodes (result s));
  inv_count : (List.length (nodes (result s)) <= tx_count s)%nat;
  inv_limit : (tx_count s <= MAX_TRANSACTIONS_PER_TRACE)%nat;
  inv_sound : Forall (node_sound env) (nodes (result s));
  inv_edges : Forall (edge_explained (nodes (result s))) (edges (result s));
  inv_coinjoins :
    forall t, In t (coinjoin_txids (result s))
              <-> exists n, In n (nodes (result s)) /\ txid n = t
                            /\ 0.7 < coinjoin_score n;
  inv_coinjoins_nodup : NoDup (coinjoin_txids (result s));
  inv_origins : coinbase_origins (result s) = [];
  inv_enabled :
    electrs_enabled (result s)
    = match electrs env with Some _ => true | None => false end;
  inv_no_index :
    electrs env = None ->
    edges (result s) = []
    /\ (List.length (queue s) + List.length (nodes (result s)) <= 1)%nat
    /\ Forall (fun n => spent_by_txid n = None /\ spent_by_vin n = None)
              (nodes (result s))
}.

(** The output is waiting in the queue or has been taken from it. *)
Definition pending (s : State) (k : string * nat) : Prop :=
  In k (visited s) \/ exists d, In (fst k, snd k, d) (queue s).

(** Every output of the transaction is a node. *)
Definition outputs_covered (ns : list UTXONode) (t : string) (tx : Tx) : Prop :=
  forall i, (i < List.length (tx_vout tx))%nat ->
            exists n, In n ns /\ txid n = t /\ vout n = i.

(** What the forward loop keeps so that a trace that hit no limit is
    complete. *)
Record FComplete (env : Env) (max_depth : Z) (start : string * nat) (s : State)
    : Prop := {
  cmp_timed_out : hit_limit (result s) = false -> timed_out s = false;
  cmp_start : hit_limit (result s) = false -> pending s start;
  cmp_edges :
    hit_limit (result s) = false ->
    forall e, In e (edges (result s)) ->
      exists tx, get_raw_transaction env (to_txid e) = Some tx
                 /\ forall i, (i < List.length (tx_vout tx))%nat ->
                              pending s (to_txid e, i);
  cmp_queue_depth :
    (0 <= max_depth)%Z ->
    Forall (fun it : string * nat * nat => (Z.of_nat (snd it) <= max_depth)%Z) (queue s);
  cmp_no_edges : (max_depth < 0)%Z -> edges (result s) = [];
  cmp_visited :
    (0 <= max_depth)%Z ->
    forall t i tx, In (t, i) (visited s) ->
      get_raw_transaction env t = Some tx ->
      (i < List.length (tx_vout tx))%nat ->
      exists n, In n (nodes (result s)) /\ txid n = t /\ vout n = i
}.

(** The warning a forward trace starts with when there is no address
    index. *)
Definition no_index_warning : string :=
  ("Electrs not available - forward tracing limited. "
   ++ "Can identify spent UTXOs but cannot follow to spending transaction.")%string.

(** The withdrawal and its spending transaction, without an address
    index. *)
Definition offline_world : Env :=
  let w := Scenario.world 2 in
  {| get_raw_transaction := get_raw_transaction w;
     get_tx_out := get_tx_out w;
     electrs := None;
     elapsed := elapsed w |}.

End TraceGraphSpec.

(** ** The graph a backward trace builds *)

Module BackwardGraphSpec.

Import Tracer TraceGraphSpec.
Local Open Scope Q_scope.

(** The node stands for a transaction the node software returned: it
    carries the sum of its outputs, and it is a coinbase origin exactly when
    one of its inputs is a coinbase. *)
Definition tx_node_sound (env : Env) (n : UTXONode) : Prop :=
  exists tx,
    get_raw_transaction env (txid n) = Some tx
    /\ vout n = 0%nat
    /\ value_sats n = total_output_sats tx
    /\ status n = (if existsb is_coinbase_vin (tx_vin tx) then COINBASE else SPENT)
    /\ coinjoin_score n
       = (if existsb is_coinbase_vin (tx_vin tx) then 0.0
          else _calculate_coinjoin_score_fast tx)
    /\ spent_by_txid n = None /\ spent_by_vin n = None.

(** The edge comes from an input of the transaction it leads to. *)
Definition edge_of_input (current_txid : string) (vins : list TxIn) (e : TraceEdge)
    : Prop :=
  to_txid e = current_txid /\ edge_value_sats e = 0%Z
  /\ exists vin, In vin vins /\ vin_txid vin = Some (from_txid e)
                 /\ from_vout e = match vin_vout vin with Some v => v | None => 0%nat end.

(** The edge leads to a node of the trace that is no coinbase, from one
    of the inputs of its transaction, and carries no amount. *)
Definition b_edge_explained (env : Env) (ns : list UTXONode) (e : TraceEdge) : Prop :=
  exists tx n,
    get_raw_transaction env (to_txid e) = Some tx
    /\ edge_of_input (to_txid e) (tx_vin tx) e
    /\ In n ns /\ txid n = to_txid e /\ status n = SPENT.

(** What holds of the state of the backward loop between two
    iterations. *)
Record BGInv (env : Env) (s : BState) : Prop := {
  b_inv_total :
    total_value_traced_sats (b_result s)
    = sum_values (filter (has_status SPENT) (nodes (b_result s)));
  b_inv_origins :
    coinbase_origins (b_result s) = filter (has_status COINBASE) (nodes (b_result s));
  b_inv_unspent : unspent_endpoints (b_result s) = [];
  b_inv_nodup : NoDup (map txid (nodes (b_result s)));
  b_inv_visited : Forall (fun n => In (txid n) (b_visited s)) (nodes (b_result s));
  b_inv_count : List.length (nodes (b_result s)) = b_tx_count s;
  b_inv_limit : (b_tx_count s <= MAX_TRANSACTIONS_PER_TRACE)%nat;
  b_inv_sound : Forall (tx_node_sound env) (nodes (b_result s));
  b_inv_edges : Forall (b_edge_explained env (nodes (b_result s))) (edges (b_result s));
  b_inv_coinjoins :
    forall t, In t (coinjoin_txids (b_result s))
              <-> exists n, In n (nodes (b_result s)) /\ txid n = t
                            /\ 0.7 < coinjoin_score n;
  b_inv_coinjoins_nodup : NoDup (coinjoin_txids (b_result s))
}.

(** The transaction is waiting in the queue or has been taken from it. *)
Definition b_pending (s : BState) (t : string) : Prop :=
  In t (b_visited s) \/ exists d, In (t, d) (b_queue s).

(** What the backward loop keeps so that a trace that hit no limit is
    complete. *)
Record BComplete (env : Env) (max_depth : Z) (start : string) (s : BState)
    : Prop := {
  b_cmp_start : hit_limit (b_result s) = false -> b_pending s start;
  b_cmp_edges :
    hit_limit (b_result s) = false ->
    forall e, In e (edges (b_result s)) -> b_pending s (from_txid e);
  b_cmp_queue_depth :
    (0 <= max_depth)%Z ->
    Forall (fun it : string * nat => (Z.of_nat (snd it) <= max_depth)%Z) (b_queue s);
  b_cmp_no_edges : (max_depth < 0)%Z -> edges (b_result s) = [];
  b_cmp_visited :
    (0 <= max_depth)%Z ->
    forall t tx, In t (b_visited s) ->
      get_raw_transaction env t = Some tx ->
      exists n, In n (nodes (b_result s)) /\ txid n = t
}.

End BackwardGraphSpec.

(** ** The shape of a peeling chain *)

Module PeelingShapeSpec.

Import Tracer.
Local Open Scope Q_scope.

(** The transaction is the target of an edge of the trace. *)
Definition followed_in (trace_result : TraceResult) (t : string) : Prop :=
  exists e, In e (edges trace_result) /\ to_txid e = t.

(** The amount is that of a node of the trace. *)
Definition amount_in (trace_result : TraceResult) (p : Z) : Prop :=
  exists n, In n (nodes trace_result) /\ value_sats n = p.


End PeelingShapeSpec.

(** ** Ranges of the scores of the CoinJoin detector *)

Module CoinJoinHistorySpec.

Import CoinJoin CoinJoinHistory.
Local Open Scope Q_scope.

(** A score and a confidence as every detector of a protocol returns
    them. *)
Definition in_range (sc : Q * Q) : Prop :=
  0 <= fst sc /\ fst sc <= 0.95 /\ 0 <= snd sc /\ snd sc <= 0.95.

(** A protocol one of the five detectors stands for. *)
Definition named (p : CoinJoinProtocol) : Prop := p <> NONE /\ p <> UNKNOWN.

(** What the selection among the detectors keeps of its accumulator. *)
Definition selected (best : CoinJoinProtocol * Q * Q) : Prop :=
  let '(p, s, c) := best in
  in_range (s, c) /\ (p = NONE -> s == 0) /\ p <> UNKNOWN.

(** The sum of the counts of a counter. *)
Definition counted (c : list (string * nat)) : nat :=
  fold_right Nat.add 0%nat (map snd c).

End CoinJoinHistorySpec.

(** ** The paths of a KYC trace *)

Module KYCPathSpec.

Import KYCTrace.
Local Open Scope Q_scope.

(** A transaction other than [txid] that the node software knows and that
    has an input spending the output. *)
Definition spender_of (env : Env) (txid : string) (vout : nat) (t : string) : Prop :=
  t <> txid
  /\ exists tx, get_raw_transaction env t = Some tx
                /\ existsb (spends txid vout) (tx_vin tx) = true.

(** The number of CoinJoin nodes of a path. *)
Definition count_coinjoins (p : list PathNode) : nat :=
  List.length (filter is_coinjoin p).

(** The node is an output of a transaction the node software knows, with
    its amount and its address. *)
Definition node_of (env : Env) (n : PathNode) : Prop :=
  exists tx out,
    get_raw_transaction env (txid n) = Some tx
    /\ nth_error (tx_vout tx) (vout n) = Some out
    /\ value_sats n = sats_of_btc (value out)
    /\ node_address n = address (scriptPubKey out).

(** The transaction of [b] has an input that spends the output [a]. *)
Definition hop (env : Env) (a b : PathNode) : Prop :=
  exists tx, get_raw_transaction env (txid b) = Some tx
             /\ existsb (spends (txid a) (vout a)) (tx_vin tx) = true.

(** The path starts at [start], each of its nodes is an output the node
    software knows, and each but the first is an output of a transaction
    that spends the node before it. *)
Definition spend_chain (env : Env) (start : string * nat) (p : list PathNode) : Prop :=
  Forall (node_of env) p
  /\ (forall n rest, p = n :: rest -> (txid n, vout n) = start)
  /\ (forall l1 a b l2, p = l1 ++ a :: b :: l2 -> hop env a b).

(** Every node carries its position on the path as its depth, and the
    number of CoinJoin nodes up to it. *)
Definition counters_ok (p : list PathNode) : Prop :=
  forall l1 n l2, p = l1 ++ n :: l2 ->
    depth n = List.length l1
    /\ coinjoin_count_in_path n = count_coinjoins (l1 ++ [n]).

(** What holds of an entry of the queue. *)
Definition item_ok (env : Env) (start : string * nat) (item : QueueItem) : Prop :=
  spend_chain env start (q_path item) /\ counters_ok (q_path item)
  /\ q_depth item = List.length (q_path item)
  /\ q_cj_count item = count_coinjoins (q_path item)
  /\ (q_path item = [] -> (q_txid item, q_vout item) = start)
  /\ (forall l a, q_path item = l ++ [a] ->
        exists tx, get_raw_transaction env (q_txid item) = Some tx
                   /\ existsb (spends (txid a) (vout a)) (tx_vin tx) = true).

(** The confidence level fits the score, or the trail was lost on a
    failed lookup, which the code marks LOW whatever the score. *)
Definition level_fits (d : ProbableDestination) : Prop :=
  confidence_level d = _get_confidence_level (confidence_score d)
  \/ (trail_status d = LOST /\ confidence_level d = LOW).

(** What holds of a destination. *)
Record kdest_ok (env : Env) (start : string * nat) (d : ProbableDestination)
    : Prop := {
  kd_nonempty : path d <> [];
  kd_chain : spend_chain env start (path d);
  kd_counters : counters_ok (path d);
  kd_length : path_length d = List.length (path d);
  kd_coinjoins : coinjoins_passed d = count_coinjoins (path d);
  kd_status : trail_status d <> ACTIVE;
  kd_score : 0 <= confidence_score d /\ confidence_score d <= 1;
  kd_level : level_fits d;
  kd_value :
    trail_status d <> DEPTH_LIMIT ->
    exists l n, path d = l ++ [n] /\ dest_value_sats d = value_sats n;
  kd_unspent :
    trail_status d = DEAD_END ->
    exists l n, path d = l ++ [n] /\ get_tx_out env (txid n) (vout n) = true
}.

(** The value of the destinations that ended on an unspent output. *)
Definition dead_end_value (ds : list ProbableDestination) : Z :=
  sum_value_sats (with_status DEAD_END ds).

(** What the loop keeps of the paths it builds. *)
Definition KInv (env : Env) (start : string * nat) (s : State) : Prop :=
  Forall (item_ok env start) (queue s)
  /\ Forall (kdest_ok env start) (destinations s)
  /\ result_total_traced_sats s = dead_end_value (destinations s).

(** The confidence scores do not increase along the list. *)
Fixpoint by_decreasing_confidence (ds : list ProbableDestination) : Prop :=
  match ds with
  | [] => True
  | d :: rest =>
      Forall (fun d' => confidence_score d' <= confidence_score d) rest
      /\ by_decreasing_confidence rest
  end.

(** The exchange transaction is not known, or none of its outputs pays
    the destination address. *)
Definition start_missing (env : Env) (exchange_txid destination_address : string)
    : Prop :=
  match get_raw_transaction env exchange_txid with
  | None => True
  | Some tx =>
      Forall (fun out => address (scriptPubKey out) <> Some destination_address)
             (tx_vout tx)
  end.

End KYCPathSpec.

(** ** Path quality *)

Module PathQualitySpec.

Import PrivacyAnalysis PathQuality.
Local Open Scope Z_scope.

(** The number of CoinJoin hops of a path. *)
Definition coinjoin_hops (path_hops : list ExchangeHop) : nat :=
  List.length (filter is_coinjoin path_hops).

(** The age of the path in blocks, when the first hop has a block height
    and the height of the chain is known. *)
Definition age_in_blocks (current_height : Z) (path_hops : list ExchangeHop)
    : option Z :=
  match path_hops with
  | first :: _ =>
      match hop_block_height first with
      | Some h => if negb (h =? 0) && negb (current_height =? 0)
                  then Some (current_height - h) else None
      | None => None
      end
  | [] => None
  end.

(** 40 points for more than 365 days of ten-minute blocks, 20 for more
    than 180. *)
Definition age_penalty (current_height : Z) (path_hops : list ExchangeHop) : Z :=
  match age_in_blocks current_height path_hops with
  | Some blocks => if 52560 <? blocks then 40 else if 25920 <? blocks then 20 else 0
  | None => 0
  end.

(** 10 points for more than six hops. *)
Definition length_penalty (path_hops : list ExchangeHop) : Z :=
  if (6 <? List.length path_hops)%nat then 10 else 0.

End PathQualitySpec.

(** ** The clusters of a union-find structure *)

Module UnionFindSpec.

Import union_find.

(** [self.parent.get(a)] and [self.rank.get(a, 0)]. *)
Definition par (uf : UnionFind) (a : string) : option string :=
  Py.dict_lookup (parent uf) a.

Definition rk (uf : UnionFind) (a : string) : nat := Py.dict_get (rank uf) a 0%nat.

(** [r] is the root that the parent pointers lead to from [a]. *)
Inductive rep (uf : UnionFind) : string -> string -> Prop :=
| rep_root (a : string) : par uf a = Some a -> rep uf a a
| rep_step (a p r : string) : par uf a = Some p -> p <> a -> rep uf p r -> rep uf a r.

(** Two addresses of the structure with the same root. *)
Definition same_cluster (uf : UnionFind) (a b : string) : Prop :=
  exists r, rep uf a r /\ rep uf b r.

(** The largest rank of an address of the structure. *)
Definition max_rank (uf : UnionFind) : nat :=
  fold_right Nat.max 0%nat (map (rk uf) (map fst (parent uf))).

(** The addresses of the cluster of root [r], each once. *)
Definition members_of (uf : UnionFind) (r : string) (ms : list string) : Prop :=
  NoDup ms /\ forall b, In b ms <-> rep uf b r.

(** What the operations keep: parents are addresses of the structure;
    ranks grow strictly towards the root; every address has a rank and a
    size; and a root records the size of its cluster, which is at least 2
    to the power of its rank. *)
Record UFInv (uf : UnionFind) : Prop := {
  inv_closed : forall a p, par uf a = Some p -> par uf p <> None;
  inv_rank : forall a p, par uf a = Some p -> p <> a -> (rk uf a < rk uf p)%nat;
  inv_keys :
    forall a, par uf a <> None ->
      Py.dict_lookup (rank uf) a <> None /\ Py.dict_lookup (size uf) a <> None;
  inv_members :
    forall r, par uf r = Some r ->
      exists ms, members_of uf r ms
                 /\ Py.dict_lookup (size uf) r = Some (List.length ms)
                 /\ (2 ^ rk uf r <= List.length ms)%nat
}.

(** The later structure has the addresses, ranks, sizes and clusters of
    the earlier one: only parent pointers moved. *)
Definition compressed (uf uf' : UnionFind) : Prop :=
  rank uf' = rank uf /\ size uf' = size uf
  /\ map fst (parent uf') = map fst (parent uf)
  /\ forall b r, rep uf' b r <-> rep uf b r.

(** A recursion limit above the binary logarithm of the number of
    addresses. *)
Definition deep_enough (limit : nat) (uf : UnionFind) : Prop :=
  (Nat.log2 (List.length (parent uf)) < limit)%nat.

(** What the loop of [get_clusters] holds once the addresses [done] are
    processed: under each root, the processed addresses of its cluster. *)
Definition collected (uf : UnionFind) (done : list string)
    (clusters : list (string * list string)) : Prop :=
  (forall r ms, Py.dict_lookup clusters r = Some ms ->
     NoDup ms /\ ms <> [] /\ forall b, In b ms <-> In b done /\ rep uf b r)
  /\ forall b r, In b done -> rep uf b r -> Py.dict_lookup clusters r <> None.

(** The structure after [union("a", "b")], [union("c", "d")] and
    [union("d", "b")] on an empty one. *)
Definition example : UnionFind :=
  {| parent := [("a", "c"); ("b", "a"); ("c", "c"); ("d", "c")]%string;
     rank := [("a"%string, 1%nat); ("b"%string, 0%nat); ("c"%string, 2%nat); ("d"%string, 0%nat)];
     size := [("a"%string, 2%nat); ("b"%string, 1%nat); ("c"%string, 4%nat); ("d"%string, 1%nat)] |}.

End UnionFindSpec.

(** ** Tactics *)

Module Tactics.

Import Tracer TracerSpec.

(** Reading a field of a state or of a result that the setters built. *)
Ltac fields :=
  cbn [queue visited tx_count consecutive_electrs_failures electrs_disabled
       electrs_lookup_count electrs_success_count result timed_out lookups
       set_queue set_visited set_tx_count set_consecutive_electrs_failures
       set_electrs_disabled set_electrs_lookup_count set_electrs_success_count
       set_result set_timed_out set_lookups warn add_warning
       start_txid start_vout direction Tracer.max_depth nodes edges
       unspent_endpoints coinbase_origins coinjoin_txids total_transactions
       total_value_traced_sats warnings hit_limit electrs_enabled
       with_start_txid with_start_vout with_direction with_max_depth with_nodes
       with_edges with_unspent_endpoints with_coinbase_origins
       with_coinjoin_txids with_total_transactions with_total_value_traced_sats
       with_warnings with_hit_limit with_electrs_enabled
       b_queue b_visited b_tx_count b_result
       set_b_queue set_b_visited set_b_tx_count set_b_result b_warn
       o_lookups o_lookup_count o_consecutive o_disabled o_nodes o_unspent
       o_edges o_warnings o_max_depth] in *.

(** Decides the tests of a conditional that are closed, and splits on the
    others. *)
Ltac case_ifs :=
  repeat match goal with
  | |- context [if ?b then _ else _] =>
      first [ let v := eval vm_compute in b in
              match v with
              | true => change b with true
              | false => change b with false
              end; cbv iota
            | destruct b ]
  end.

End Tactics.

(* ================================================================= *)
(** * Properties *)

(** ** Facts about the Python primitives and the loops *)

Module PyFacts.

Local Open Scope Q_scope.

Lemma Qltb_lt (x y : Q) : Py.Qltb x y = true <-> x < y.
Proof.
  unfold Py.Qltb. rewrite negb_true_iff. split; intro H.
  - apply Qnot_le_lt. intro Hle. apply Qle_bool_iff in Hle. congruence.
  - destruct (Qle_bool y x) eqn:E; [|reflexivity].
    apply Qle_bool_iff in E. lra.
Qed.

Lemma Qltb_ge (x y : Q) : Py.Qltb x y = false <-> y <= x.
Proof.
  unfold Py.Qltb. rewrite negb_false_iff. apply Qle_bool_iff.
Qed.

Lemma Qleb_le (x y : Q) : Py.Qleb x y = true <-> x <= y.
Proof. apply Qle_bool_iff. Qed.

Lemma Qleb_gt (x y : Q) : Py.Qleb x y = false <-> y < x.
Proof.
  unfold Py.Qleb. split; intro H.
  - apply Qnot_le_lt. intro Hle. apply Qle_bool_iff in Hle. congruence.
  - destruct (Qle_bool x y) eqn:E; [|reflexivity].
    apply Qle_bool_iff in E. lra.
Qed.

Lemma Qnat_pos (n : nat) : (0 < n)%nat -> 0 < inject_Z (Z.of_nat n).
Proof.
  intro H. change 0 with (inject_Z 0). rewrite <- Zlt_Qlt. lia.
Qed.

Lemma Qnat_le (k n : nat) :
  (k <= n)%nat -> inject_Z (Z.of_nat k) <= inject_Z (Z.of_nat n).
Proof. intro H. rewrite <- Zle_Qle. lia. Qed.

(** The reciprocal of a count shrinks as the count grows. *)
Lemma inv_count_le (n : nat) (k : positive) :
  (Pos.to_nat k <= n)%nat -> 1.0 / inject_Z (Z.of_nat n) <= 1 # k.
Proof.
  intro Hkn.
  assert (Hk : 0 < inject_Z (Zpos k)) by reflexivity.
  assert (Hle : inject_Z (Zpos k) <= inject_Z (Z.of_nat n)).
  { rewrite <- Zle_Qle. lia. }
  assert (Hn : 0 < inject_Z (Z.of_nat n)) by lra.
  apply Qle_shift_div_r; [assumption|].
  setoid_replace ((1 # k) * inject_Z (Z.of_nat n))
    with (inject_Z (Z.of_nat n) / inject_Z (Zpos k)).
  - apply Qle_shift_div_l; [assumption|lra].
  - rewrite (Qmake_Qdiv 1 k). field. lra.
Qed.

Lemma inv_count_nonneg (n : nat) : 0 <= 1.0 / inject_Z (Z.of_nat n).
Proof.
  destruct n as [|n].
  - vm_compute. discriminate.
  - apply Qle_shift_div_l.
    + apply Qnat_pos. lia.
    + lra.
Qed.

(** *** The last element of a list *)

Lemma last_snoc {A} (l : list A) (x d : A) : last (l ++ [x]) d = x.
Proof. apply last_last. Qed.

Lemma last_some_snoc {A} (l : list A) (x : A) :
  last (map Some (l ++ [x])) None = Some x.
Proof. rewrite map_app. simpl. apply last_last. Qed.

Lemma last_some_nil {A} (l : list A) :
  last (map Some l) None = None -> l = [].
Proof.
  destruct l as [|x l] using rev_ind; [reflexivity|].
  rewrite last_some_snoc. discriminate.
Qed.

Lemma last_some_inv {A} (l : list A) (x : A) :
  last (map Some l) None = Some x -> exists l', l = l' ++ [x].
Proof.
  destruct l as [|y l _] using rev_ind.
  - discriminate.
  - rewrite last_some_snoc. intro H. injection H as ->. eauto.
Qed.

(** *** Sorting permutes *)

Section SortFacts.
Context {A K : Type} (key : A -> K) (ltb : K -> K -> bool).

Lemma insert_desc_perm (x : A) (l : list A) :
  Permutation (Py.insert_desc key ltb x l) (x :: l).
Proof.
  induction l as [|y l IH]; simpl.
  - apply Permutation_refl.
  - destruct (ltb (key x) (key y)).
    + eapply perm_trans; [apply perm_skip, IH|apply perm_swap].
    + apply Permutation_refl.
Qed.

Lemma sorted_desc_perm (l : list A) : Permutation (Py.sorted_desc key ltb l) l.
Proof.
  induction l as [|x l IH]; simpl.
  - apply perm_nil.
  - eapply perm_trans; [apply insert_desc_perm|apply perm_skip, IH].
Qed.

Lemma insert_asc_perm (x : A) (l : list A) :
  Permutation (Py.insert_asc key ltb x l) (x :: l).
Proof.
  induction l as [|y l IH]; simpl.
  - apply Permutation_refl.
  - destruct (ltb (key y) (key x)).
    + eapply perm_trans; [apply perm_skip, IH|apply perm_swap].
    + apply Permutation_refl.
Qed.

Lemma sorted_asc_perm (l : list A) : Permutation (Py.sorted_asc key ltb l) l.
Proof.
  induction l as [|x l IH]; simpl.
  - apply perm_nil.
  - eapply perm_trans; [apply insert_asc_perm|apply perm_skip, IH].
Qed.

Lemma in_sorted_desc (l : list A) (x : A) :
  In x (Py.sorted_desc key ltb l) <-> In x l.
Proof.
  split; apply Permutation_in;
    [apply sorted_desc_perm | apply Permutation_sym, sorted_desc_perm].
Qed.
End SortFacts.

Lemma Forall_firstn {A} (P : A -> Prop) (n : nat) (l : list A) :
  Forall P l -> Forall P (firstn n l).
Proof.
  revert l. induction n as [|n IH]; intros l H; simpl.
  - constructor.
  - destruct H; constructor; auto.
Qed.

Lemma filter_perm {A} (f : A -> bool) (l1 l2 : list A) :
  Permutation l1 l2 -> Permutation (filter f l1) (filter f l2).
Proof.
  induction 1; simpl.
  - apply perm_nil.
  - destruct (f x); [apply perm_skip|]; assumption.
  - destruct (f x), (f y); try apply Permutation_refl. apply perm_swap.
  - eapply perm_trans; eassumption.
Qed.

(** *** Sums *)

Lemma fold_add_shift (l : list Z) (a : Z) :
  fold_left Z.add l a = (a + fold_left Z.add l 0)%Z.
Proof.
  revert a. induction l as [|x l IH]; intro a; simpl.
  - lia.
  - rewrite IH, (IH x). lia.
Qed.

Lemma sumZ_cons (x : Z) (l : list Z) : Py.sumZ (x :: l) = (x + Py.sumZ l)%Z.
Proof. unfold Py.sumZ. simpl. apply fold_add_shift. Qed.

Lemma sumZ_app (l1 l2 : list Z) : Py.sumZ (l1 ++ l2) = (Py.sumZ l1 + Py.sumZ l2)%Z.
Proof.
  induction l1 as [|x l1 IH]; simpl.
  - change (Py.sumZ []) with 0%Z. lia.
  - rewrite !sumZ_cons, IH. lia.
Qed.

Lemma sumZ_perm (l1 l2 : list Z) : Permutation l1 l2 -> Py.sumZ l1 = Py.sumZ l2.
Proof.
  induction 1; rewrite ?sumZ_cons; lia.
Qed.

(** *** The bounded loops *)

Section WhileFacts.
Context {S : Type} (cond : S -> bool) (body : nat -> S -> S).

(** A property the body preserves holds when the loop is left. *)
Lemma while_loop_invariant (Inv : S -> Prop) :
  (forall i s, Inv s -> cond s = true -> Inv (body i s)) ->
  forall fuel i s, Inv s -> Inv (while_loop cond body fuel i s).
Proof.
  intros Hstep fuel. induction fuel as [|fuel IH]; intros i s Hs; simpl.
  - assumption.
  - destruct (cond s) eqn:Hc; [|assumption].
    apply IH. apply Hstep; assumption.
Qed.

(** With a measure that every iteration decreases, fuel for as many
    iterations as the measure counts lets the loop end by its own
    condition. *)
Lemma while_loop_ends (mu : S -> nat) :
  (forall i s, cond s = true -> (mu (body i s) < mu s)%nat) ->
  forall fuel i s, (mu s <= fuel)%nat ->
    cond (while_loop cond body fuel i s) = false.
Proof.
  intros Hdec fuel. induction fuel as [|fuel IH]; intros i s Hmu; simpl.
  - destruct (cond s) eqn:Hc; [|reflexivity].
    specialize (Hdec i s Hc). lia.
  - destruct (cond s) eqn:Hc; [|assumption].
    apply IH. specialize (Hdec i s Hc). lia.
Qed.

(** More fuel than that changes nothing. *)
Lemma while_loop_fuel_irrelevant (mu : S -> nat) :
  (forall i s, cond s = true -> (mu (body i s) < mu s)%nat) ->
  forall fuel extra i s, (mu s <= fuel)%nat ->
    while_loop cond body (fuel + extra) i s = while_loop cond body fuel i s.
Proof.
  intros Hdec fuel. induction fuel as [|fuel IH]; intros extra i s Hmu; simpl.
  - destruct (cond s) eqn:Hc.
    + specialize (Hdec i s Hc). lia.
    + destruct extra; simpl; [reflexivity|]. rewrite Hc. reflexivity.
  - destruct (cond s) eqn:Hc; [|reflexivity].
    apply IH. specialize (Hdec i s Hc). lia.
Qed.

(** Running [n] iterations and then [k] more is running [n + k]. *)
Lemma while_loop_app (n k i : nat) (s : S) :
  while_loop cond body (n + k) i s
  = while_loop cond body k (i + n) (while_loop cond body n i s).
Proof.
  revert i s. induction n as [|n IH]; intros i s; simpl.
  - rewrite Nat.add_0_r. reflexivity.
  - destruct (cond s) eqn:Hc.
    + rewrite IH. f_equal. lia.
    + destruct k; simpl; [reflexivity|]. rewrite Hc. reflexivity.
Qed.

(** A reflexive and transitive relation that every iteration respects
    relates the state the loop starts in to the one it is left in. *)
Lemma while_loop_rel (R : S -> S -> Prop) :
  (forall s, R s s) ->
  (forall a b c, R a b -> R b c -> R a c) ->
  (forall i s, cond s = true -> R s (body i s)) ->
  forall fuel i s, R s (while_loop cond body fuel i s).
Proof.
  intros Hrefl Htrans Hstep fuel.
  induction fuel as [|fuel IH]; intros i s; simpl.
  - apply Hrefl.
  - destruct (cond s) eqn:Hc; [|apply Hrefl].
    eapply Htrans; [apply Hstep; exact Hc|apply IH].
Qed.
End WhileFacts.

End PyFacts.

(* ================================================================= *)
(** ** The CoinJoin classifier *)

Module CoinJoinFacts.

Import CoinJoin CoinJoinSpec Tactics PyFacts.
Local Open Scope Q_scope.

(** *** Counting equal values *)



(** *** The detectors on five equal outputs *)










End CoinJoinFacts.

(* ================================================================= *)
(** ** The KYC privacy tracer *)

Module KYCTraceFacts.

Import KYCTrace KYCTraceSpec PyFacts.
Local Open Scope Q_scope.

(** *** CoinJoin details *)

Lemma multiplier_table :
  multiplier "whirlpool" = 1.5 /\ multiplier "wasabi_v1" = 1.3
  /\ multiplier "wasabi_v2" = 1.8 /\ multiplier "joinmarket" = 2.0
  /\ multiplier "unknown" = 2.5.
Proof. repeat split. Qed.

(** A transaction whose score reaches the threshold gets one of the four
    named protocols, an anonymity set of two or more, and a degradation
    factor of at most 0.4. *)
Lemma coinjoin_details_bound (tx : Tx) :
  Py.Qleb COINJOIN_THRESHOLD (_calculate_coinjoin_score tx) = true ->
  let details := _get_coinjoin_details tx (_calculate_coinjoin_score tx) in
  In (fst details) mixing_protocols
  /\ (2 <= snd details)%nat
  /\ 1.0 / inject_Z (Z.of_nat (snd details)) * multiplier (fst details) <= 0.4.
Proof.
  unfold _calculate_coinjoin_score, _get_coinjoin_details.
  set (vc := Py.Counter (rounded_values (tx_vout tx))).
  set (me := Py.max_count vc).
  set (no := List.length (tx_vout tx)).
  set (ni := List.length (tx_vin tx)).
  destruct (no <? 2)%nat eqn:E2; [intro H; vm_compute in H; discriminate|].
  destruct vc as [|kv vc'] eqn:Evc; [intro H; vm_compute in H; discriminate|].
  destruct ((no =? 5)%nat && (me =? 5)%nat) eqn:Ew.
  { intros _. cbv zeta. change (Py.Qltb 0.95 COINJOIN_THRESHOLD) with false.
    cbv iota. simpl fst; simpl snd. repeat split.
    - unfold mixing_protocols; simpl; auto.
    - lia.
    - vm_compute. discriminate. }
  destruct (10 <=? me)%nat eqn:E10.
  { intros _. cbv zeta. change (Py.Qltb 0.90 COINJOIN_THRESHOLD) with false.
    cbv iota. simpl fst; simpl snd. apply Nat.leb_le in E10. repeat split.
    - unfold mixing_protocols; simpl; auto.
    - lia.
    - change (multiplier "wasabi_v1") with 1.3.
      pose proof (@inv_count_le me 10 ltac:(lia)) as Hb.
      set (x := 1.0 / inject_Z (Z.of_nat me)) in *. clearbody x. lra. }
  destruct ((10 <=? ni)%nat && (10 <=? no)%nat && (5 <=? me)%nat) eqn:Ev2.
  { intros _. cbv zeta. change (Py.Qltb 0.70 COINJOIN_THRESHOLD) with false.
    cbv iota. apply andb_true_iff in Ev2 as [Ev2 _]. rewrite Ev2.
    simpl fst; simpl snd.
    apply andb_true_iff in Ev2 as [Hi Ho].
    apply Nat.leb_le in Hi, Ho. repeat split.
    - unfold mixing_protocols; simpl; auto.
    - lia.
    - change (multiplier "wasabi_v2") with 1.8.
      pose proof (@inv_count_le (Nat.min ni no) 10 ltac:(lia)) as Hb.
      set (x := 1.0 / inject_Z (Z.of_nat (Nat.min ni no))) in *. clearbody x. lra. }
  destruct ((5 <=? me)%nat && (3 <=? ni)%nat) eqn:Ejm.
  { intros _. cbv zeta. change (Py.Qltb 0.75 COINJOIN_THRESHOLD) with false.
    cbv iota.
    assert (Hv2 : ((10 <=? ni)%nat && (10 <=? no)%nat) = false).
    { apply andb_true_iff in Ejm as [Hme _]. rewrite Hme, andb_true_r in Ev2.
      exact Ev2. }
    rewrite Hv2. simpl fst; simpl snd.
    apply andb_true_iff in Ejm as [Hme _]. apply Nat.leb_le in Hme. repeat split.
    - unfold mixing_protocols; simpl; auto.
    - lia.
    - change (multiplier "joinmarket") with 2.0.
      pose proof (@inv_count_le me 5 ltac:(lia)) as Hb.
      set (x := 1.0 / inject_Z (Z.of_nat me)) in *. clearbody x. lra. }
  destruct ((3 <=? me)%nat && (2 <=? ni)%nat);
    intro H; vm_compute in H; discriminate.
Qed.

(** Through a mix of two parties or more the confidence is the previous
    one times the reciprocal of the anonymity set times the multiplier,
    and never less than 0.001. *)
Lemma degradation_formula (protocol : string) (n : nat) (prev : Q) :
  (2 <= n)%nat ->
  _calculate_coinjoin_confidence_degradation protocol n prev
  == Qmax (prev * (1 / inject_Z (Z.of_nat n)) * multiplier protocol) 0.001.
Proof.
  intro Hn. unfold _calculate_coinjoin_confidence_degradation.
  destruct (n <? 2)%nat eqn:E; [apply Nat.ltb_lt in E; lia|].
  cbv zeta. fold (multiplier protocol).
  apply Q.max_compat; [|reflexivity].
  pose proof (@Qnat_pos n ltac:(lia)).
  field. lra.
Qed.

(** *** Paths *)

Lemma prev_confidence_of_nil : prev_confidence_of [] = 1.0.
Proof. reflexivity. Qed.

Lemma prev_confidence_of_snoc (l : list PathNode) (n : PathNode) :
  prev_confidence_of (l ++ [n]) = cumulative_confidence n.
Proof. unfold prev_confidence_of. rewrite last_some_snoc. reflexivity. Qed.

(** How a list that ends in [x] splits around one of its elements. *)
Lemma snoc_split {A} (p l1 l2 : list A) (x n : A) :
  p ++ [x] = l1 ++ n :: l2 ->
  (l2 = [] /\ l1 = p /\ n = x)
  \/ (exists l2', l2 = l2' ++ [x] /\ p = l1 ++ n :: l2').
Proof.
  destruct l2 as [|y l2 _] using rev_ind; intro H.
  - left. change (l1 ++ [n]) with (l1 ++ [n]) in H.
    apply app_inj_tail in H as [-> ->]. auto.
  - right. exists l2.
    replace (l1 ++ n :: l2 ++ [y]) with ((l1 ++ n :: l2) ++ [y]) in H
      by (rewrite <- app_assoc; reflexivity).
    apply app_inj_tail in H as [-> ->]. auto.
Qed.

Lemma queue_path_ok_nil (max_depth : nat) : queue_path_ok max_depth [].
Proof. intros l1 n l2 H. destruct l1; discriminate. Qed.

Lemma queue_path_prev (max_depth : nat) (p : list PathNode) :
  queue_path_ok max_depth p -> CONFIDENCE_COLD_THRESHOLD <= prev_confidence_of p.
Proof.
  intro H. destruct p as [|n p _] using rev_ind.
  - vm_compute. discriminate.
  - rewrite prev_confidence_of_snoc. apply (H p n []). reflexivity.
Qed.

Lemma queue_path_is_dest_path (max_depth : nat) (p : list PathNode) :
  queue_path_ok max_depth p -> dest_path_ok max_depth p.
Proof.
  intros H l1 n l2 E. destruct (H l1 n l2 E). auto.
Qed.

Lemma queue_path_not_cold (max_depth : nat) (p : list PathNode) :
  queue_path_ok max_depth p -> ~ ends_cold p.
Proof.
  intros H (l & n & -> & Hcold).
  destruct (H l n [] eq_refl) as [_ Hn]. lra.
Qed.

Lemma dest_path_snoc (max_depth : nat) (p : list PathNode) (n : PathNode) :
  queue_path_ok max_depth p ->
  hop_ok max_depth (prev_confidence_of p) n ->
  dest_path_ok max_depth (p ++ [n]).
Proof.
  intros Hp Hn l1 m l2 E.
  apply snoc_split in E as [(-> & -> & ->) | (l2' & -> & ->)].
  - split; [assumption|intro C; contradiction C; reflexivity].
  - destruct (Hp l1 m l2' eq_refl). auto.
Qed.

Lemma queue_path_snoc (max_depth : nat) (p : list PathNode) (n : PathNode) :
  queue_path_ok max_depth p ->
  hop_ok max_depth (prev_confidence_of p) n ->
  CONFIDENCE_COLD_THRESHOLD <= cumulative_confidence n ->
  queue_path_ok max_depth (p ++ [n]).
Proof.
  intros Hp Hn Hc l1 m l2 E.
  apply snoc_split in E as [(-> & -> & ->) | (l2' & -> & ->)].
  - auto.
  - apply (Hp l1 m l2' eq_refl).
Qed.

(** *** One hop *)

Lemma make_node_hop_ok (max_depth : nat) (tx : Tx) (item : QueueItem) (output : TxOut) :
  CONFIDENCE_COLD_THRESHOLD <= prev_confidence_of (q_path item) ->
  (q_depth item <= max_depth)%nat ->
  hop_ok max_depth (prev_confidence_of (q_path item)) (make_node tx item output).
Proof.
  intros Hprev Hdepth.
  set (prev := prev_confidence_of (q_path item)) in *.
  unfold CONFIDENCE_COLD_THRESHOLD in Hprev.
  unfold hop_ok, updated_confidence, make_node; cbn [cumulative_confidence is_coinjoin
    coinjoin_score anonymity_set_size coinjoin_protocol depth].
  fold prev.
  destruct (Py.Qleb COINJOIN_THRESHOLD (_calculate_coinjoin_score tx)) eqn:Ecj.
  - destruct (coinjoin_details_bound tx Ecj) as (Hproto & Hn & Hfactor).
    set (details := _get_coinjoin_details tx (_calculate_coinjoin_score tx)) in *.
    pose proof (degradation_formula (fst details) prev Hn) as Hform.
    assert (Hraw : _calculate_coinjoin_confidence_degradation (fst details) (snd details) prev
                   == Qmax (prev * (1.0 / inject_Z (Z.of_nat (snd details))
                                    * multiplier (fst details))) 0.001).
    { unfold _calculate_coinjoin_confidence_degradation.
      destruct (snd details <? 2)%nat eqn:E; [apply Nat.ltb_lt in E; lia|].
      reflexivity. }
    set (f := 1.0 / inject_Z (Z.of_nat (snd details)) * multiplier (fst details)) in *.
    clearbody f.
    refine (conj _ (conj _ (conj _ (conj _ (conj _ _))))).
    + exact Hform.
    + split; [intros _; apply Qleb_le; exact Ecj | reflexivity].
    + intros _. split; assumption.
    + rewrite Hraw. apply Q.le_max_r.
    + rewrite Hraw. apply Q.max_lub; nra.
    + assumption.
  - refine (conj _ (conj _ (conj _ (conj _ (conj _ _))))).
    + reflexivity.
    + split; [discriminate | intro H; apply Qleb_le in H; congruence].
    + discriminate.
    + lra.
    + lra.
    + assumption.
Qed.


Section LoopFacts.
Variable env : Env.
Variable max_depth : nat.
Variable start_value : Z.

Local Abbreviation process_output := (process_output env start_value).
Local Abbreviation process_item := (process_item env max_depth start_value).
Local Abbreviation loop_body := (loop_body env max_depth start_value).

(** What the processing of one output does: it ends the branch with
    one destination, cold exactly when the node is, or it queues
    successors that carry the path extended by the node. *)
Lemma process_output_cases (tx : Tx) (item : QueueItem) (output : TxOut) (s : State) :
  let node := make_node tx item output in
  let current_path := q_path item ++ [node] in
  let s' := process_output tx item output s in
  (cumulative_confidence node < CONFIDENCE_COLD_THRESHOLD
   /\ queue s' = queue s
   /\ result_total_untraceable_sats s'
      = (result_total_untraceable_sats s + value_sats node)%Z
   /\ exists d, destinations s' = destinations s ++ [d]
        /\ path d = current_path /\ trail_status d = COLD
        /\ dest_value_sats d = value_sats node)
  \/ (CONFIDENCE_COLD_THRESHOLD <= cumulative_confidence node
      /\ result_total_untraceable_sats s' = result_total_untraceable_sats s
      /\ ((queue s' = queue s
           /\ exists d, destinations s' = destinations s ++ [d]
                /\ path d = current_path /\ trail_status d <> COLD)
          \/ (destinations s' = destinations s
              /\ exists succs, queue s' = queue s ++ succs
                   /\ Forall (fun it => q_path it = current_path
                                        /\ q_depth it = S (q_depth item)) succs))).
Proof.
  intros node current_path s'. subst s'.
  unfold KYCTrace.process_output. cbv zeta. fold node. fold current_path.
  clearbody node. clearbody current_path.
  set (s1 := if is_coinjoin node then add_coinjoin_txid (q_txid item) s else s).
  assert (Hq1 : queue s1 = queue s) by (subst s1; destruct (is_coinjoin node); reflexivity).
  assert (Hd1 : destinations s1 = destinations s)
    by (subst s1; destruct (is_coinjoin node); reflexivity).
  assert (Hu1 : result_total_untraceable_sats s1 = result_total_untraceable_sats s)
    by (subst s1; destruct (is_coinjoin node); reflexivity).
  clearbody s1.
  destruct (Py.Qltb (cumulative_confidence node) CONFIDENCE_COLD_THRESHOLD) eqn:Ecold.
  { left. apply Qltb_lt in Ecold. cbn. rewrite Hq1, Hd1, Hu1.
    repeat split; auto. eexists; repeat split; reflexivity. }
  right. apply Qltb_ge in Ecold. split; [assumption|].
  destruct (get_tx_out env (q_txid item) (q_vout item)).
  { cbn. rewrite Hq1, Hd1, Hu1. split; [reflexivity|]. left.
    split; [reflexivity|]. eexists; repeat split; try reflexivity. discriminate. }
  assert (Hlost : forall score level,
    let d := {| dest_address := address_or_unknown (node_address node);
                dest_value_sats := value_sats node;
                confidence_score := score; confidence_level := level;
                path_length := Datatypes.length current_path;
                coinjoins_passed := coinjoin_count_in_path node;
                trail_status := LOST; path := current_path |} in
    result_total_untraceable_sats (add_destination d s1) = result_total_untraceable_sats s
    /\ (queue (add_destination d s1) = queue s
        /\ (exists d0, destinations (add_destination d s1) = destinations s ++ [d0]
             /\ path d0 = current_path /\ trail_status d0 <> COLD)
        \/ destinations (add_destination d s1) = destinations s
           /\ (exists succs, queue (add_destination d s1) = queue s ++ succs
                /\ Forall (fun it => q_path it = current_path
                                     /\ q_depth it = S (q_depth item)) succs))).
  { intros score level d. cbn. rewrite Hq1, Hd1, Hu1. split; [reflexivity|]. left.
    split; [reflexivity|]. eexists; repeat split; try reflexivity. discriminate. }
  destruct (electrs env) as [e|]; [|apply Hlost].
  destruct (Py.truthy (node_address node) && negb (electrs_disabled s1));
    [|apply Hlost].
  destruct (_find_spending_tx env (q_txid item) (q_vout item)
              (opt_str_default (node_address node) "")) as [[spending_txid|] failures];
    cbn [fst snd].
  - destruct (get_raw_transaction env spending_txid) as [spending_tx|].
    + cbn. rewrite Hq1, Hd1, Hu1. split; [reflexivity|]. right.
      split; [reflexivity|]. eexists. split; [reflexivity|].
      unfold successors. apply Forall_flat_map. apply Forall_forall.
      intros io _. destruct (in_visited _ _); constructor; auto.
    + cbn. rewrite Hq1, Hd1, Hu1. split; [reflexivity|]. right.
      split; [reflexivity|]. exists []. rewrite app_nil_r. auto.
  - match goal with
    | |- context [if (?a <=? ?b)%nat then _ else _] => destruct (a <=? b)%nat
    end;
      cbn; rewrite Hq1, Hd1, Hu1; (split; [reflexivity|]); left;
      (split; [reflexivity|]); eexists; repeat split; try reflexivity; discriminate.
Qed.

(** *** The invariant *)

Lemma cold_value_snoc (ds : list ProbableDestination) (d : ProbableDestination) :
  cold_value (ds ++ [d])
  = if TrailStatus_eqb (trail_status d) COLD
    then (cold_value ds + dest_value_sats d)%Z else cold_value ds.
Proof.
  unfold cold_value, sum_value_sats, with_status.
  rewrite filter_app, map_app, sumZ_app. simpl.
  destruct (TrailStatus_eqb (trail_status d) COLD); simpl.
  - rewrite sumZ_cons. change (Py.sumZ []) with 0%Z. lia.
  - change (Py.sumZ []) with 0%Z. lia.
Qed.

Lemma TrailStatus_eqb_eq (a b : TrailStatus) : TrailStatus_eqb a b = true <-> a = b.
Proof. destruct a, b; simpl; split; congruence. Qed.

(** A state that differs in fields the invariant does not read. *)
Lemma Inv_frame (s s' : State) :
  queue s' = queue s -> destinations s' = destinations s ->
  result_total_untraceable_sats s' = result_total_untraceable_sats s ->
  Inv max_depth s -> Inv max_depth s'.
Proof. unfold Inv. intros -> -> ->. auto. Qed.

Lemma Inv_add_destination (s s' : State) (d : ProbableDestination) :
  queue s' = queue s -> destinations s' = destinations s ++ [d] ->
  result_total_untraceable_sats s'
  = (if TrailStatus_eqb (trail_status d) COLD
     then result_total_untraceable_sats s + dest_value_sats d
     else result_total_untraceable_sats s)%Z ->
  dest_ok max_depth d ->
  Inv max_depth s -> Inv max_depth s'.
Proof.
  unfold Inv. intros -> -> Hu Hd (Hq & Hds & Hcold). split; [assumption|]. split.
  - apply Forall_app. split; [assumption|]. constructor; [assumption|constructor].
  - rewrite Hu, cold_value_snoc, Hcold. reflexivity.
Qed.

Lemma process_item_inv (item : QueueItem) (s : State) :
  queue_path_ok max_depth (q_path item) ->
  Inv max_depth s -> Inv max_depth (process_item item s).
Proof.
  intros Hitem Hs. unfold KYCTrace.process_item.
  destruct (in_visited (q_txid item, q_vout item) (visited s)); [assumption|].
  set (s1 := add_visited (q_txid item, q_vout item) s).
  assert (Hs1 : Inv max_depth s1) by (apply (@Inv_frame s); auto).
  clearbody s1.
  destruct (max_depth <? q_depth item)%nat eqn:Edepth.
  { unfold depth_limit_destination.
    destruct (last (map Some (q_path item)) None) as [final|]; [|assumption].
    eapply (@Inv_add_destination s1); [reflexivity|reflexivity|reflexivity| |exact Hs1].
    split; cbn [path trail_status].
    - apply queue_path_is_dest_path. assumption.
    - split; [discriminate|]. intro C.
      exfalso. eapply queue_path_not_cold; eassumption. }
  apply Nat.ltb_ge in Edepth.
  destruct (get_raw_transaction env (q_txid item)) as [tx|]; [|assumption].
  set (s2 := incr_tx_count s1).
  assert (Hs2 : Inv max_depth s2) by (apply (@Inv_frame s1); auto).
  clearbody s2.
  destruct (nth_error (tx_vout tx) (q_vout item)) as [output|]; [|assumption].
  pose proof (make_node_hop_ok tx item output (queue_path_prev Hitem) Edepth) as Hhop.
  destruct (process_output_cases tx item output s2)
    as [(Hcold & Hq & Hu & d & Hd & Hp & Hst & Hv)
       | (Hwarm & Hu & [(Hq & d & Hd & Hp & Hst) | (Hd & succs & Hq & Hsuccs)])].
  - eapply Inv_add_destination; [exact Hq|exact Hd| | |exact Hs2].
    + rewrite Hst. simpl. rewrite Hu, Hv. reflexivity.
    + split.
      * rewrite Hp. apply dest_path_snoc; assumption.
      * split; [|intros _; exact Hst]. intros _. rewrite Hp.
        eexists _, _. split; [reflexivity|assumption].
  - eapply Inv_add_destination; [exact Hq|exact Hd| | |exact Hs2].
    + destruct (TrailStatus_eqb (trail_status d) COLD) eqn:E; [|exact Hu].
      apply TrailStatus_eqb_eq in E. contradiction.
    + split.
      * rewrite Hp. apply dest_path_snoc; assumption.
      * split; [intro C; contradiction|].
        rewrite Hp. intros (l & n & E & Hn).
        apply app_inj_tail in E as [_ <-]. lra.
  - destruct Hs2 as (Hqs & Hds & Hcv). unfold Inv.
    rewrite Hq, Hd, Hu. split; [|split; assumption].
    apply Forall_app. split; [assumption|].
    eapply Forall_impl; [|exact Hsuccs].
    intros it [-> _]. apply queue_path_snoc; assumption.
Qed.

Lemma loop_body_inv (i : nat) (s : State) :
  Inv max_depth s -> Inv max_depth (loop_body i s).
Proof.
  intro Hs. unfold KYCTrace.loop_body.
  destruct (Py.Qltb MAX_TRACE_TIME_SECONDS (elapsed env i)).
  { apply (@Inv_frame s); auto. }
  set (s1 := if (MAX_QUEUE_SIZE <? Datatypes.length (queue s))%nat then _ else s).
  assert (Hs1 : Inv max_depth s1).
  { subst s1. destruct (MAX_QUEUE_SIZE <? Datatypes.length (queue s))%nat; [|assumption].
    destruct Hs as (Hq & Hd & Hc). unfold Inv.
    cbn [queue destinations result_total_untraceable_sats set_queue add_warning].
    split; [|split; assumption]. apply Forall_firstn. assumption. }
  clearbody s1.
  destruct (queue s1) as [|item rest] eqn:Eq; [assumption|].
  destruct Hs1 as (Hq & Hd & Hc). rewrite Eq in Hq.
  apply process_item_inv.
  - apply (Forall_inv Hq).
  - unfold Inv. cbn. split; [|split; assumption]. apply (Forall_inv_tail Hq).
Qed.

Lemma run_inv (s : State) :
  Inv max_depth s -> Inv max_depth (run env max_depth start_value s).
Proof.
  intro Hs. unfold run. apply while_loop_invariant; [|assumption].
  intros i s0 H0 _. apply loop_body_inv. assumption.
Qed.

Lemma initial_state_inv (exchange_txid : string) (start_vout : nat)
    (warnings : list string) :
  Inv max_depth (initial_state exchange_txid start_vout start_value warnings).
Proof.
  unfold Inv, initial_state. cbn. split; [|split].
  - constructor; [|constructor]. apply queue_path_ok_nil.
  - constructor.
  - reflexivity.
Qed.

(** *** The loop ends by itself *)

Lemma process_output_counts (tx : Tx) (item : QueueItem) (output : TxOut) (s : State) :
  tx_count (process_output tx item output s) = tx_count s
  /\ timed_out (process_output tx item output s) = timed_out s.
Proof.
  unfold KYCTrace.process_output. cbv zeta.
  set (node := make_node tx item output). clearbody node.
  set (cp := _calculate_path_confidence _ _). clearbody cp.
  set (s1 := if is_coinjoin node then add_coinjoin_txid (q_txid item) s else s).
  assert (H1 : tx_count s1 = tx_count s /\ timed_out s1 = timed_out s)
    by (subst s1; destruct (is_coinjoin node); split; reflexivity).
  clearbody s1. destruct H1 as [<- <-].
  destruct (Py.Qltb _ _); [split; reflexivity|].
  destruct (get_tx_out _ _ _); [split; reflexivity|].
  destruct (electrs env); [|split; reflexivity].
  destruct (_ && _); [|split; reflexivity].
  destruct (_find_spending_tx _ _ _ _) as [[sp|] failures]; cbn [fst snd].
  - destruct (get_raw_transaction env sp); split; reflexivity.
  - match goal with
    | |- context [if (?a <=? ?b)%nat then _ else _] => destruct (a <=? b)%nat
    end; split; reflexivity.
Qed.

(** A dequeued entry either counts one transaction or leaves the queue
    and the count as they are. *)
Lemma process_item_progress (item : QueueItem) (s : State) :
  timed_out (process_item item s) = timed_out s
  /\ ((tx_count (process_item item s) = tx_count s
       /\ queue (process_item item s) = queue s)
      \/ tx_count (process_item item s) = S (tx_count s)).
Proof.
  unfold KYCTrace.process_item.
  destruct (in_visited _ _); [auto|].
  destruct (max_depth <? q_depth item)%nat.
  { destruct (depth_limit_destination _ _); auto. }
  destruct (get_raw_transaction env (q_txid item)) as [tx|]; [|auto].
  destruct (nth_error _ _) as [output|]; [|auto].
  destruct (process_output_counts tx item output
              (incr_tx_count (add_visited (q_txid item, q_vout item) s))) as [-> ->].
  auto.
Qed.

Lemma loop_body_decreases (i : nat) (s : State) :
  loop_cond s = true -> (iterations_left (loop_body i s) < iterations_left s)%nat.
Proof.
  unfold loop_cond. intro Hc.
  apply andb_true_iff in Hc as [Hc Hcount].
  apply andb_true_iff in Hc as [Hto Hq].
  apply negb_true_iff in Hto. apply Nat.ltb_lt in Hcount.
  unfold KYCTrace.loop_body, iterations_left at 2. rewrite Hto.
  destruct (queue s) as [|item0 rest0] eqn:Eq0; [discriminate|].
  destruct (Py.Qltb _ _).
  { unfold iterations_left. cbn [timed_out set_timed_out].
    cbn [Datatypes.length]. unfold MAX_QUEUE_SIZE. lia. }
  set (s1 := if (MAX_QUEUE_SIZE <? _)%nat then _ else s).
  assert (H1 : timed_out s1 = false /\ tx_count s1 = tx_count s
               /\ queue s1 = firstn MAX_QUEUE_SIZE (queue s)).
  { subst s1.
    destruct (MAX_QUEUE_SIZE <? _)%nat eqn:E;
      cbn [timed_out tx_count queue set_queue add_warning].
    - rewrite Eq0. auto.
    - rewrite Eq0. split; [assumption|]. split; [reflexivity|].
      apply Nat.ltb_ge in E. symmetry. apply firstn_all2. exact E. }
  clearbody s1. destruct H1 as (Hto1 & Hc1 & Hq1).
  rewrite Eq0 in Hq1. change MAX_QUEUE_SIZE with (S 999) in Hq1.
  rewrite firstn_cons in Hq1. rewrite Hq1. cbv beta iota.
  pose proof (process_item_progress item0 (set_queue (firstn 999 rest0) s1))
    as (Ht & Hprog).
  cbn [timed_out tx_count queue set_queue] in Ht, Hprog.
  unfold iterations_left. rewrite Ht, Hto1.
  pose proof (firstn_le_length 999 rest0) as Hlen.
  pose proof (length_firstn 999 rest0) as Hlen'.
  cbn [Datatypes.length]. unfold MAX_TRANSACTIONS, MAX_QUEUE_SIZE in *.
  destruct Hprog as [[-> ->] | ->]; rewrite ?Hc1; lia.
Qed.

(** The fuel given to the loop suffices: it is left because its
    condition fails. *)
Lemma run_ends (exchange_txid : string) (start_vout : nat) (warnings : list string) :
  loop_cond (run env max_depth start_value
                 (initial_state exchange_txid start_vout start_value warnings))
  = false.
Proof.
  unfold run. apply while_loop_ends with (mu := iterations_left).
  - intros i s. apply loop_body_decreases.
  - unfold iterations_left, initial_state, loop_fuel.
    cbn [timed_out tx_count queue Datatypes.length].
    unfold MAX_TRANSACTIONS, MAX_QUEUE_SIZE. lia.
Qed.

End LoopFacts.

(** *** The result of a trace *)

(** Every destination of a result satisfies the invariant for the depth
    of the preset, and the cold destinations account for the untraceable
    total. *)
Lemma trace_result_ok (env : Env) (exchange_txid destination_address depth_preset : string) :
  let r := trace_kyc_withdrawal env exchange_txid destination_address depth_preset in
  trace_depth r = max_depth_of_preset depth_preset
  /\ Forall (dest_ok (max_depth_of_preset depth_preset)) (probable_destinations r)
  /\ total_untraceable_sats r = cold_value (probable_destinations r).
Proof.
  unfold trace_kyc_withdrawal.
  destruct (get_raw_transaction env exchange_txid) as [tx|];
    [|cbn; repeat split; constructor].
  destruct (find_start_vout _ _) as [[start_vout start_value]|];
    [|cbn; repeat split; constructor].
  set (s := run _ _ _ _).
  assert (Hs : Inv (max_depth_of_preset depth_preset) s).
  { subst s. apply run_inv, initial_state_inv. }
  clearbody s. destruct Hs as (_ & Hd & Hc).
  unfold assemble. cbn [trace_depth probable_destinations total_untraceable_sats].
  split; [reflexivity|]. split.
  - apply Forall_forall. intros d Hin. apply in_sorted_desc in Hin.
    rewrite Forall_forall in Hd. auto.
  - rewrite Hc. unfold cold_value, sum_value_sats, with_status.
    apply sumZ_perm, Permutation_map, filter_perm, Permutation_sym, sorted_desc_perm.
Qed.

(** *** C1: the confidence update *)



(** *** C2: confidence along a path *)

(** C2.  In the result of a KYC trace, along every destination path the
    cumulative confidence of a node is at most 1.1 times that of the node
    before it, and the cumulative confidence of every node is at least
    0.001. *)
Theorem kyc_confidence_monotone
    (env : Env) (exchange_txid destination_address depth_preset : string)
    (d : ProbableDestination) :
  In d (probable_destinations
          (trace_kyc_withdrawal env exchange_txid destination_address depth_preset)) ->
  (forall l1 parent child l2, path d = l1 ++ parent :: child :: l2 ->
     cumulative_confidence child <= cumulative_confidence parent * 1.1)
  /\ (forall n, In n (path d) -> 0.001 <= cumulative_confidence n).
Proof.
  intro Hin.
  destruct (trace_result_ok env exchange_txid destination_address depth_preset)
    as (_ & Hds & _).
  rewrite Forall_forall in Hds. destruct (Hds d Hin) as [Hp _]. split.
  - intros l1 parent child l2 E.
    assert (E' : path d = (l1 ++ [parent]) ++ child :: l2)
      by (rewrite <- app_assoc; exact E).
    destruct (Hp _ _ _ E') as [(_ & _ & _ & _ & Hle & _) _].
    rewrite prev_confidence_of_snoc in Hle. exact Hle.
  - intros n Hn. apply in_split in Hn as (l1 & l2 & E).
    destruct (Hp _ _ _ E) as [(_ & _ & _ & Hfloor & _) _]. exact Hfloor.
Qed.

Lemma kyc_confidence_monotone_witness :
  In one_mix_destination (probable_destinations one_mix_trace)
  /\ (forall l1 parent child l2,
        path one_mix_destination = l1 ++ parent :: child :: l2 ->
        cumulative_confidence child <= cumulative_confidence parent * 1.1)
  /\ (forall n, In n (path one_mix_destination) -> 0.001 <= cumulative_confidence n).
Proof.
  assert (Hin : In one_mix_destination (probable_destinations one_mix_trace))
    by (vm_compute; left; reflexivity).
  split; [exact Hin|].
  exact (kyc_confidence_monotone (Scenario.world 2) "ex" "dest" "standard"
           one_mix_destination Hin).
Defined.

(** *** C3: cold trails *)

(** C3.  In the result of a KYC trace, a node whose cumulative confidence
    is below 0.05 is the last node of its path and its destination has the
    status COLD; the untraceable total is the sum of the values of the COLD
    destinations.  In the loop, an output whose node falls below 0.05 adds
    its value to the untraceable total, is recorded as a COLD destination
    and leaves the queue as it was. *)
Theorem kyc_cold_trail_pruning
    (env : Env) (exchange_txid destination_address depth_preset : string) :
  let r := trace_kyc_withdrawal env exchange_txid destination_address depth_preset in
  (forall d l1 n l2,
     In d (probable_destinations r) -> path d = l1 ++ n :: l2 ->
     cumulative_confidence n < 0.05 ->
     l2 = [] /\ trail_status d = COLD)
  /\ total_untraceable_sats r
     = sum_value_sats (with_status COLD (probable_destinations r))
  /\ (forall start_value tx item output s,
        let node := make_node tx item output in
        let s' := process_output env start_value tx item output s in
        cumulative_confidence node < 0.05 ->
        queue s' = queue s
        /\ result_total_untraceable_sats s'
           = (result_total_untraceable_sats s + value_sats node)%Z
        /\ exists cold, destinations s' = destinations s ++ [cold]
             /\ trail_status cold = COLD /\ dest_value_sats cold = value_sats node
             /\ path cold = q_path item ++ [node]).
Proof.
  intro r.
  destruct (trace_result_ok env exchange_txid destination_address depth_preset)
    as (_ & Hds & Hcold).
  fold r in Hds, Hcold. rewrite Forall_forall in Hds.
  split; [|split].
  - intros d l1 n l2 Hin E Hn. destruct (Hds d Hin) as [Hp Hst].
    destruct (Hp _ _ _ E) as [_ Hexp].
    assert (Hl2 : l2 = []).
    { destruct l2 as [|x l2]; [reflexivity|].
      assert (Hne : x :: l2 <> []) by discriminate.
      specialize (Hexp Hne). unfold CONFIDENCE_COLD_THRESHOLD in Hexp. lra. }
    split; [exact Hl2|]. apply Hst. subst l2. exists l1, n. auto.
  - exact Hcold.
  - intros start_value tx item output s node s' Hn.
    destruct (process_output_cases env start_value tx item output s)
      as [(_ & Hq & Hu & d & Hd & Hp & Hst & Hv) | (Hwarm & _)].
    + split; [exact Hq|]. split; [exact Hu|]. exists d. auto.
    + fold node in Hwarm. unfold CONFIDENCE_COLD_THRESHOLD in Hwarm. lra.
Qed.

Lemma kyc_cold_trail_pruning_witness :
  In cold_destination (probable_destinations three_mix_trace)
  /\ path cold_destination = removelast (path cold_destination) ++ cold_node :: []
  /\ cumulative_confidence cold_node < 0.05
  /\ trail_status cold_destination = COLD
  /\ total_untraceable_sats three_mix_trace = 25000000%Z.
Proof.
  assert (Hin : In cold_destination (probable_destinations three_mix_trace))
    by (vm_compute; do 8 right; left; reflexivity).
  assert (Hpath : path cold_destination
                  = removelast (path cold_destination) ++ cold_node :: [])
    by reflexivity.
  assert (Hcold : cumulative_confidence cold_node < 0.05) by reflexivity.
  pose proof (kyc_cold_trail_pruning (Scenario.world 4) "ex" "dest" "standard")
    as (Hlast & Hsum & _).
  split; [exact Hin|]. split; [exact Hpath|]. split; [exact Hcold|].
  split.
  - exact (proj2 (Hlast cold_destination _ cold_node [] Hin Hpath Hcold)).
  - fold three_mix_trace in Hsum. rewrite Hsum. reflexivity.
Defined.

(** *** C10: the depth presets *)



End KYCTraceFacts.

(* ================================================================= *)
(** ** The overall privacy score *)

Module PrivacyScoreFacts.

Import KYCTrace PrivacyScoreSpec PyFacts.
Local Open Scope Q_scope.
Local Open Scope string_scope.

(** *** The CoinJoin factor *)

Lemma existsb_cold (ds : list ProbableDestination) :
  existsb (fun d => TrailStatus_eqb (trail_status d) COLD) ds = true <-> some_cold ds.
Proof.
  unfold some_cold. rewrite existsb_exists.
  split; intros (d & Hin & Hd); exists d; split; try assumption.
  - apply KYCTraceFacts.TrailStatus_eqb_eq. exact Hd.
  - apply KYCTraceFacts.TrailStatus_eqb_eq. exact Hd.
Qed.

Lemma coinjoin_quality_points_cases (coinjoins_encountered : nat)
    (ds : list ProbableDestination) :
  0 <= coinjoin_quality_points coinjoins_encountered ds
  /\ coinjoin_quality_points coinjoins_encountered ds <= 20
  /\ (coinjoin_quality_points coinjoins_encountered ds == 20
      <-> (2 <= coinjoins_encountered)%nat /\ some_cold ds)
  /\ (~ some_cold ds ->
      coinjoin_quality_points coinjoins_encountered ds
      == no_cold_bonus coinjoins_encountered).
Proof.
  unfold coinjoin_quality_points, no_cold_bonus.
  pose proof (existsb_cold ds) as Hcold.
  destruct (2 <=? coinjoins_encountered)%nat eqn:E2.
  - apply Nat.leb_le in E2.
    destruct (existsb _ ds).
    + assert (Hs : some_cold ds) by (apply Hcold; reflexivity).
      refine (conj _ (conj _ (conj _ _))); try (vm_compute; discriminate).
      * split; [intros _; split; assumption|reflexivity].
      * intro Hn. contradiction.
    + assert (Hs : ~ some_cold ds) by (intro H; apply Hcold in H; discriminate).
      refine (conj _ (conj _ (conj _ _))); try (vm_compute; discriminate).
      * split; [intro H; vm_compute in H; discriminate|intros [_ H]; contradiction].
      * reflexivity.
  - apply Nat.leb_gt in E2.
    destruct (coinjoins_encountered =? 1)%nat;
      (refine (conj _ (conj _ (conj _ _))); try (vm_compute; discriminate);
       [split; [intro H; vm_compute in H; discriminate|intros [H _]; lia]
       |reflexivity]).
Qed.

(** The score of a result is computed from its own fields. *)
Lemma overall_privacy_score_eq (env : Env)
    (exchange_txid destination_address depth_preset : string) :
  let r := trace_kyc_withdrawal env exchange_txid destination_address depth_preset in
  probable_destinations r <> [] ->
  overall_privacy_score r
  = _calculate_overall_privacy (original_value_sats r) (coinjoins_encountered r)
                               (probable_destinations r).
Proof.
  cbv zeta. unfold trace_kyc_withdrawal.
  destruct (get_raw_transaction env exchange_txid) as [tx|];
    [|cbn; intro H; contradiction].
  destruct (find_start_vout _ _) as [[start_vout start_value]|];
    [|cbn; intro H; contradiction].
  set (s := run _ _ _ _). clearbody s.
  unfold assemble.
  cbn [overall_privacy_score original_value_sats coinjoins_encountered
       probable_destinations].
  reflexivity.
Qed.

Lemma overall_privacy_sum (original_value_sats : Z) (coinjoins_encountered : nat)
    (ds : list ProbableDestination) :
  ds <> [] ->
  _calculate_overall_privacy original_value_sats coinjoins_encountered ds
  == Qmax 0 (Qmin (cold_trail_points original_value_sats ds
                   + high_confidence_points ds
                   + coinjoin_quality_points coinjoins_encountered ds
                   - lost_trail_penalty original_value_sats ds) 100).
Proof.
  intro Hne. unfold _calculate_overall_privacy.
  destruct ds as [|d ds]; [contradiction|]. cbv zeta.
  set (a := cold_trail_points _ _). set (b := high_confidence_points _).
  set (c := coinjoin_quality_points _ _). set (l := lost_trail_penalty _ _).
  clearbody a b c l.
  assert (E : 0.0 + a + b + c - l == a + b + c - l) by ring.
  apply Q.max_compat; [reflexivity|].
  apply Q.min_compat; [exact E|reflexivity].
Qed.

(** C4 (as the code has it): the overall privacy score of a KYC trace
    with destinations is the sum of the cold-trail points, the points for
    the absence of high-confidence destinations and the CoinJoin bonus,
    less the penalty for lost trails, held between 0 and 100.  The CoinJoin
    bonus lies between 0 and 20; it is 20 exactly when two or more
    CoinJoins were met and some destination is COLD; when no destination is
    COLD it is not zero but 10 for two or more CoinJoins and 5 for one, and
    zero only when no CoinJoin was met. *)
Theorem coinjoin_quality_bonus (env : Env)
    (exchange_txid destination_address depth_preset : string) :
  let r := trace_kyc_withdrawal env exchange_txid destination_address depth_preset in
  let ds := probable_destinations r in
  let bonus := coinjoin_quality_points (coinjoins_encountered r) ds in
  (ds <> [] ->
   overall_privacy_score r
   == Qmax 0 (Qmin (cold_trail_points (original_value_sats r) ds
                    + high_confidence_points ds
                    + bonus
                    - lost_trail_penalty (original_value_sats r) ds) 100))
  /\ 0 <= bonus /\ bonus <= 20
  /\ (bonus == 20 <-> (2 <= coinjoins_encountered r)%nat /\ some_cold ds)
  /\ (~ some_cold ds -> bonus == no_cold_bonus (coinjoins_encountered r)).
Proof.
  cbv zeta. split.
  - intro Hne.
    rewrite (overall_privacy_score_eq env exchange_txid destination_address
                                      depth_preset Hne).
    apply overall_privacy_sum. exact Hne.
  - apply coinjoin_quality_points_cases.
Qed.

Lemma coinjoin_quality_bonus_witness :
  probable_destinations KYCTraceSpec.three_mix_trace <> []
  /\ some_cold (probable_destinations KYCTraceSpec.three_mix_trace)
  /\ coinjoin_quality_points (coinjoins_encountered KYCTraceSpec.three_mix_trace)
       (probable_destinations KYCTraceSpec.three_mix_trace) == 20.
Proof.
  pose proof (coinjoin_quality_bonus (Scenario.world 4) "ex" "dest" "standard")
    as (_ & _ & _ & Htwenty & _).
  assert (Hcold : some_cold (probable_destinations KYCTraceSpec.three_mix_trace)).
  { exists KYCTraceSpec.cold_destination. split; [|reflexivity].
    vm_compute. do 8 right. left. reflexivity. }
  split; [vm_compute; discriminate|].
  split; [exact Hcold|].
  apply Htwenty. split; [vm_compute; lia|exact Hcold].
Defined.

(** C4, as worded: followed through two mixes, the withdrawal reaches
    nine destinations, none of them COLD, and two CoinJoins were met; the
    CoinJoin factor still adds 10 points, so that the score is 40 and not
    30. *)
Lemma two_mixes_without_cold_trail :
  probable_destinations two_mix_trace = two_mix_destinations
  /\ List.length two_mix_destinations = 9%nat
  /\ ~ some_cold two_mix_destinations
  /\ coinjoins_encountered two_mix_trace = 2%nat
  /\ coinjoin_quality_points (coinjoins_encountered two_mix_trace)
       (probable_destinations two_mix_trace) == 10
  /\ ~ coinjoin_quality_points (coinjoins_encountered two_mix_trace)
         (probable_destinations two_mix_trace) == 0
  /\ overall_privacy_score two_mix_trace == 40.
Proof.
  refine (conj _ (conj _ (conj _ (conj _ (conj _ (conj _ _)))))).
  - vm_compute. reflexivity.
  - reflexivity.
  - intro H. apply existsb_cold in H. vm_compute in H. discriminate.
  - vm_compute. reflexivity.
  - vm_compute. reflexivity.
  - vm_compute. discriminate.
  - vm_compute. reflexivity.
Qed.

End PrivacyScoreFacts.

(* ================================================================= *)
(** ** The forward and backward tracers *)

Module TracerFacts.

Import Tracer TracerSpec Tactics PyFacts.
Local Open Scope Q_scope.

(** *** How a state extends an earlier one *)

Lemma extends_refl (max_depth : Z) (a : Observed) : extends max_depth a a.
Proof.
  unfold extends. split; [exists []; rewrite app_nil_r; reflexivity|].
  split; [exists []; rewrite app_nil_r; auto|].
  split; [exists []; rewrite app_nil_r; auto|]. auto.
Qed.

Lemma extends_trans (max_depth : Z) (a b c : Observed) :
  extends max_depth a b -> extends max_depth b c -> extends max_depth a c.
Proof.
  intros (Hw1 & Hn1 & Hu1 & Hm1 & Hd1) (Hw2 & Hn2 & Hu2 & Hm2 & Hd2).
  destruct Hw1 as [w1 Hw1], Hw2 as [w2 Hw2].
  destruct Hn1 as (n1 & Hn1 & Hn1d & Hn1e), Hn2 as (n2 & Hn2 & Hn2d & Hn2e).
  destruct Hu1 as (u1 & Hu1 & Hu1d), Hu2 as (u2 & Hu2 & Hu2d).
  unfold extends. split; [|split; [|split; [|split]]].
  - exists (w1 ++ w2). rewrite Hw2, Hw1, app_assoc. reflexivity.
  - exists (n1 ++ n2). rewrite Hn2, Hn1, app_assoc. split; [reflexivity|].
    split; [apply Forall_app; auto|].
    intro Ha. apply Forall_app. split; [auto|]. apply Hn2e. apply Hd1. exact Ha.
  - exists (u1 ++ u2). rewrite Hu2, Hu1, app_assoc. split; [reflexivity|].
    apply Forall_app; auto.
  - congruence.
  - intro Ha. destruct (Hd1 Ha) as (Hb & E1 & E2 & E3).
    destruct (Hd2 Hb) as (Hc & F1 & F2 & F3).
    repeat split; congruence.
Qed.

(** A step that only adds warnings. *)
Lemma extends_warn (max_depth : Z) (a b : Observed) (w : list string) :
  o_warnings b = o_warnings a ++ w ->
  o_lookups b = o_lookups a -> o_lookup_count b = o_lookup_count a ->
  o_consecutive b = o_consecutive a -> o_disabled b = o_disabled a ->
  o_nodes b = o_nodes a -> o_unspent b = o_unspent a -> o_edges b = o_edges a ->
  o_max_depth b = o_max_depth a ->
  extends max_depth a b /\ (breaker_ok a -> breaker_ok b).
Proof.
  intros Hw Hl Hc Hk Hd Hn Hu He Hm. split.
  - unfold extends. rewrite Hn, Hu, He, Hm, Hl, Hc, Hd.
    split; [eauto|]. split; [exists []; rewrite app_nil_r; auto|].
    split; [exists []; rewrite app_nil_r; auto|]. auto.
  - unfold breaker_ok. rewrite Hl, Hc, Hk, Hd, Hw.
    intros (H1 & H2 & H3 & H4). repeat (split; [assumption|]).
    intro E. destruct (H4 E). split; [assumption|]. apply in_or_app. auto.
Qed.

Section ForwardFacts.
Variable env : Env.
Variable max_depth : Z.

Local Abbreviation resolve_spent := (resolve_spent env max_depth).
Local Abbreviation process_output := (process_output env max_depth).
Local Abbreviation process_item := (process_item env max_depth).
Local Abbreviation loop_body := (loop_body env max_depth).

Lemma resolve_spent_resolved (current_txid : string) (current_vout depth : nat)
    (address : option string) (value_sats : Z) (s : State) :
  let '(s', found, vin) :=
    resolve_spent current_txid current_vout depth address value_sats s in
  resolved max_depth depth s s' found vin.
Proof.
  unfold Tracer.resolve_spent.
  destruct (electrs env) as [e|] eqn:Ee; [|apply no_lookup].
  destruct (Py.truthy address); [|apply no_lookup].
  destruct (Z.of_nat depth <? max_depth)%Z eqn:Ed; [|apply no_lookup].
  destruct (electrs_disabled s) eqn:Edis; [apply no_lookup|].
  cbn [andb negb]. apply Z.ltb_lt in Ed.
  set (found := _find_spending_tx_electrs env current_txid current_vout).
  clearbody found.
  destruct (Py.truthy found) eqn:Et.
  - destruct (get_raw_transaction env (opt_str_default found "")) as [spending_tx|].
    + eapply lookup_found with (entry := (current_txid, current_vout, found));
        try reflexivity; try assumption.
      * unfold lookup_failed. cbn [snd]. rewrite Et. reflexivity.
      * unfold successors. apply Forall_flat_map. apply Forall_forall.
        intros io _. destruct (in_visited _ _); constructor; auto.
    + eapply lookup_found with (entry := (current_txid, current_vout, found))
                               (new_edges := []) (succs := []);
        try reflexivity; try assumption; fields; rewrite ?app_nil_r; auto.
      unfold lookup_failed. cbn [snd]. rewrite Et. reflexivity.
  - cbv zeta.
    destruct (MAX_CONSECUTIVE_ELECTRS_FAILURES <=? S (consecutive_electrs_failures s))%nat
      eqn:Emax;
      eapply lookup_missed with (entry := (current_txid, current_vout, found));
      fields; rewrite ?Emax; try reflexivity; try assumption;
      unfold lookup_failed; cbn [snd]; rewrite Et; reflexivity.
Qed.

(** What the processing of one output does to what is observed. *)
Lemma process_output_step (tx : Tx) (current_txid : string)
    (current_vout depth : nat) (output : TxOut) (s : State) :
  (Z.of_nat depth <= max_depth)%Z ->
  let s' := process_output tx current_txid current_vout depth output s in
  extends max_depth (observe s) (observe s')
  /\ (breaker_ok (observe s) -> breaker_ok (observe s')).
Proof.
  intros Hdepth s'. subst s'. unfold Tracer.process_output. cbv zeta.
  set (s0 := if _ && _ then _ else s).
  assert (H0 : observe s0 = observe s) by (subst s0; destruct (_ && _); reflexivity).
  assert (Hdis0 : electrs_disabled s0 = electrs_disabled s)
    by (subst s0; destruct (_ && _); reflexivity).
  assert (Hcons0 : consecutive_electrs_failures s0 = consecutive_electrs_failures s)
    by (subst s0; destruct (_ && _); reflexivity).
  clearbody s0. rewrite <- H0.
  destruct (get_tx_out env current_txid current_vout).
  { split.
    - unfold extends, observe. fields.
      split; [exists []; rewrite app_nil_r; reflexivity|].
      split; [eexists; split; [reflexivity|]; split|].
      + constructor; [exact Hdepth|constructor].
      + intros _. constructor; [|constructor]. unfold dead_end. cbn. auto.
      + split; [eexists; split; [reflexivity|]|auto].
        constructor; [exact Hdepth|constructor].
    - unfold breaker_ok, observe. fields. auto. }
  pose proof (resolve_spent_resolved current_txid current_vout depth
                (address (scriptPubKey output)) (sats_of_btc (value output)) s0) as Hr.
  destruct (resolve_spent _ _ _ _ _ s0) as [[s1 found] vin].
  inversion Hr as [ Es Ef Ev
                  | s1' found' vin' entry new_edges succs Hd0 Hlt Hok Hl Hc Hk Hd1 Hq
                      Hsucc Hv Ht Hto Hn Hu He Hw Hm
                  | s1' found' entry Hd0 Hfail Hl Hc Hk Hd1 Hw Hq Hv Ht Hto Hn Hu He Hm ];
    subst.
  - split.
    + unfold extends, observe. fields.
      split; [exists []; rewrite app_nil_r; reflexivity|].
      split; [eexists; split; [reflexivity|]; split|].
      * constructor; [exact Hdepth|constructor].
      * intros _. constructor; [|constructor]. unfold dead_end. cbn. auto.
      * split; [exists []; rewrite app_nil_r; auto|auto].
    + unfold breaker_ok, observe. fields. auto.
  - split.
    + unfold extends, observe. fields. rewrite Hd0, Hw, Hn, Hu, Hm.
      split; [exists []; rewrite app_nil_r; reflexivity|].
      split; [eexists; split; [reflexivity|]; split|].
      * constructor; [exact Hdepth|constructor].
      * discriminate.
      * split; [exists []; rewrite app_nil_r; auto|].
        split; [reflexivity|discriminate].
    + unfold breaker_ok, observe. fields. rewrite Hl, Hc, Hk, Hd1, Hw.
      intros (H1 & H2 & H3 & H4). cbn [latest_failures Datatypes.length].
      rewrite Hok. split; [reflexivity|]. split; [congruence|].
      split; [reflexivity|discriminate].
  - split.
    + unfold extends, observe. fields. rewrite Hd0, Hw, Hn, Hu, Hm.
      split.
      { destruct (_ <=? _)%nat; eexists; [reflexivity|].
        rewrite app_nil_r. reflexivity. }
      split; [eexists; split; [reflexivity|]; split|].
      * constructor; [exact Hdepth|constructor].
      * discriminate.
      * split; [exists []; rewrite app_nil_r; auto|].
        split; [reflexivity|discriminate].
    + unfold breaker_ok, observe. fields. rewrite Hl, Hc, Hk, Hd1, Hw.
      intros (H1 & H2 & H3 & H4). cbn [latest_failures Datatypes.length].
      rewrite Hfail. split; [congruence|]. split; [congruence|].
      split; [reflexivity|]. intro Emax. rewrite Emax.
      rewrite Hd0 in H3. symmetry in H3.
      unfold MAX_CONSECUTIVE_ELECTRS_FAILURES in *.
      apply Nat.leb_le in Emax. apply Nat.leb_gt in H3.
      assert (E3 : S (consecutive_electrs_failures s0) = 3%nat) by lia.
      rewrite E3. split; [reflexivity|]. apply in_or_app. right. left. reflexivity.
Qed.

Lemma process_item_step (item : string * nat * nat) (s : State) :
  extends max_depth (observe s) (observe (process_item item s))
  /\ (breaker_ok (observe s) -> breaker_ok (observe (process_item item s))).
Proof.
  unfold Tracer.process_item. destruct item as [[current_txid current_vout] depth].
  destruct (in_visited _ _); [split; [apply extends_refl|auto]|].
  set (s1 := set_visited _ s).
  assert (H1 : observe s1 = observe s) by reflexivity.
  clearbody s1. rewrite <- H1.
  destruct (max_depth <? Z.of_nat depth)%Z eqn:Ed.
  { eapply extends_warn; reflexivity. }
  apply Z.ltb_ge in Ed.
  destruct (get_raw_transaction env current_txid) as [tx|];
    [|eapply extends_warn; reflexivity].
  set (s2 := set_tx_count _ s1).
  assert (H2 : observe s2 = observe s1) by reflexivity.
  clearbody s2. rewrite <- H2.
  destruct (nth_error _ _) as [output|]; [|eapply extends_warn; reflexivity].
  apply process_output_step. exact Ed.
Qed.

Lemma loop_body_step (i : nat) (s : State) :
  extends max_depth (observe s) (observe (loop_body i s))
  /\ (breaker_ok (observe s) -> breaker_ok (observe (loop_body i s))).
Proof.
  unfold Tracer.loop_body.
  destruct (Py.Qltb _ _); [eapply extends_warn; reflexivity|].
  set (s1 := if (_ <? _)%nat then _ else s).
  assert (H1 : extends max_depth (observe s) (observe s1)
               /\ (breaker_ok (observe s) -> breaker_ok (observe s1))).
  { subst s1. destruct (_ <? _)%nat.
    - eapply extends_warn; reflexivity.
    - split; [apply extends_refl|auto]. }
  clearbody s1. destruct H1 as [He1 Hb1].
  destruct (queue s1) as [|item rest] eqn:Eq; [split; assumption|].
  destruct (process_item_step item (set_queue rest s1)) as [He2 Hb2].
  change (observe (set_queue rest s1)) with (observe s1) in He2, Hb2.
  split; [eapply extends_trans; eassumption|auto].
Qed.

(** *** The loop ends by itself *)

Lemma forward_output_counts (tx : Tx) (current_txid : string)
    (current_vout depth : nat) (output : TxOut) (s : State) :
  tx_count (process_output tx current_txid current_vout depth output s) = tx_count s
  /\ timed_out (process_output tx current_txid current_vout depth output s)
     = timed_out s.
Proof.
  unfold Tracer.process_output. cbv zeta.
  set (s0 := if _ && _ then _ else s).
  assert (H0 : tx_count s0 = tx_count s /\ timed_out s0 = timed_out s)
    by (subst s0; destruct (_ && _); split; reflexivity).
  clearbody s0. destruct H0 as [<- <-].
  destruct (get_tx_out env current_txid current_vout); [split; reflexivity|].
  pose proof (resolve_spent_resolved current_txid current_vout depth
                (address (scriptPubKey output)) (sats_of_btc (value output)) s0) as Hr.
  destruct (resolve_spent _ _ _ _ _ s0) as [[s1 found] vin].
  inversion Hr; subst; fields; split; auto.
Qed.

Lemma forward_item_progress (item : string * nat * nat) (s : State) :
  timed_out (process_item item s) = timed_out s
  /\ ((tx_count (process_item item s) = tx_count s
       /\ queue (process_item item s) = queue s)
      \/ tx_count (process_item item s) = S (tx_count s)).
Proof.
  unfold Tracer.process_item. destruct item as [[current_txid current_vout] depth].
  destruct (in_visited _ _); [auto|].
  destruct (max_depth <? Z.of_nat depth)%Z; [auto|].
  destruct (get_raw_transaction env current_txid) as [tx|]; [|auto].
  destruct (nth_error _ _) as [output|]; [|auto].
  destruct (forward_output_counts tx current_txid current_vout depth output
              (set_tx_count (S (tx_count (set_visited ((current_txid, current_vout)
                 :: visited s) s))) (set_visited ((current_txid, current_vout)
                 :: visited s) s))) as [-> ->].
  auto.
Qed.

Lemma forward_body_decreases (i : nat) (s : State) :
  loop_cond s = true -> (iterations_left (loop_body i s) < iterations_left s)%nat.
Proof.
  unfold Tracer.loop_cond. intro Hc.
  apply andb_true_iff in Hc as [Hc Hcount].
  apply andb_true_iff in Hc as [Hto Hq].
  apply negb_true_iff in Hto. apply Nat.ltb_lt in Hcount.
  unfold Tracer.loop_body, iterations_left at 2. rewrite Hto.
  destruct (queue s) as [|item0 rest0] eqn:Eq0; [discriminate|].
  destruct (Py.Qltb _ _).
  { unfold iterations_left. fields.
    cbn [Datatypes.length]. unfold MAX_QUEUE_SIZE. lia. }
  set (s1 := if (MAX_QUEUE_SIZE <? _)%nat then _ else s).
  assert (H1 : timed_out s1 = false /\ tx_count s1 = tx_count s
               /\ queue s1 = firstn MAX_QUEUE_SIZE (queue s)).
  { subst s1.
    destruct (MAX_QUEUE_SIZE <? _)%nat eqn:E; fields.
    - rewrite Eq0. auto.
    - rewrite Eq0. split; [assumption|]. split; [reflexivity|].
      apply Nat.ltb_ge in E. symmetry. apply firstn_all2. exact E. }
  clearbody s1. destruct H1 as (Hto1 & Hc1 & Hq1).
  rewrite Eq0 in Hq1. change MAX_QUEUE_SIZE with (S 999) in Hq1.
  rewrite firstn_cons in Hq1. rewrite Hq1. cbv beta iota.
  pose proof (forward_item_progress item0 (set_queue (firstn 999 rest0) s1))
    as (Ht & Hprog).
  fields.
  unfold iterations_left. rewrite Ht, Hto1.
  pose proof (firstn_le_length 999 rest0) as Hlen.
  pose proof (length_firstn 999 rest0) as Hlen'.
  cbn [Datatypes.length]. unfold MAX_TRANSACTIONS_PER_TRACE, MAX_QUEUE_SIZE in *.
  destruct Hprog as [[-> ->] | ->]; rewrite ?Hc1; lia.
Qed.

(** *** States along a run *)

Variable txid : string.
Variable vout : nat.

Local Abbreviation state_after := (fun n => state_after env max_depth n txid vout).

Lemma initial_iterations :
  (iterations_left (initial_state env max_depth txid vout) <= loop_fuel)%nat.
Proof.
  unfold iterations_left, initial_state, loop_fuel. fields.
  cbn [Datatypes.length]. unfold MAX_TRANSACTIONS_PER_TRACE, MAX_QUEUE_SIZE. lia.
Qed.

(** The fuel of [trace_forward] suffices: its loop ends because its
    condition fails, and more iterations change nothing. *)
Lemma state_after_ends : loop_cond (state_after loop_fuel) = false.
Proof.
  unfold Tracer.state_after. apply while_loop_ends with (mu := iterations_left).
  - intros i s. apply forward_body_decreases.
  - apply initial_iterations.
Qed.

Lemma state_after_saturates (n : nat) :
  (loop_fuel <= n)%nat -> state_after n = state_after loop_fuel.
Proof.
  intro Hn. unfold Tracer.state_after.
  replace n with (loop_fuel + (n - loop_fuel))%nat by lia.
  apply while_loop_fuel_irrelevant with (mu := iterations_left).
  - intros i s. apply forward_body_decreases.
  - apply initial_iterations.
Qed.

Lemma state_after_extends (n m : nat) :
  (n <= m)%nat ->
  extends max_depth (observe (state_after n)) (observe (state_after m)).
Proof.
  intro Hnm. unfold Tracer.state_after.
  replace m with (n + (m - n))%nat by lia. rewrite while_loop_app.
  apply while_loop_rel with (R := fun a b => extends max_depth (observe a) (observe b)).
  - intro s. apply extends_refl.
  - intros a b c. apply extends_trans.
  - intros i s _. apply loop_body_step.
Qed.

Lemma initial_breaker : breaker_ok (observe (initial_state env max_depth txid vout)).
Proof.
  unfold breaker_ok, observe, initial_state. fields.
  repeat split; try reflexivity; discriminate.
Qed.

Lemma state_after_breaker (n : nat) : breaker_ok (observe (state_after n)).
Proof.
  unfold Tracer.state_after.
  apply while_loop_invariant with (Inv := fun s => breaker_ok (observe s)).
  - intros i s Hs _. apply loop_body_step. exact Hs.
  - apply initial_breaker.
Qed.

Lemma initial_observed :
  o_nodes (observe (initial_state env max_depth txid vout)) = []
  /\ o_unspent (observe (initial_state env max_depth txid vout)) = []
  /\ o_max_depth (observe (initial_state env max_depth txid vout)) = max_depth.
Proof.
  unfold observe, initial_state. fields.
  destruct (electrs env); auto.
Qed.

(** No node of a state along the run lies beyond the depth limit. *)
Lemma state_after_depth (n : nat) :
  Forall (fun nd => (Z.of_nat (depth nd) <= max_depth)%Z)
         (nodes (result (state_after n)))
  /\ Tracer.max_depth (result (state_after n)) = max_depth.
Proof.
  pose proof (state_after_extends (n := 0%nat) (m := n) ltac:(lia))
    as (_ & (new & Hn & Hd & _) & _ & Hm & _).
  change (Tracer.state_after env max_depth 0 txid vout)
    with (initial_state env max_depth txid vout) in Hn, Hm.
  destruct initial_observed as (E1 & _ & E3).
  rewrite E1 in Hn. rewrite E3 in Hm. unfold observe in Hn, Hm. fields.
  rewrite Hn. auto.
Qed.

End ForwardFacts.

(** *** The circuit breaker of the forward trace *)

Lemma finish_keeps_warnings (s : State) (w : string) :
  In w (warnings (result s)) -> In w (warnings (finish s)).
Proof.
  intro H. unfold finish.
  destruct (MAX_TRANSACTIONS_PER_TRACE <=? tx_count s)%nat; fields;
    [apply in_or_app; left|]; exact H.
Qed.

Lemma trace_forward_eq (settings : Settings) (env : Env) (txid : string)
    (vout : nat) (max_depth : option Z) :
  trace_forward settings env txid vout max_depth
  = finish (state_after env (effective_max_depth settings max_depth) loop_fuel txid vout).
Proof. reflexivity. Qed.

(** Warnings are only added along a run. *)
Lemma warnings_grow (env : Env) (depth_limit : Z) (txid : string) (vout : nat)
    (n m : nat) (w : string) :
  (n <= m)%nat ->
  In w (warnings (result (state_after env depth_limit n txid vout))) ->
  In w (warnings (result (state_after env depth_limit m txid vout))).
Proof.
  intros Hnm Hin.
  destruct (state_after_extends env depth_limit txid vout Hnm) as ([ws Hw] & _).
  unfold observe, o_warnings in Hw. rewrite Hw.
  apply in_or_app. left. exact Hin.
Qed.

(** A warning recorded at some point of the run is in the result. *)
Lemma warning_reaches_result (settings : Settings) (env : Env) (txid : string)
    (vout : nat) (max_depth : option Z) (n : nat) (w : string) :
  In w (warnings (result (state_after env (effective_max_depth settings max_depth)
                                      n txid vout))) ->
  In w (warnings (trace_forward settings env txid vout max_depth)).
Proof.
  intro Hin. rewrite trace_forward_eq. apply finish_keeps_warnings.
  destruct (Nat.le_ge_cases n loop_fuel) as [Hle | Hge].
  - exact (warnings_grow env _ txid vout w Hle Hin).
  - rewrite <- (state_after_saturates env _ txid vout Hge). exact Hin.
Qed.

(** An output found spent while the address index is disabled. *)
Lemma disabled_spent_output (env : Env) (depth_limit : Z) (tx : Tx)
    (current_txid : string) (current_vout depth : nat) (output : TxOut) (s0 : State) :
  electrs_disabled s0 = true ->
  get_tx_out env current_txid current_vout = false ->
  let s1 := process_output env depth_limit tx current_txid current_vout
                           depth output s0 in
  queue s1 = queue s0 /\ lookups s1 = lookups s0
  /\ edges (result s1) = edges (result s0)
  /\ exists node, nodes (result s1) = nodes (result s0) ++ [node]
       /\ status node = SPENT /\ spent_by_txid node = None.
Proof.
  intros Hd Hspent. unfold process_output. cbv zeta. rewrite Hspent.
  set (s2 := if _ && _ then _ else s0).
  assert (H2 : electrs_disabled s2 = true /\ queue s2 = queue s0
               /\ lookups s2 = lookups s0 /\ edges (result s2) = edges (result s0)
               /\ nodes (result s2) = nodes (result s0)).
  { subst s2. destruct (_ && _); fields; auto. }
  clearbody s2. destruct H2 as (Hd2 & <- & <- & <- & <-).
  pose proof (resolve_spent_resolved env depth_limit current_txid current_vout depth
                (address (scriptPubKey output)) (sats_of_btc (value output)) s2) as Hr.
  destruct (resolve_spent _ _ _ _ _ _ _ s2) as [[s3 found] vin].
  inversion Hr; subst; try congruence.
  fields. repeat (split; [reflexivity|]). eexists. split; [reflexivity|]. auto.
Qed.

(** What stays as it is once the address index is disabled. *)
Lemma disabled_stays (env : Env) (depth_limit : Z) (txid : string) (vout : nat)
    (n m : nat) :
  (n <= m)%nat ->
  let s := state_after env depth_limit n txid vout in
  let s' := state_after env depth_limit m txid vout in
  electrs_disabled s = true ->
  electrs_disabled s' = true
  /\ lookups s' = lookups s
  /\ electrs_lookup_count s' = electrs_lookup_count s
  /\ edges (result s') = edges (result s)
  /\ exists new, nodes (result s') = nodes (result s) ++ new /\ Forall dead_end new.
Proof.
  intros Hnm s s' Hd. subst s s'.
  destruct (state_after_extends env depth_limit txid vout Hnm)
    as (_ & (new & Hn & _ & Hdead) & _ & _ & Hkeep).
  unfold observe in Hn, Hdead, Hkeep. fields.
  destruct (Hkeep Hd) as (E1 & E2 & E3 & E4).
  repeat (split; [assumption|]). exists new. auto.
Qed.

(** Three failed lookups in a row disable the address index. *)
Lemma three_failures_disable (env : Env) (depth_limit : Z) (txid : string)
    (vout : nat) (n : nat) :
  let s := state_after env depth_limit n txid vout in
  (forall a b c rest,
     lookups s = a :: b :: c :: rest ->
     lookup_failed a = true -> lookup_failed b = true -> lookup_failed c = true ->
     electrs_disabled s = true)
  /\ (electrs_disabled s = true ->
      In (electrs_disabled_warning 3) (warnings (result s))).
Proof.
  intro s. subst s.
  destruct (state_after_breaker env depth_limit txid vout n)
    as (Hcons & _ & Hdis & Hwarn).
  unfold observe in Hcons, Hdis, Hwarn. fields. split.
  - intros a b c rest Hl Ha Hb Hc.
    rewrite Hdis, Hcons, Hl. cbn [latest_failures]. rewrite Ha, Hb, Hc. reflexivity.
  - intro Hd. apply Hwarn. exact Hd.
Qed.

(** *** C7 *)

(** C7.  Take the state of a forward trace after any number [n] of
    iterations of its loop.  If the three latest lookups of the address
    index all failed, the index is disabled.  Once it is disabled, the
    warnings of the result contain the message that says so for 3
    consecutive failures, and in every later state it is still disabled,
    no lookup and no edge has been added, and every node added since has
    no spending transaction.  An output found spent while the index is
    disabled becomes one SPENT node without spending transaction, with no
    edge, no lookup and no new entry in the queue. *)
Theorem forward_circuit_breaker
    (settings : Settings) (env : Env) (txid : string) (vout : nat)
    (max_depth : option Z) (n : nat) :
  let depth_limit := effective_max_depth settings max_depth in
  let s := state_after env depth_limit n txid vout in
  electrs_disabled_warning 3
  = "Electrs disabled after 3 consecutive failures - continuing without forward tracing"%string
  /\ (forall a b c rest,
        lookups s = a :: b :: c :: rest ->
        lookup_failed a = true -> lookup_failed b = true -> lookup_failed c = true ->
        electrs_disabled s = true)
  /\ (electrs_disabled s = true ->
      In (electrs_disabled_warning 3)
         (warnings (trace_forward settings env txid vout max_depth))
      /\ forall m, (n <= m)%nat ->
           let s' := state_after env depth_limit m txid vout in
           electrs_disabled s' = true
           /\ lookups s' = lookups s
           /\ electrs_lookup_count s' = electrs_lookup_count s
           /\ edges (result s') = edges (result s)
           /\ exists new, nodes (result s') = nodes (result s) ++ new
                /\ Forall dead_end new)
  /\ (forall tx current_txid current_vout depth output s0,
        electrs_disabled s0 = true ->
        get_tx_out env current_txid current_vout = false ->
        let s1 := process_output env depth_limit tx current_txid current_vout
                                 depth output s0 in
        queue s1 = queue s0 /\ lookups s1 = lookups s0
        /\ edges (result s1) = edges (result s0)
        /\ exists node, nodes (result s1) = nodes (result s0) ++ [node]
             /\ status node = SPENT /\ spent_by_txid node = None).
Proof.
  intros depth_limit s.
  destruct (three_failures_disable env depth_limit txid vout n) as [Hthree Hwarn].
  split; [reflexivity|]. split; [exact Hthree|]. split.
  - intro Hd. split.
    + apply (warning_reaches_result settings env txid vout max_depth n).
      apply Hwarn. exact Hd.
    + intros m Hnm.
      exact (disabled_stays env depth_limit txid vout Hnm Hd).
  - intros tx current_txid current_vout depth output s0.
    apply disabled_spent_output.
Qed.

(** The trace of the withdrawal in a world whose address index fails
    after the first answer: the fourth iteration meets the third
    failure. *)
Lemma forward_circuit_breaker_witness :
  let s := state_after Scenario.world_with_failing_index
                       (effective_max_depth default_settings None) 4 "ex" 0 in
  electrs_disabled s = true
  /\ In (electrs_disabled_warning 3)
        (warnings (trace_forward default_settings Scenario.world_with_failing_index
                                 "ex" 0 None))
  /\ electrs_lookup_count
       (state_after Scenario.world_with_failing_index
                    (effective_max_depth default_settings None) 6 "ex" 0)
     = electrs_lookup_count s.
Proof.
  intro s.
  assert (Hd : electrs_disabled s = true) by reflexivity.
  pose proof (forward_circuit_breaker default_settings
                Scenario.world_with_failing_index "ex" 0 None 4)
    as (_ & _ & Hafter & _).
  destruct (Hafter Hd) as [Hwarn Hlater].
  split; [exact Hd|]. split; [exact Hwarn|].
  destruct (Hlater 6%nat ltac:(lia)) as (_ & _ & Hcount & _). exact Hcount.
Defined.

(** *** The depth limit in the forward trace *)

Lemma finish_nodes (s : State) :
  nodes (finish s) = nodes (result s)
  /\ unspent_endpoints (finish s) = unspent_endpoints (result s)
  /\ Tracer.max_depth (finish s) = Tracer.max_depth (result s).
Proof.
  unfold finish. destruct (MAX_TRANSACTIONS_PER_TRACE <=? tx_count s)%nat;
    fields; auto.
Qed.

(** No node of the result of [trace_forward] lies beyond the depth the
    result reports. *)
Lemma trace_forward_depth (settings : Settings) (env : Env) (txid : string)
    (vout : nat) (max_depth : option Z) :
  let r := trace_forward settings env txid vout max_depth in
  Tracer.max_depth r = effective_max_depth settings max_depth
  /\ Forall (fun n => (Z.of_nat (depth n) <= Tracer.max_depth r)%Z) (nodes r).
Proof.
  cbv zeta. rewrite trace_forward_eq.
  destruct (state_after_depth env (effective_max_depth settings max_depth) txid vout
              loop_fuel) as [Hn Hm].
  destruct (finish_nodes (state_after env (effective_max_depth settings max_depth)
                                      loop_fuel txid vout)) as (-> & _ & ->).
  rewrite Hm. auto.
Qed.

(** An entry beyond the depth limit leaves the queue, the nodes and the
    edges as they are. *)
Lemma forward_beyond_depth (env : Env) (depth_limit : Z) (current_txid : string)
    (current_vout depth : nat) (s : State) :
  (depth_limit < Z.of_nat depth)%Z ->
  let s' := process_item env depth_limit (current_txid, current_vout, depth) s in
  queue s' = queue s /\ nodes (result s') = nodes (result s)
  /\ edges (result s') = edges (result s).
Proof.
  intro Hd. unfold process_item.
  destruct (in_visited _ _); [auto|].
  apply Z.ltb_lt in Hd. rewrite Hd. fields. auto.
Qed.

(** *** The backward trace *)

Section BackwardFacts.
Variable env : Env.
Variable max_depth : Z.

Local Abbreviation b_process_tx := (b_process_tx max_depth).
Local Abbreviation b_process_item := (b_process_item env max_depth).
Local Abbreviation b_loop_body := (b_loop_body env max_depth).

Lemma add_parents_frame (vins : list TxIn) (current_txid : string) (depth : nat)
    (s : BState) :
  let s' := add_parents vins current_txid depth s in
  nodes (b_result s') = nodes (b_result s)
  /\ coinbase_origins (b_result s') = coinbase_origins (b_result s)
  /\ Tracer.max_depth (b_result s') = Tracer.max_depth (b_result s)
  /\ b_tx_count s' = b_tx_count s.
Proof.
  revert s. induction vins as [|vin vins IH]; intro s; cbn [Tracer.add_parents].
  - auto.
  - destruct (vin_txid vin) as [prev_txid|]; [|apply IH].
    cbv zeta.
    match goal with
    | |- context [Tracer.add_parents vins current_txid depth ?s0] =>
        destruct (IH s0) as (-> & -> & -> & ->)
    end.
    destruct (str_in prev_txid _); fields; auto.
Qed.

Lemma b_process_tx_inv (tx : Tx) (current_txid : string) (depth : nat) (s : BState) :
  (Z.of_nat depth <= max_depth)%Z ->
  BInv max_depth s -> BInv max_depth (b_process_tx tx current_txid depth s).
Proof.
  intros Hd (Hn & Hc & Hm). unfold Tracer.b_process_tx.
  destruct (existsb is_coinbase_vin (tx_vin tx)).
  { unfold BInv. fields. split; [|split; [|assumption]];
      apply Forall_app; (split; [assumption|]); constructor; auto; exact Hd. }
  cbv zeta.
  set (s0 := if _ && _ then _ else s).
  assert (H0 : nodes (b_result s0) = nodes (b_result s)
               /\ coinbase_origins (b_result s0) = coinbase_origins (b_result s)
               /\ Tracer.max_depth (b_result s0) = Tracer.max_depth (b_result s))
    by (subst s0; destruct (_ && _); fields; auto).
  clearbody s0.
  set (s1 := if (Z.of_nat depth <? max_depth)%Z then _ else s0).
  assert (H1 : nodes (b_result s1) = nodes (b_result s)
               /\ coinbase_origins (b_result s1) = coinbase_origins (b_result s)
               /\ Tracer.max_depth (b_result s1) = Tracer.max_depth (b_result s)).
  { subst s1. destruct (Z.of_nat depth <? max_depth)%Z; [|assumption].
    destruct (add_parents_frame (tx_vin tx) current_txid depth s0) as (-> & -> & -> & _).
    assumption. }
  clearbody s1. destruct H1 as (E1 & E2 & E3).
  destruct (largest_out (tx_vout tx)); unfold BInv; fields;
    rewrite E1, E2, E3; (split; [|split; assumption]);
    apply Forall_app; (split; [assumption|]); constructor; auto; exact Hd.
Qed.

Lemma b_process_item_inv (item : string * nat) (s : BState) :
  BInv max_depth s -> BInv max_depth (b_process_item item s).
Proof.
  intro Hs. unfold Tracer.b_process_item. destruct item as [current_txid depth].
  destruct (str_in _ _); [assumption|].
  destruct (max_depth <? Z.of_nat depth)%Z eqn:Ed; [exact Hs|].
  apply Z.ltb_ge in Ed.
  destruct (get_raw_transaction env current_txid) as [tx|]; [|exact Hs].
  apply b_process_tx_inv; [exact Ed|exact Hs].
Qed.

Lemma b_loop_body_inv (i : nat) (s : BState) : BInv max_depth s -> BInv max_depth (b_loop_body i s).
Proof.
  intro Hs. unfold Tracer.b_loop_body.
  set (s1 := if (_ <? _)%nat then _ else s).
  assert (H1 : BInv max_depth s1) by (subst s1; destruct (_ <? _)%nat; exact Hs).
  clearbody s1.
  destruct (b_queue s1) as [|item rest]; [assumption|].
  apply b_process_item_inv. exact H1.
Qed.

Lemma b_state_after_inv (n : nat) (txid : string) :
  BInv max_depth (b_state_after env max_depth n txid).
Proof.
  unfold b_state_after. apply while_loop_invariant.
  - intros i s Hs _. apply b_loop_body_inv. exact Hs.
  - unfold BInv, b_initial_state. fields. auto.
Qed.

(** *** The backward loop ends by itself *)

Lemma b_process_item_progress (item : string * nat) (s : BState) :
  (b_tx_count (b_process_item item s) = b_tx_count s
   /\ b_queue (b_process_item item s) = b_queue s)
  \/ b_tx_count (b_process_item item s) = S (b_tx_count s).
Proof.
  unfold Tracer.b_process_item. destruct item as [current_txid depth].
  destruct (str_in _ _); [auto|].
  destruct (max_depth <? Z.of_nat depth)%Z; [auto|].
  destruct (get_raw_transaction env current_txid) as [tx|]; [|auto].
  right. unfold Tracer.b_process_tx.
  destruct (existsb is_coinbase_vin (tx_vin tx)); [reflexivity|].
  cbv zeta.
  set (s0 := if _ && _ then _ else _).
  assert (H0 : b_tx_count s0 = S (b_tx_count s))
    by (subst s0; destruct (_ && _); reflexivity).
  clearbody s0.
  set (s1 := if (Z.of_nat depth <? max_depth)%Z then _ else s0).
  assert (H1 : b_tx_count s1 = S (b_tx_count s)).
  { subst s1. destruct (Z.of_nat depth <? max_depth)%Z; [|assumption].
    destruct (add_parents_frame (tx_vin tx) current_txid depth s0) as (_ & _ & _ & ->).
    assumption. }
  clearbody s1.
  destruct (largest_out (tx_vout tx)); fields; exact H1.
Qed.

Lemma b_loop_body_decreases (i : nat) (s : BState) :
  b_loop_cond s = true -> (b_iterations_left (b_loop_body i s) < b_iterations_left s)%nat.
Proof.
  unfold b_loop_cond. intro Hc.
  apply andb_true_iff in Hc as [Hq Hcount]. apply Nat.ltb_lt in Hcount.
  unfold Tracer.b_loop_body, b_iterations_left at 2.
  destruct (b_queue s) as [|item0 rest0] eqn:Eq0; [discriminate|].
  set (s1 := if (MAX_QUEUE_SIZE <? _)%nat then _ else s).
  assert (H1 : b_tx_count s1 = b_tx_count s
               /\ b_queue s1 = firstn MAX_QUEUE_SIZE (b_queue s)).
  { subst s1.
    destruct (MAX_QUEUE_SIZE <? _)%nat eqn:E; fields.
    - rewrite Eq0. auto.
    - rewrite Eq0. split; [reflexivity|].
      apply Nat.ltb_ge in E. symmetry. apply firstn_all2. exact E. }
  clearbody s1. destruct H1 as (Hc1 & Hq1).
  rewrite Eq0 in Hq1. change MAX_QUEUE_SIZE with (S 999) in Hq1.
  rewrite firstn_cons in Hq1. rewrite Hq1. cbv beta iota.
  pose proof (b_process_item_progress item0 (set_b_queue (firstn 999 rest0) s1))
    as Hprog.
  fields.
  unfold b_iterations_left.
  pose proof (firstn_le_length 999 rest0) as Hlen.
  pose proof (length_firstn 999 rest0) as Hlen'.
  cbn [Datatypes.length]. unfold MAX_TRANSACTIONS_PER_TRACE, MAX_QUEUE_SIZE in *.
  destruct Hprog as [[-> ->] | ->]; rewrite ?Hc1; lia.
Qed.

(** The fuel of [trace_backward] suffices. *)
Lemma b_state_after_ends (txid : string) :
  b_loop_cond (b_state_after env max_depth loop_fuel txid) = false.
Proof.
  unfold b_state_after. apply while_loop_ends with (mu := b_iterations_left).
  - intros i s. apply b_loop_body_decreases.
  - unfold b_iterations_left, b_initial_state, loop_fuel. fields.
    cbn [Datatypes.length]. unfold MAX_TRANSACTIONS_PER_TRACE, MAX_QUEUE_SIZE. lia.
Qed.

End BackwardFacts.

Lemma trace_backward_eq (settings : Settings) (env : Env) (txid : string)
    (max_depth : option Z) :
  trace_backward settings env txid max_depth
  = b_finish (b_state_after env (effective_max_depth settings max_depth) loop_fuel txid).
Proof. reflexivity. Qed.

Lemma b_finish_nodes (s : BState) :
  nodes (b_finish s) = nodes (b_result s)
  /\ Tracer.max_depth (b_finish s) = Tracer.max_depth (b_result s).
Proof.
  unfold b_finish. destruct (MAX_TRANSACTIONS_PER_TRACE <=? b_tx_count s)%nat;
    fields; auto.
Qed.

(** No node of the result of [trace_backward] lies beyond the depth the
    result reports. *)
Lemma trace_backward_depth (settings : Settings) (env : Env) (txid : string)
    (max_depth : option Z) :
  let r := trace_backward settings env txid max_depth in
  Tracer.max_depth r = effective_max_depth settings max_depth
  /\ Forall (fun n => (Z.of_nat (depth n) <= Tracer.max_depth r)%Z) (nodes r).
Proof.
  cbv zeta. rewrite trace_backward_eq.
  destruct (b_state_after_inv env (effective_max_depth settings max_depth) loop_fuel txid)
    as (Hn & _ & Hm).
  destruct (b_finish_nodes (b_state_after env (effective_max_depth settings max_depth)
                                          loop_fuel txid)) as (-> & ->).
  rewrite Hm. auto.
Qed.

Lemma backward_beyond_depth (env : Env) (depth_limit : Z) (current_txid : string)
    (depth : nat) (s : BState) :
  (depth_limit < Z.of_nat depth)%Z ->
  let s' := b_process_item env depth_limit (current_txid, depth) s in
  b_queue s' = b_queue s /\ nodes (b_result s') = nodes (b_result s)
  /\ edges (b_result s') = edges (b_result s).
Proof.
  intro Hd. unfold b_process_item.
  destruct (str_in _ _); [auto|].
  apply Z.ltb_lt in Hd. rewrite Hd. fields. auto.
Qed.

End TracerFacts.

(* ================================================================= *)
(** ** Peeling chains *)

Module PeelingFacts.

Import Tracer PeelingSpec PyFacts.
Local Open Scope Q_scope.

(** *** The loop that follows the change *)

(** More fuel than [S CHAIN_SAFETY_LIMIT] iterations changes nothing. *)
Lemma follow_chain_enough (r : TraceResult) (fuel extra : nat) :
  forall current_key chain_txids payments visited,
    (S CHAIN_SAFETY_LIMIT <= List.length chain_txids + fuel)%nat ->
    (List.length chain_txids <= CHAIN_SAFETY_LIMIT)%nat ->
    follow_chain (fuel + extra) r current_key chain_txids payments visited
    = follow_chain fuel r current_key chain_txids payments visited.
Proof.
  induction fuel as [|fuel IH]; intros current_key chain_txids payments visited H1 H2.
  - lia.
  - cbn [Nat.add follow_chain].
    destruct (spend_map_get r current_key) as [edge|]; [|reflexivity].
    destruct (in_visited current_key visited); [reflexivity|].
    cbv zeta.
    destruct (Py.sorted_asc _ _ _) as [|payment [|second rest]]; try reflexivity.
    destruct (CHAIN_SAFETY_LIMIT <? _)%nat eqn:E; [reflexivity|].
    apply Nat.ltb_ge in E. apply IH.
    + rewrite length_app. cbn [Datatypes.length]. rewrite length_app in E.
      cbn [Datatypes.length] in E. lia.
    + exact E.
Qed.

(** *** Shares of similar payments *)



(** *** The verdict *)





Lemma similarity_bonus_nil : similarity_bonus [] = 0.
Proof. reflexivity. Qed.



(** A chain whose payments are all zero makes the call raise. *)
Lemma empty_payments_raise :
  recorded_payments empty_payment_trace = [0; 0; 0]%Z
  /\ detect_peeling_chain empty_payment_trace = Raised "ZeroDivisionError"%string.
Proof. split; vm_compute; reflexivity. Qed.




End PeelingFacts.

(* ================================================================= *)
(** ** The depth limit *)

Module DepthFacts.

Import DepthSpec PyFacts.

(** *** The depth limit in the KYC trace *)

(** An entry of the KYC queue beyond the depth limit adds no entry to the
    queue and no node to any path: at most it records the path it carries
    as a destination with status [DEPTH_LIMIT]. *)
Lemma kyc_beyond_depth (env : Env) (max_depth : nat) (start_value : Z)
    (item : KYCTrace.QueueItem) (s : KYCTrace.State) :
  (max_depth < KYCTrace.q_depth item)%nat ->
  let s' := KYCTrace.process_item env max_depth start_value item s in
  KYCTrace.queue s' = KYCTrace.queue s
  /\ (KYCTrace.destinations s' = KYCTrace.destinations s
      \/ exists d, KYCTrace.destinations s' = (KYCTrace.destinations s ++ [d])%list
                   /\ KYCTrace.path d = KYCTrace.q_path item
                   /\ KYCTrace.trail_status d = KYCTrace.DEPTH_LIMIT).
Proof.
  intro Hd. unfold KYCTrace.process_item.
  destruct (in_visited _ _); [auto|].
  apply Nat.ltb_lt in Hd. rewrite Hd. cbv zeta.
  unfold KYCTrace.depth_limit_destination.
  destruct (last _ None) as [final|]; cbn; [|auto].
  split; [reflexivity|]. right. eexists. repeat split.
Qed.

(** No path node of a KYC result lies beyond the depth of the preset. *)
Lemma kyc_path_depth (env : Env) (exchange_txid destination_address depth_preset : string)
    (d : KYCTrace.ProbableDestination) (n : KYCTrace.PathNode) :
  In d (KYCTrace.probable_destinations
          (KYCTrace.trace_kyc_withdrawal env exchange_txid destination_address
                                         depth_preset)) ->
  In n (KYCTrace.path d) ->
  (KYCTrace.depth n <= KYCTrace.max_depth_of_preset depth_preset)%nat.
Proof.
  intros Hd Hn.
  destruct (KYCTraceFacts.trace_result_ok env exchange_txid destination_address
                                          depth_preset) as (_ & Hall & _).
  rewrite Forall_forall in Hall. destruct (Hall d Hd) as [Hp _].
  apply in_split in Hn. destruct Hn as (l1 & l2 & Hsplit).
  destruct (Hp l1 n l2 Hsplit) as [Hhop _].
  apply Hhop.
Qed.

(** C8: no node of a forward or backward trace and no node of a path of a
    KYC trace is deeper than the depth limit in force (the requested depth
    capped by the settings, or the depth of the preset); and in each of the
    three searches an entry taken from the queue whose depth exceeds the
    limit puts no entry on the queue and adds no node and no edge. *)
Theorem depth_limit_respected (settings : Settings) (env : Env) :
  (forall txid vout max_depth n,
      In n (Tracer.nodes (Tracer.trace_forward settings env txid vout max_depth)) ->
      (Z.of_nat (Tracer.depth n) <= Tracer.effective_max_depth settings max_depth)%Z)
  /\ (forall txid max_depth n,
      In n (Tracer.nodes (Tracer.trace_backward settings env txid max_depth)) ->
      (Z.of_nat (Tracer.depth n) <= Tracer.effective_max_depth settings max_depth)%Z)
  /\ (forall exchange_txid destination_address depth_preset d n,
      In d (KYCTrace.probable_destinations
              (KYCTrace.trace_kyc_withdrawal env exchange_txid destination_address
                                             depth_preset)) ->
      In n (KYCTrace.path d) ->
      (KYCTrace.depth n <= KYCTrace.max_depth_of_preset depth_preset)%nat)
  /\ (forall depth_limit current_txid current_vout depth s,
      (depth_limit < Z.of_nat depth)%Z ->
      let s' := Tracer.process_item env depth_limit (current_txid, current_vout, depth) s in
      Tracer.queue s' = Tracer.queue s
      /\ Tracer.nodes (Tracer.result s') = Tracer.nodes (Tracer.result s)
      /\ Tracer.edges (Tracer.result s') = Tracer.edges (Tracer.result s))
  /\ (forall depth_limit current_txid depth s,
      (depth_limit < Z.of_nat depth)%Z ->
      let s' := Tracer.b_process_item env depth_limit (current_txid, depth) s in
      Tracer.b_queue s' = Tracer.b_queue s
      /\ Tracer.nodes (Tracer.b_result s') = Tracer.nodes (Tracer.b_result s)
      /\ Tracer.edges (Tracer.b_result s') = Tracer.edges (Tracer.b_result s))
  /\ (forall max_depth start_value item s,
      (max_depth < KYCTrace.q_depth item)%nat ->
      let s' := KYCTrace.process_item env max_depth start_value item s in
      KYCTrace.queue s' = KYCTrace.queue s
      /\ (KYCTrace.destinations s' = KYCTrace.destinations s
          \/ exists d, KYCTrace.destinations s' = (KYCTrace.destinations s ++ [d])%list
                       /\ KYCTrace.path d = KYCTrace.q_path item
                       /\ KYCTrace.trail_status d = KYCTrace.DEPTH_LIMIT)).
Proof.
  refine (conj _ (conj _ (conj _ (conj _ (conj _ _))))).
  - intros txid vout max_depth n Hn.
    destruct (TracerFacts.trace_forward_depth settings env txid vout max_depth)
      as [Hm Hall].
    rewrite Forall_forall in Hall. rewrite <- Hm. exact (Hall n Hn).
  - intros txid max_depth n Hn.
    destruct (TracerFacts.trace_backward_depth settings env txid max_depth)
      as [Hm Hall].
    rewrite Forall_forall in Hall. rewrite <- Hm. exact (Hall n Hn).
  - intros. eapply kyc_path_depth; eassumption.
  - intros. apply TracerFacts.forward_beyond_depth. assumption.
  - intros. apply TracerFacts.backward_beyond_depth. assumption.
  - intros. apply kyc_beyond_depth. assumption.
Qed.

Lemma depth_limit_respected_witness :
  Tracer.effective_max_depth default_settings (Some 2%Z) = 2%Z
  /\ deepest shallow_trace = 2%nat
  /\ Forall (fun n => (Z.of_nat (Tracer.depth n) <= 2)%Z) (Tracer.nodes shallow_trace).
Proof.
  split; [reflexivity|]. split; [reflexivity|].
  apply Forall_forall. intros n Hn.
  pose proof (depth_limit_respected default_settings Scenario.peeling_world)
    as (Hforward & _).
  apply (Hforward "p0"%string 0%nat (Some 2%Z) n).
  vm_compute. exact Hn.
Defined.

End DepthFacts.

(* ================================================================= *)
(** ** Exchange proximity *)

Module PrivacyAnalysisFacts.

Import PrivacyAnalysis PrivacyAnalysisSpec.
Local Open Scope string_scope.

(** *** Dictionaries *)

Lemma dict_lookup_set {V} (d : list (string * V)) (k q : string) (v : V) :
  Py.dict_lookup (Py.dict_set d k v) q
  = if String.eqb k q then Some v else Py.dict_lookup d q.
Proof.
  induction d as [|[k0 w] rest IH]; cbn [Py.dict_set Py.dict_lookup].
  - reflexivity.
  - destruct (String.eqb k0 k) eqn:E0; cbn [Py.dict_lookup].
    + apply String.eqb_eq in E0. subst k0.
      destruct (String.eqb k q); reflexivity.
    + rewrite IH. destruct (String.eqb k0 q) eqn:E1; [|reflexivity].
      apply String.eqb_eq in E1. subst q. rewrite String.eqb_sym, E0. reflexivity.
Qed.

Lemma dict_of_keys {V} (items d : list (string * V)) (q : string) :
  In q (map fst items) \/ Py.dict_lookup d q <> None ->
  Py.dict_lookup (fold_left (fun d kv => Py.dict_set d (fst kv) (snd kv)) items d) q
  <> None.
Proof.
  revert d. induction items as [|[k v] items IH]; intros d H; cbn [fold_left].
  - destruct H as [[]|H]. exact H.
  - apply IH. cbn [map fst snd In] in *. rewrite dict_lookup_set.
    destruct (String.eqb k q) eqn:E.
    + right. discriminate.
    + destruct H as [[H|H]|H]; [|left; exact H|right; exact H].
      apply String.eqb_neq in E. contradiction.
Qed.

(** A key of the registry literal is found by [_is_known_exchange]. *)
Lemma registry_lookup (address : string) :
  in_registry address -> exists info, _is_known_exchange address = Some info.
Proof.
  intro H. unfold _is_known_exchange.
  change KNOWN_EXCHANGE_ADDRESSES with (Py.dict_of KNOWN_EXCHANGE_ADDRESSES_items).
  pose proof (@dict_of_keys _ KNOWN_EXCHANGE_ADDRESSES_items [] address (or_introl H))
    as Hfound.
  unfold Py.dict_of.
  destruct (Py.dict_lookup _ address) as [info|]; [exists info; reflexivity|].
  contradiction.
Qed.

(** C9: for an address that is a key of the known-exchange registry,
    [analyze_exchange_proximity] returns a result with [hops_to_exchange]
    0, [path_quality_score] 100 and [path_strength] STRONG, naming the
    exchange the registry gives; it makes no call to a collaborator (the
    log of calls is as it was), and the search is not run: the outcome is
    the same whatever the search would do. *)
Theorem known_exchange_returns_at_once
    (search_paths : string -> nat -> M ExchangeProximityResult)
    (address : string) (max_hops : option nat) (env : Env) (log : list Call) :
  in_registry address ->
  let out := analyze_exchange_proximity search_paths address max_hops env log in
  hops_to_exchange (fst out) = Some 0%nat
  /\ path_quality_score (fst out) = 100%Z
  /\ path_strength (fst out) = "STRONG"
  /\ (exists info, _is_known_exchange address = Some info
                   /\ nearest_exchange (fst out) = Some (exchange info))
  /\ path_to_exchange (fst out) = []
  /\ snd out = log
  /\ (forall other_search,
        analyze_exchange_proximity other_search address max_hops env log = out).
Proof.
  intros H out. subst out.
  destruct (registry_lookup H) as [info Hinfo].
  unfold analyze_exchange_proximity. rewrite Hinfo. cbn [ret fst snd].
  refine (conj eq_refl (conj eq_refl (conj eq_refl (conj _ (conj eq_refl
            (conj eq_refl _)))))).
  - exists info. split; reflexivity.
  - intros other_search. reflexivity.
Qed.

Lemma known_exchange_returns_at_once_witness :
  in_registry "34xp4vRoCGJym3xR7yCVPFHoCNxv4Twseo"
  /\ snd (asking_search "34xp4vRoCGJym3xR7yCVPFHoCNxv4Twseo" 6 (Scenario.world 2) [])
     = [GetAddressHistory "34xp4vRoCGJym3xR7yCVPFHoCNxv4Twseo"; GetTransaction "ex"]
  /\ hops_to_exchange
       (fst (analyze_exchange_proximity asking_search
               "34xp4vRoCGJym3xR7yCVPFHoCNxv4Twseo" None (Scenario.world 2) []))
     = Some 0%nat
  /\ snd (analyze_exchange_proximity asking_search
            "34xp4vRoCGJym3xR7yCVPFHoCNxv4Twseo" None (Scenario.world 2) [])
     = [].
Proof.
  assert (H : in_registry "34xp4vRoCGJym3xR7yCVPFHoCNxv4Twseo")
    by (left; reflexivity).
  pose proof (known_exchange_returns_at_once asking_search None (Scenario.world 2) [] H)
    as (Hhops & _ & _ & _ & _ & Hlog & _).
  split; [exact H|]. split; [reflexivity|]. split; [exact Hhops|exact Hlog].
Defined.

End PrivacyAnalysisFacts.

(* ================================================================= *)
(** ** The graph a forward trace builds *)

Module TraceGraphFacts.

Import Tracer TracerSpec TraceGraphSpec Tactics PyFacts TracerFacts.
Local Open Scope Q_scope.

Lemma in_visited_true (k : string * nat) (l : list (string * nat)) :
  in_visited k l = true <-> In k l.
Proof.
  unfold in_visited. rewrite existsb_exists. split.
  - intros (x & Hin & Hx). unfold pair_eqb in Hx.
    apply andb_true_iff in Hx as [H1 H2].
    apply String.eqb_eq in H1. apply Nat.eqb_eq in H2.
    destruct k, x. cbn in *. subst. exact Hin.
  - intro Hin. exists k. split; [exact Hin|]. unfold pair_eqb.
    rewrite String.eqb_refl, Nat.eqb_refl. reflexivity.
Qed.

Lemma str_in_true (x : string) (l : list string) : str_in x l = true <-> In x l.
Proof.
  unfold str_in. rewrite existsb_exists. split.
  - intros (y & Hin & Hy). apply String.eqb_eq in Hy. subst. exact Hin.
  - intro Hin. exists x. split; [exact Hin|apply String.eqb_refl].
Qed.

Lemma sum_values_snoc (ns : list UTXONode) (n : UTXONode) :
  sum_values (ns ++ [n]) = (sum_values ns + value_sats n)%Z.
Proof.
  unfold sum_values. rewrite map_app, sumZ_app. cbn [map].
  rewrite sumZ_cons. change (Py.sumZ []) with 0%Z. lia.
Qed.

Lemma edge_explained_more (ns new : list UTXONode) (e : TraceEdge) :
  edge_explained ns e -> edge_explained (ns ++ new) e.
Proof.
  intros (n & Hin & H). exists n. split; [apply in_or_app; left; exact Hin|exact H].
Qed.

Lemma NoDup_snoc (A : Type) (a : A) (l : list A) :
  ~ In a l -> NoDup l -> NoDup (l ++ [a]).
Proof.
  intros Hin Hl. apply Permutation_NoDup with (l := a :: l).
  - apply Permutation_cons_append.
  - constructor; assumption.
Qed.

Lemma truthy_some (o : option string) :
  Py.truthy o = true -> o = Some (opt_str_default o "").
Proof. destruct o; [reflexivity|discriminate]. Qed.

Lemma enumerate_from_nth (A : Type) (l : list A) (k i : nat) (x : A) :
  nth_error l i = Some x -> In ((k + i)%nat, x) (Py.enumerate_from k l).
Proof.
  revert k i. induction l as [|y l IH]; intros k i H.
  - destruct i; discriminate.
  - destruct i as [|i]; cbn in H |- *.
    + injection H as ->. left. rewrite Nat.add_0_r. reflexivity.
    + right. rewrite <- Nat.add_succ_comm. apply IH. exact H.
Qed.

(** Every output of the spending transaction that has not been visited is
    among the successors, one level deeper. *)
Lemma successors_cover (sp : string) (spending_tx : Tx)
    (visited : list (string * nat)) (depth i : nat) :
  (i < List.length (tx_vout spending_tx))%nat ->
  In (sp, i) visited \/ In (sp, i, S depth) (successors sp spending_tx visited depth).
Proof.
  intro Hi. destruct (in_visited (sp, i) visited) eqn:Ev.
  - left. apply in_visited_true. exact Ev.
  - right. unfold successors. apply in_flat_map.
    destruct (nth_error (tx_vout spending_tx) i) as [out|] eqn:En.
    + exists (i, out). split.
      * apply (enumerate_from_nth _ 0 _ En).
      * cbn [fst]. rewrite Ev. left. reflexivity.
    + apply nth_error_None in En. lia.
Qed.

Lemma successors_depth (sp : string) (spending_tx : Tx)
    (visited : list (string * nat)) (depth : nat) :
  Forall (fun it : string * nat * nat => snd it = S depth)
         (successors sp spending_tx visited depth).
Proof.
  apply Forall_forall. intros it Hin. unfold successors in Hin.
  apply in_flat_map in Hin as (io & _ & Hin).
  destruct (in_visited _ _); [destruct Hin|].
  destruct Hin as [<-|[]]. reflexivity.
Qed.

(** Appending a node keeps the CoinJoin list in step with the nodes. *)
Lemma coinjoin_list_snoc (cj : list string) (ns : list UTXONode) (n : UTXONode) :
  (forall t, In t cj <-> exists m, In m ns /\ txid m = t /\ 0.7 < coinjoin_score m) ->
  NoDup cj ->
  let cj' := if Py.Qltb 0.7 (coinjoin_score n) && negb (str_in (txid n) cj)
             then cj ++ [txid n] else cj in
  (forall t, In t cj' <-> exists m, In m (ns ++ [n]) /\ txid m = t
                                    /\ 0.7 < coinjoin_score m)
  /\ NoDup cj'.
Proof.
  intros H9 H10 cj'. subst cj'. split.
  - intro t.
    assert (Hnew_iff :
      (exists m, In m (ns ++ [n]) /\ txid m = t /\ 0.7 < coinjoin_score m)
      <-> In t cj \/ (t = txid n /\ 0.7 < coinjoin_score n)).
    { rewrite H9. split.
      - intros (m & Hm & Em & Hs). apply in_app_or in Hm as [Hm|[Hm|[]]].
        + left. exists m. auto.
        + subst m. right. split; [congruence|exact Hs].
      - intros [(m & Hm & Em & Hs)|[Et Hs]].
        + exists m. split; [apply in_or_app; left; exact Hm|auto].
        + exists n. split; [apply in_or_app; right; left; reflexivity|].
          split; [congruence|exact Hs]. }
    rewrite Hnew_iff.
    destruct (Py.Qltb 0.7 (coinjoin_score n)) eqn:Eq; cbn [andb].
    + apply Qltb_lt in Eq.
      destruct (str_in (txid n) cj) eqn:Ein; cbn [negb].
      * apply str_in_true in Ein. split; [auto|]. intros [H|[Et _]]; [exact H|].
        subst t. exact Ein.
      * rewrite in_app_iff. cbn [In]. split.
        -- intros [H|[H|[]]]; [left; exact H|right; split; [auto|exact Eq]].
        -- intros [H|[Et _]]; [left; exact H|right; left; auto].
    + apply Qltb_ge in Eq. split; [auto|].
      intros [H|[_ Hs]]; [exact H|]. exfalso. apply (Qlt_not_le _ _ Hs). exact Eq.
  - destruct (Py.Qltb 0.7 (coinjoin_score n)); cbn [andb]; [|exact H10].
    destruct (str_in (txid n) cj) eqn:Ein; cbn [negb]; [exact H10|].
    apply NoDup_snoc; [|exact H10]. intro Hin. apply str_in_true in Hin. congruence.
Qed.

Section ForwardGraph.
Variable env : Env.
Variable max_depth : Z.

(** What the branch for a spent output changes: counters, the log of
    lookups and the warnings apart, at most one edge and the successors in
    the queue. *)
Lemma resolve_spent_effect (current_txid : string) (current_vout depth : nat)
    (address : option string) (value_sats : Z) (s : State) :
  let '(s', found, vin) :=
    resolve_spent env max_depth current_txid current_vout depth address value_sats s in
  visited s' = visited s /\ tx_count s' = tx_count s
  /\ timed_out s' = timed_out s
  /\ nodes (result s') = nodes (result s)
  /\ unspent_endpoints (result s') = unspent_endpoints (result s)
  /\ total_value_traced_sats (result s') = total_value_traced_sats (result s)
  /\ coinjoin_txids (result s') = coinjoin_txids (result s)
  /\ coinbase_origins (result s') = coinbase_origins (result s)
  /\ hit_limit (result s') = hit_limit (result s)
  /\ electrs_enabled (result s') = electrs_enabled (result s)
  /\ (electrs env = None -> found = None /\ vin = None)
  /\ ((edges (result s') = edges (result s) /\ queue s' = queue s)
      \/ (exists sp spending_tx,
            found = Some sp /\ electrs env <> None
            /\ get_raw_transaction env sp = Some spending_tx
            /\ (Z.of_nat depth < max_depth)%Z
            /\ edges (result s')
               = edges (result s)
                 ++ [{| from_txid := current_txid; from_vout := current_vout;
                        to_txid := sp;
                        to_vin := match vin with Some i => Z.of_nat i | None => 0%Z end;
                        edge_value_sats := value_sats |}]
            /\ queue s' = queue s ++ successors sp spending_tx (visited s) depth)).
Proof.
  unfold resolve_spent.
  destruct (electrs env) as [e|] eqn:Ee; [|repeat split; auto].
  destruct (Py.truthy address && (Z.of_nat depth <? max_depth)%Z
            && negb (electrs_disabled s)) eqn:Ec; [|repeat split; auto; discriminate].
  apply andb_true_iff in Ec as [Ec _]. apply andb_true_iff in Ec as [_ Ed].
  apply Z.ltb_lt in Ed.
  cbv zeta.
  set (found := _find_spending_tx_electrs env current_txid current_vout).
  destruct (Py.truthy found) eqn:Et.
  - destruct (get_raw_transaction env (opt_str_default found "")) as [spending_tx|] eqn:Etx.
    + fields. do 10 (split; [reflexivity|]). split; [discriminate|]. right.
      exists (opt_str_default found ""), spending_tx.
      split; [apply truthy_some; exact Et|].
      split; [discriminate|]. split; [exact Etx|]. split; [exact Ed|].
      split; reflexivity.
    + fields. do 10 (split; [reflexivity|]). split; [discriminate|].
      left. split; reflexivity.
  - destruct (MAX_CONSECUTIVE_ELECTRS_FAILURES <=? _)%nat;
      fields; do 10 (split; [reflexivity|]); (split; [discriminate|]);
      left; split; reflexivity.
Qed.

(** What recording an output changes: one node is added for it, with its
    amount in the total; the transaction joins the CoinJoin list when its
    score is above 0.7 and it is not there yet. *)
Lemma process_output_effect (tx : Tx) (current_txid : string)
    (current_vout depth : nat) (output : TxOut) (s : State) :
  let s' := process_output env max_depth tx current_txid current_vout depth output s in
  exists n,
    nodes (result s') = nodes (result s) ++ [n]
    /\ txid n = current_txid /\ vout n = current_vout
    /\ value_sats n = sats_of_btc (value output)
    /\ coinjoin_score n = _calculate_coinjoin_score_fast tx
    /\ status n = (if get_tx_out env current_txid current_vout then UNSPENT else SPENT)
    /\ (status n = UNSPENT -> spent_by_txid n = None /\ spent_by_vin n = None)
    /\ (electrs env = None -> spent_by_txid n = None /\ spent_by_vin n = None)
    /\ visited s' = visited s /\ tx_count s' = tx_count s
    /\ timed_out s' = timed_out s
    /\ hit_limit (result s') = hit_limit (result s)
    /\ electrs_enabled (result s') = electrs_enabled (result s)
    /\ total_value_traced_sats (result s')
       = (total_value_traced_sats (result s) + value_sats n)%Z
    /\ unspent_endpoints (result s')
       = unspent_endpoints (result s) ++ filter (has_status UNSPENT) [n]
    /\ coinjoin_txids (result s')
       = (if Py.Qltb 0.7 (coinjoin_score n)
             && negb (str_in current_txid (coinjoin_txids (result s)))
          then coinjoin_txids (result s) ++ [current_txid]
          else coinjoin_txids (result s))
    /\ coinbase_origins (result s') = coinbase_origins (result s)
    /\ ((edges (result s') = edges (result s) /\ queue s' = queue s)
        \/ (exists e spending_tx,
              electrs env <> None /\ status n = SPENT
              /\ from_txid e = current_txid /\ from_vout e = current_vout
              /\ spent_by_txid n = Some (to_txid e)
              /\ edge_value_sats e = value_sats n
              /\ get_raw_transaction env (to_txid e) = Some spending_tx
              /\ (Z.of_nat depth < max_depth)%Z
              /\ edges (result s') = edges (result s) ++ [e]
              /\ queue s'
                 = queue s ++ successors (to_txid e) spending_tx (visited s) depth)).
Proof.
  intro s'. subst s'. unfold process_output. cbv zeta.
  set (c := _calculate_coinjoin_score_fast tx).
  set (s0 := if _ && _ then _ else s).
  assert (H0 : visited s0 = visited s /\ tx_count s0 = tx_count s
               /\ queue s0 = queue s /\ timed_out s0 = timed_out s
               /\ hit_limit (result s0) = hit_limit (result s)
               /\ electrs_enabled (result s0) = electrs_enabled (result s)
               /\ nodes (result s0) = nodes (result s)
               /\ edges (result s0) = edges (result s)
               /\ unspent_endpoints (result s0) = unspent_endpoints (result s)
               /\ total_value_traced_sats (result s0) = total_value_traced_sats (result s)
               /\ coinbase_origins (result s0) = coinbase_origins (result s)
               /\ coinjoin_txids (result s0)
                  = (if Py.Qltb 0.7 c
                        && negb (str_in current_txid (coinjoin_txids (result s)))
                     then coinjoin_txids (result s) ++ [current_txid]
                     else coinjoin_txids (result s))).
  { subst s0. destruct (_ && _); fields; repeat split; reflexivity. }
  clearbody s0.
  destruct H0 as (Hv & Ht & Hq & Hto & Hh & Hen & Hn & He & Hu & Hs & Ho & Hc).
  destruct (get_tx_out env current_txid current_vout) eqn:Eu.
  - eexists. fields. split; [rewrite Hn; reflexivity|].
    cbn [txid vout value_sats coinjoin_score status spent_by_txid spent_by_vin
         filter has_status UTXOStatus_eqb].
    do 5 (split; [reflexivity|]).
    split; [auto|]. split; [auto|].
    do 5 (split; [assumption|]).
    split; [rewrite Hs; reflexivity|]. split; [rewrite Hu; reflexivity|].
    split; [exact Hc|]. split; [exact Ho|]. left. split; assumption.
  - pose proof (resolve_spent_effect current_txid current_vout depth
                  (address (scriptPubKey output)) (sats_of_btc (value output)) s0) as Hr.
    destruct (resolve_spent _ _ _ _ _ _ _ s0) as [[s1 found] vin].
    destruct Hr as (Hv1 & Ht1 & Hto1 & Hn1 & Hu1 & Hs1 & Hc1 & Ho1 & Hh1 & Hen1 & Hnone
                    & Hcase).
    eexists. fields. split; [rewrite Hn1, Hn; reflexivity|].
    cbn [txid vout value_sats coinjoin_score status spent_by_txid spent_by_vin
         filter has_status UTXOStatus_eqb].
    do 5 (split; [reflexivity|]).
    split; [discriminate|]. split; [exact Hnone|].
    do 5 (split; [congruence|]).
    split; [rewrite Hs1, Hs; reflexivity|].
    split; [rewrite app_nil_r; congruence|].
    split; [rewrite Hc1; exact Hc|]. split; [congruence|].
    destruct Hcase as [[He1 Hq1]|(sp & spending_tx & Ef & Ee & Etx & Ed & He1 & Hq1)].
    + left. split; congruence.
    + right. eexists. exists spending_tx. split; [exact Ee|].
      split; [reflexivity|].
      rewrite He1, He, Hq1, Hq, Ef, Hv.
      split; [|split; [|split; [|split; [|split; [|split; [|split; reflexivity]]]]]];
        try reflexivity; assumption.
Qed.

(** The invariant reads six fields of the result, and is kept when the
    set of visited outputs and the counter grow and the queue shrinks. *)
Lemma FInv_frame (s0 s : State) :
  FInv env s0 ->
  nodes (result s) = nodes (result s0) ->
  edges (result s) = edges (result s0) ->
  unspent_endpoints (result s) = unspent_endpoints (result s0) ->
  total_value_traced_sats (result s) = total_value_traced_sats (result s0) ->
  coinjoin_txids (result s) = coinjoin_txids (result s0) ->
  coinbase_origins (result s) = coinbase_origins (result s0) ->
  electrs_enabled (result s) = electrs_enabled (result s0) ->
  (forall k, In k (visited s0) -> In k (visited s)) ->
  (tx_count s0 <= tx_count s)%nat ->
  (tx_count s <= MAX_TRANSACTIONS_PER_TRACE)%nat ->
  (List.length (queue s) <= List.length (queue s0))%nat ->
  FInv env s.
Proof.
  intros [H1 H2 H3 H4 H5 H6 H7 H8 H9 H10 H11 H12 H13] Hn He Hu Ht Hc Ho Hen Hv Hk Hl Hq.
  constructor; rewrite ?Hn, ?He, ?Hu, ?Ht, ?Hc, ?Ho, ?Hen; try assumption.
  - eapply Forall_impl; [|exact H4]. intros n Hin. apply Hv. exact Hin.
  - lia.
  - intro Ee. destruct (H13 Ee) as (E1 & E2 & E3). split; [exact E1|]. split; [lia|exact E3].
Qed.

Lemma process_output_inv (tx : Tx) (current_txid : string)
    (current_vout depth : nat) (output : TxOut) (s0 s : State) :
  FInv env s0 ->
  result s = result s0 ->
  visited s = (current_txid, current_vout) :: visited s0 ->
  ~ In (current_txid, current_vout) (visited s0) ->
  tx_count s = S (tx_count s0) ->
  (tx_count s0 < MAX_TRANSACTIONS_PER_TRACE)%nat ->
  (List.length (queue s) < List.length (queue s0))%nat ->
  get_raw_transaction env current_txid = Some tx ->
  nth_error (tx_vout tx) current_vout = Some output ->
  FInv env (process_output env max_depth tx current_txid current_vout depth output s).
Proof.
  intros [H1 H2 H3 H4 H5 H6 H7 H8 H9 H10 H11 H12 H13] Hr Hv Hnew Ht Hlim Hq Htx Hout.
  destruct (process_output_effect tx current_txid current_vout depth output s)
    as (n & En & Etx & Evo & Eval & Esc & Est & Esp & Enone & Evis & Ecnt & _ & _ & Een
        & Etot & Eun & Ecj & Eor & Hcase).
  set (s' := process_output _ _ _ _ _ _ _ s) in *. clearbody s'.
  rewrite Hr in *.
  assert (Hsound : node_sound env n).
  { exists tx, output. rewrite Etx, Evo. repeat split; try assumption; apply Esp; assumption. }
  assert (Hkey : key_of n = (current_txid, current_vout))
    by (unfold key_of; rewrite Etx, Evo; reflexivity).
  constructor.
  - rewrite Etot, En, sum_values_snoc, H1. reflexivity.
  - rewrite Eun, En, filter_app, H2. reflexivity.
  - rewrite En, map_app. cbn [map]. rewrite Hkey.
    apply NoDup_snoc; [|exact H3]. intro Hin. apply Hnew.
    apply in_map_iff in Hin as (m & Em & Hin). rewrite <- Em.
    rewrite Forall_forall in H4. apply H4. exact Hin.
  - rewrite En, Evis, Hv. apply Forall_app. split.
    + eapply Forall_impl; [|exact H4]. intros m Hm. right. exact Hm.
    + constructor; [|constructor]. left. symmetry. exact Hkey.
  - rewrite En, length_app, Ecnt, Ht. cbn [Datatypes.length]. lia.
  - rewrite Ecnt, Ht. lia.
  - rewrite En. apply Forall_app. split; [exact H7|]. constructor; [exact Hsound|constructor].
  - rewrite En.
    assert (Hold : Forall (edge_explained (nodes (result s0) ++ [n])) (edges (result s0))).
    { eapply Forall_impl; [|exact H8]. intros e. apply edge_explained_more. }
    destruct Hcase as [[Ee _]|(e & stx & _ & Es & Ef1 & Ef2 & Eby & Ev & _ & _ & Ee & _)].
    + rewrite Ee. exact Hold.
    + rewrite Ee. apply Forall_app. split; [exact Hold|].
      constructor; [|constructor]. exists n.
      split; [apply in_or_app; right; left; reflexivity|].
      repeat split; congruence.
  - rewrite Ecj, En, <- Etx. apply coinjoin_list_snoc; assumption.
  - rewrite Ecj, <- Etx.
    apply coinjoin_list_snoc with (ns := nodes (result s0)); assumption.
  - rewrite Eor. exact H11.
  - rewrite Een. exact H12.
  - intro Ee. destruct (H13 Ee) as (E1 & E2 & E3).
    destruct Hcase as [[Eed Eq]|(e & stx & Hne & _)]; [|contradiction].
    rewrite Eed, Eq, En, length_app. cbn [Datatypes.length]. split; [exact E1|].
    split; [lia|]. apply Forall_app. split; [exact E3|].
    constructor; [apply Enone; exact Ee|constructor].
Qed.


Lemma process_item_graph (item : string * nat * nat) (s0 s : State) :
  FInv env s0 ->
  result s = result s0 -> visited s = visited s0 -> tx_count s = tx_count s0 ->
  (tx_count s0 < MAX_TRANSACTIONS_PER_TRACE)%nat ->
  (List.length (queue s) < List.length (queue s0))%nat ->
  FInv env (process_item env max_depth item s).
Proof.
  intros Hinv Hr Hv Ht Hlim Hq. unfold process_item.
  destruct item as [[current_txid current_vout] depth].
  destruct (in_visited _ _) eqn:Evis.
  { apply FInv_frame with (s0 := s0); rewrite ?Hr, ?Hv, ?Ht; auto; lia. }
  assert (Hnew : ~ In (current_txid, current_vout) (visited s0)).
  { rewrite <- Hv. intro Hin. apply in_visited_true in Hin. congruence. }
  destruct (max_depth <? Z.of_nat depth)%Z.
  { apply FInv_frame with (s0 := s0); fields; rewrite ?Hr, ?Hv, ?Ht; auto; try lia.
    intros k Hk. right. exact Hk. }
  destruct (get_raw_transaction env current_txid) as [tx|] eqn:Etx.
  2:{ apply FInv_frame with (s0 := s0); fields; rewrite ?Hr, ?Hv, ?Ht; auto; try lia.
      intros k Hk. right. exact Hk. }
  destruct (nth_error (tx_vout tx) current_vout) as [output|] eqn:Eout.
  2:{ apply FInv_frame with (s0 := s0); fields; rewrite ?Hr, ?Hv, ?Ht; auto; try lia.
      intros k Hk. right. exact Hk. }
  apply process_output_inv with (s0 := s0); fields; auto; congruence.
Qed.

Lemma loop_body_graph (i : nat) (s : State) :
  FInv env s -> loop_cond s = true -> FInv env (loop_body env max_depth i s).
Proof.
  intros Hinv Hcond. unfold loop_cond in Hcond.
  apply andb_true_iff in Hcond as [Hcond Hlim].
  apply Nat.ltb_lt in Hlim. unfold loop_body.
  destruct (Py.Qltb _ _).
  { apply FInv_frame with (s0 := s); fields; auto; lia. }
  set (s1 := if (_ <? _)%nat then _ else s).
  assert (H1 : result s1 = result s \/
               result s1 = with_hit_limit true
                 (add_warning "Queue size exceeded 1000, truncating" (result s)))
    by (subst s1; destruct (_ <? _)%nat; fields; auto).
  assert (Hv1 : visited s1 = visited s) by (subst s1; destruct (_ <? _)%nat; reflexivity).
  assert (Ht1 : tx_count s1 = tx_count s) by (subst s1; destruct (_ <? _)%nat; reflexivity).
  assert (Hq1 : (List.length (queue s1) <= List.length (queue s))%nat).
  { subst s1. destruct (_ <? _)%nat; fields; [|lia]. rewrite length_firstn. lia. }
  clearbody s1.
  assert (Hinv1 : FInv env s1).
  { apply FInv_frame with (s0 := s); rewrite ?Hv1, ?Ht1; auto; try lia;
      destruct H1 as [H1|H1]; rewrite H1; reflexivity. }
  destruct (queue s1) as [|item rest] eqn:Eq; [exact Hinv1|].
  apply process_item_graph with (s0 := s1); fields; auto; try lia.
  rewrite Eq. cbn [Datatypes.length]. lia.
Qed.

(** *** A trace that hit no limit is complete *)

Lemma pending_step (s0 s' : State) (item : string * nat * nat)
    (rest : list (string * nat * nat)) (k : string * nat) :
  queue s0 = item :: rest ->
  In (fst (fst item), snd (fst item)) (visited s') ->
  (forall k, In k (visited s0) -> In k (visited s')) ->
  (forall it, In it rest -> In it (queue s')) ->
  pending s0 k -> pending s' k.
Proof.
  intros Hq Hitem Hv Hrest [Hk|[d Hk]].
  - left. apply Hv. exact Hk.
  - rewrite Hq in Hk. destruct Hk as [Hk|Hk].
    + left. subst item. cbn [fst snd] in Hitem. destruct k. exact Hitem.
    + right. exists d. apply Hrest. exact Hk.
Qed.

(** Taking an entry from the queue without recording a node for it: the
    entry was visited before, lies beyond the depth limit, or names a
    transaction or an output that does not exist. *)
Lemma FComplete_skip (start : string * nat) (s0 s' : State)
    (item : string * nat * nat) (rest : list (string * nat * nat)) :
  FComplete env max_depth start s0 ->
  queue s0 = item :: rest ->
  queue s' = rest ->
  timed_out s' = timed_out s0 ->
  hit_limit (result s') = hit_limit (result s0) ->
  edges (result s') = edges (result s0) ->
  nodes (result s') = nodes (result s0) ->
  (visited s' = visited s0 /\ In (fst (fst item), snd (fst item)) (visited s0)
   \/ visited s' = (fst (fst item), snd (fst item)) :: visited s0
      /\ ((max_depth < Z.of_nat (snd item))%Z
          \/ get_raw_transaction env (fst (fst item)) = None
          \/ exists tx, get_raw_transaction env (fst (fst item)) = Some tx
                        /\ nth_error (tx_vout tx) (snd (fst item)) = None)) ->
  FComplete env max_depth start s'.
Proof.
  intros [Ha Hb He Hc Hd Hv] Hq Hq' Hto Hh Hed Hn Hcase.
  assert (Hitem : In (fst (fst item), snd (fst item)) (visited s')).
  { destruct Hcase as [[-> H]|[-> _]]; [exact H|left; reflexivity]. }
  assert (Hvis : forall k, In k (visited s0) -> In k (visited s')).
  { intros k Hk. destruct Hcase as [[-> _]|[-> _]]; [exact Hk|right; exact Hk]. }
  assert (Hrest : forall it, In it rest -> In it (queue s')) by (rewrite Hq'; auto).
  constructor.
  - rewrite Hh, Hto. exact Ha.
  - rewrite Hh. intro H. eapply pending_step; eauto.
  - rewrite Hh, Hed. intros H e Hin. destruct (He H e Hin) as (tx & Etx & Hp).
    exists tx. split; [exact Etx|]. intros i Hi. eapply pending_step; eauto.
  - intro H0. specialize (Hc H0). rewrite Hq in Hc. rewrite Hq'.
    inversion Hc; assumption.
  - rewrite Hed. exact Hd.
  - intros H0 t i tx Hin Etx Hi. rewrite Hn.
    destruct Hcase as [[E _]|[E Hwhy]]; rewrite E in Hin.
    + eapply Hv; eauto.
    + destruct Hin as [Hin|Hin]; [|eapply Hv; eauto].
      injection Hin as Et Ei. exfalso.
      destruct Hwhy as [Hdeep|[Hnone|(tx' & Etx' & Hnth)]].
      * specialize (Hc H0). rewrite Hq in Hc. inversion Hc; subst. lia.
      * congruence.
      * apply nth_error_None in Hnth. rewrite Et in Etx'. rewrite Ei in Hnth.
        assert (tx' = tx) by congruence. subst tx'. lia.
Qed.

Lemma process_item_complete (start : string * nat) (item : string * nat * nat)
    (s0 s : State) :
  FComplete env max_depth start s0 ->
  queue s0 = item :: queue s ->
  result s = result s0 -> visited s = visited s0 -> timed_out s = timed_out s0 ->
  FComplete env max_depth start (process_item env max_depth item s).
Proof.
  intros Hinv Hq Hr Hv Hto. unfold process_item.
  destruct item as [[current_txid current_vout] depth].
  destruct (in_visited _ _) eqn:Evis.
  { apply FComplete_skip with (s0 := s0) (item := (current_txid, current_vout, depth))
                             (rest := queue s); rewrite ?Hr; auto.
    left. split; [exact Hv|]. cbn [fst snd]. rewrite <- Hv.
    apply in_visited_true. exact Evis. }
  destruct (max_depth <? Z.of_nat depth)%Z eqn:Ed.
  { apply FComplete_skip with (s0 := s0) (item := (current_txid, current_vout, depth))
                             (rest := queue s); fields; rewrite ?Hr; auto.
    right. cbn [fst snd]. split; [rewrite Hv; reflexivity|].
    left. apply Z.ltb_lt. exact Ed. }
  apply Z.ltb_ge in Ed.
  destruct (get_raw_transaction env current_txid) as [tx|] eqn:Etx.
  2:{ apply FComplete_skip with (s0 := s0) (item := (current_txid, current_vout, depth))
                               (rest := queue s); fields; rewrite ?Hr; auto.
      right. cbn [fst snd]. split; [rewrite Hv; reflexivity|]. right. left. exact Etx. }
  destruct (nth_error (tx_vout tx) current_vout) as [output|] eqn:Eout.
  2:{ apply FComplete_skip with (s0 := s0) (item := (current_txid, current_vout, depth))
                               (rest := queue s); fields; rewrite ?Hr; auto.
      right. cbn [fst snd]. split; [rewrite Hv; reflexivity|]. right. right.
      exists tx. split; [exact Etx|exact Eout]. }
  set (s1 := set_tx_count _ _).
  assert (Hr1 : result s1 = result s0) by exact Hr.
  assert (Hv1 : visited s1 = (current_txid, current_vout) :: visited s0)
    by (subst s1; fields; rewrite Hv; reflexivity).
  assert (Hq1 : queue s1 = queue s) by reflexivity.
  assert (Hto1 : timed_out s1 = timed_out s0) by exact Hto.
  clearbody s1.
  destruct (process_output_effect tx current_txid current_vout depth output s1)
    as (n & En & Ent & Env' & _ & _ & _ & _ & _ & Evis' & _ & Eto & Ehit & _
        & _ & _ & _ & _ & Hcase).
  set (s' := process_output _ _ _ _ _ _ _ s1) in *. clearbody s'.
  rewrite Hr1 in *. rewrite Hv1 in *. rewrite Hq1 in *. rewrite Hto1 in *.
  destruct Hinv as [Ha Hb He Hc Hd Hvn].
  assert (Hitem : In (fst (fst (current_txid, current_vout, depth)),
                      snd (fst (current_txid, current_vout, depth))) (visited s'))
    by (rewrite Evis'; left; reflexivity).
  assert (Hvis : forall k, In k (visited s0) -> In k (visited s'))
    by (intros k Hk; rewrite Evis'; right; exact Hk).
  assert (Hrest : forall it, In it (queue s) -> In it (queue s')).
  { intros it Hit. destruct Hcase as [[_ ->]|(e & stx & _ & _ & _ & _ & _ & _ & _ & _ & _ & ->)];
      [exact Hit|apply in_or_app; left; exact Hit]. }
  constructor.
  - rewrite Ehit, Eto. exact Ha.
  - rewrite Ehit. intro H. eapply pending_step; eauto.
  - rewrite Ehit. intros H e Hin.
    assert (Hold : In e (edges (result s0)) ->
                   exists tx0, get_raw_transaction env (to_txid e) = Some tx0
                     /\ forall i, (i < List.length (tx_vout tx0))%nat ->
                                  pending s' (to_txid e, i)).
    { intro Hin0. destruct (He H e Hin0) as (tx0 & Etx0 & Hp).
      exists tx0. split; [exact Etx0|]. intros i Hi. eapply pending_step; eauto. }
    destruct Hcase as [[Eed _]|(e' & stx & _ & _ & _ & _ & _ & _ & Estx & _ & Eed & Eq)].
    + rewrite Eed in Hin. auto.
    + rewrite Eed in Hin. apply in_app_or in Hin as [Hin|[Hin|[]]]; [auto|].
      subst e'. exists stx. split; [exact Estx|]. intros i Hi.
      destruct (successors_cover (to_txid e) stx
                  ((current_txid, current_vout) :: visited s0) depth Hi) as [Hc1|Hc1].
      * left. rewrite Evis'. exact Hc1.
      * right. exists (S depth). rewrite Eq. apply in_or_app. right. exact Hc1.
  - intro H0. specialize (Hc H0). rewrite Hq in Hc.
    assert (Htail : Forall (fun it : string * nat * nat => (Z.of_nat (snd it) <= max_depth)%Z)
                           (queue s)) by (inversion Hc; assumption).
    destruct Hcase as [[_ ->]|(e & stx & _ & _ & _ & _ & _ & _ & _ & Hlt & _ & ->)];
      [exact Htail|].
    apply Forall_app. split; [exact Htail|].
    eapply Forall_impl; [|apply successors_depth].
    intros it Hit. cbn beta in Hit. rewrite Hit. lia.
  - intro Hneg.
    destruct Hcase as [[-> _]|(e & stx & _ & _ & _ & _ & _ & _ & _ & Hlt & _ & _)];
      [auto|lia].
  - intros H0 t i tx0 Hin Etx0 Hi. rewrite En. rewrite Evis' in Hin.
    destruct Hin as [Hin|Hin].
    + injection Hin as <- <-. exists n.
      split; [apply in_or_app; right; left; reflexivity|auto].
    + destruct (Hvn H0 t i tx0 Hin Etx0 Hi) as (m & Hm & Em).
      exists m. split; [apply in_or_app; left; exact Hm|exact Em].
Qed.

Lemma loop_body_complete (start : string * nat) (i : nat) (s : State) :
  FComplete env max_depth start s ->
  FComplete env max_depth start (loop_body env max_depth i s).
Proof.
  intros Hinv. unfold loop_body.
  destruct (Py.Qltb _ _).
  { destruct Hinv as [Ha Hb He Hc Hd Hv]. constructor; fields; auto; discriminate. }
  set (s1 := if (_ <? _)%nat then _ else s).
  assert (Hinv1 : FComplete env max_depth start s1).
  { subst s1. destruct (_ <? _)%nat; [|exact Hinv].
    destruct Hinv as [Ha Hb He Hc Hd Hv]. constructor; fields; auto; try discriminate.
    intro H0. apply Forall_firstn. auto. }
  clearbody s1.
  destruct (queue s1) as [|item rest] eqn:Eq; [exact Hinv1|].
  apply process_item_complete with (s0 := s1); auto.
Qed.

Variable txid : string.
Variable vout : nat.

Lemma initial_state_graph : FInv env (initial_state env max_depth txid vout).
Proof.
  unfold initial_state. cbv zeta.
  assert (Hn : forall f : TraceResult -> list UTXONode,
             f = nodes \/ f = unspent_endpoints \/ f = coinbase_origins ->
             f (if match electrs env with Some _ => true | None => false end
                then empty_result txid vout "forward" max_depth
                       match electrs env with Some _ => true | None => false end
                else add_warning
                       ("Electrs not available - forward tracing limited. "
                        ++ "Can identify spent UTXOs but cannot follow to spending transaction.")
                       (empty_result txid vout "forward" max_depth
                          match electrs env with Some _ => true | None => false end))
             = []).
  { intros f [H|[H|H]]; subst f; destruct (electrs env); reflexivity. }
  constructor; fields; rewrite ?(Hn nodes), ?(Hn unspent_endpoints), ?(Hn coinbase_origins);
    auto; cbn [map filter Datatypes.length]; try (constructor; fail).
  - destruct (electrs env); reflexivity.
  - unfold MAX_TRANSACTIONS_PER_TRACE. lia.
  - destruct (electrs env); constructor.
  - assert (E : forall b w r, coinjoin_txids (if b : bool then r else add_warning w r)
                              = coinjoin_txids r) by (intros [] w r; reflexivity).
    rewrite E. intro t. split; [intros []|intros (n & [] & _)].
  - destruct (electrs env); constructor.
  - destruct (electrs env); reflexivity.
  - intros Ee. rewrite Ee. split; [reflexivity|]. split; [cbn; lia|constructor].
Qed.

Lemma state_after_graph (n : nat) : FInv env (state_after env max_depth n txid vout).
Proof.
  unfold state_after.
  apply while_loop_invariant with (Inv := FInv env).
  - intros i s Hs Hc. apply loop_body_graph; assumption.
  - apply initial_state_graph.
Qed.

Lemma initial_state_complete :
  FComplete env max_depth (txid, vout) (initial_state env max_depth txid vout).
Proof.
  assert (E : forall b w r, edges (if b : bool then r else add_warning w r) = edges r)
    by (intros [] w r; reflexivity).
  unfold initial_state. cbv zeta. constructor; fields; rewrite ?E; cbn [edges empty_result].
  - reflexivity.
  - intros _. right. exists 0%nat. left. reflexivity.
  - intros _ e [].
  - intro H0. constructor; [exact H0|constructor].
  - reflexivity.
  - intros _ t i tx [].
Qed.

Lemma state_after_complete (n : nat) :
  FComplete env max_depth (txid, vout) (state_after env max_depth n txid vout).
Proof.
  unfold state_after.
  apply while_loop_invariant with (Inv := FComplete env max_depth (txid, vout)).
  - intros i s Hs _. apply loop_body_complete. exact Hs.
  - apply initial_state_complete.
Qed.

End ForwardGraph.


Lemma finish_graph (s : State) :
  nodes (finish s) = nodes (result s)
  /\ edges (finish s) = edges (result s)
  /\ unspent_endpoints (finish s) = unspent_endpoints (result s)
  /\ coinbase_origins (finish s) = coinbase_origins (result s)
  /\ coinjoin_txids (finish s) = coinjoin_txids (result s)
  /\ total_value_traced_sats (finish s) = total_value_traced_sats (result s)
  /\ total_transactions (finish s) = tx_count s.
Proof.
  unfold finish. destruct (MAX_TRANSACTIONS_PER_TRACE <=? tx_count s)%nat;
    fields; repeat split; reflexivity.
Qed.

(** The result of [trace_forward] is the finished state of a loop that
    kept the invariant. *)
Lemma trace_forward_graph (settings : Settings) (env : Env) (txid : string)
    (vout : nat) (max_depth : option Z) :
  exists s, trace_forward settings env txid vout max_depth = finish s /\ FInv env s.
Proof.
  rewrite trace_forward_eq. eexists. split; [reflexivity|].
  apply state_after_graph.
Qed.

(** X1.  The total a forward trace reports is the sum of the amounts of
    its nodes, its unspent endpoints are its unspent nodes in the order
    they were found, and it has no coinbase origins. *)
Theorem forward_value_accounting (settings : Settings) (env : Env) (txid : string)
    (vout : nat) (max_depth : option Z) :
  let r := trace_forward settings env txid vout max_depth in
  total_value_traced_sats r = sum_values (nodes r)
  /\ unspent_endpoints r = filter (has_status UNSPENT) (nodes r)
  /\ coinbase_origins r = [].
Proof.
  cbv zeta.
  destruct (trace_forward_graph settings env txid vout max_depth) as (s & -> & H).
  destruct (finish_graph s) as (-> & _ & -> & -> & _ & -> & _).
  destruct H. auto.
Qed.


(** X3.  A forward trace fetches at most 200 transactions to record
    outputs, it has at most one node per transaction fetched, and when it
    reached 200 it says so: the limit flag is set and the warning is
    there. *)
Theorem forward_transaction_limit (settings : Settings) (env : Env) (txid : string)
    (vout : nat) (max_depth : option Z) :
  let r := trace_forward settings env txid vout max_depth in
  (List.length (nodes r) <= total_transactions r)%nat
  /\ (total_transactions r <= MAX_TRANSACTIONS_PER_TRACE)%nat
  /\ (total_transactions r = MAX_TRANSACTIONS_PER_TRACE ->
      hit_limit r = true
      /\ In "Transaction limit (200) reached"%string (warnings r)).
Proof.
  cbv zeta.
  destruct (trace_forward_graph settings env txid vout max_depth) as (s & -> & H).
  destruct (finish_graph s) as (-> & _ & _ & _ & _ & _ & ->).
  destruct H. split; [assumption|]. split; [assumption|].
  intro E. unfold finish. rewrite E, Nat.leb_refl. fields.
  split; [reflexivity|]. apply in_or_app. right. left. reflexivity.
Qed.

(** X4.  Every edge of a forward trace leaves a node of the trace: the
    node is marked spent, it names the transaction the edge leads to as its
    spender, and the edge carries its amount. *)
Theorem forward_edges_explained (settings : Settings) (env : Env) (txid : string)
    (vout : nat) (max_depth : option Z) :
  let r := trace_forward settings env txid vout max_depth in
  Forall (edge_explained (nodes r)) (edges r).
Proof.
  cbv zeta.
  destruct (trace_forward_graph settings env txid vout max_depth) as (s & -> & H).
  destruct (finish_graph s) as (-> & -> & _).
  destruct H. assumption.
Qed.

(** X5.  The CoinJoin list of a forward trace holds, each once, exactly
    the transactions of the nodes whose score is above 0.7. *)
Theorem forward_coinjoin_txids (settings : Settings) (env : Env) (txid : string)
    (vout : nat) (max_depth : option Z) :
  let r := trace_forward settings env txid vout max_depth in
  NoDup (coinjoin_txids r)
  /\ forall t, In t (coinjoin_txids r)
               <-> exists n, In n (nodes r) /\ Tracer.txid n = t
                             /\ 0.7 < coinjoin_score n.
Proof.
  cbv zeta.
  destruct (trace_forward_graph settings env txid vout max_depth) as (s & -> & H).
  destruct (finish_graph s) as (-> & _ & _ & _ & -> & _).
  destruct H. auto.
Qed.

(** X6.  Without an address index a forward trace says so, in its flag
    and in a warning, follows nothing, and returns at most the output it
    was started on, with no spender named. *)
Theorem forward_without_index (settings : Settings) (env : Env) (txid : string)
    (vout : nat) (max_depth : option Z) :
  electrs env = None ->
  let r := trace_forward settings env txid vout max_depth in
  electrs_enabled r = false
  /\ In no_index_warning (warnings r)
  /\ edges r = []
  /\ (List.length (nodes r) <= 1)%nat
  /\ Forall (fun n => spent_by_txid n = None /\ spent_by_vin n = None) (nodes r).
Proof.
  intros Ee. cbv zeta.
  assert (Hw : In no_index_warning
                  (warnings (trace_forward settings env txid vout max_depth))).
  { apply warning_reaches_result with (n := 0%nat).
    unfold state_after. cbn [while_loop]. unfold initial_state. fields.
    rewrite Ee. fields. apply in_or_app. right. left. reflexivity. }
  revert Hw.
  destruct (trace_forward_graph settings env txid vout max_depth) as (s & -> & H).
  intro Hw.
  assert (Hen : electrs_enabled (finish s) = electrs_enabled (result s))
    by (unfold finish; destruct (_ <=? _)%nat; reflexivity).
  destruct (finish_graph s) as (-> & -> & _).
  rewrite Hen. destruct H as [_ _ _ _ _ _ _ _ _ _ _ H12 H13].
  rewrite H12, Ee. destruct (H13 Ee) as (E1 & E2 & E3).
  split; [reflexivity|]. split; [exact Hw|]. split; [exact E1|]. split; [lia|exact E3].
Qed.

Lemma forward_without_index_witness :
  let r := trace_forward default_settings offline_world "ex" 0 None in
  electrs_enabled r = false
  /\ In no_index_warning (warnings r)
  /\ edges r = []
  /\ (List.length (nodes r) <= 1)%nat
  /\ Forall (fun n => spent_by_txid n = None /\ spent_by_vin n = None) (nodes r).
Proof.
  apply (@forward_without_index default_settings offline_world "ex" 0%nat None).
  reflexivity.
Defined.

(** When the loop has ended without a limit being hit, all that was
    pending has been visited. *)
Lemma finish_complete (env : Env) (md : Z) (txid : string) (vout : nat) (s : State) :
  FComplete env md (txid, vout) s ->
  loop_cond s = false ->
  hit_limit (finish s) = false ->
  (forall e, In e (edges (finish s)) ->
     exists tx, get_raw_transaction env (to_txid e) = Some tx
                /\ outputs_covered (nodes (finish s)) (to_txid e) tx)
  /\ (forall tx, (0 <= md)%Z ->
        get_raw_transaction env txid = Some tx ->
        (vout < List.length (tx_vout tx))%nat ->
        exists n, In n (nodes (finish s)) /\ Tracer.txid n = txid /\ Tracer.vout n = vout).
Proof.
  intros Hc Hend. destruct (finish_graph s) as (-> & -> & _).
  intro Hh.
  assert (Hs : hit_limit (result s) = false /\ (tx_count s < MAX_TRANSACTIONS_PER_TRACE)%nat).
  { unfold finish in Hh. destruct (MAX_TRANSACTIONS_PER_TRACE <=? tx_count s)%nat eqn:El.
    - fields. discriminate.
    - fields. split; [exact Hh|]. apply Nat.leb_gt. exact El. }
  destruct Hs as [Hh0 Hlim].
  destruct Hc as [Ha Hb He Hq Hd Hv].
  assert (Hempty : queue s = []).
  { unfold loop_cond in Hend. rewrite (Ha Hh0) in Hend. cbn [negb andb] in Hend.
    destruct (queue s); [reflexivity|].
    apply Nat.ltb_lt in Hlim. rewrite Hlim in Hend. discriminate. }
  assert (Hpend : forall k, pending s k -> In k (visited s)).
  { intros k [Hk|[d Hk]]; [exact Hk|]. rewrite Hempty in Hk. destruct Hk. }
  split.
  - intros e Hin. destruct (He Hh0 e Hin) as (tx & Etx & Hp).
    exists tx. split; [exact Etx|]. intros i Hi.
    assert (H0 : (0 <= md)%Z).
    { destruct (Z.le_gt_cases 0 md) as [H|H]; [exact H|].
      rewrite (Hd H) in Hin. destruct Hin. }
    apply (Hv H0 (to_txid e) i tx); auto.
  - intros tx H0 Etx Hi. apply (Hv H0 txid vout tx); auto.
Qed.

(** X7.  A forward trace that reports no limit is complete: every
    transaction an edge leads to is known and each of its outputs is a
    node, and so is the output the trace was started on when it exists and
    the depth limit is not negative. *)
Theorem forward_complete (settings : Settings) (env : Env) (txid : string)
    (vout : nat) (max_depth : option Z) :
  let r := trace_forward settings env txid vout max_depth in
  hit_limit r = false ->
  (forall e, In e (edges r) ->
     exists tx, get_raw_transaction env (to_txid e) = Some tx
                /\ outputs_covered (nodes r) (to_txid e) tx)
  /\ (forall tx, (0 <= effective_max_depth settings max_depth)%Z ->
        get_raw_transaction env txid = Some tx ->
        (vout < List.length (tx_vout tx))%nat ->
        exists n, In n (nodes r) /\ Tracer.txid n = txid /\ Tracer.vout n = vout).
Proof.
  cbv zeta. rewrite trace_forward_eq. apply finish_complete.
  - apply state_after_complete.
  - apply state_after_ends.
Qed.

Lemma forward_complete_witness :
  let r := trace_forward default_settings Scenario.peeling_world "p0" 0 (Some 2%Z) in
  hit_limit r = false
  /\ (forall e, In e (edges r) ->
        exists tx, get_raw_transaction Scenario.peeling_world (to_txid e) = Some tx
                   /\ outputs_covered (nodes r) (to_txid e) tx).
Proof.
  assert (Hh : hit_limit (trace_forward default_settings Scenario.peeling_world
                                        "p0" 0 (Some 2%Z)) = false)
    by (vm_compute; reflexivity).
  split; [exact Hh|].
  exact (proj1 (@forward_complete default_settings Scenario.peeling_world "p0" 0%nat
                  (Some 2%Z) Hh)).
Defined.

End TraceGraphFacts.

(* ================================================================= *)
(** ** The graph a backward trace builds *)

Module BackwardGraphFacts.

Import Tracer TracerSpec TraceGraphSpec BackwardGraphSpec Tactics PyFacts TracerFacts.
Import TraceGraphFacts.
Local Open Scope Q_scope.

Section BackwardGraph.
Variable env : Env.
Variable max_depth : Z.

(** What the loop over the inputs changes: an edge per input that names
    a previous transaction, and that transaction in the queue, one level
    deeper, unless it has been visited. *)
Lemma add_parents_effect (vins : list TxIn) (current_txid : string) (depth : nat)
    (s : BState) :
  let s' := add_parents vins current_txid depth s in
  b_visited s' = b_visited s /\ b_tx_count s' = b_tx_count s
  /\ nodes (b_result s') = nodes (b_result s)
  /\ coinbase_origins (b_result s') = coinbase_origins (b_result s)
  /\ unspent_endpoints (b_result s') = unspent_endpoints (b_result s)
  /\ total_value_traced_sats (b_result s') = total_value_traced_sats (b_result s)
  /\ coinjoin_txids (b_result s') = coinjoin_txids (b_result s)
  /\ hit_limit (b_result s') = hit_limit (b_result s)
  /\ exists new_edges new_items,
       edges (b_result s') = edges (b_result s) ++ new_edges
       /\ b_queue s' = b_queue s ++ new_items
       /\ Forall (edge_of_input current_txid vins) new_edges
       /\ Forall (fun it : string * nat => snd it = S depth) new_items
       /\ forall e, In e new_edges ->
            In (from_txid e) (b_visited s) \/ In (from_txid e, S depth) new_items.
Proof.
  revert s. induction vins as [|vin vins IH]; intro s; cbn [add_parents].
  - repeat (split; [reflexivity|]). exists [], []. rewrite !app_nil_r.
    do 2 (split; [reflexivity|]). do 2 (split; [constructor|]). intros e [].
  - assert (Hmore : forall e, edge_of_input current_txid vins e ->
                              edge_of_input current_txid (vin :: vins) e).
    { intros e (H1 & H2 & v & Hv & H3). split; [exact H1|]. split; [exact H2|].
      exists v. split; [right; exact Hv|exact H3]. }
    destruct (vin_txid vin) as [prev_txid|] eqn:Eprev.
    2:{ destruct (IH s) as (E1 & E2 & E3 & E4 & E5 & E6 & E7 & E8 & ne & ni & E9 & E10
                            & F1 & F2 & F3).
        repeat (split; [assumption|]). exists ne, ni.
        repeat (split; [assumption|]). split; [|split; assumption].
        eapply Forall_impl; [|exact F1]. exact Hmore. }
    cbv zeta.
    match goal with
    | |- context [add_parents vins current_txid depth ?s0] =>
        set (s1 := s0);
        destruct (IH s1) as (E1 & E2 & E3 & E4 & E5 & E6 & E7 & E8 & ne & ni & E9 & E10
                             & F1 & F2 & F3)
    end.
    set (edge := {| from_txid := prev_txid;
                    from_vout := match vin_vout vin with Some v => v | None => 0%nat end;
                    to_txid := current_txid;
                    to_vin := match vin_sequence vin with Some q => q | None => 0%Z end;
                    edge_value_sats := 0 |}) in *.
    assert (H1 : b_visited s1 = b_visited s /\ b_tx_count s1 = b_tx_count s
                 /\ nodes (b_result s1) = nodes (b_result s)
                 /\ coinbase_origins (b_result s1) = coinbase_origins (b_result s)
                 /\ unspent_endpoints (b_result s1) = unspent_endpoints (b_result s)
                 /\ total_value_traced_sats (b_result s1)
                    = total_value_traced_sats (b_result s)
                 /\ coinjoin_txids (b_result s1) = coinjoin_txids (b_result s)
                 /\ hit_limit (b_result s1) = hit_limit (b_result s)
                 /\ edges (b_result s1) = edges (b_result s) ++ [edge]
                 /\ b_queue s1
                    = b_queue s ++ (if str_in prev_txid (b_visited s) then []
                                    else [(prev_txid, S depth)])).
    { subst s1. fields. destruct (str_in prev_txid (b_visited s)); fields;
        rewrite ?app_nil_r; repeat split; reflexivity. }
    clearbody s1.
    destruct H1 as (G1 & G2 & G3 & G4 & G5 & G6 & G7 & G8 & G9 & G10).
    rewrite E1, E2, E3, E4, E5, E6, E7, E8, E9, E10, G1, G2, G3, G4, G5, G6, G7, G8,
      G9, G10.
    repeat (split; [reflexivity|]).
    exists (edge :: ne),
           ((if str_in prev_txid (b_visited s) then [] else [(prev_txid, S depth)]) ++ ni).
    rewrite <- !app_assoc. split; [reflexivity|]. split; [reflexivity|].
    split; [|split].
    + constructor.
      * split; [reflexivity|]. split; [reflexivity|].
        exists vin. split; [left; reflexivity|]. split; [exact Eprev|reflexivity].
      * eapply Forall_impl; [|exact F1]. exact Hmore.
    + apply Forall_app. split; [|exact F2].
      destruct (str_in prev_txid (b_visited s)); constructor; [reflexivity|constructor].
    + intros e [He|He].
      * subst e. cbn [from_txid edge].
        destruct (str_in prev_txid (b_visited s)) eqn:Ev.
        -- left. apply str_in_true. exact Ev.
        -- right. left. reflexivity.
      * destruct (F3 e He) as [H|H].
        -- left. rewrite <- G1. exact H.
        -- right. apply in_or_app. right. exact H.
Qed.

(** What recording a transaction changes. *)
Lemma b_process_tx_effect (tx : Tx) (current_txid : string) (depth : nat) (s : BState) :
  let s' := b_process_tx max_depth tx current_txid depth s in
  exists n,
    nodes (b_result s') = nodes (b_result s) ++ [n]
    /\ txid n = current_txid /\ vout n = 0%nat
    /\ value_sats n = total_output_sats tx
    /\ status n = (if existsb is_coinbase_vin (tx_vin tx) then COINBASE else SPENT)
    /\ coinjoin_score n
       = (if existsb is_coinbase_vin (tx_vin tx) then 0.0
          else _calculate_coinjoin_score_fast tx)
    /\ spent_by_txid n = None /\ spent_by_vin n = None
    /\ b_visited s' = b_visited s /\ b_tx_count s' = b_tx_count s
    /\ hit_limit (b_result s') = hit_limit (b_result s)
    /\ unspent_endpoints (b_result s') = unspent_endpoints (b_result s)
    /\ total_value_traced_sats (b_result s')
       = (total_value_traced_sats (b_result s)
          + sum_values (filter (has_status SPENT) [n]))%Z
    /\ coinbase_origins (b_result s')
       = coinbase_origins (b_result s) ++ filter (has_status COINBASE) [n]
    /\ coinjoin_txids (b_result s')
       = (if Py.Qltb 0.7 (coinjoin_score n)
             && negb (str_in current_txid (coinjoin_txids (b_result s)))
          then coinjoin_txids (b_result s) ++ [current_txid]
          else coinjoin_txids (b_result s))
    /\ exists new_edges new_items,
         edges (b_result s') = edges (b_result s) ++ new_edges
         /\ b_queue s' = b_queue s ++ new_items
         /\ Forall (edge_of_input current_txid (tx_vin tx)) new_edges
         /\ Forall (fun it : string * nat => snd it = S depth) new_items
         /\ (forall e, In e new_edges ->
               In (from_txid e) (b_visited s) \/ In (from_txid e, S depth) new_items)
         /\ ((status n = SPENT /\ (Z.of_nat depth < max_depth)%Z)
             \/ (new_edges = [] /\ new_items = [])).
Proof.
  intro s'. subst s'. unfold b_process_tx.
  destruct (existsb is_coinbase_vin (tx_vin tx)) eqn:Ecb.
  { eexists. fields. split; [reflexivity|].
    cbn [txid vout value_sats status coinjoin_score spent_by_txid spent_by_vin
         filter has_status UTXOStatus_eqb].
    do 11 (split; [reflexivity|]).
    split; [unfold sum_values; cbn; lia|]. split; [reflexivity|].
    split; [reflexivity|].
    exists [], []. rewrite !app_nil_r.
    do 2 (split; [reflexivity|]). do 2 (split; [constructor|]).
    split; [intros e []|]. right. split; reflexivity. }
  cbv zeta.
  set (c := _calculate_coinjoin_score_fast tx).
  set (s0 := if _ && _ then _ else s).
  assert (H0 : b_visited s0 = b_visited s /\ b_tx_count s0 = b_tx_count s
               /\ b_queue s0 = b_queue s
               /\ hit_limit (b_result s0) = hit_limit (b_result s)
               /\ nodes (b_result s0) = nodes (b_result s)
               /\ edges (b_result s0) = edges (b_result s)
               /\ unspent_endpoints (b_result s0) = unspent_endpoints (b_result s)
               /\ total_value_traced_sats (b_result s0)
                  = total_value_traced_sats (b_result s)
               /\ coinbase_origins (b_result s0) = coinbase_origins (b_result s)
               /\ coinjoin_txids (b_result s0)
                  = (if Py.Qltb 0.7 c
                        && negb (str_in current_txid (coinjoin_txids (b_result s)))
                     then coinjoin_txids (b_result s) ++ [current_txid]
                     else coinjoin_txids (b_result s))).
  { subst s0. destruct (_ && _); fields; repeat split; reflexivity. }
  clearbody s0.
  destruct H0 as (Hv & Ht & Hq & Hh & Hn & He & Hu & Hs & Ho & Hc).
  set (s1 := if (Z.of_nat depth <? max_depth)%Z then _ else s0).
  assert (H1 : b_visited s1 = b_visited s /\ b_tx_count s1 = b_tx_count s
               /\ nodes (b_result s1) = nodes (b_result s)
               /\ coinbase_origins (b_result s1) = coinbase_origins (b_result s)
               /\ unspent_endpoints (b_result s1) = unspent_endpoints (b_result s)
               /\ total_value_traced_sats (b_result s1)
                  = total_value_traced_sats (b_result s)
               /\ coinjoin_txids (b_result s1) = coinjoin_txids (b_result s0)
               /\ hit_limit (b_result s1) = hit_limit (b_result s)
               /\ exists new_edges new_items,
                    edges (b_result s1) = edges (b_result s) ++ new_edges
                    /\ b_queue s1 = b_queue s ++ new_items
                    /\ Forall (edge_of_input current_txid (tx_vin tx)) new_edges
                    /\ Forall (fun it : string * nat => snd it = S depth) new_items
                    /\ (forall e, In e new_edges ->
                          In (from_txid e) (b_visited s)
                          \/ In (from_txid e, S depth) new_items)
                    /\ ((Z.of_nat depth < max_depth)%Z
                        \/ (new_edges = [] /\ new_items = []))).
  { subst s1. destruct (Z.of_nat depth <? max_depth)%Z eqn:Ed.
    - destruct (add_parents_effect (tx_vin tx) current_txid depth s0)
        as (E1 & E2 & E3 & E4 & E5 & E6 & E7 & E8 & ne & ni & E9 & E10 & F1 & F2 & F3).
      rewrite E1, E2, E3, E4, E5, E6, E7, E8, E9, E10, Hv, Ht, Hn, Ho, Hu, Hs, Hh, He, Hq.
      repeat (split; [reflexivity|]). exists ne, ni.
      rewrite Hv in F3.
      repeat (split; [first [reflexivity|assumption]|]).
      left. apply Z.ltb_lt. exact Ed.
    - repeat (split; [assumption|]). split; [reflexivity|]. split; [assumption|].
      exists [], []. rewrite !app_nil_r.
      split; [exact He|]. split; [exact Hq|]. do 2 (split; [constructor|]).
      split; [intros e []|]. right. split; reflexivity. }
  clearbody s1.
  destruct H1 as (Hv1 & Ht1 & Hn1 & Ho1 & Hu1 & Hs1 & Hc1 & Hh1 & ne & ni & He1 & Hq1
                  & F1 & F2 & F3 & F4).
  destruct (largest_out (tx_vout tx)) as [o|];
    (eexists; fields; split; [rewrite Hn1; reflexivity|];
     cbn [txid vout value_sats status coinjoin_score spent_by_txid spent_by_vin
          filter has_status UTXOStatus_eqb];
     do 7 (split; [reflexivity|]);
     do 4 (split; [assumption|]);
     split; [rewrite Hs1; unfold sum_values; cbn; lia|];
     split; [rewrite app_nil_r; exact Ho1|];
     split; [rewrite Hc1; exact Hc|];
     exists ne, ni;
     do 5 (split; [assumption|]);
     destruct F4 as [F4|F4]; [left; split; [reflexivity|exact F4]|right; exact F4]).
Qed.

Lemma BGInv_frame (s0 s : BState) :
  BGInv env s0 ->
  nodes (b_result s) = nodes (b_result s0) ->
  edges (b_result s) = edges (b_result s0) ->
  unspent_endpoints (b_result s) = unspent_endpoints (b_result s0) ->
  total_value_traced_sats (b_result s) = total_value_traced_sats (b_result s0) ->
  coinjoin_txids (b_result s) = coinjoin_txids (b_result s0) ->
  coinbase_origins (b_result s) = coinbase_origins (b_result s0) ->
  (forall t, In t (b_visited s0) -> In t (b_visited s)) ->
  b_tx_count s = b_tx_count s0 ->
  BGInv env s.
Proof.
  intros [H1 H2 H3 H4 H5 H6 H7 H8 H9 H10 H11] Hn He Hu Ht Hc Ho Hv Hk.
  constructor; rewrite ?Hn, ?He, ?Hu, ?Ht, ?Hc, ?Ho, ?Hk; try assumption.
  eapply Forall_impl; [|exact H5]. intros n Hin. apply Hv. exact Hin.
Qed.

Lemma b_edge_explained_more (ns new : list UTXONode) (e : TraceEdge) :
  b_edge_explained env ns e -> b_edge_explained env (ns ++ new) e.
Proof.
  intros (tx & n & H1 & H2 & Hin & H3). exists tx, n.
  split; [exact H1|]. split; [exact H2|].
  split; [apply in_or_app; left; exact Hin|exact H3].
Qed.

Lemma sum_values_app (a b : list UTXONode) :
  sum_values (a ++ b) = (sum_values a + sum_values b)%Z.
Proof. unfold sum_values. rewrite map_app, sumZ_app. reflexivity. Qed.

Lemma b_process_tx_graph (tx : Tx) (current_txid : string) (depth : nat)
    (s0 s : BState) :
  BGInv env s0 ->
  b_result s = b_result s0 ->
  b_visited s = current_txid :: b_visited s0 ->
  ~ In current_txid (b_visited s0) ->
  b_tx_count s = S (b_tx_count s0) ->
  (b_tx_count s0 < MAX_TRANSACTIONS_PER_TRACE)%nat ->
  get_raw_transaction env current_txid = Some tx ->
  BGInv env (b_process_tx max_depth tx current_txid depth s).
Proof.
  intros [H1 H2 H3 H4 H5 H6 H7 H8 H9 H10 H11] Hr Hv Hnew Ht Hlim Htx.
  destruct (b_process_tx_effect tx current_txid depth s)
    as (n & En & Etx & Evo & Eval & Est & Esc & Eby & Ebv & Evis & Ecnt & _ & Eun & Etot
        & Eor & Ecj & ne & ni & Eed & _ & F1 & _ & _ & F4).
  set (s' := b_process_tx _ _ _ _ s) in *. clearbody s'.
  rewrite Hr in *.
  assert (Hsound : tx_node_sound env n).
  { exists tx. rewrite Etx. repeat split; assumption. }
  constructor.
  - rewrite Etot, En, filter_app, sum_values_app, H1. reflexivity.
  - rewrite Eor, En, filter_app, H2. reflexivity.
  - rewrite Eun. exact H3.
  - rewrite En, map_app. cbn [map]. rewrite Etx.
    apply NoDup_snoc; [|exact H4]. intro Hin. apply Hnew.
    apply in_map_iff in Hin as (m & Em & Hin). rewrite <- Em.
    rewrite Forall_forall in H5. apply H5. exact Hin.
  - rewrite En, Evis, Hv. apply Forall_app. split.
    + eapply Forall_impl; [|exact H5]. intros m Hm. right. exact Hm.
    + constructor; [|constructor]. left. symmetry. exact Etx.
  - rewrite En, length_app, Ecnt, Ht, H6. cbn [Datatypes.length]. lia.
  - rewrite Ecnt, Ht. lia.
  - rewrite En. apply Forall_app. split; [exact H8|]. constructor; [exact Hsound|constructor].
  - rewrite En, Eed. apply Forall_app. split.
    + eapply Forall_impl; [|exact H9]. intros e. apply b_edge_explained_more.
    + apply Forall_forall. intros e He.
      destruct F4 as [[Es _]|[F4 _]]; [|rewrite F4 in He; destruct He].
      rewrite Forall_forall in F1. specialize (F1 e He).
      assert (Eto : to_txid e = current_txid) by (destruct F1; assumption).
      exists tx, n. rewrite Eto. split; [exact Htx|]. split; [exact F1|].
      split; [apply in_or_app; right; left; reflexivity|]. split; assumption.
  - rewrite Ecj, En, <- Etx. apply coinjoin_list_snoc; assumption.
  - rewrite Ecj, <- Etx.
    apply coinjoin_list_snoc with (ns := nodes (b_result s0)); assumption.
Qed.

Lemma b_process_item_graph (item : string * nat) (s0 s : BState) :
  BGInv env s0 ->
  b_result s = b_result s0 -> b_visited s = b_visited s0 ->
  b_tx_count s = b_tx_count s0 ->
  (b_tx_count s0 < MAX_TRANSACTIONS_PER_TRACE)%nat ->
  BGInv env (b_process_item env max_depth item s).
Proof.
  intros Hinv Hr Hv Ht Hlim. unfold b_process_item.
  destruct item as [current_txid depth].
  destruct (str_in _ _) eqn:Evis.
  { apply BGInv_frame with (s0 := s0); rewrite ?Hr, ?Hv, ?Ht; auto. }
  assert (Hnew : ~ In current_txid (b_visited s0)).
  { rewrite <- Hv. intro Hin. apply str_in_true in Hin. congruence. }
  destruct (max_depth <? Z.of_nat depth)%Z.
  { apply BGInv_frame with (s0 := s0); fields; rewrite ?Hr, ?Hv, ?Ht; auto.
    intros k Hk. right. exact Hk. }
  destruct (get_raw_transaction env current_txid) as [tx|] eqn:Etx.
  2:{ apply BGInv_frame with (s0 := s0); fields; rewrite ?Hr, ?Hv, ?Ht; auto.
      intros k Hk. right. exact Hk. }
  apply b_process_tx_graph with (s0 := s0); fields; auto; congruence.
Qed.

Lemma b_loop_body_graph (i : nat) (s : BState) :
  BGInv env s -> b_loop_cond s = true -> BGInv env (b_loop_body env max_depth i s).
Proof.
  intros Hinv Hcond. unfold b_loop_cond in Hcond.
  apply andb_true_iff in Hcond as [_ Hlim].
  apply Nat.ltb_lt in Hlim. unfold b_loop_body.
  set (s1 := if (_ <? _)%nat then _ else s).
  assert (Hinv1 : BGInv env s1).
  { subst s1. destruct (_ <? _)%nat; [|exact Hinv].
    apply BGInv_frame with (s0 := s); fields; auto. }
  assert (Ht1 : b_tx_count s1 = b_tx_count s) by (subst s1; destruct (_ <? _)%nat; reflexivity).
  clearbody s1.
  destruct (b_queue s1) as [|item rest] eqn:Eq; [exact Hinv1|].
  apply b_process_item_graph with (s0 := s1); fields; auto; lia.
Qed.

Lemma b_state_after_graph (n : nat) (txid : string) :
  BGInv env (b_state_after env max_depth n txid).
Proof.
  unfold b_state_after.
  apply while_loop_invariant with (Inv := BGInv env).
  - intros i s Hs Hc. apply b_loop_body_graph; assumption.
  - unfold b_initial_state. constructor; fields; cbn; try reflexivity;
      try (constructor; fail).
    + unfold MAX_TRANSACTIONS_PER_TRACE. lia.
    + intro t. split; [intros []|intros (n0 & [] & _)].
Qed.

(** *** A backward trace that hit no limit is complete *)

Lemma b_pending_step (s0 s' : BState) (item : string * nat)
    (rest : list (string * nat)) (t : string) :
  b_queue s0 = item :: rest ->
  In (fst item) (b_visited s') ->
  (forall k, In k (b_visited s0) -> In k (b_visited s')) ->
  (forall it, In it rest -> In it (b_queue s')) ->
  b_pending s0 t -> b_pending s' t.
Proof.
  intros Hq Hitem Hv Hrest [Hk|[d Hk]].
  - left. apply Hv. exact Hk.
  - rewrite Hq in Hk. destruct Hk as [Hk|Hk].
    + left. subst item. exact Hitem.
    + right. exists d. apply Hrest. exact Hk.
Qed.

Lemma BComplete_skip (start : string) (s0 s' : BState)
    (item : string * nat) (rest : list (string * nat)) :
  BComplete env max_depth start s0 ->
  b_queue s0 = item :: rest ->
  b_queue s' = rest ->
  hit_limit (b_result s') = hit_limit (b_result s0) ->
  edges (b_result s') = edges (b_result s0) ->
  nodes (b_result s') = nodes (b_result s0) ->
  (b_visited s' = b_visited s0 /\ In (fst item) (b_visited s0)
   \/ b_visited s' = fst item :: b_visited s0
      /\ ((max_depth < Z.of_nat (snd item))%Z
          \/ get_raw_transaction env (fst item) = None)) ->
  BComplete env max_depth start s'.
Proof.
  intros [Hb He Hc Hd Hv] Hq Hq' Hh Hed Hn Hcase.
  assert (Hitem : In (fst item) (b_visited s')).
  { destruct Hcase as [[-> H]|[-> _]]; [exact H|left; reflexivity]. }
  assert (Hvis : forall k, In k (b_visited s0) -> In k (b_visited s')).
  { intros k Hk. destruct Hcase as [[-> _]|[-> _]]; [exact Hk|right; exact Hk]. }
  assert (Hrest : forall it, In it rest -> In it (b_queue s')) by (rewrite Hq'; auto).
  constructor.
  - rewrite Hh. intro H. eapply b_pending_step; eauto.
  - rewrite Hh, Hed. intros H e Hin. eapply b_pending_step; eauto.
  - intro H0. specialize (Hc H0). rewrite Hq in Hc. rewrite Hq'.
    inversion Hc; assumption.
  - rewrite Hed. exact Hd.
  - intros H0 t tx Hin Etx. rewrite Hn.
    destruct Hcase as [[E _]|[E Hwhy]]; rewrite E in Hin.
    + eapply Hv; eauto.
    + destruct Hin as [Hin|Hin]; [|eapply Hv; eauto].
      exfalso. destruct Hwhy as [Hdeep|Hnone].
      * specialize (Hc H0). rewrite Hq in Hc. inversion Hc; subst. lia.
      * congruence.
Qed.

Lemma b_process_item_complete (start : string) (item : string * nat)
    (s0 s : BState) :
  BComplete env max_depth start s0 ->
  b_queue s0 = item :: b_queue s ->
  b_result s = b_result s0 -> b_visited s = b_visited s0 ->
  BComplete env max_depth start (b_process_item env max_depth item s).
Proof.
  intros Hinv Hq Hr Hv. unfold b_process_item.
  destruct item as [current_txid depth].
  destruct (str_in _ _) eqn:Evis.
  { apply BComplete_skip with (s0 := s0) (item := (current_txid, depth))
                              (rest := b_queue s); rewrite ?Hr; auto.
    left. split; [exact Hv|]. cbn [fst]. rewrite <- Hv.
    apply str_in_true. exact Evis. }
  destruct (max_depth <? Z.of_nat depth)%Z eqn:Ed.
  { apply BComplete_skip with (s0 := s0) (item := (current_txid, depth))
                              (rest := b_queue s); fields; rewrite ?Hr; auto.
    right. cbn [fst snd]. split; [rewrite Hv; reflexivity|].
    left. apply Z.ltb_lt. exact Ed. }
  apply Z.ltb_ge in Ed.
  destruct (get_raw_transaction env current_txid) as [tx|] eqn:Etx.
  2:{ apply BComplete_skip with (s0 := s0) (item := (current_txid, depth))
                                (rest := b_queue s); fields; rewrite ?Hr; auto.
      right. cbn [fst snd]. split; [rewrite Hv; reflexivity|]. right. exact Etx. }
  set (s1 := set_b_tx_count _ _).
  assert (Hr1 : b_result s1 = b_result s0) by exact Hr.
  assert (Hv1 : b_visited s1 = current_txid :: b_visited s0)
    by (subst s1; fields; rewrite Hv; reflexivity).
  assert (Hq1 : b_queue s1 = b_queue s) by reflexivity.
  clearbody s1.
  destruct (b_process_tx_effect tx current_txid depth s1)
    as (n & En & Ent & _ & _ & _ & _ & _ & _ & Evis' & _ & Ehit & _ & _ & _ & _
        & ne & ni & Eed & Equ & _ & F2 & F3 & F4).
  set (s' := b_process_tx _ _ _ _ s1) in *. clearbody s'.
  rewrite Hr1 in *. rewrite Hv1 in *. rewrite Hq1 in *.
  destruct Hinv as [Hb He Hc Hd Hvn].
  assert (Hitem : In (fst (current_txid, depth)) (b_visited s'))
    by (rewrite Evis'; left; reflexivity).
  assert (Hvis : forall k, In k (b_visited s0) -> In k (b_visited s'))
    by (intros k Hk; rewrite Evis'; right; exact Hk).
  assert (Hrest : forall it, In it (b_queue s) -> In it (b_queue s'))
    by (intros it Hit; rewrite Equ; apply in_or_app; left; exact Hit).
  constructor.
  - rewrite Ehit. intro H. eapply b_pending_step; eauto.
  - rewrite Ehit, Eed. intros H e Hin. apply in_app_or in Hin as [Hin|Hin].
    + eapply b_pending_step; eauto.
    + destruct (F3 e Hin) as [H1|H1].
      * left. rewrite Evis'. exact H1.
      * right. exists (S depth). rewrite Equ. apply in_or_app. right. exact H1.
  - intro H0. specialize (Hc H0). rewrite Hq in Hc. rewrite Equ.
    apply Forall_app. split; [inversion Hc; assumption|].
    destruct F4 as [[_ Hlt]|[_ ->]]; [|constructor].
    eapply Forall_impl; [|exact F2]. intros it Hit. cbn beta in Hit. rewrite Hit. lia.
  - intro Hneg. rewrite Eed, (Hd Hneg).
    destruct F4 as [[_ Hlt]|[-> _]]; [lia|reflexivity].
  - intros H0 t tx0 Hin Etx0. rewrite En. rewrite Evis' in Hin.
    destruct Hin as [Hin|Hin].
    + subst t. exists n. split; [apply in_or_app; right; left; reflexivity|exact Ent].
    + destruct (Hvn H0 t tx0 Hin Etx0) as (m & Hm & Em).
      exists m. split; [apply in_or_app; left; exact Hm|exact Em].
Qed.

Lemma b_loop_body_complete (start : string) (i : nat) (s : BState) :
  BComplete env max_depth start s ->
  BComplete env max_depth start (b_loop_body env max_depth i s).
Proof.
  intros Hinv. unfold b_loop_body.
  set (s1 := if (_ <? _)%nat then _ else s).
  assert (Hinv1 : BComplete env max_depth start s1).
  { subst s1. destruct (_ <? _)%nat; [|exact Hinv].
    destruct Hinv as [Hb He Hc Hd Hv]. constructor; fields; auto; try discriminate.
    intro H0. apply Forall_firstn. auto. }
  clearbody s1.
  destruct (b_queue s1) as [|item rest] eqn:Eq; [exact Hinv1|].
  apply b_process_item_complete with (s0 := s1); auto.
Qed.

Lemma b_state_after_complete (n : nat) (txid : string) :
  BComplete env max_depth txid (b_state_after env max_depth n txid).
Proof.
  unfold b_state_after.
  apply while_loop_invariant with (Inv := BComplete env max_depth txid).
  - intros i s Hs _. apply b_loop_body_complete. exact Hs.
  - unfold b_initial_state. constructor; fields; cbn [edges empty_result].
    + intros _. right. exists 0%nat. left. reflexivity.
    + intros _ e [].
    + intro H0. constructor; [exact H0|constructor].
    + reflexivity.
    + intros _ t tx [].
Qed.

End BackwardGraph.

Lemma b_finish_graph (s : BState) :
  nodes (b_finish s) = nodes (b_result s)
  /\ edges (b_finish s) = edges (b_result s)
  /\ unspent_endpoints (b_finish s) = unspent_endpoints (b_result s)
  /\ coinbase_origins (b_finish s) = coinbase_origins (b_result s)
  /\ coinjoin_txids (b_finish s) = coinjoin_txids (b_result s)
  /\ total_value_traced_sats (b_finish s) = total_value_traced_sats (b_result s)
  /\ total_transactions (b_finish s) = b_tx_count s.
Proof.
  unfold b_finish. destruct (MAX_TRANSACTIONS_PER_TRACE <=? b_tx_count s)%nat;
    fields; repeat split; reflexivity.
Qed.

Lemma trace_backward_graph (settings : Settings) (env : Env) (txid : string)
    (max_depth : option Z) :
  exists s, trace_backward settings env txid max_depth = b_finish s /\ BGInv env s.
Proof.
  rewrite trace_backward_eq. eexists. split; [reflexivity|].
  apply b_state_after_graph.
Qed.


(** X9.  The total a backward trace reports is the sum over its nodes
    that are no coinbase, its coinbase origins are its coinbase nodes, and
    it has no unspent endpoints. *)
Theorem backward_value_accounting (settings : Settings) (env : Env) (txid : string)
    (max_depth : option Z) :
  let r := trace_backward settings env txid max_depth in
  total_value_traced_sats r = sum_values (filter (has_status SPENT) (nodes r))
  /\ coinbase_origins r = filter (has_status COINBASE) (nodes r)
  /\ unspent_endpoints r = [].
Proof.
  cbv zeta.
  destruct (trace_backward_graph settings env txid max_depth) as (s & -> & H).
  destruct (b_finish_graph s) as (-> & _ & -> & -> & _ & -> & _).
  destruct H. auto.
Qed.

(** X10.  Every edge of a backward trace leads to a node of the trace
    that is no coinbase, comes from an input of that transaction, and
    carries no amount. *)
Theorem backward_edges_explained (settings : Settings) (env : Env) (txid : string)
    (max_depth : option Z) :
  let r := trace_backward settings env txid max_depth in
  Forall (b_edge_explained env (nodes r)) (edges r).
Proof.
  cbv zeta.
  destruct (trace_backward_graph settings env txid max_depth) as (s & -> & H).
  destruct (b_finish_graph s) as (-> & -> & _).
  destruct H. assumption.
Qed.

Lemma b_finish_complete (env : Env) (md : Z) (txid : string) (s : BState) :
  BComplete env md txid s ->
  b_loop_cond s = false ->
  hit_limit (b_finish s) = false ->
  (forall e tx, In e (edges (b_finish s)) ->
     get_raw_transaction env (from_txid e) = Some tx ->
     exists n, In n (nodes (b_finish s)) /\ Tracer.txid n = from_txid e)
  /\ (forall tx, (0 <= md)%Z ->
        get_raw_transaction env txid = Some tx ->
        exists n, In n (nodes (b_finish s)) /\ Tracer.txid n = txid).
Proof.
  intros Hc Hend. destruct (b_finish_graph s) as (-> & -> & _).
  intro Hh.
  assert (Hs : hit_limit (b_result s) = false
               /\ (b_tx_count s < MAX_TRANSACTIONS_PER_TRACE)%nat).
  { unfold b_finish in Hh. destruct (MAX_TRANSACTIONS_PER_TRACE <=? b_tx_count s)%nat eqn:El.
    - fields. discriminate.
    - fields. split; [exact Hh|]. apply Nat.leb_gt. exact El. }
  destruct Hs as [Hh0 Hlim].
  destruct Hc as [Hb He Hq Hd Hv].
  assert (Hempty : b_queue s = []).
  { unfold b_loop_cond in Hend. destruct (b_queue s); [reflexivity|].
    apply Nat.ltb_lt in Hlim. rewrite Hlim in Hend. discriminate. }
  assert (Hpend : forall k, b_pending s k -> In k (b_visited s)).
  { intros k [Hk|[d Hk]]; [exact Hk|]. rewrite Hempty in Hk. destruct Hk. }
  split.
  - intros e tx Hin Etx.
    assert (H0 : (0 <= md)%Z).
    { destruct (Z.le_gt_cases 0 md) as [H|H]; [exact H|].
      rewrite (Hd H) in Hin. destruct Hin. }
    apply (Hv H0 (from_txid e) tx); auto.
  - intros tx H0 Etx. apply (Hv H0 txid tx); auto.
Qed.

(** X11.  A backward trace that reports no limit is complete: every
    transaction an edge comes from is a node when the node software knows
    it, and so is the transaction the trace was started on when the depth
    limit is not negative. *)
Theorem backward_complete (settings : Settings) (env : Env) (txid : string)
    (max_depth : option Z) :
  let r := trace_backward settings env txid max_depth in
  hit_limit r = false ->
  (forall e tx, In e (edges r) ->
     get_raw_transaction env (from_txid e) = Some tx ->
     exists n, In n (nodes r) /\ Tracer.txid n = from_txid e)
  /\ (forall tx, (0 <= effective_max_depth settings max_depth)%Z ->
        get_raw_transaction env txid = Some tx ->
        exists n, In n (nodes r) /\ Tracer.txid n = txid).
Proof.
  cbv zeta. rewrite trace_backward_eq. apply b_finish_complete.
  - apply b_state_after_complete.
  - apply b_state_after_ends.
Qed.

Lemma backward_complete_witness :
  let r := trace_backward default_settings Scenario.peeling_world "t4" (Some 10%Z) in
  hit_limit r = false
  /\ (forall e tx, In e (edges r) ->
        get_raw_transaction Scenario.peeling_world (from_txid e) = Some tx ->
        exists n, In n (nodes r) /\ Tracer.txid n = from_txid e).
Proof.
  assert (Hh : hit_limit (trace_backward default_settings Scenario.peeling_world
                                         "t4" (Some 10%Z)) = false)
    by (vm_compute; reflexivity).
  split; [exact Hh|].
  exact (proj1 (@backward_complete default_settings Scenario.peeling_world "t4"
                  (Some 10%Z) Hh)).
Defined.

End BackwardGraphFacts.

(* ================================================================= *)
(** ** The shape of a peeling chain *)

Module PeelingShapeFacts.

Import Tracer PeelingSpec PeelingShapeSpec PyFacts.
Local Open Scope Q_scope.

Lemma spend_map_get_in (r : TraceResult) (key : string * nat) (e : TraceEdge) :
  spend_map_get r key = Some e -> In e (edges r).
Proof.
  unfold spend_map_get. intro H. apply find_some in H as [H _].
  apply in_rev. exact H.
Qed.

Lemma node_map_get_in (r : TraceResult) (key : string * nat) (n : UTXONode) :
  node_map_get r key = Some n -> In n (nodes r).
Proof.
  unfold node_map_get. intro H. apply find_some in H as [H _].
  apply in_rev. exact H.
Qed.

Lemma spending_outputs_in (r : TraceResult) (t : string) (n : UTXONode) :
  In n (Py.sorted_asc value_sats Z.ltb
          (filter (fun n => String.eqb (txid n) t) (nodes r))) ->
  In n (nodes r).
Proof.
  intro H. apply (Permutation_in _ (sorted_asc_perm _ _ _)) in H.
  apply filter_In in H as [H _]. exact H.
Qed.

Lemma last_in (A : Type) (l : list A) (d : A) : l <> [] -> In (last l d) l.
Proof.
  intro H. destruct (exists_last H) as (l' & x & ->).
  rewrite last_last. apply in_or_app. right. left. reflexivity.
Qed.

(** What the loop that follows the change returns: it only appends, at
    most one payment per transaction, never beyond 21 transactions; the
    transactions are targets of edges and the payments are amounts of
    nodes. *)
Lemma follow_chain_shape (r : TraceResult) (fuel : nat) :
  forall current_key chain_txids payments visited,
    (List.length chain_txids <= CHAIN_SAFETY_LIMIT)%nat ->
    let '(current_key', chain_txids', payments') :=
      follow_chain fuel r current_key chain_txids payments visited in
    exists new_txids new_payments,
      chain_txids' = chain_txids ++ new_txids
      /\ payments' = payments ++ new_payments
      /\ (List.length new_payments <= List.length new_txids)%nat
      /\ (List.length chain_txids' <= S CHAIN_SAFETY_LIMIT)%nat
      /\ Forall (followed_in r) new_txids
      /\ Forall (amount_in r) new_payments.
Proof.
  induction fuel as [|fuel IH]; intros current_key chain_txids payments visited Hlen;
    cbn [follow_chain].
  - exists [], []. rewrite !app_nil_r. repeat split; auto; lia.
  - assert (Hstop : exists (new_txids : list string) (new_payments : list Z),
              chain_txids = chain_txids ++ new_txids
              /\ payments = payments ++ new_payments
              /\ (List.length new_payments <= List.length new_txids)%nat
              /\ (List.length chain_txids <= S CHAIN_SAFETY_LIMIT)%nat
              /\ Forall (followed_in r) new_txids
              /\ Forall (amount_in r) new_payments).
    { exists [], []. rewrite !app_nil_r. repeat split; auto; lia. }
    destruct (spend_map_get r current_key) as [edge|] eqn:Ee; [|exact Hstop].
    destruct (in_visited current_key visited); [exact Hstop|].
    cbv zeta.
    assert (Hedge : followed_in r (to_txid edge)).
    { exists edge. split; [eapply spend_map_get_in; exact Ee|reflexivity]. }
    assert (Hlen1 : (List.length (chain_txids ++ [to_txid edge]) <= S CHAIN_SAFETY_LIMIT)%nat)
      by (rewrite length_app; cbn [Datatypes.length]; lia).
    destruct (Py.sorted_asc _ _ _) as [|payment [|second rest]] eqn:Es.
    + exists [to_txid edge], []. rewrite app_nil_r.
      repeat split; auto; cbn; lia.
    + exists [to_txid edge], [value_sats payment].
      repeat split; auto. constructor; [|constructor].
      exists payment. split; [|reflexivity].
      apply spending_outputs_in with (t := to_txid edge). rewrite Es. left. reflexivity.
    + assert (Hpay : amount_in r (value_sats payment)).
      { exists payment. split; [|reflexivity].
        apply spending_outputs_in with (t := to_txid edge). rewrite Es. left. reflexivity. }
      destruct (CHAIN_SAFETY_LIMIT <? _)%nat eqn:El.
      * exists [to_txid edge], [value_sats payment]. repeat split; auto.
      * apply Nat.ltb_ge in El.
        specialize (IH (txid (last (payment :: second :: rest) payment),
                        vout (last (payment :: second :: rest) payment))
                       (chain_txids ++ [to_txid edge]) (payments ++ [value_sats payment])
                       (current_key :: visited) El).
        destruct (follow_chain fuel r _ _ _ _) as [[k' t'] p'].
        destruct IH as (nt & np & -> & -> & H1 & H2 & H3 & H4).
        exists (to_txid edge :: nt), (value_sats payment :: np).
        rewrite <- !app_assoc in *. cbn [app Datatypes.length] in *.
        split; [reflexivity|]. split; [reflexivity|]. split; [lia|].
        split; [exact H2|]. split; constructor; assumption.
Qed.

(** X12.  When [detect_peeling_chain] returns, the chain it reports has
    as many transactions as its length says, at most 21; each of them is the
    target of an edge of the trace; the payments it lists are amounts of
    nodes of the trace, at most one per transaction, and the total peeled
    is their sum; the remainder is 0 or the amount of an unspent node. *)
Theorem peeling_chain_shape (trace_result : TraceResult) (r : PeelingChainResult) :
  detect_peeling_chain trace_result = Returned r ->
  chain_length r = List.length (transactions r)
  /\ (chain_length r <= S CHAIN_SAFETY_LIMIT)%nat
  /\ Forall (followed_in trace_result) (transactions r)
  /\ (remaining_sats r = 0%Z
      \/ exists n, In n (nodes trace_result) /\ status n = UNSPENT
                   /\ value_sats n = remaining_sats r)
  /\ forall payments, payment_amounts_sats r = Some payments ->
       total_peeled_sats r = Py.sumZ payments
       /\ (List.length payments <= chain_length r)%nat
       /\ Forall (amount_in trace_result) payments.
Proof.
  unfold detect_peeling_chain.
  assert (Hnone : forall r, r = not_a_chain 0 [] 0 ->
            chain_length r = List.length (transactions r)
            /\ (chain_length r <= S CHAIN_SAFETY_LIMIT)%nat
            /\ Forall (followed_in trace_result) (transactions r)
            /\ (remaining_sats r = 0%Z
                \/ exists n, In n (nodes trace_result) /\ status n = UNSPENT
                             /\ value_sats n = remaining_sats r)
            /\ forall payments, payment_amounts_sats r = Some payments ->
                 total_peeled_sats r = Py.sumZ payments
                 /\ (List.length payments <= chain_length r)%nat
                 /\ Forall (amount_in trace_result) payments).
  { intros r0 ->. cbn. split; [reflexivity|]. split; [lia|]. split; [constructor|].
    split; [left; reflexivity|]. intros ps H. discriminate H. }
  destruct (_ <? 2)%nat; [intros [= <-]; apply Hnone; reflexivity|].
  cbv zeta.
  destruct (node_map_get trace_result _) as [start_node|];
    [|intros [= <-]; apply Hnone; reflexivity].
  clear Hnone.
  pose proof (follow_chain_shape trace_result (S CHAIN_SAFETY_LIMIT)
                (start_txid trace_result, start_vout trace_result) [] [] []
                ltac:(cbn; lia)) as Hshape.
  destruct (follow_chain _ _ _ _ _ _) as [[current_key chain_txids] payments].
  destruct Hshape as (nt & np & -> & -> & H1 & H2 & H3 & H4).
  cbn [app] in *.
  destruct (_ <? 3)%nat.
  { intros [= <-]. cbn [chain_length transactions remaining_sats payment_amounts_sats
                           total_peeled_sats not_a_chain].
    split; [reflexivity|]. split; [exact H2|]. split; [exact H3|].
    split; [left; reflexivity|]. intros ps H. discriminate H. }
  match goal with
  | |- context [match ?m with Returned _ => _ | Raised _ => _ end] =>
      destruct m as [c|e]
  end; [|discriminate].
  intros [= <-].
  cbn [chain_length transactions remaining_sats payment_amounts_sats total_peeled_sats].
  split; [reflexivity|]. split; [exact H2|]. split; [exact H3|]. split.
  - destruct (node_map_get trace_result current_key) as [last_node|] eqn:El; [|left; reflexivity].
    destruct (UTXOStatus_eqb (status last_node) UNSPENT) eqn:Es; [|left; reflexivity].
    right. exists last_node. split; [eapply node_map_get_in; exact El|].
    split; [|reflexivity]. destruct (status last_node); try discriminate. reflexivity.
  - intros ps [= <-]. auto.
Qed.

Lemma peeling_chain_shape_witness :
  chain_length peeling_report = List.length (transactions peeling_report)
  /\ (chain_length peeling_report <= S CHAIN_SAFETY_LIMIT)%nat
  /\ Forall (followed_in peeling_trace) (transactions peeling_report)
  /\ (remaining_sats peeling_report = 0%Z
      \/ exists n, In n (nodes peeling_trace) /\ status n = UNSPENT
                   /\ value_sats n = remaining_sats peeling_report)
  /\ forall payments, payment_amounts_sats peeling_report = Some payments ->
       total_peeled_sats peeling_report = Py.sumZ payments
       /\ (List.length payments <= chain_length peeling_report)%nat
       /\ Forall (amount_in peeling_trace) payments.
Proof.
  apply (@peeling_chain_shape peeling_trace peeling_report).
  vm_compute. reflexivity.
Defined.



End PeelingShapeFacts.

(* ================================================================= *)
(** ** What the CoinJoin detector reports *)

Module CoinJoinHistoryFacts.

Import CoinJoin CoinJoinHistory CoinJoinHistorySpec Tactics PyFacts.
Local Open Scope Q_scope.

Lemma detect_whirlpool_range (stats : TransactionStats) :
  in_range (_detect_whirlpool stats).
Proof.
  unfold in_range, _detect_whirlpool. cbv zeta.
  case_ifs; cbn [fst snd]; repeat split; vm_compute; discriminate.
Qed.

Lemma extra_nonneg (n : nat) :
  (10 <= n)%nat -> 0 <= inject_Z (Z.of_nat n - 10).
Proof. intro H. change 0 with (inject_Z 0). rewrite <- Zle_Qle. lia. Qed.

Lemma detect_wasabi_v1_range (stats : TransactionStats) :
  in_range (_detect_wasabi_v1 stats).
Proof.
  unfold in_range, _detect_wasabi_v1, wasabi_min_equal_outputs.
  destruct (10 <=? max_equal_outputs stats)%nat eqn:E.
  2:{ cbn [fst snd]. repeat split; vm_compute; discriminate. }
  apply Nat.leb_le in E. pose proof (extra_nonneg E) as Hx.
  set (x := inject_Z _) in *. clearbody x. cbv zeta. cbn [fst snd].
  assert (H1 : 0 <= x * 0.05) by (apply Qmult_le_0_compat; [exact Hx|vm_compute; discriminate]).
  assert (H2 : 0 <= x * 0.03) by (apply Qmult_le_0_compat; [exact Hx|vm_compute; discriminate]).
  set (a := x * 0.05) in *. set (b := x * 0.03) in *. clearbody a b.
  split; [apply Q.min_glb; lra|].
  split; [eapply Qle_trans; [apply Q.le_min_l|vm_compute; discriminate]|].
  split; [apply Q.min_glb; lra|].
  eapply Qle_trans; [apply Q.le_min_l|vm_compute; discriminate].
Qed.

Lemma detect_wasabi_v2_range (stats : TransactionStats) :
  in_range (_detect_wasabi_v2 stats).
Proof.
  unfold in_range, _detect_wasabi_v2.
  destruct (input_count stats <? 10)%nat eqn:E;
    [cbn [fst snd]; repeat split; vm_compute; discriminate|].
  destruct (output_count stats <? 10)%nat;
    [cbn [fst snd]; repeat split; vm_compute; discriminate|].
  apply Nat.ltb_ge in E. pose proof (extra_nonneg E) as Hx.
  set (x := inject_Z _) in *. clearbody x. cbv zeta.
  assert (H1 : 0 <= x * 0.02) by (apply Qmult_le_0_compat; [exact Hx|vm_compute; discriminate]).
  set (a := x * 0.02) in *. clearbody a.
  assert (Ha : 0 <= Qmin 0.20 a) by (apply Q.min_glb; lra).
  assert (Hb : Qmin 0.20 a <= 0.20) by apply Q.le_min_l.
  assert (Hc : 0 <= Qmin 0.25 a) by (apply Q.min_glb; lra).
  assert (Hd : Qmin 0.25 a <= 0.25) by apply Q.le_min_l.
  set (m1 := Qmin 0.20 a) in *. set (m2 := Qmin 0.25 a) in *. clearbody m1 m2.
  destruct (5 <=? max_equal_outputs stats)%nat; cbn [fst snd]; repeat split; lra.
Qed.

Lemma detect_joinmarket_range (stats : TransactionStats) :
  in_range (_detect_joinmarket stats).
Proof.
  unfold in_range, _detect_joinmarket. cbv zeta.
  case_ifs; cbn [fst snd]; repeat split; vm_compute; discriminate.
Qed.

Lemma detect_payjoin_range (stats : TransactionStats) :
  in_range (_detect_payjoin stats).
Proof.
  unfold in_range, _detect_payjoin. cbv zeta.
  case_ifs; cbn [fst snd]; repeat split; vm_compute; discriminate.
Qed.

(** The generic score is at most 0.9 and its confidence is the score
    capped at 0.7. *)
Lemma detect_generic_range (stats : TransactionStats) :
  0 <= fst (_detect_generic_coinjoin stats)
  /\ fst (_detect_generic_coinjoin stats) <= 0.9
  /\ snd (_detect_generic_coinjoin stats)
     = Qmin 0.7 (fst (_detect_generic_coinjoin stats)).
Proof.
  unfold _detect_generic_coinjoin. cbv zeta. cbn [fst snd].
  split; [|split; [|reflexivity]]; case_ifs; vm_compute; discriminate.
Qed.

(** The selection keeps a result of a detector, or nothing with score
    0. *)
Lemma best_match_selected (results : list (CoinJoinProtocol * (Q * Q))) :
  Forall (fun r => named (fst r) /\ in_range (snd r)) results ->
  selected (best_match results).
Proof.
  unfold best_match.
  assert (H0 : selected (NONE, 0.0, 0.0)).
  { unfold selected, in_range. cbn [fst snd].
    split; [repeat split; vm_compute; discriminate|].
    split; [reflexivity|discriminate]. }
  revert H0. generalize (NONE, 0.0, 0.0).
  induction results as [|[p [s c]] results IH]; intros acc Hacc Hall; cbn [fold_left].
  - exact Hacc.
  - inversion Hall as [|? ? [[Hn Hu] Hr] Hall']; subst. apply IH; [|exact Hall'].
    destruct acc as [[bp bs] bc]. destruct (Py.Qltb bs s); [|exact Hacc].
    unfold selected. cbn [fst snd] in *. split; [exact Hr|].
    split; [intro E; contradiction|exact Hu].
Qed.

Lemma analyze_transaction_selected (tx : Tx) :
  is_coinbase (from_transaction tx) = false ->
  selected
    (best_match
       [(WHIRLPOOL, _detect_whirlpool (from_transaction tx));
        (WASABI_V1, _detect_wasabi_v1 (from_transaction tx));
        (WASABI_V2, _detect_wasabi_v2 (from_transaction tx));
        (JOINMARKET, _detect_joinmarket (from_transaction tx));
        (PAYJOIN, _detect_payjoin (from_transaction tx))]).
Proof.
  intros _. apply best_match_selected.
  repeat constructor; cbn [fst snd]; try discriminate;
    first [apply detect_whirlpool_range | apply detect_wasabi_v1_range
          | apply detect_wasabi_v2_range | apply detect_joinmarket_range
          | apply detect_payjoin_range].
Qed.

Lemma analyze_transaction_ranges (tx : Tx) :
  let r := analyze_transaction tx in
  0 <= score r /\ score r <= 0.95
  /\ 0 <= confidence r /\ confidence r <= 1
  /\ (0.5 <= score r -> protocol r <> NONE)
  /\ (protocol r = UNKNOWN ->
      0.5 <= score r /\ score r <= 0.9 /\ confidence r = Qmin 0.7 (score r)).
Proof.
  cbv zeta. unfold analyze_transaction. cbv zeta.
  destruct (is_coinbase (from_transaction tx)) eqn:Ecb.
  { cbn [score confidence protocol].
    do 4 (split; [vm_compute; discriminate|]). split; [|discriminate].
    intro H. exfalso. vm_compute in H. apply H. reflexivity. }
  pose proof (analyze_transaction_selected tx Ecb) as Hsel.
  destruct (best_match _) as [[bp bs] bc].
  destruct Hsel as ((S1 & S2 & C1 & C2) & Hnone & Hunk). cbn [fst snd] in *.
  assert (Hbest : 0 <= bs /\ bs <= 0.95 /\ 0 <= bc /\ bc <= 1
                  /\ (0.5 <= bs -> bp <> NONE)
                  /\ (bp = UNKNOWN ->
                      0.5 <= bs /\ bs <= 0.9 /\ bc = Qmin 0.7 bs)).
  { split; [exact S1|]. split; [exact S2|]. split; [exact C1|].
    split; [apply Qle_trans with 0.95; [exact C2|vm_compute; discriminate]|].
    split; [|intro E; contradiction].
    intros Hs E. specialize (Hnone E). rewrite Hnone in Hs. vm_compute in Hs.
    apply Hs. reflexivity. }
  destruct (Py.Qltb bs 0.5) eqn:Elow; [|exact Hbest].
  pose proof (detect_generic_range (from_transaction tx)) as (G1 & G2 & G3).
  destruct (_detect_generic_coinjoin (from_transaction tx)) as [gs gc].
  cbn [fst snd] in *.
  destruct (Py.Qltb bs gs); [|exact Hbest].
  cbn [score confidence protocol]. subst gc.
  split; [exact G1|]. split; [apply Qle_trans with 0.9; [exact G2|vm_compute; discriminate]|].
  split; [apply Q.min_glb; [vm_compute; discriminate|exact G1]|].
  split; [apply Qle_trans with 0.7; [apply Q.le_min_l|vm_compute; discriminate]|].
  destruct (Py.Qleb 0.5 gs) eqn:Eg.
  - apply Qleb_le in Eg. split; [discriminate|]. intros _. auto.
  - apply Qleb_gt in Eg. split; [|discriminate].
    intros Hs. exfalso. apply (Qlt_not_le _ _ Eg). exact Hs.
Qed.

(** X14.  The score [analyze_transaction] reports lies between 0 and
    0.95 and its confidence between 0 and 1.  A result without a protocol
    has a score below 0.5, so that a score of 0.5 or more always names one;
    the protocol is "unknown" only for a score between 0.5 and 0.9, with
    the score capped at 0.7 for confidence. *)
Theorem analyze_transaction_report (tx : Tx) :
  let r := analyze_transaction tx in
  0 <= score r /\ score r <= 0.95
  /\ 0 <= confidence r /\ confidence r <= 1
  /\ (protocol r = NONE -> score r < 0.5)
  /\ (0.5 <= score r -> protocol r <> NONE)
  /\ (protocol r = UNKNOWN ->
      0.5 <= score r /\ score r <= 0.9 /\ confidence r = Qmin 0.7 (score r)).
Proof.
  cbv zeta.
  destruct (analyze_transaction_ranges tx) as (S1 & S2 & C1 & C2 & Hnamed & Hunknown).
  cbv zeta in *.
  split; [exact S1|]. split; [exact S2|]. split; [exact C1|]. split; [exact C2|].
  split; [|split; [exact Hnamed|exact Hunknown]].
  intro Hnone.
  destruct (Qlt_le_dec (score (analyze_transaction tx)) 0.5) as [Hlt|Hge]; [exact Hlt|].
  exfalso. exact (Hnamed Hge Hnone).
Qed.

(** *** The history of a list of transactions *)

Lemma sumQ_bounds (a b : Q) (l : list Q) :
  Forall (fun x => a <= x /\ x <= b) l ->
  forall acc,
    acc + Qnat (List.length l) * a <= fold_left Qplus l acc
    /\ fold_left Qplus l acc <= acc + Qnat (List.length l) * b.
Proof.
  induction l as [|x l IH]; intros H acc; cbn [fold_left Datatypes.length].
  - change (Qnat 0) with 0. split; lra.
  - inversion H as [|? ? [Ha Hb] Hl]; subst.
    destruct (IH Hl (acc + x)) as [I1 I2].
    assert (E : Qnat (S (List.length l)) == Qnat (List.length l) + 1).
    { unfold Qnat. rewrite Nat2Z.inj_succ, <- Z.add_1_r, inject_Z_plus. reflexivity. }
    rewrite E. set (n := Qnat (List.length l)) in *. clearbody n.
    set (t := fold_left Qplus l (acc + x)) in *. clearbody t.
    split; lra.
Qed.

Lemma str_counter_add_counted (k : string) (c : list (string * nat)) :
  counted (str_counter_add k c) = S (counted c).
Proof.
  unfold counted. induction c as [|[k' n] c IH]; cbn [str_counter_add].
  - reflexivity.
  - destruct (String.eqb k' k); cbn [map snd fold_right] in *; [lia|].
    rewrite IH. lia.
Qed.

Lemma str_counter_add_keys (k x : string) (c : list (string * nat)) :
  In x (map fst (str_counter_add k c)) -> x = k \/ In x (map fst c).
Proof.
  induction c as [|[k' n] c IH]; cbn [str_counter_add].
  - intros [H|[]]. left. symmetry. exact H.
  - destruct (String.eqb k' k); cbn [map fst In].
    + intros [H|H]; right; [left|right]; assumption.
    + intros [H|H]; [right; left; exact H|].
      destruct (IH H) as [E|E]; [left; exact E|right; right; exact E].
Qed.

(** A counter counts every element once, under a key that occurs. *)
Lemma str_counter_counted (l : list string) :
  counted (str_counter l) = List.length l
  /\ forall x, In x (map fst (str_counter l)) -> In x l.
Proof.
  unfold str_counter.
  assert (H : forall acc,
            counted (fold_left (fun c k => str_counter_add k c) l acc)
            = (counted acc + List.length l)%nat
            /\ forall x, In x (map fst (fold_left (fun c k => str_counter_add k c) l acc)) ->
                         In x (map fst acc) \/ In x l).
  { induction l as [|k l IH]; intro acc; cbn [fold_left Datatypes.length].
    - split; [lia|auto].
    - destruct (IH (str_counter_add k acc)) as [I1 I2]. split.
      + rewrite I1, str_counter_add_counted. lia.
      + intros x Hx. destruct (I2 x Hx) as [H|H]; [|right; right; exact H].
        destruct (str_counter_add_keys _ _ _ H) as [E|E]; [right; left; auto|left; exact E]. }
  destruct (H []) as [H1 H2]. split; [exact H1|].
  intros x Hx. destruct (H2 x Hx) as [[]|Hin]. exact Hin.
Qed.

Lemma protocol_value_none (p : CoinJoinProtocol) :
  protocol_value p = "none"%string -> p = NONE.
Proof. destruct p; [reflexivity|discriminate..]. Qed.

(** X15.  In the history [get_coinjoin_history] returns, the CoinJoin
    count is at most the number of transactions; it is the number of
    transaction ids listed, which are those of the results flagged as
    CoinJoin, in order; the counts of the protocol breakdown add up to it,
    and "none" is never a protocol of the breakdown. *)
Theorem coinjoin_history_counts (tx_list : list Tx) :
  let h := get_coinjoin_history tx_list in
  total_transactions h = List.length tx_list
  /\ List.length (all_results h) = total_transactions h
  /\ (coinjoin_count h <= total_transactions h)%nat
  /\ coinjoin_txids h = map d_txid (filter d_is_coinjoin (all_results h))
  /\ List.length (coinjoin_txids h) = coinjoin_count h
  /\ counted (protocol_breakdown h) = coinjoin_count h
  /\ ~ In "none"%string (map fst (protocol_breakdown h)).
Proof.
  cbv zeta. unfold get_coinjoin_history. cbv zeta.
  cbn [total_transactions all_results coinjoin_count coinjoin_txids protocol_breakdown].
  unfold batch_analyze.
  set (results := map analyze_transaction tx_list).
  assert (Hlen : List.length results = List.length tx_list) by apply length_map.
  assert (Hres : Forall (fun r => 0.5 <= score r -> protocol r <> NONE) results).
  { subst results. apply Forall_forall. intros r Hr.
    apply in_map_iff in Hr as (tx & <- & _).
    apply (analyze_transaction_ranges tx). }
  clearbody results.
  set (coinjoins := filter (fun r => Py.Qleb 0.5 (score r)) results).
  split; [reflexivity|]. split; [rewrite length_map; exact Hlen|].
  split; [rewrite <- Hlen; apply filter_length_le|].
  split.
  { subst coinjoins. clear Hlen Hres. induction results as [|r results IH]; [reflexivity|].
    cbn [map filter to_dict d_is_coinjoin].
    destruct (Py.Qleb 0.5 (score r)); cbn [map d_txid]; rewrite IH; reflexivity. }
  split; [apply length_map|].
  destruct (str_counter_counted (map (fun r => protocol_value (protocol r)) coinjoins))
    as [H1 H2].
  split; [rewrite H1; apply length_map|].
  intro Hin. apply H2 in Hin. apply in_map_iff in Hin as (r & Er & Hr).
  apply protocol_value_none in Er.
  subst coinjoins. apply filter_In in Hr as [Hr Hs].
  apply Qleb_le in Hs. rewrite Forall_forall in Hres.
  exact (Hres r Hr Hs Er).
Qed.

(** X16.  The percentage [get_coinjoin_history] reports lies between 0
    and 100 and the average score is 0 or lies between 0.5 and 0.95; an
    empty list, or one without a CoinJoin, gives 0 and no division by
    zero. *)
Theorem coinjoin_history_ratios (tx_list : list Tx) :
  let h := get_coinjoin_history tx_list in
  0 <= coinjoin_percentage h /\ coinjoin_percentage h <= 100
  /\ (tx_list = [] -> coinjoin_percentage h = 0 /\ average_coinjoin_score h = 0)
  /\ (coinjoin_count h = 0%nat -> average_coinjoin_score h = 0)
  /\ ((0 < coinjoin_count h)%nat ->
      0.5 <= average_coinjoin_score h /\ average_coinjoin_score h <= 0.95).
Proof.
  cbv zeta. unfold get_coinjoin_history. cbv zeta.
  cbn [coinjoin_percentage average_coinjoin_score coinjoin_count].
  unfold batch_analyze.
  set (results := map analyze_transaction tx_list).
  assert (Hlen : List.length results = List.length tx_list) by apply length_map.
  assert (Hres : Forall (fun r => score r <= 0.95) results).
  { subst results. apply Forall_forall. intros r Hr.
    apply in_map_iff in Hr as (tx & <- & _).
    apply (analyze_transaction_ranges tx). }
  set (coinjoins := filter (fun r => Py.Qleb 0.5 (score r)) results).
  assert (Hcount : (List.length coinjoins <= List.length tx_list)%nat)
    by (rewrite <- Hlen; apply filter_length_le).
  assert (Hscores : Forall (fun x => 0.5 <= x /\ x <= 0.95) (map score coinjoins)).
  { apply Forall_forall. intros x Hx. apply in_map_iff in Hx as (r & <- & Hr).
    subst coinjoins. apply filter_In in Hr as [Hr Hs]. apply Qleb_le in Hs.
    rewrite Forall_forall in Hres. split; [exact Hs|exact (Hres r Hr)]. }
  assert (Hempty : tx_list = [] -> coinjoins = []).
  { intro E. subst coinjoins results. rewrite E. reflexivity. }
  clearbody results. 
  assert (Hc0 : 0 <= Qnat (List.length coinjoins)).
  { unfold Qnat. change 0 with (inject_Z 0). rewrite <- Zle_Qle. lia. }
  split; [|split; [|split; [|split]]].
  - destruct tx_list as [|tx txs]; [apply Qle_refl|].
    apply Qmult_le_0_compat; [|vm_compute; discriminate].
    apply Qle_shift_div_l; [apply Qnat_pos; cbn; lia|].
    rewrite Qmult_0_l. exact Hc0.
  - destruct tx_list as [|tx txs]; [vm_compute; discriminate|].
    assert (Hn : 0 < Qnat (List.length (tx :: txs))) by (apply Qnat_pos; cbn; lia).
    assert (Hq : Qnat (List.length coinjoins) / Qnat (List.length (tx :: txs)) <= 1).
    { apply Qle_shift_div_r; [exact Hn|]. rewrite Qmult_1_l.
      apply Qnat_le. exact Hcount. }
    set (q := Qnat (List.length coinjoins) / Qnat (List.length (tx :: txs))) in *.
    clearbody q. lra.
  - intro E. rewrite (Hempty E). subst tx_list. split; reflexivity.
  - intro E. apply length_zero_iff_nil in E. rewrite E. reflexivity.
  - intro Hpos. destruct coinjoins as [|r0 rest] eqn:Ec; [cbn in Hpos; lia|].
    rewrite <- Ec in *. unfold sumQ.
    destruct (sumQ_bounds Hscores 0) as [B1 B2]. rewrite length_map in B1, B2.
    assert (Hn : 0 < Qnat (List.length coinjoins)) by (apply Qnat_pos; exact Hpos).
    set (n := Qnat (List.length coinjoins)) in *.
    set (t := fold_left Qplus (map score coinjoins) 0) in *.
    clearbody n t. split.
    + apply Qle_shift_div_l; [exact Hn|]. lra.
    + apply Qle_shift_div_r; [exact Hn|]. lra.
Qed.

End CoinJoinHistoryFacts.

(* ================================================================= *)
(** ** The paths of a KYC trace *)

Module KYCPathFacts.

Import KYCTrace KYCTraceSpec KYCPathSpec PyFacts KYCTraceFacts.
Local Open Scope Q_scope.

(** *** Looking up the spender *)

(** The scan returns the first entry of the history that is a spender of
    the output, and nothing when there is none. *)
Lemma scan_history_first (env : Env) (txid : string) (vout : nat)
    (history : list (string * Z)) :
  match scan_history env txid vout history with
  | Some t =>
      exists h1 h h2, history = h1 ++ (t, h) :: h2
        /\ spender_of env txid vout t
        /\ Forall (fun x => ~ spender_of env txid vout (fst x)) h1
  | None => Forall (fun x => ~ spender_of env txid vout (fst x)) history
  end.
Proof.
  induction history as [|[hist_txid h] history IH]; cbn [scan_history].
  - constructor.
  - assert (Hskip : ~ spender_of env txid vout hist_txid ->
              match scan_history env txid vout history with
              | Some t =>
                  exists h1 h0 h2, (hist_txid, h) :: history = h1 ++ (t, h0) :: h2
                    /\ spender_of env txid vout t
                    /\ Forall (fun x => ~ spender_of env txid vout (fst x)) h1
              | None => Forall (fun x => ~ spender_of env txid vout (fst x))
                               ((hist_txid, h) :: history)
              end).
    { intro Hno. destruct (scan_history env txid vout history) as [t|].
      - destruct IH as (h1 & h0 & h2 & -> & Hs & Hf).
        exists ((hist_txid, h) :: h1), h0, h2.
        split; [reflexivity|]. split; [exact Hs|]. constructor; assumption.
      - constructor; assumption. }
    destruct (String.eqb hist_txid txid) eqn:Eself.
    { apply Hskip. apply String.eqb_eq in Eself. intros [Hne _]. contradiction. }
    apply String.eqb_neq in Eself.
    destruct (get_raw_transaction env hist_txid) as [full_tx|] eqn:Etx.
    2:{ apply Hskip. intros (_ & tx & E & _). congruence. }
    destruct (existsb (spends txid vout) (tx_vin full_tx)) eqn:Esp.
    2:{ apply Hskip. intros (_ & tx & E & Hs). congruence. }
    exists [], h, history. split; [reflexivity|]. split; [|constructor].
    split; [exact Eself|]. exists full_tx. split; assumption.
Qed.

Lemma find_spending_tx_spender (env : Env) (txid : string) (vout : nat)
    (address t : string) :
  fst (_find_spending_tx env txid vout address) = Some t ->
  spender_of env txid vout t.
Proof.
  unfold _find_spending_tx.
  destruct (electrs env) as [e|]; [|discriminate].
  destruct (get_history e address) as [history|]; [|discriminate].
  cbn [fst]. intro E.
  pose proof (scan_history_first env txid vout history) as H. rewrite E in H.
  destruct H as (_ & _ & _ & _ & Hs & _). exact Hs.
Qed.

(** X17.  With an address index, [_find_spending_tx] returns the first
    transaction of the history of the address, other than the one that
    holds the output, that the node software knows and that has an input
    spending the output, and nothing when the history has none; it counts a
    failure exactly when the history call failed.  Without an address index
    it returns nothing and counts none. *)
Theorem find_spending_tx_first (env : Env) (txid : string) (vout : nat)
    (address : string) :
  match electrs env with
  | None => _find_spending_tx env txid vout address = (None, 0%nat)
  | Some e =>
      match get_history e address with
      | None => _find_spending_tx env txid vout address = (None, 1%nat)
      | Some history =>
          snd (_find_spending_tx env txid vout address) = 0%nat
          /\ match fst (_find_spending_tx env txid vout address) with
             | Some t =>
                 exists h1 h h2, history = h1 ++ (t, h) :: h2
                   /\ spender_of env txid vout t
                   /\ Forall (fun x => ~ spender_of env txid vout (fst x)) h1
             | None => Forall (fun x => ~ spender_of env txid vout (fst x)) history
             end
      end
  end.
Proof.
  unfold _find_spending_tx.
  destruct (electrs env) as [e|]; [|reflexivity].
  destruct (get_history e address) as [history|]; [|reflexivity].
  cbn [fst snd]. split; [reflexivity|]. apply scan_history_first.
Qed.

(** *** The start of the trace *)

Lemma find_start_vout_sound (outs : list TxOut) (a : string) (k idx : nat) (v : Z) :
  find_start_vout (Py.enumerate_from k outs) a = Some (idx, v) ->
  exists out, (k <= idx)%nat /\ nth_error outs (idx - k) = Some out
              /\ address (scriptPubKey out) = Some a
              /\ v = sats_of_btc (value out).
Proof.
  revert k. induction outs as [|o outs IH]; intro k; cbn [Py.enumerate_from find_start_vout].
  - discriminate.
  - assert (Hnext : find_start_vout (Py.enumerate_from (S k) outs) a = Some (idx, v) ->
              exists out, (k <= idx)%nat /\ nth_error (o :: outs) (idx - k) = Some out
                          /\ address (scriptPubKey out) = Some a
                          /\ v = sats_of_btc (value out)).
    { intro H. destruct (IH (S k) H) as (out & Hk & Hn & Ha & Hv).
      exists out. split; [lia|]. split; [|auto].
      replace (idx - k)%nat with (S (idx - S k)) by lia. exact Hn. }
    destruct (address (scriptPubKey o)) as [addr|] eqn:Ea; [|exact Hnext].
    destruct (String.eqb addr a) eqn:Eq; [|exact Hnext].
    apply String.eqb_eq in Eq. subst addr. intros [= <- <-].
    exists o. rewrite Nat.sub_diag. repeat split; auto.
Qed.

(** *** Paths *)

Lemma spend_chain_nil (env : Env) (start : string * nat) : spend_chain env start [].
Proof.
  split; [constructor|]. split.
  - intros n rest H. discriminate.
  - intros l1 a b l2 H. destruct l1; discriminate.
Qed.

Lemma spend_chain_snoc (env : Env) (start : string * nat) (p : list PathNode)
    (n : PathNode) :
  spend_chain env start p ->
  node_of env n ->
  (p = [] -> (txid n, vout n) = start) ->
  (forall l a, p = l ++ [a] -> hop env a n) ->
  spend_chain env start (p ++ [n]).
Proof.
  intros (Hn & Hs & Hh) Hnode Hfirst Hlast. split; [|split].
  - apply Forall_app. split; [exact Hn|]. constructor; [exact Hnode|constructor].
  - intros m rest E. destruct p as [|m' p'].
    + cbn in E. injection E as <- _. apply Hfirst. reflexivity.
    + cbn in E. injection E as <- _. apply (Hs m' p'). reflexivity.
  - intros l1 a b l2 E.
    replace (l1 ++ a :: b :: l2) with ((l1 ++ [a]) ++ b :: l2) in E
      by (rewrite <- app_assoc; reflexivity).
    apply snoc_split in E as [(-> & <- & ->) | (l2' & -> & ->)].
    + apply (Hlast l1 a). reflexivity.
    + apply (Hh l1 a b l2'). rewrite <- app_assoc. reflexivity.
Qed.

Lemma count_coinjoins_snoc (p : list PathNode) (n : PathNode) :
  count_coinjoins (p ++ [n])
  = if is_coinjoin n then S (count_coinjoins p) else count_coinjoins p.
Proof.
  unfold count_coinjoins. rewrite filter_app, length_app. cbn [filter].
  destruct (is_coinjoin n); cbn [Datatypes.length]; lia.
Qed.

Lemma counters_ok_nil : counters_ok [].
Proof. intros l1 n l2 H. destruct l1; discriminate. Qed.

Lemma counters_ok_snoc (p : list PathNode) (n : PathNode) :
  counters_ok p ->
  depth n = List.length p ->
  coinjoin_count_in_path n = count_coinjoins (p ++ [n]) ->
  counters_ok (p ++ [n]).
Proof.
  intros Hp Hd Hc l1 m l2 E.
  apply snoc_split in E as [(-> & -> & ->) | (l2' & -> & ->)].
  - auto.
  - apply (Hp l1 m l2'). reflexivity.
Qed.

(** The confidence of a path lies between 0 and 1. *)
Lemma path_confidence_range (path : list PathNode) (original_value : Z) :
  0 <= _calculate_path_confidence path original_value
  /\ _calculate_path_confidence path original_value <= 1.
Proof.
  unfold _calculate_path_confidence.
  destruct (last (map Some path) None) as [final|]; [|split; vm_compute; discriminate].
  cbv zeta. split.
  - apply Q.min_glb; [|vm_compute; discriminate].
    apply Qle_trans with 0.0; [vm_compute; discriminate|apply Q.le_max_r].
  - apply Qle_trans with 1.0; [apply Q.le_min_r|vm_compute; discriminate].
Qed.

Lemma dead_end_value_snoc (ds : list ProbableDestination) (d : ProbableDestination) :
  dead_end_value (ds ++ [d])
  = if TrailStatus_eqb (trail_status d) DEAD_END
    then (dead_end_value ds + dest_value_sats d)%Z else dead_end_value ds.
Proof.
  unfold dead_end_value, sum_value_sats, with_status.
  rewrite filter_app, map_app, sumZ_app. simpl.
  destruct (TrailStatus_eqb (trail_status d) DEAD_END); simpl.
  - rewrite sumZ_cons. change (Py.sumZ []) with 0%Z. lia.
  - change (Py.sumZ []) with 0%Z. lia.
Qed.

(** *** The invariant of the loop *)

Section PathLoop.
Variable env : Env.
Variable max_depth : nat.
Variable start_value : Z.
Variable start : string * nat.

Lemma KInv_frame (s s' : State) :
  queue s' = queue s -> destinations s' = destinations s ->
  result_total_traced_sats s' = result_total_traced_sats s ->
  KInv env start s -> KInv env start s'.
Proof. unfold KInv. intros -> -> ->. auto. Qed.

Lemma KInv_add_destination (s s' : State) (d : ProbableDestination) :
  queue s' = queue s -> destinations s' = destinations s ++ [d] ->
  result_total_traced_sats s'
  = (if TrailStatus_eqb (trail_status d) DEAD_END
     then result_total_traced_sats s + dest_value_sats d
     else result_total_traced_sats s)%Z ->
  kdest_ok env start d ->
  KInv env start s -> KInv env start s'.
Proof.
  unfold KInv. intros -> -> Hu Hd (Hq & Hds & Ht). split; [assumption|]. split.
  - apply Forall_app. split; [assumption|]. constructor; [assumption|constructor].
  - rewrite Hu, dead_end_value_snoc, Ht. reflexivity.
Qed.

Lemma scaled_score_range (c f : Q) :
  0 <= c /\ c <= 1 -> 0 <= f /\ f <= 1 -> 0 <= c * f /\ c * f <= 1.
Proof. intros [H1 H2] [H3 H4]. split; nra. Qed.

(** The destination recorded for a node that ends its branch. *)
Lemma node_destination_ok (item : QueueItem) (node : PathNode)
    (score : Q) (level : ConfidenceLevel) (status : TrailStatus) :
  spend_chain env start (q_path item ++ [node]) ->
  counters_ok (q_path item ++ [node]) ->
  status <> ACTIVE -> status <> DEPTH_LIMIT ->
  0 <= score /\ score <= 1 ->
  (level = _get_confidence_level score \/ (status = LOST /\ level = LOW)) ->
  (status = DEAD_END -> get_tx_out env (txid node) (vout node) = true) ->
  kdest_ok env start
    {| dest_address := address_or_unknown (node_address node);
       dest_value_sats := value_sats node;
       confidence_score := score;
       confidence_level := level;
       path_length := List.length (q_path item ++ [node]);
       coinjoins_passed := coinjoin_count_in_path node;
       trail_status := status;
       path := q_path item ++ [node] |}.
Proof.
  intros Hchain Hcnt Ha Hd Hs Hl Hu.
  constructor; cbn [path path_length coinjoins_passed trail_status confidence_score
                    confidence_level dest_value_sats]; auto.
  - intro E. destruct (q_path item); discriminate.
  - apply (Hcnt (q_path item) node []). reflexivity.
  - intros _. exists (q_path item), node. auto.
  - intro E. exists (q_path item), node. auto.
Qed.

Lemma process_output_paths (tx : Tx) (item : QueueItem) (output : TxOut) (s : State) :
  item_ok env start item ->
  get_raw_transaction env (q_txid item) = Some tx ->
  nth_error (tx_vout tx) (q_vout item) = Some output ->
  KInv env start s ->
  KInv env start (process_output env start_value tx item output s).
Proof.
  intros (Hchain & Hcnt & Hdepth & Hcj & Hfirst & Hlast) Htx Hout Hs.
  unfold process_output. cbv zeta.
  set (node := make_node tx item output).
  assert (Ntx : txid node = q_txid item) by reflexivity.
  assert (Nvo : vout node = q_vout item) by reflexivity.
  assert (Nva : value_sats node = sats_of_btc (value output)) by reflexivity.
  assert (Nad : node_address node = address (scriptPubKey output)) by reflexivity.
  assert (Nde : depth node = q_depth item) by reflexivity.
  assert (Ncj : coinjoin_count_in_path node
                = if is_coinjoin node then S (q_cj_count item) else q_cj_count item)
    by reflexivity.
  clearbody node.
  assert (Hnode : node_of env node).
  { exists tx, output. rewrite Ntx, Nvo. auto. }
  assert (Hchain' : spend_chain env start (q_path item ++ [node])).
  { apply spend_chain_snoc; auto.
    - intro E. rewrite Ntx, Nvo. auto.
    - intros l a E. destruct (Hlast l a E) as (tx' & E1 & E2).
      exists tx'. rewrite Ntx. auto. }
  assert (Hcount : coinjoin_count_in_path node = count_coinjoins (q_path item ++ [node])).
  { rewrite count_coinjoins_snoc, Ncj, Hcj. reflexivity. }
  assert (Hcnt' : counters_ok (q_path item ++ [node])).
  { apply counters_ok_snoc; auto. congruence. }
  pose proof (path_confidence_range (q_path item ++ [node]) start_value) as Hconf.
  set (conf_score := _calculate_path_confidence (q_path item ++ [node]) start_value) in *.
  clearbody conf_score.
  set (s1 := if is_coinjoin node then add_coinjoin_txid (q_txid item) s else s).
  assert (Hs1 : KInv env start s1).
  { subst s1. destruct (is_coinjoin node); [|exact Hs].
    apply (@KInv_frame s); auto. }
  assert (Hvis1 : visited s1 = visited s) by (subst s1; destruct (is_coinjoin node); reflexivity).
  clearbody s1.
  assert (Hhalf : 0 <= conf_score * 0.5 /\ conf_score * 0.5 <= 1)
    by (apply scaled_score_range; [exact Hconf|split; vm_compute; discriminate]).
  assert (Hthird : 0 <= conf_score * 0.3 /\ conf_score * 0.3 <= 1)
    by (apply scaled_score_range; [exact Hconf|split; vm_compute; discriminate]).
  destruct (Py.Qltb (cumulative_confidence node) CONFIDENCE_COLD_THRESHOLD).
  { eapply (@KInv_add_destination s1); [reflexivity|reflexivity|reflexivity| |exact Hs1].
    apply node_destination_ok; auto; discriminate. }
  destruct (get_tx_out env (q_txid item) (q_vout item)) eqn:Eutxo.
  { eapply (@KInv_add_destination s1); [reflexivity|reflexivity|reflexivity| |exact Hs1].
    apply node_destination_ok; auto; try discriminate.
    intros _. rewrite Ntx, Nvo. exact Eutxo. }
  assert (Hlost : forall s2,
            KInv env start s2 ->
            KInv env start
              (add_destination
                 {| dest_address := address_or_unknown (node_address node);
                    dest_value_sats := value_sats node;
                    confidence_score := conf_score * 0.5;
                    confidence_level := _get_confidence_level (conf_score * 0.5);
                    path_length := List.length (q_path item ++ [node]);
                    coinjoins_passed := coinjoin_count_in_path node;
                    trail_status := LOST;
                    path := q_path item ++ [node] |} s2)).
  { intros s2 H2.
    eapply (@KInv_add_destination s2); [reflexivity|reflexivity|reflexivity| |exact H2].
    apply node_destination_ok; auto; discriminate. }
  destruct (electrs env) as [e|]; [|apply Hlost; exact Hs1].
  destruct (Py.truthy (node_address node) && negb (electrs_disabled s1));
    [|apply Hlost; exact Hs1].
  pose proof (@find_spending_tx_spender env (q_txid item) (q_vout item)
                (opt_str_default (node_address node) "")) as Hfound.
  destruct (_find_spending_tx env (q_txid item) (q_vout item)
              (opt_str_default (node_address node) "")) as [[spending_txid|] failures];
    cbn [fst snd] in *.
  - destruct (Hfound spending_txid eq_refl) as (_ & stx & Estx & Hspends).
    rewrite Estx.
    destruct Hs1 as (Hq & Hd & Ht). unfold KInv.
    cbn [queue destinations result_total_traced_sats set_queue set_electrs].
    split; [|split; assumption].
    apply Forall_app. split; [exact Hq|].
    unfold successors. apply Forall_flat_map. apply Forall_forall.
    intros io _. destruct (in_visited _ _); constructor; [|constructor].
    unfold item_ok. cbn [q_path q_depth q_cj_count q_txid q_vout].
    split; [exact Hchain'|]. split; [exact Hcnt'|].
    split; [rewrite length_app; cbn [Datatypes.length]; lia|].
    split; [exact Hcount|].
    split; [intro E; destruct (q_path item); discriminate|].
    intros l a E. apply app_inj_tail in E as [_ <-].
    exists stx. rewrite Ntx, Nvo. auto.
  - match goal with
    | |- context [if (?a <=? ?b)%nat then _ else _] => destruct (a <=? b)%nat
    end.
    + eapply (@KInv_add_destination s1); [reflexivity|reflexivity|reflexivity| |exact Hs1].
      apply node_destination_ok; auto; discriminate.
    + eapply (@KInv_add_destination s1); [reflexivity|reflexivity|reflexivity| |exact Hs1].
      apply node_destination_ok; auto; discriminate.
Qed.

Lemma process_item_paths (item : QueueItem) (s : State) :
  item_ok env start item ->
  KInv env start s ->
  KInv env start (process_item env max_depth start_value item s).
Proof.
  intros Hitem Hs. unfold process_item.
  destruct (in_visited (q_txid item, q_vout item) (visited s)); [assumption|].
  set (s1 := add_visited (q_txid item, q_vout item) s).
  assert (Hs1 : KInv env start s1) by (apply (@KInv_frame s); auto).
  clearbody s1.
  destruct (max_depth <? q_depth item)%nat.
  { unfold depth_limit_destination.
    destruct (last (map Some (q_path item)) None) as [final|] eqn:El; [|assumption].
    eapply (@KInv_add_destination s1); [reflexivity|reflexivity|reflexivity| |exact Hs1].
    destruct Hitem as (Hchain & Hcnt & Hdepth & Hcj & Hfirst & Hlast).
    pose proof (path_confidence_range (q_path item) start_value) as Hconf.
    constructor; cbn [path path_length coinjoins_passed trail_status confidence_score
                      confidence_level dest_value_sats]; auto.
    - intro E. rewrite E in El. discriminate.
    - discriminate.
    - apply scaled_score_range; [exact Hconf|split; vm_compute; discriminate].
    - left. reflexivity.
    - intro C. contradiction C. reflexivity.
    - discriminate. }
  destruct (get_raw_transaction env (q_txid item)) as [tx|] eqn:Etx; [|assumption].
  set (s2 := incr_tx_count s1).
  assert (Hs2 : KInv env start s2) by (apply (@KInv_frame s1); auto).
  clearbody s2.
  destruct (nth_error (tx_vout tx) (q_vout item)) as [output|] eqn:Eout; [|assumption].
  apply process_output_paths; assumption.
Qed.

Lemma loop_body_paths (i : nat) (s : State) :
  KInv env start s -> KInv env start (loop_body env max_depth start_value i s).
Proof.
  intro Hs. unfold loop_body.
  destruct (Py.Qltb MAX_TRACE_TIME_SECONDS (elapsed env i)).
  { apply (@KInv_frame s); auto. }
  set (s1 := if (MAX_QUEUE_SIZE <? Datatypes.length (queue s))%nat then _ else s).
  assert (Hs1 : KInv env start s1).
  { subst s1. destruct (MAX_QUEUE_SIZE <? Datatypes.length (queue s))%nat; [|assumption].
    destruct Hs as (Hq & Hd & Hc). unfold KInv.
    cbn [queue destinations result_total_traced_sats set_queue add_warning].
    split; [|split; assumption]. apply Forall_firstn. assumption. }
  clearbody s1.
  destruct (queue s1) as [|item rest] eqn:Eq; [assumption|].
  destruct Hs1 as (Hq & Hd & Hc). rewrite Eq in Hq.
  apply process_item_paths.
  - apply (Forall_inv Hq).
  - unfold KInv. cbn. split; [|split; assumption]. apply (Forall_inv_tail Hq).
Qed.

Lemma run_paths (s : State) :
  KInv env start s -> KInv env start (run env max_depth start_value s).
Proof.
  intro Hs. unfold run. apply while_loop_invariant; [|assumption].
  intros i s0 H0 _. apply loop_body_paths. assumption.
Qed.

Lemma initial_state_paths (warnings : list string) :
  KInv env start (initial_state (fst start) (snd start) start_value warnings).
Proof.
  unfold KInv, initial_state. cbn [queue destinations result_total_traced_sats].
  split; [|split; [constructor|reflexivity]].
  constructor; [|constructor]. unfold item_ok. cbn [q_path q_depth q_cj_count q_txid q_vout].
  split; [apply spend_chain_nil|]. split; [apply counters_ok_nil|].
  split; [reflexivity|]. split; [reflexivity|].
  split; [intros _; destruct start; reflexivity|].
  intros l a E. destruct l; discriminate.
Qed.

End PathLoop.

(** *** The result of a trace *)

Lemma insert_desc_sorted (d : ProbableDestination) (ds : list ProbableDestination) :
  by_decreasing_confidence ds ->
  by_decreasing_confidence (Py.insert_desc confidence_score Py.Qltb d ds).
Proof.
  induction ds as [|y ds IH]; intro H; cbn [Py.insert_desc].
  - cbn. split; [constructor|exact I].
  - destruct H as [Hy Hds].
    destruct (Py.Qltb (confidence_score d) (confidence_score y)) eqn:E.
    + apply Qltb_lt in E. cbn [by_decreasing_confidence]. split; [|apply IH; exact Hds].
      apply (Permutation_Forall (Permutation_sym (insert_desc_perm _ _ d ds))).
      constructor; [apply Qlt_le_weak; exact E|exact Hy].
    + apply Qltb_ge in E. cbn [by_decreasing_confidence].
      split; [|split; assumption]. constructor; [exact E|].
      eapply Forall_impl; [|exact Hy]. intros a Ha. cbn beta in Ha.
      apply Qle_trans with (confidence_score y); assumption.
Qed.

Lemma sorted_desc_sorted (ds : list ProbableDestination) :
  by_decreasing_confidence (Py.sorted_desc confidence_score Py.Qltb ds).
Proof.
  induction ds as [|d ds IH]; [exact I|]. apply insert_desc_sorted. exact IH.
Qed.

(** The result of a trace that found its start: its destinations are
    those of a state that keeps the invariant, reordered. *)
Lemma trace_paths (env : Env) (exchange_txid destination_address depth_preset : string) :
  let r := trace_kyc_withdrawal env exchange_txid destination_address depth_preset in
  probable_destinations r = []
  /\ total_traced_sats r = 0%Z
  \/ exists tx start_vout out s,
       get_raw_transaction env exchange_txid = Some tx
       /\ nth_error (tx_vout tx) start_vout = Some out
       /\ address (scriptPubKey out) = Some destination_address
       /\ KInv env (exchange_txid, start_vout) s
       /\ probable_destinations r
          = Py.sorted_desc confidence_score Py.Qltb (destinations s)
       /\ total_traced_sats r = result_total_traced_sats s.
Proof.
  unfold trace_kyc_withdrawal.
  destruct (get_raw_transaction env exchange_txid) as [tx|] eqn:Etx;
    [|left; split; reflexivity].
  destruct (find_start_vout _ _) as [[start_vout start_value]|] eqn:Ef;
    [|left; split; reflexivity].
  right. apply find_start_vout_sound in Ef as (out & _ & Hn & Ha & _).
  rewrite Nat.sub_0_r in Hn.
  exists tx, start_vout, out. eexists.
  split; [reflexivity|]. split; [exact Hn|]. split; [exact Ha|].
  split; [|split; reflexivity].
  apply run_paths.
  apply (initial_state_paths env start_value (exchange_txid, start_vout)).
Qed.


(** X19.  In every destination of a KYC trace the path length is the
    number of nodes of the path, at least 1 and at most one more than the
    depth of the trace; the node at position [i] has depth [i] and counts
    the CoinJoin nodes up to it; and the number of CoinJoins passed is the
    number of CoinJoin nodes of the path. *)
Theorem kyc_path_counters (env : Env)
    (exchange_txid destination_address depth_preset : string) :
  let r := trace_kyc_withdrawal env exchange_txid destination_address depth_preset in
  Forall (fun d =>
            path_length d = List.length (path d)
            /\ (1 <= path_length d <= S (trace_depth r))%nat
            /\ coinjoins_passed d = count_coinjoins (path d)
            /\ counters_ok (path d))
         (probable_destinations r).
Proof.
  cbv zeta.
  pose proof (trace_result_ok env exchange_txid destination_address depth_preset)
    as (Hdepth & Hok & _).
  cbv zeta in Hdepth, Hok. rewrite Hdepth.
  destruct (trace_paths env exchange_txid destination_address depth_preset)
    as [[E _]|(tx & start_vout & out & s & _ & _ & _ & (_ & Hd & _) & E & _)];
    cbv zeta in E; rewrite E in *; [constructor|].
  apply Forall_forall. intros d Hin.
  rewrite Forall_forall in Hok. destruct (Hok d Hin) as [Hpath _].
  apply in_sorted_desc in Hin.
  rewrite Forall_forall in Hd. destruct (Hd d Hin) as [Hne _ Hc Hl Hcj _ _ _ _ _].
  split; [exact Hl|]. split; [|split; assumption].
  rewrite Hl. destruct (path d) as [|n p _] eqn:Ep using rev_ind; [contradiction|].
  rewrite length_app. cbn [Datatypes.length]. split; [lia|].
  destruct (Hc p n [] eq_refl) as [Hdn _].
  destruct (Hpath p n [] eq_refl) as [(_ & _ & _ & _ & _ & Hmax) _].
  lia.
Qed.

(** X20.  No destination of a KYC trace is left active; its confidence
    score lies between 0 and 1; its confidence level is the level of its
    score, unless the trail was lost on a failed lookup, which is marked
    LOW; a destination that is a dead end ends on an output the UTXO set
    has; and the total traced is the sum of the values of the dead ends. *)
Theorem kyc_destination_scores (env : Env)
    (exchange_txid destination_address depth_preset : string) :
  let r := trace_kyc_withdrawal env exchange_txid destination_address depth_preset in
  Forall (fun d =>
            trail_status d <> ACTIVE
            /\ 0 <= confidence_score d /\ confidence_score d <= 1
            /\ level_fits d
            /\ (trail_status d = DEAD_END ->
                exists l n, path d = l ++ [n]
                            /\ get_tx_out env (txid n) (vout n) = true
                            /\ dest_value_sats d = value_sats n))
         (probable_destinations r)
  /\ total_traced_sats r = dead_end_value (probable_destinations r).
Proof.
  cbv zeta.
  destruct (trace_paths env exchange_txid destination_address depth_preset)
    as [[-> ->]|(tx & start_vout & out & s & _ & _ & _ & (_ & Hd & Ht) & -> & ->)];
    [split; [constructor|reflexivity]|].
  split.
  - apply Forall_forall. intros d Hin. apply in_sorted_desc in Hin.
    rewrite Forall_forall in Hd.
    destruct (Hd d Hin) as [_ _ _ _ _ Hst [Hs1 Hs2] Hlv Hval Hun].
    split; [exact Hst|]. split; [exact Hs1|]. split; [exact Hs2|].
    split; [exact Hlv|]. intro E.
    destruct (Hun E) as (l & n & Ep & Hu).
    destruct Hval as (l' & n' & Ep' & Hv'); [rewrite E; discriminate|].
    rewrite Ep in Ep'. apply app_inj_tail in Ep' as [_ <-].
    exists l, n. auto.
  - rewrite Ht. unfold dead_end_value, sum_value_sats, with_status.
    apply sumZ_perm, Permutation_map, filter_perm, Permutation_sym, sorted_desc_perm.
Qed.

(** X21.  The destinations of a KYC trace are listed by decreasing
    confidence score. *)
Theorem kyc_destinations_sorted (env : Env)
    (exchange_txid destination_address depth_preset : string) :
  by_decreasing_confidence
    (probable_destinations
       (trace_kyc_withdrawal env exchange_txid destination_address depth_preset)).
Proof.
  destruct (trace_paths env exchange_txid destination_address depth_preset)
    as [[E _]|(tx & start_vout & out & s & _ & _ & _ & _ & E & _)];
    cbv zeta in E; rewrite E; [exact I|apply sorted_desc_sorted].
Qed.

(** *** A trace that cannot start *)

Lemma find_start_vout_none (outs : list TxOut) (a : string) (k : nat) :
  find_start_vout (Py.enumerate_from k outs) a = None
  <-> Forall (fun out => address (scriptPubKey out) <> Some a) outs.
Proof.
  revert k. induction outs as [|o outs IH]; intro k; cbn [Py.enumerate_from find_start_vout].
  - split; [constructor|reflexivity].
  - destruct (address (scriptPubKey o)) as [addr|] eqn:Ea.
    + destruct (String.eqb addr a) eqn:Eq.
      * apply String.eqb_eq in Eq. subst addr. split; [discriminate|].
        intro H. apply Forall_inv in H. contradiction.
      * apply String.eqb_neq in Eq. rewrite IH. split.
        -- intro H. constructor; [congruence|exact H].
        -- intro H. apply Forall_inv_tail in H. exact H.
    + rewrite IH. split.
      * intro H. constructor; [congruence|exact H].
      * intro H. apply Forall_inv_tail in H. exact H.
Qed.

Lemma privacy_rating_known (score : Q) : _get_privacy_rating score <> "unknown"%string.
Proof.
  unfold _get_privacy_rating.
  destruct (Py.Qleb 70 score); [discriminate|].
  destruct (Py.Qleb 50 score); [discriminate|].
  destruct (Py.Qleb 30 score); discriminate.
Qed.

(** X22.  A KYC trace rates the privacy "unknown" exactly when it cannot
    start: the exchange transaction is not known or none of its outputs
    pays the destination address.  Then it has no destination, a score and
    totals of 0 and a warning that says which of the two it was.  A trace
    that started and found no destination scores 100 and is rated
    "good". *)
Theorem kyc_unknown_rating (env : Env)
    (exchange_txid destination_address depth_preset : string) :
  let r := trace_kyc_withdrawal env exchange_txid destination_address depth_preset in
  (privacy_rating r = "unknown"%string
   <-> start_missing env exchange_txid destination_address)
  /\ (start_missing env exchange_txid destination_address ->
      probable_destinations r = [] /\ overall_privacy_score r == 0
      /\ original_value_sats r = 0%Z /\ total_traced_sats r = 0%Z
      /\ total_untraceable_sats r = 0%Z
      /\ (In ("Transaction not found: " ++ exchange_txid)%string (warnings r)
          \/ In ("Destination address " ++ destination_address
                 ++ " not found in transaction outputs")%string (warnings r)))
  /\ (~ start_missing env exchange_txid destination_address ->
      probable_destinations r = [] ->
      overall_privacy_score r == 100 /\ privacy_rating r = "good"%string).
Proof.
  cbv zeta. unfold trace_kyc_withdrawal, start_missing. cbv zeta.
  destruct (get_raw_transaction env exchange_txid) as [tx|].
  2:{ cbn [privacy_rating probable_destinations overall_privacy_score original_value_sats
           total_traced_sats total_untraceable_sats warnings empty_result].
      split; [split; auto|]. split; [|intro H; contradiction H; exact I].
      intros _. repeat (split; [reflexivity|]). left.
      apply in_or_app. right. left. reflexivity. }
  pose proof (find_start_vout_none (tx_vout tx) destination_address 0) as Hnone.
  unfold Py.enumerate.
  destruct (find_start_vout (Py.enumerate_from 0 (tx_vout tx)) destination_address)
    as [[start_vout start_value]|].
  - assert (Hno : ~ Forall (fun out => address (scriptPubKey out) <> Some destination_address)
                           (tx_vout tx)).
    { intro H. apply Hnone in H. discriminate. }
    unfold assemble.
    cbn [privacy_rating probable_destinations overall_privacy_score].
    split; [|split].
    + split; [intro H; exfalso; exact (privacy_rating_known _ H)|intro H; contradiction].
    + intro H. contradiction.
    + intros _ E. rewrite E. split; vm_compute; reflexivity.
  - assert (Hyes : Forall (fun out => address (scriptPubKey out) <> Some destination_address)
                          (tx_vout tx)) by (apply Hnone; reflexivity).
    cbn [privacy_rating probable_destinations overall_privacy_score original_value_sats
         total_traced_sats total_untraceable_sats warnings empty_result].
    split; [split; auto|]. split; [|intro H; contradiction].
    intros _. repeat (split; [reflexivity|]). right.
    apply in_or_app. right. left. reflexivity.
Qed.

End KYCPathFacts.

(* ================================================================= *)
(** ** Change detection *)

Module ChangeFacts.

Import KYCTrace Tactics PyFacts.
Local Open Scope Q_scope.

(** X23.  [_detect_change_output] flags an output exactly when the
    probability it returns is above 0.35, and the probability lies between
    0 and 0.95; it is above 0.85 only for an output that pays an address of
    the inputs, which is flagged with 0.95; an index beyond the outputs is
    not flagged and gets 0. *)
Theorem change_output_flag (tx : Tx) (input_addresses : list string)
    (output_idx : nat) (original_value : Z) :
  let r := _detect_change_output tx input_addresses output_idx original_value in
  (fst r = true <-> 0.35 < snd r)
  /\ 0 <= snd r /\ snd r <= 0.95
  /\ (0.85 < snd r ->
      r = (true, 0.95)
      /\ exists out a, nth_error (tx_vout tx) output_idx = Some out
                       /\ address (scriptPubKey out) = Some a
                       /\ In a input_addresses)
  /\ ((List.length (tx_vout tx) <= output_idx)%nat -> r = (false, 0.0)).
Proof.
  cbv zeta. unfold _detect_change_output. cbv zeta.
  destruct (nth_error (tx_vout tx) output_idx) as [output|] eqn:En.
  2:{ cbn [fst snd]. split; [split; [discriminate|]|].
      - intro H. vm_compute in H. discriminate.
      - split; [vm_compute; discriminate|]. split; [vm_compute; discriminate|].
        split; [|reflexivity]. intro H. vm_compute in H. discriminate. }
  assert (Hidx : ~ (List.length (tx_vout tx) <= output_idx)%nat).
  { intro H. apply nth_error_None in H. congruence. }
  destruct (Py.truthy (address (scriptPubKey output))
            && str_in (opt_str_default (address (scriptPubKey output)) "") input_addresses)
    eqn:Ereuse.
  { cbn [fst snd]. split; [split; [reflexivity|reflexivity]|].
    split; [vm_compute; discriminate|]. split; [vm_compute; discriminate|].
    split; [|intro H; contradiction].
    intros _. split; [reflexivity|].
    apply andb_true_iff in Ereuse as [Ht Hin].
    destruct (address (scriptPubKey output)) as [a|] eqn:Ea; [|discriminate].
    exists output, a. split; [reflexivity|]. split; [exact Ea|].
    unfold str_in in Hin. apply existsb_exists in Hin as (y & Hy & Ey).
    apply String.eqb_eq in Ey. cbn in Ey. subst y. exact Hy. }
  cbn [fst snd].
  set (c1 := opt_nat_eqb _ _). set (c2 := str_in _ _). set (c3 := negb _).
  set (c4 := (_ <? _)%Z). set (c5 := (_ =? _)%nat).
  clearbody c1 c2 c3 c4 c5.
  split; [|split; [|split; [|split; [|intro H; contradiction]]]];
    destruct c1, c2, c3, c4, c5;
    try (vm_compute; discriminate);
    try (split; [intros _; reflexivity|intros _; reflexivity]);
    try (split; [discriminate|intro H; vm_compute in H; discriminate]);
    try (intro H; vm_compute in H; discriminate).
Qed.

(** *** Unnecessary inputs *)

Lemma count_needed_bounds (l : list (nat * Z)) (c t : Z) (m : nat) :
  (m <= count_needed l c t m <= m + List.length l)%nat
  /\ (l <> [] -> (m < count_needed l c t m)%nat).
Proof.
  revert c m. induction l as [|[i v] l IH]; intros c m; cbn [count_needed Datatypes.length].
  - split; [lia|]. intro H. contradiction.
  - destruct (t <=? c + v)%Z.
    + split; [lia|]. intros _. lia.
    + destruct (IH (c + v)%Z (S m)) as [H1 _]. split; [lia|]. intros _. lia.
Qed.

(** The positions kept of an enumeration are distinct and in range. *)
Lemma enumerate_kept (A B : Type) (f : nat * A -> list (nat * B)) (l : list A) (k : nat) :
  (forall iv, f iv = [] \/ exists b, f iv = [(fst iv, b)]) ->
  NoDup (map fst (flat_map f (Py.enumerate_from k l)))
  /\ Forall (fun i => (k <= i < k + List.length l)%nat)
            (map fst (flat_map f (Py.enumerate_from k l)))
  /\ (List.length (flat_map f (Py.enumerate_from k l)) <= List.length l)%nat.
Proof.
  intro Hf. revert k. induction l as [|x l IH]; intro k;
    cbn [Py.enumerate_from flat_map Datatypes.length].
  - split; [constructor|]. split; [constructor|lia].
  - destruct (IH (S k)) as (I1 & I2 & I3).
    assert (I2' : Forall (fun i => (k <= i < k + S (List.length l))%nat)
                         (map fst (flat_map f (Py.enumerate_from (S k) l)))).
    { eapply Forall_impl; [|exact I2]. intros i Hi. cbn beta in Hi. lia. }
    destruct (Hf (k, x)) as [E|[b E]]; rewrite E; cbn [app map fst Datatypes.length].
    + split; [exact I1|]. split; [exact I2'|lia].
    + split; [|split; [|lia]].
      * constructor; [|exact I1]. intro Hin. rewrite Forall_forall in I2.
        specialize (I2 k Hin). lia.
      * constructor; [lia|exact I2'].
Qed.

Lemma nat_in_true (n : nat) (l : list nat) : nat_in n l = true <-> In n l.
Proof.
  unfold nat_in. rewrite existsb_exists. split.
  - intros (x & Hx & E). apply Nat.eqb_eq in E. subst. exact Hx.
  - intro H. exists n. split; [exact H|apply Nat.eqb_refl].
Qed.

(** Dropping the first [k] of a list without repetition is filtering
    them out. *)
Lemma filter_not_first (l : list nat) (k : nat) :
  NoDup l ->
  filter (fun idx => negb (nat_in idx (firstn k l))) l = skipn k l.
Proof.
  revert k. induction l as [|x l IH]; intros k Hnd.
  - destruct k; reflexivity.
  - inversion Hnd as [|? ? Hx Hl]; subst. destruct k as [|k].
    + cbn [firstn skipn]. apply forallb_filter_id. apply forallb_forall. intros; reflexivity.
    + cbn [firstn skipn filter].
      replace (nat_in x (x :: firstn k l)) with true
        by (symmetry; apply nat_in_true; left; reflexivity).
      cbn [negb]. rewrite <- (IH k Hl). apply filter_ext_in.
      intros a Ha. f_equal. unfold nat_in. cbn [existsb].
      destruct (Nat.eqb a x) eqn:E; [|reflexivity].
      apply Nat.eqb_eq in E. subst a. contradiction.
Qed.

Lemma closest_output_index (output_values : list (nat * Z)) (unnecessary_sum : Z)
    (min_diff : option Z) (likely_change : option nat) (i : nat) :
  snd (closest_output output_values unnecessary_sum min_diff likely_change) = Some i ->
  likely_change = Some i \/ In i (map fst output_values).
Proof.
  revert min_diff likely_change.
  induction output_values as [|[out_idx out_value] rest IH]; intros min_diff likely_change;
    cbn [closest_output].
  - cbn [snd]. auto.
  - cbv zeta.
    destruct (match min_diff with Some m => _ | None => true end).
    + intro H. destruct (IH _ _ H) as [E|E]; [injection E as <-|]; right;
        [left; reflexivity|right; exact E].
    + intro H. destruct (IH _ _ H) as [E|E]; [left; exact E|right; right; exact E].
Qed.

(** X24.  [_detect_unnecessary_inputs] never needs more inputs than the
    transaction has with a positive amount.  When it reports unnecessary
    inputs, at least one input is needed and fewer than were used, and the
    unnecessary ones are as many as the difference: distinct positions of
    inputs of the transaction.  Otherwise it lists none and names no change
    output.  A change output it names is a position among at least two
    outputs, and its confidence is 0, 0.3, 0.75 or 0.9. *)
Theorem unnecessary_inputs_counts (tx : Tx) :
  let u := _detect_unnecessary_inputs tx in
  (minimum_inputs_needed u <= total_inputs_used u <= List.length (tx_vin tx))%nat
  /\ (has_unnecessary u = true ->
      (1 <= minimum_inputs_needed u < total_inputs_used u)%nat
      /\ List.length (unnecessary_indices u)
         = (total_inputs_used u - minimum_inputs_needed u)%nat)
  /\ (has_unnecessary u = false ->
      unnecessary_indices u = [] /\ likely_change_output u = None)
  /\ NoDup (unnecessary_indices u)
  /\ Forall (fun i => (i < List.length (tx_vin tx))%nat) (unnecessary_indices u)
  /\ (forall i, likely_change_output u = Some i ->
        has_unnecessary u = true
        /\ (i < List.length (tx_vout tx))%nat /\ (2 <= List.length (tx_vout tx))%nat)
  /\ (ui_confidence u == 0 \/ ui_confidence u == 0.3
      \/ ui_confidence u == 0.75 \/ ui_confidence u == 0.9).
Proof.
  cbv zeta. unfold _detect_unnecessary_inputs. cbv zeta.
  assert (Hinsufficient : forall total,
    (total <= List.length (tx_vin tx))%nat ->
    let u := {| has_unnecessary := false; unnecessary_indices := [];
                minimum_inputs_needed := 0; total_inputs_used := total;
                ui_confidence := 0.0; likely_change_output := None |} in
    (minimum_inputs_needed u <= total_inputs_used u <= List.length (tx_vin tx))%nat
    /\ (has_unnecessary u = true ->
        (1 <= minimum_inputs_needed u < total_inputs_used u)%nat
        /\ List.length (unnecessary_indices u)
           = (total_inputs_used u - minimum_inputs_needed u)%nat)
    /\ (has_unnecessary u = false ->
        unnecessary_indices u = [] /\ likely_change_output u = None)
    /\ NoDup (unnecessary_indices u)
    /\ Forall (fun i => (i < List.length (tx_vin tx))%nat) (unnecessary_indices u)
    /\ (forall i, likely_change_output u = Some i ->
          has_unnecessary u = true
          /\ (i < List.length (tx_vout tx))%nat /\ (2 <= List.length (tx_vout tx))%nat)
    /\ (ui_confidence u == 0 \/ ui_confidence u == 0.3
        \/ ui_confidence u == 0.75 \/ ui_confidence u == 0.9)).
  { intros total Ht. cbn. split; [lia|]. split; [discriminate|]. split; [auto|].
    split; [constructor|]. split; [constructor|]. split; [discriminate|].
    left. reflexivity. }
  destruct (tx_vin tx) as [|vin0 vins0] eqn:Evins; [apply Hinsufficient; cbn; lia|].
  destruct (tx_vout tx) as [|vout0 vouts0] eqn:Evouts; [apply Hinsufficient; cbn; lia|].
  rewrite <- Evins in *. rewrite <- Evouts in *.
  clear Evins vin0 vins0.
  set (collect := fun iv : nat * TxIn =>
         match vin_prevout (snd iv) with
         | Some p =>
             if (0 <? sats_of_btc (prevout_value p))%Z
             then [(fst iv, sats_of_btc (prevout_value p))] else []
         | None => []
         end).
  destruct (@enumerate_kept TxIn Z collect (tx_vin tx) 0) as (Hnd & Hrange & Hlen).
  { intros iv. unfold collect. destruct (vin_prevout (snd iv)) as [p|]; [|left; reflexivity].
    destruct (0 <? _)%Z; [right; eexists; reflexivity|left; reflexivity]. }
  unfold Py.enumerate.
  set (input_values := flat_map collect (Py.enumerate_from 0 (tx_vin tx))) in *.
  clearbody input_values. clear collect.
  destruct input_values as [|iv0 ivs0] eqn:Eiv; [apply Hinsufficient; lia|].
  rewrite <- Eiv in *.
  assert (Hne : input_values <> []) by (rewrite Eiv; discriminate).
  clear Hinsufficient Eiv iv0 ivs0.
  set (output_values := map (fun iv : nat * TxOut => (fst iv, sats_of_btc (value (snd iv))))
                            (Py.enumerate_from 0 (tx_vout tx))).
  assert (Hout : Forall (fun i => (i < List.length (tx_vout tx))%nat) (map fst output_values)
                 /\ List.length output_values = List.length (tx_vout tx)).
  { subst output_values. rewrite length_map.
    destruct (@enumerate_kept TxOut Z
                (fun iv => [(fst iv, sats_of_btc (value (snd iv)))]) (tx_vout tx) 0)
      as (_ & H2 & _); [intros iv; right; eexists; reflexivity|].
    assert (E : forall k l, flat_map (fun iv : nat * TxOut =>
                                        [(fst iv, sats_of_btc (value (snd iv)))])
                                     (Py.enumerate_from k l)
                            = map (fun iv => (fst iv, sats_of_btc (value (snd iv))))
                                  (Py.enumerate_from k l)).
    { intros k l. revert k. induction l as [|x l IH]; intro k; [reflexivity|].
      cbn [Py.enumerate_from flat_map map app]. rewrite IH. reflexivity. }
    rewrite E in H2. split.
    - eapply Forall_impl; [|exact H2]. intros i Hi. cbn beta in Hi. lia.
    - clear. generalize 0%nat. induction (tx_vout tx) as [|x l IH]; intro k; [reflexivity|].
      cbn [Py.enumerate_from Datatypes.length]. rewrite IH. reflexivity. }
  destruct Hout as [Hout Houtlen]. clearbody output_values.
  set (sorted_inputs := Py.sorted_desc snd Z.ltb input_values).
  assert (Hperm : Permutation sorted_inputs input_values) by apply sorted_desc_perm.
  assert (Hslen : List.length sorted_inputs = List.length input_values)
    by (apply Permutation_length; exact Hperm).
  assert (Hsne : sorted_inputs <> []).
  { intro E. rewrite E in Hslen. destruct input_values; [contradiction|discriminate]. }
  assert (Hsnd : NoDup (map fst sorted_inputs)).
  { apply (Permutation_NoDup (Permutation_map fst (Permutation_sym Hperm))). exact Hnd. }
  assert (Hsrange : Forall (fun i => (i < List.length (tx_vin tx))%nat) (map fst sorted_inputs)).
  { apply (Permutation_Forall (Permutation_map fst (Permutation_sym Hperm))).
    eapply Forall_impl; [|exact Hrange]. intros i Hi. cbn beta in Hi. lia. }
  clearbody sorted_inputs.
  set (target := (_ + _)%Z). clearbody target.
  destruct (count_needed_bounds sorted_inputs 0 target 0) as [[_ Hk2] Hk3].
  specialize (Hk3 Hsne).
  set (k := count_needed sorted_inputs 0 target 0) in *. clearbody k.
  cbn [Nat.add] in Hk2.
  cbn [has_unnecessary unnecessary_indices minimum_inputs_needed total_inputs_used
       ui_confidence likely_change_output].
  destruct (0 <? Z.of_nat (List.length input_values) - Z.of_nat k)%Z eqn:Ehas.
  - apply Z.ltb_lt in Ehas.
    rewrite <- firstn_map, filter_not_first by exact Hsnd.
    split; [lia|]. split.
    { intros _. split; [lia|]. rewrite length_skipn, length_map. lia. }
    split; [discriminate|].
    split.
    { rewrite <- (firstn_skipn k (map fst sorted_inputs)) in Hsnd.
      apply NoDup_app_remove_l in Hsnd. exact Hsnd. }
    split.
    { rewrite <- (firstn_skipn k (map fst sorted_inputs)) in Hsrange.
      apply Forall_app in Hsrange. apply Hsrange. }
    split.
    { cbn [andb]. intros i.
      destruct (2 <=? List.length output_values)%nat eqn:E2; [|discriminate].
      apply Nat.leb_le in E2.
      match goal with
      | |- context [closest_output output_values ?u None None] => set (usum := u)
      end.
      destruct (closest_output output_values usum None None) as [[min_diff|] likely] eqn:Ec;
        [|discriminate].
      destruct (100000 <? min_diff)%Z; [discriminate|].
      intro El. split; [reflexivity|]. split; [|lia].
      pose proof (@closest_output_index output_values usum None None i) as Hc.
      rewrite Ec in Hc. cbn [snd] in Hc. destruct (Hc El) as [C|C]; [discriminate|].
      rewrite Forall_forall in Hout. apply Hout. exact C. }
    destruct (2 <=? Z.of_nat (List.length input_values) - Z.of_nat k)%Z eqn:E2;
      [right; right; right; vm_compute; reflexivity|].
    destruct (_ =? 1)%Z eqn:E1; [right; right; left; vm_compute; reflexivity|].
    exfalso. apply Z.leb_gt in E2. apply Z.eqb_neq in E1. lia.
  - apply Z.ltb_ge in Ehas. cbn [andb].
    split; [lia|]. split; [discriminate|]. split; [auto|].
    split; [constructor|]. split; [constructor|]. split; [discriminate|].
    right. left. vm_compute. reflexivity.
Qed.

End ChangeFacts.

(* ================================================================= *)
(** ** Path quality *)

Module PathQualityFacts.

Import PrivacyAnalysis PathQuality PathQualitySpec PyFacts.
Local Open Scope Z_scope.

(** The loop over the hops takes 30 points per CoinJoin hop and counts
    them. *)
Lemma coinjoin_loop (path_hops : list ExchangeHop) (score : Z) (count : nat) :
  fold_left (fun acc hop =>
               if is_coinjoin hop then (fst acc - 30, S (snd acc)) else acc)
            path_hops (score, count)
  = (score - 30 * Z.of_nat (coinjoin_hops path_hops),
     (count + coinjoin_hops path_hops)%nat).
Proof.
  unfold coinjoin_hops. revert score count.
  induction path_hops as [|hop hops IH]; intros score count; cbn [fold_left filter].
  - cbn [Datatypes.length]. f_equal; lia.
  - destruct (is_coinjoin hop); cbn [fst snd Datatypes.length]; rewrite IH; f_equal; lia.
Qed.

(** Days of ten-minute blocks compared with a number of days. *)
Lemma age_above (blocks days : Z) :
  Py.Qltb (inject_Z days) (inject_Z (blocks * 10) / inject_Z (60 * 24))
  = (days * 144 <? blocks).
Proof.
  destruct (days * 144 <? blocks) eqn:E.
  - apply Z.ltb_lt in E. apply Qltb_lt.
    apply Qlt_shift_div_l; [reflexivity|].
    rewrite <- inject_Z_mult, <- Zlt_Qlt. lia.
  - apply Z.ltb_ge in E. apply Qltb_ge.
    apply Qle_shift_div_r; [reflexivity|].
    rewrite <- inject_Z_mult, <- Zle_Qle. lia.
Qed.

(** The score before it is clamped. *)
Lemma path_quality_raw (current_height : Z) (path_hops : list ExchangeHop) :
  quality_score (calculate_path_quality current_height path_hops)
  = Z.max 0 (Z.min 100 (100 - 30 * Z.of_nat (coinjoin_hops path_hops)
                        - age_penalty current_height path_hops
                        - length_penalty path_hops))
  /\ quality_coinjoin_count (calculate_path_quality current_height path_hops)
     = coinjoin_hops path_hops.
Proof.
  unfold calculate_path_quality. cbv zeta. rewrite coinjoin_loop. cbn [Nat.add].
  unfold age_penalty, age_in_blocks, length_penalty.
  destruct path_hops as [|first rest] eqn:Ep.
  { cbn. split; reflexivity. }
  rewrite <- Ep. clear Ep.
  unfold truthy_opt_int, truthy_int.
  assert (Hlen : forall score : Z,
            Z.max 0 (Z.min 100 (if (6 <? List.length path_hops)%nat
                                then score - 10 else score))
            = Z.max 0 (Z.min 100 (score - (if (6 <? List.length path_hops)%nat
                                           then 10 else 0)))).
  { intro score. destruct (6 <? _)%nat; f_equal; f_equal; lia. }
  destruct (hop_block_height first) as [h|];
    [|cbn [andb quality_score quality_coinjoin_count]; rewrite Hlen;
      split; [f_equal; f_equal; lia|reflexivity]].
  destruct (negb (h =? 0) && negb (current_height =? 0));
    [|cbn [quality_score quality_coinjoin_count]; rewrite Hlen;
      split; [f_equal; f_equal; lia|reflexivity]].
  change (365%Q) with (inject_Z 365). change (180%Q) with (inject_Z 180).
  rewrite !age_above. change (365 * 144) with 52560. change (180 * 144) with 25920.
  destruct (52560 <? current_height - h);
    [cbn [quality_score quality_coinjoin_count]; rewrite Hlen;
     split; [f_equal; f_equal; lia|reflexivity]|].
  destruct (25920 <? current_height - h);
    cbn [quality_score quality_coinjoin_count]; rewrite Hlen;
    (split; [f_equal; f_equal; lia|reflexivity]).
Qed.

Lemma path_quality_strength (current_height : Z) (path_hops : list ExchangeHop) :
  let q := calculate_path_quality current_height path_hops in
  quality_strength q
  = if 85 <=? quality_score q then "STRONG"%string
    else if 60 <=? quality_score q then "MODERATE"%string
    else if 30 <=? quality_score q then "WEAK"%string
    else "BROKEN"%string.
Proof.
  cbv zeta. unfold calculate_path_quality. cbv zeta.
  destruct (fold_left _ _ _) as [score count].
  destruct path_hops as [|first rest]; [reflexivity|].
  destruct (truthy_opt_int (hop_block_height first) && truthy_int current_height);
    [|reflexivity].
  destruct (Py.Qltb 365 _); [reflexivity|].
  destruct (Py.Qltb 180 _); reflexivity.
Qed.

Lemma age_penalty_cases (current_height : Z) (path_hops : list ExchangeHop) :
  age_penalty current_height path_hops = 0
  \/ age_penalty current_height path_hops = 20
  \/ age_penalty current_height path_hops = 40.
Proof.
  unfold age_penalty. destruct (age_in_blocks _ _) as [blocks|]; [|auto].
  destruct (52560 <? blocks); [auto|]. destruct (25920 <? blocks); auto.
Qed.

Lemma length_penalty_cases (path_hops : list ExchangeHop) :
  length_penalty path_hops = 0 \/ length_penalty path_hops = 10.
Proof. unfold length_penalty. destruct (6 <? _)%nat; auto. Qed.

(** X25.  The score of [calculate_path_quality] is 100 less 30 points
    per CoinJoin hop, less 40 points for a path older than 365 days of
    ten-minute blocks or 20 for one older than 180, less 10 points for more
    than six hops, and never below 0; the count it returns is the number of
    CoinJoin hops.  The age is known only when the first hop has a block
    height and the height of the chain is known, both other than 0. *)
Theorem path_quality_score (current_height : Z) (path_hops : list ExchangeHop) :
  let q := calculate_path_quality current_height path_hops in
  0 <= quality_score q <= 100
  /\ quality_score q
     = Z.max 0 (100 - 30 * Z.of_nat (coinjoin_hops path_hops)
                - age_penalty current_height path_hops - length_penalty path_hops)
  /\ quality_coinjoin_count q = coinjoin_hops path_hops
  /\ (quality_age_days q = None <-> age_in_blocks current_height path_hops = None).
Proof.
  cbv zeta.
  destruct (path_quality_raw current_height path_hops) as [Hs Hc].
  destruct (age_penalty_cases current_height path_hops) as [Ha|[Ha|Ha]];
    destruct (length_penalty_cases path_hops) as [Hl|Hl];
    (split; [rewrite Hs; lia|]); (split; [rewrite Hs, Ha, Hl; lia|]);
    (split; [exact Hc|]);
    unfold calculate_path_quality, age_in_blocks, truthy_opt_int, truthy_int; cbv zeta;
    destruct (fold_left _ _ _) as [score count];
    (destruct path_hops as [|first rest]; [split; reflexivity|]);
    (destruct (hop_block_height first) as [h|]; [|split; reflexivity]);
    (destruct (negb (h =? 0) && negb (current_height =? 0)); [|split; reflexivity]);
    (destruct (Py.Qltb 365 _); [split; discriminate|]);
    destruct (Py.Qltb 180 _); split; discriminate.
Qed.

(** X26.  [calculate_path_quality] calls a path STRONG exactly when it
    has no CoinJoin hop and no penalty for age; a path with a CoinJoin hop
    scores at most 70, and one with three or more scores at most 10 and is
    BROKEN. *)
Theorem path_quality_strength_cases (current_height : Z) (path_hops : list ExchangeHop) :
  let q := calculate_path_quality current_height path_hops in
  (quality_strength q = "STRONG"%string
   <-> coinjoin_hops path_hops = 0%nat /\ age_penalty current_height path_hops = 0)
  /\ ((1 <= coinjoin_hops path_hops)%nat -> quality_score q <= 70)
  /\ ((3 <= coinjoin_hops path_hops)%nat ->
      quality_score q <= 10 /\ quality_strength q = "BROKEN"%string).
Proof.
  cbv zeta.
  pose proof (path_quality_strength current_height path_hops) as Hst. cbv zeta in Hst.
  destruct (path_quality_raw current_height path_hops) as [Hs _].
  rewrite Hst. clear Hst.
  set (s := quality_score (calculate_path_quality current_height path_hops)) in *.
  clearbody s.
  destruct (age_penalty_cases current_height path_hops) as [Ha|[Ha|Ha]];
    destruct (length_penalty_cases path_hops) as [Hl|Hl];
    rewrite Ha, Hl in Hs;
    (split; [|split]);
    try (intro H; lia);
    try (intro H; split; [lia|];
         destruct (85 <=? s) eqn:E1; [apply Z.leb_le in E1; lia|];
         destruct (60 <=? s) eqn:E2; [apply Z.leb_le in E2; lia|];
         destruct (30 <=? s) eqn:E3; [apply Z.leb_le in E3; lia|reflexivity]);
    (destruct (85 <=? s) eqn:E1;
     [apply Z.leb_le in E1; split; [intros _; split; lia|reflexivity]
     |apply Z.leb_gt in E1; split;
      [destruct (60 <=? s); [discriminate|]; destruct (30 <=? s); discriminate
      |intros [H0 H1]; lia]]).
Qed.

End PathQualityFacts.

(* ================================================================= *)
(** ** Union-find *)

Module UnionFindFacts.

Import Tracer union_find UnionFindSpec PyFacts PrivacyAnalysisFacts TraceGraphFacts.

(** *** Dictionaries *)

Lemma dict_get_lookup (V : Type) (d : list (string * V)) (k : string) (def : V) :
  Py.dict_get d k def = match Py.dict_lookup d k with Some v => v | None => def end.
Proof.
  induction d as [|[k0 v] d IH]; cbn [Py.dict_get Py.dict_lookup]; [reflexivity|].
  destruct (String.eqb k0 k); [reflexivity|exact IH].
Qed.

Lemma dict_set_keys (V : Type) (d : list (string * V)) (k : string) (v : V) :
  Py.dict_lookup d k <> None -> map fst (Py.dict_set d k v) = map fst d.
Proof.
  induction d as [|[k0 w] d IH]; cbn [Py.dict_set Py.dict_lookup map fst].
  - intro H. contradiction.
  - destruct (String.eqb k0 k) eqn:E; cbn [map fst]; [reflexivity|].
    intro H. rewrite IH by exact H. reflexivity.
Qed.

Lemma dict_lookup_in (V : Type) (d : list (string * V)) (k : string) (v : V) :
  Py.dict_lookup d k = Some v -> In (k, v) d.
Proof.
  induction d as [|[k0 w] d IH]; cbn [Py.dict_lookup]; [discriminate|].
  destruct (String.eqb k0 k) eqn:E.
  - apply String.eqb_eq in E. intros [= ->]. left. congruence.
  - intro H. right. apply IH. exact H.
Qed.

Lemma dict_lookup_key (V : Type) (d : list (string * V)) (k : string) :
  Py.dict_lookup d k <> None <-> In k (map fst d).
Proof.
  induction d as [|[k0 w] d IH]; cbn [Py.dict_lookup map fst In].
  - split; [intro H; contradiction|intros []].
  - destruct (String.eqb k0 k) eqn:E.
    + apply String.eqb_eq in E. split; [auto|discriminate].
    + apply String.eqb_neq in E. rewrite IH. split; [auto|].
      intros [H|H]; [contradiction|exact H].
Qed.

(** *** Roots *)

Lemma rk_set_parent (uf : UnionFind) (a p x : string) :
  rk (set_parent a p uf) x = rk uf x.
Proof. reflexivity. Qed.

Lemma par_set_parent (uf : UnionFind) (a p x : string) :
  par (set_parent a p uf) x = if String.eqb a x then Some p else par uf x.
Proof. unfold par, set_parent. cbn [parent]. apply dict_lookup_set. Qed.

Lemma rep_is_root (uf : UnionFind) (a r : string) : rep uf a r -> par uf r = Some r.
Proof. induction 1; assumption. Qed.

Lemma rep_is_key (uf : UnionFind) (a r : string) : rep uf a r -> par uf a <> None.
Proof. destruct 1; congruence. Qed.

Lemma rep_unique (uf : UnionFind) (a r1 r2 : string) :
  rep uf a r1 -> rep uf a r2 -> r1 = r2.
Proof.
  intro H. revert r2. induction H as [a Ha|a p r Ha Hp Hr IH]; intros r2 H2.
  - destruct H2 as [a Ha2|a p r2 Ha2 Hp2 _]; [reflexivity|congruence].
  - destruct H2 as [a Ha2|a p2 r2 Ha2 Hp2 H2]; [congruence|].
    apply IH. assert (p2 = p) by congruence. subst p2. exact H2.
Qed.

Lemma rep_of_root (uf : UnionFind) (r x : string) :
  par uf r = Some r -> rep uf r x -> x = r.
Proof. intros Hr H. symmetry. eapply rep_unique; [apply rep_root; exact Hr|exact H]. Qed.

Lemma rk_le_max (uf : UnionFind) (a : string) :
  par uf a <> None -> (rk uf a <= max_rank uf)%nat.
Proof.
  unfold par, max_rank. rewrite dict_lookup_key.
  induction (map fst (parent uf)) as [|k ks IH]; cbn [map fold_right In]; [intros []|].
  intros [->|H]; [lia|]. specialize (IH H). lia.
Qed.

Lemma max_rank_le (uf : UnionFind) (n : nat) :
  (forall a, par uf a <> None -> (rk uf a <= n)%nat) -> (max_rank uf <= n)%nat.
Proof.
  unfold par, max_rank. intro H.
  assert (H' : forall a, In a (map fst (parent uf)) -> (rk uf a <= n)%nat).
  { intros a Ha. apply H. apply dict_lookup_key. exact Ha. }
  clear H. induction (map fst (parent uf)) as [|k ks IH]; cbn [map fold_right]; [lia|].
  pose proof (H' k (or_introl eq_refl)).
  assert ((fold_right Nat.max 0 (map (rk uf) ks) <= n)%nat).
  { apply IH. intros a Ha. apply H'. right. exact Ha. }
  lia.
Qed.

(** Every address of the structure has a root. *)
Lemma rep_exists (uf : UnionFind) (a : string) :
  UFInv uf -> par uf a <> None -> exists r, rep uf a r.
Proof.
  intros Hinv.
  assert (H : forall n a, (max_rank uf - rk uf a < n)%nat -> par uf a <> None ->
                          exists r, rep uf a r).
  { induction n as [|n IH]; intros b Hn Hb; [lia|].
    destruct (par uf b) as [p|] eqn:Ep; [|contradiction].
    destruct (String.eqb p b) eqn:E.
    - apply String.eqb_eq in E. subst p. exists b. apply rep_root. exact Ep.
    - apply String.eqb_neq in E.
      pose proof (@inv_rank _ Hinv _ _ Ep E) as Hrk.
      pose proof (@rk_le_max _ _ (@inv_closed _ Hinv _ _ Ep)) as Hmax.
      destruct (IH p) as [r Hr]; [lia|exact (@inv_closed _ Hinv _ _ Ep)|].
      exists r. eapply rep_step; eauto. }
  apply (H (S (max_rank uf - rk uf a))). lia.
Qed.

Lemma rep_rank (uf : UnionFind) (a r : string) :
  UFInv uf -> rep uf a r -> (rk uf a <= rk uf r)%nat /\ (a <> r -> (rk uf a < rk uf r)%nat).
Proof.
  intros Hinv H. induction H as [a Ha|a p r Ha Hp Hr [IH1 IH2]].
  - split; [lia|]. intro C. contradiction.
  - pose proof (@inv_rank _ Hinv _ _ Ha Hp). split; [lia|]. intros _. lia.
Qed.

(** *** Path compression *)

(** Pointing an address at its root changes the root of no address. *)
Lemma compress_rep (uf : UnionFind) (a r : string) :
  rep uf a r -> a <> r ->
  forall b x, rep (set_parent a r uf) b x <-> rep uf b x.
Proof.
  intros Ha Hne b x. split; intro H.
  - induction H as [b Hb|b p x Hb Hp Hx IH]; rewrite par_set_parent in Hb.
    + destruct (String.eqb a b) eqn:E.
      * apply String.eqb_eq in E. subst b. congruence.
      * apply rep_root. exact Hb.
    + destruct (String.eqb a b) eqn:E.
      * apply String.eqb_eq in E. subst b. injection Hb as <-.
        apply (rep_of_root (rep_is_root Ha)) in IH. subst x. exact Ha.
      * eapply rep_step; eauto.
  - induction H as [b Hb|b p x Hb Hp Hx IH].
    + apply rep_root. rewrite par_set_parent.
      destruct (String.eqb a b) eqn:E; [|exact Hb].
      apply String.eqb_eq in E. subst b.
      apply (rep_of_root Hb) in Ha. congruence.
    + destruct (String.eqb a b) eqn:E.
      * apply String.eqb_eq in E. subst b.
        assert (x = r) by (eapply rep_unique; [eapply rep_step; eauto|exact Ha]).
        subst x. apply rep_step with (p := r).
        -- rewrite par_set_parent, String.eqb_refl. reflexivity.
        -- congruence.
        -- apply rep_root. rewrite par_set_parent.
           apply String.eqb_neq in Hne. rewrite Hne. exact (rep_is_root Ha).
      * apply rep_step with (p := p); [|exact Hp|exact IH].
        rewrite par_set_parent, E. exact Hb.
Qed.

Lemma compressed_refl (uf : UnionFind) : compressed uf uf.
Proof. repeat split; auto. Qed.

Lemma compressed_trans (a b c : UnionFind) :
  compressed a b -> compressed b c -> compressed a c.
Proof.
  intros (R1 & S1 & K1 & H1) (R2 & S2 & K2 & H2).
  repeat split; try congruence.
  - intro H. apply H1, H2. exact H.
  - intro H. apply H2, H1. exact H.
Qed.

Lemma compressed_rk (uf uf' : UnionFind) (x : string) :
  compressed uf uf' -> rk uf' x = rk uf x /\ max_rank uf' = max_rank uf.
Proof. intros (R & _ & K & _). unfold max_rank, rk. rewrite R, K. auto. Qed.

Lemma compressed_key (uf uf' : UnionFind) (x : string) :
  compressed uf uf' -> (par uf' x <> None <-> par uf x <> None).
Proof.
  intros (_ & _ & K & _). unfold par. rewrite !dict_lookup_key, K. reflexivity.
Qed.

(** The invariant survives a move of parent pointers that keeps the
    clusters. *)
Lemma UFInv_compressed (uf uf' : UnionFind) :
  UFInv uf -> compressed uf uf' ->
  (forall a p, par uf' a = Some p -> par uf' p <> None) ->
  (forall a p, par uf' a = Some p -> p <> a -> (rk uf' a < rk uf' p)%nat) ->
  UFInv uf'.
Proof.
  intros Hinv Hc Hclosed Hrank. pose proof Hc as (R & S & K & Hrep).
  constructor; [exact Hclosed|exact Hrank| |].
  - intros a Ha. rewrite R, S. apply (inv_keys Hinv).
    apply (compressed_key a Hc). exact Ha.
  - intros r Hr.
    assert (Hr0 : par uf r = Some r).
    { apply (@rep_is_root uf r r). apply Hrep. apply rep_root. exact Hr. }
    destruct (@inv_members _ Hinv _ Hr0) as (ms & (Hnd & Hms) & Hsize & Hpow).
    exists ms. split; [split; [exact Hnd|]|].
    + intro b. rewrite Hms. symmetry. apply Hrep.
    + rewrite S. split; [exact Hsize|].
      destruct (compressed_rk r Hc) as [-> _]. exact Hpow.
Qed.

(** [find] on an address of the structure returns its root and moves
    parent pointers only. *)
Lemma find_of_key (limit : nat) :
  forall a uf,
    UFInv uf -> par uf a <> None -> (max_rank uf - rk uf a < limit)%nat ->
    exists r uf',
      find limit a uf = Returned (r, uf')
      /\ rep uf a r /\ compressed uf uf' /\ UFInv uf' /\ par uf' a = Some r.
Proof.
  induction limit as [|limit IH]; intros a uf Hinv Ha Hlim; [lia|].
  destruct (par uf a) as [p|] eqn:Ep; [|contradiction].
  assert (Ep' : Py.dict_lookup (parent uf) a = Some p) by exact Ep.
  cbn [find]. unfold contains. rewrite Ep'. cbv zeta. rewrite Ep'.
  destruct (String.eqb p a) eqn:E; cbn [negb].
  { apply String.eqb_eq in E. subst p. exists a, uf.
    split; [reflexivity|]. split; [apply rep_root; exact Ep|].
    split; [apply compressed_refl|]. split; [exact Hinv|exact Ep]. }
  apply String.eqb_neq in E.
  pose proof (@inv_rank _ Hinv _ _ Ep E) as Hrk.
  pose proof (@rk_le_max _ _ (@inv_closed _ Hinv _ _ Ep)) as Hmax.
  destruct (IH p uf Hinv (@inv_closed _ Hinv _ _ Ep) ltac:(lia))
    as (r & uf1 & -> & Hr & Hc1 & Hinv1 & _).
  assert (Hrep : rep uf a r) by (eapply rep_step; eauto).
  assert (Hne : a <> r).
  { intro C. subst r. destruct (rep_rank Hinv Hr) as [H1 _]. lia. }
  set (uf2 := set_parent a r uf1).
  assert (Hlook : Py.dict_lookup (parent uf2) a = Some r).
  { fold (par uf2 a). unfold uf2. rewrite par_set_parent, String.eqb_refl. reflexivity. }
  rewrite Hlook. exists r, uf2.
  split; [reflexivity|]. split; [exact Hrep|].
  pose proof Hc1 as (R1 & S1 & K1 & H1).
  assert (Hrep1 : rep uf1 a r) by (apply H1; exact Hrep).
  assert (Hc2 : compressed uf uf2).
  { apply compressed_trans with uf1; [exact Hc1|].
    split; [reflexivity|]. split; [reflexivity|]. split.
    - unfold uf2, set_parent. cbn [parent]. apply dict_set_keys.
      apply (rep_is_key Hrep1).
    - apply compress_rep; assumption. }
  split; [exact Hc2|]. split; [|exact Hlook].
  apply UFInv_compressed with (uf := uf); [exact Hinv|exact Hc2| |].
  - intros x q Hx. apply (compressed_key q Hc2).
    unfold uf2 in Hx. rewrite par_set_parent in Hx.
    destruct (String.eqb a x) eqn:Eax.
    + injection Hx as <-. rewrite (rep_is_root Hrep). discriminate.
    + apply (compressed_key q Hc1). exact (@inv_closed _ Hinv1 _ _ Hx).
  - intros x q Hx Hq. unfold uf2 in *. rewrite !rk_set_parent.
    rewrite par_set_parent in Hx.
    destruct (String.eqb a x) eqn:Eax.
    + apply String.eqb_eq in Eax. subst x. injection Hx as <-.
      apply (rep_rank Hinv1 Hrep1). exact Hne.
    + exact (@inv_rank _ Hinv1 _ _ Hx Hq).
Qed.

Lemma init_inv : UFInv init.
Proof.
  constructor; unfold par, init; cbn [parent Py.dict_lookup].
  - intros a p H. discriminate H.
  - intros a p H. discriminate H.
  - intros a H. contradiction.
  - intros r H. discriminate H.
Qed.

(** *** Adding an address *)

Lemma dict_get_set (V : Type) (d : list (string * V)) (k q : string) (v def : V) :
  Py.dict_get (Py.dict_set d k v) q def
  = if String.eqb k q then v else Py.dict_get d q def.
Proof.
  rewrite !dict_get_lookup, dict_lookup_set. destruct (String.eqb k q); reflexivity.
Qed.

Lemma add_key (uf : UnionFind) (a : string) : par uf a <> None -> add a uf = uf.
Proof.
  unfold add, contains, par.
  destruct (Py.dict_lookup (parent uf) a); [reflexivity|contradiction].
Qed.

Lemma par_add (uf : UnionFind) (a x : string) :
  par uf a = None ->
  par (add a uf) x = if String.eqb a x then Some a else par uf x.
Proof. unfold add, contains, par. intros ->. cbn [parent]. apply dict_lookup_set. Qed.

Lemma rk_add (uf : UnionFind) (a x : string) :
  par uf a = None ->
  rk (add a uf) x = if String.eqb a x then 0%nat else rk uf x.
Proof. unfold add, contains, par, rk. intros ->. cbn [rank]. apply dict_get_set. Qed.

Lemma rank_add (uf : UnionFind) (a x : string) :
  par uf a = None ->
  Py.dict_lookup (rank (add a uf)) x
  = if String.eqb a x then Some 0%nat else Py.dict_lookup (rank uf) x.
Proof. unfold add, contains, par. intros ->. cbn [rank]. apply dict_lookup_set. Qed.

Lemma size_add (uf : UnionFind) (a x : string) :
  par uf a = None ->
  Py.dict_lookup (size (add a uf)) x
  = if String.eqb a x then Some 1%nat else Py.dict_lookup (size uf) x.
Proof. unfold add, contains, par. intros ->. cbn [size]. apply dict_lookup_set. Qed.

Lemma rep_add (uf : UnionFind) (a : string) :
  UFInv uf -> par uf a = None ->
  forall b x, rep (add a uf) b x <-> rep uf b x \/ (b = a /\ x = a).
Proof.
  intros Hinv Ha b x. split.
  - intro H. induction H as [b Hb|b p x Hb Hp Hx IH]; rewrite (@par_add _ _ _ Ha) in Hb.
    + destruct (String.eqb a b) eqn:E.
      * apply String.eqb_eq in E. right. auto.
      * left. apply rep_root. exact Hb.
    + destruct (String.eqb a b) eqn:E.
      * apply String.eqb_eq in E. congruence.
      * destruct IH as [IH|[-> _]].
        -- left. eapply rep_step; eauto.
        -- exfalso. apply (@inv_closed _ Hinv _ _ Hb). exact Ha.
  - intros [H|[-> ->]].
    + induction H as [b Hb|b p x Hb Hp Hx IH].
      * apply rep_root. rewrite (@par_add _ _ _ Ha).
        destruct (String.eqb a b) eqn:E; [|exact Hb].
        apply String.eqb_eq in E. congruence.
      * apply rep_step with (p := p); [|exact Hp|exact IH].
        rewrite (@par_add _ _ _ Ha).
        destruct (String.eqb a b) eqn:E; [|exact Hb].
        apply String.eqb_eq in E. congruence.
    + apply rep_root. rewrite (@par_add _ _ _ Ha), String.eqb_refl. reflexivity.
Qed.

Lemma add_new_inv (uf : UnionFind) (a : string) :
  UFInv uf -> par uf a = None -> UFInv (add a uf).
Proof.
  intros Hinv Ha. constructor.
  - intros x q Hx. rewrite (@par_add _ _ _ Ha) in Hx. rewrite (@par_add _ _ _ Ha).
    destruct (String.eqb a q) eqn:Eq; [discriminate|].
    destruct (String.eqb a x) eqn:Ex.
    + injection Hx as <-. rewrite String.eqb_refl in Eq. discriminate Eq.
    + exact (@inv_closed _ Hinv _ _ Hx).
  - intros x q Hx Hq. rewrite (@par_add _ _ _ Ha) in Hx. rewrite !(@rk_add _ _ _ Ha).
    destruct (String.eqb a x) eqn:Ex.
    + apply String.eqb_eq in Ex. congruence.
    + destruct (String.eqb a q) eqn:Eq.
      * apply String.eqb_eq in Eq. subst q.
        exfalso. apply (@inv_closed _ Hinv _ _ Hx). exact Ha.
      * exact (@inv_rank _ Hinv _ _ Hx Hq).
  - intros x Hx. rewrite (@par_add _ _ _ Ha) in Hx.
    rewrite (@rank_add _ _ _ Ha), (@size_add _ _ _ Ha).
    destruct (String.eqb a x); [split; discriminate|].
    exact (@inv_keys _ Hinv _ Hx).
  - intros r Hr. rewrite (@par_add _ _ _ Ha) in Hr.
    rewrite (@size_add _ _ _ Ha), (@rk_add _ _ _ Ha).
    destruct (String.eqb a r) eqn:Er.
    + apply String.eqb_eq in Er. subst r. exists [a].
      split; [split|split; [reflexivity|cbn; lia]].
      * constructor; [intros []|constructor].
      * intro b. rewrite (@rep_add _ _ Hinv Ha). cbn [In]. split.
        -- intros [<-|[]]. right. auto.
        -- intros [H|[-> _]]; [|left; reflexivity].
           exfalso. apply rep_is_root in H. congruence.
    + apply String.eqb_neq in Er.
      destruct (@inv_members _ Hinv _ Hr) as (ms & (Hnd & Hms) & Hsize & Hpow).
      exists ms. split; [split; [exact Hnd|]|split; assumption].
      intro b. rewrite Hms, (@rep_add _ _ Hinv Ha). split; [auto|].
      intros [H|[_ C]]; [exact H|congruence].
Qed.

Lemma add_max_rank (uf : UnionFind) (a : string) :
  (max_rank (add a uf) <= max_rank uf)%nat.
Proof.
  destruct (par uf a) eqn:Ha.
  { rewrite add_key by congruence. lia. }
  apply max_rank_le. intros x Hx. rewrite (@rk_add _ _ _ Ha). rewrite (@par_add _ _ _ Ha) in Hx.
  destruct (String.eqb a x); [lia|]. apply rk_le_max. exact Hx.
Qed.

Lemma add_spec (uf : UnionFind) (a : string) :
  UFInv uf ->
  UFInv (add a uf) /\ par (add a uf) a <> None
  /\ forall b x, rep (add a uf) b x <-> rep uf b x \/ (par uf a = None /\ b = a /\ x = a).
Proof.
  intro Hinv. destruct (par uf a) eqn:Ha.
  - assert (Hk : par uf a <> None) by congruence.
    rewrite (@add_key _ _ Hk). split; [exact Hinv|]. split; [exact Hk|].
    intros b x. split; [auto|]. intros [H|[C _]]; [exact H|discriminate C].
  - split; [apply add_new_inv; assumption|]. split.
    + rewrite (@par_add _ _ _ Ha), String.eqb_refl. discriminate.
    + intros b x. rewrite (@rep_add _ _ Hinv Ha). tauto.
Qed.

Lemma add_compressed (u v : UnionFind) (a : string) :
  UFInv u -> UFInv v -> compressed u v -> compressed (add a u) (add a v).
Proof.
  intros Hu Hv Hc. pose proof Hc as (R & S & K & H).
  pose proof (compressed_key a Hc) as Hk.
  destruct (par u a) as [p|] eqn:Ea.
  - assert (Hu' : par u a <> None) by congruence.
    assert (Hv' : par v a <> None) by (apply Hk; discriminate).
    rewrite (@add_key _ _ Hu'), (@add_key _ _ Hv'). exact Hc.
  - assert (Ea' : par v a = None).
    { destruct (par v a) eqn:E; [|reflexivity].
      exfalso. destruct Hk as [Hk _]. apply Hk; [discriminate|reflexivity]. }
    split; [|split; [|split]].
    + unfold add, contains. fold (par u a) (par v a). rewrite Ea, Ea'. cbn [rank].
      rewrite R. reflexivity.
    + unfold add, contains. fold (par u a) (par v a). rewrite Ea, Ea'. cbn [size].
      rewrite S. reflexivity.
    + assert (Hs : forall V (d : list (string * V)) k w,
                 Py.dict_lookup d k = None -> map fst (Py.dict_set d k w) = map fst d ++ [k]).
      { intros V d k w. induction d as [|[k0 w0] d IH]; cbn [Py.dict_lookup Py.dict_set map fst app].
        - reflexivity.
        - destruct (String.eqb k0 k); [discriminate|].
          intro E. cbn [map fst]. rewrite IH by exact E. reflexivity. }
      unfold add, contains. fold (par u a) (par v a). rewrite Ea, Ea'. cbn [parent].
      rewrite !Hs by assumption. rewrite K. reflexivity.
    + intros b x. rewrite (@rep_add _ _ Hv Ea'), (@rep_add _ _ Hu Ea), H. reflexivity.
Qed.

(** *** [find] *)

(** Ranks are at most the binary logarithm of the number of addresses. *)
Lemma max_rank_log (uf : UnionFind) :
  UFInv uf -> (max_rank uf <= Nat.log2 (List.length (parent uf)))%nat.
Proof.
  intro Hinv. apply max_rank_le. intros a Ha.
  destruct (@rep_exists _ _ Hinv Ha) as [r Hr].
  destruct (rep_rank Hinv Hr) as [Hle _].
  destruct (@inv_members _ Hinv _ (rep_is_root Hr)) as (ms & (Hnd & Hms) & _ & Hpow).
  assert (Hlen : (List.length ms <= List.length (parent uf))%nat).
  { rewrite <- (length_map fst (parent uf)). apply NoDup_incl_length; [exact Hnd|].
    intros b Hb. apply dict_lookup_key. apply Hms in Hb. exact (rep_is_key Hb). }
  assert (Hpos : (0 < List.length (parent uf))%nat).
  { pose proof (Nat.pow_nonzero 2 (rk uf r)). lia. }
  apply Nat.le_trans with (rk uf r); [exact Hle|].
  apply Nat.log2_le_pow2; [exact Hpos|lia].
Qed.

Lemma deep_enough_rank (limit : nat) (uf : UnionFind) :
  UFInv uf -> deep_enough limit uf -> (max_rank uf < limit)%nat.
Proof. intros Hinv H. pose proof (max_rank_log Hinv). unfold deep_enough in H. lia. Qed.

Lemma find_total (limit : nat) (a : string) (uf : UnionFind) :
  UFInv uf -> (max_rank uf < limit)%nat ->
  exists r uf',
    find limit a uf = Returned (r, uf')
    /\ rep (add a uf) a r /\ compressed (add a uf) uf' /\ UFInv uf'
    /\ par uf' a = Some r.
Proof.
  intros Hinv Hlim. destruct (par uf a) as [p|] eqn:Ea.
  - rewrite add_key by congruence. apply find_of_key; [exact Hinv|congruence|lia].
  - destruct limit as [|limit]; [lia|].
    assert (Ea' : Py.dict_lookup (parent uf) a = None) by exact Ea.
    assert (Ha : Py.dict_lookup (parent (add a uf)) a = Some a).
    { fold (par (add a uf) a). rewrite (@par_add _ _ _ Ea), String.eqb_refl. reflexivity. }
    assert (Hc : contains uf a = false) by (unfold contains; rewrite Ea'; reflexivity).
    cbn [find]. cbv zeta. rewrite Hc, Ha.
    rewrite String.eqb_refl. cbn [negb].
    exists a, (add a uf). split; [reflexivity|].
    split; [apply rep_root; exact Ha|].
    split; [apply compressed_refl|]. split; [apply add_new_inv; assumption|exact Ha].
Qed.

(** *** [union] *)

Lemma dict_set_same (V : Type) (d : list (string * V)) (k : string) (v : V) :
  Py.dict_lookup d k = Some v -> Py.dict_set d k v = d.
Proof.
  induction d as [|[k0 w] d IH]; cbn [Py.dict_lookup Py.dict_set]; [discriminate|].
  destruct (String.eqb k0 k) eqn:E.
  - intros [= ->]. reflexivity.
  - intro H. rewrite IH by exact H. reflexivity.
Qed.

Lemma set_rank_same (uf : UnionFind) (p : string) (k : nat) :
  Py.dict_lookup (rank uf) p = Some k -> set_rank p k uf = uf.
Proof.
  intro H. unfold set_rank. rewrite (dict_set_same _ _ H). destruct uf; reflexivity.
Qed.

Lemma linked_fields (U : UnionFind) (c p : string) (k n : nat) :
  let U' := set_size p n (set_rank p k (set_parent c p U)) in
  (forall x, par U' x = if String.eqb c x then Some p else par U x)
  /\ (forall x, Py.dict_lookup (rank U') x
                = if String.eqb p x then Some k else Py.dict_lookup (rank U) x)
  /\ (forall x, Py.dict_lookup (size U') x
                = if String.eqb p x then Some n else Py.dict_lookup (size U) x).
Proof.
  unfold par. cbn [set_size set_rank set_parent parent rank size].
  split; [|split]; intro x; apply dict_lookup_set.
Qed.

(** Hanging the root [c] under the root [p] moves the cluster of [c] to
    [p] and changes the root of no other address. *)
Lemma link_rep (U U' : UnionFind) (c p : string) :
  par U c = Some c -> par U p = Some p -> c <> p ->
  (forall x, par U' x = if String.eqb c x then Some p else par U x) ->
  forall x y, rep U' x y <-> (rep U x y /\ y <> c) \/ (rep U x c /\ y = p).
Proof.
  intros Hc Hp Hne Hpar x y. split.
  - intro H. induction H as [x Hx|x q y Hx Hq Hy IH]; rewrite Hpar in Hx.
    + destruct (String.eqb c x) eqn:E.
      * apply String.eqb_eq in E. subst x. congruence.
      * apply String.eqb_neq in E. left. split; [apply rep_root; exact Hx|congruence].
    + destruct (String.eqb c x) eqn:E.
      * apply String.eqb_eq in E. subst x. assert (q = p) by congruence. subst q.
        right. split; [apply rep_root; exact Hc|].
        destruct IH as [[H1 _]|[H1 _]]; apply (rep_of_root Hp) in H1; congruence.
      * destruct IH as [[H1 H2]|[H1 H2]].
        -- left. split; [eapply rep_step; eauto|exact H2].
        -- right. split; [eapply rep_step; eauto|exact H2].
  - intros [[H Hy]|[H ->]].
    + induction H as [x Hx|x q y Hx Hq H IH].
      * apply rep_root. rewrite Hpar. destruct (String.eqb c x) eqn:E; [|exact Hx].
        apply String.eqb_eq in E. congruence.
      * apply rep_step with (p := q); [|exact Hq|apply IH; exact Hy].
        rewrite Hpar. destruct (String.eqb c x) eqn:E; [|exact Hx].
        apply String.eqb_eq in E. subst x. congruence.
    + assert (G : forall r, rep U x r -> r = c -> rep U' x p).
      { clear H. intros r H. induction H as [x Hx|x q r Hx Hq H IH]; intro Er.
        - subst x. apply rep_step with (p := p).
          + rewrite Hpar, String.eqb_refl. reflexivity.
          + congruence.
          + apply rep_root. rewrite Hpar.
            destruct (String.eqb c p) eqn:E; [|exact Hp].
            apply String.eqb_eq in E. congruence.
        - apply rep_step with (p := q); [|exact Hq|apply IH; exact Er].
          rewrite Hpar. destruct (String.eqb c x) eqn:E; [|exact Hx].
          apply String.eqb_eq in E. subst x. congruence. }
      exact (G c H eq_refl).
Qed.

Lemma link_inv (U U' : UnionFind) (c p : string) (k sc sp : nat) :
  UFInv U -> par U c = Some c -> par U p = Some p -> c <> p ->
  Py.dict_lookup (size U) c = Some sc -> Py.dict_lookup (size U) p = Some sp ->
  (rk U c < k)%nat -> (k = rk U p \/ (k = rk U p + 1 /\ rk U c = rk U p))%nat ->
  (forall x, par U' x = if String.eqb c x then Some p else par U x) ->
  (forall x, Py.dict_lookup (rank U') x
             = if String.eqb p x then Some k else Py.dict_lookup (rank U) x) ->
  (forall x, Py.dict_lookup (size U') x
             = if String.eqb p x then Some (sp + sc)%nat else Py.dict_lookup (size U) x) ->
  UFInv U'.
Proof.
  intros Hinv Hc Hp Hne Hsc Hsp Hk1 Hk2 Hpar Hrank Hsize.
  assert (Hrk : forall x, rk U' x = if String.eqb p x then k else rk U x).
  { intro x. unfold rk. rewrite !dict_get_lookup, Hrank.
    destruct (String.eqb p x); reflexivity. }
  pose proof (@link_rep U U' c p Hc Hp Hne Hpar) as Hrep.
  assert (Hkey : forall x, par U' x <> None <-> par U x <> None).
  { intro x. rewrite Hpar. destruct (String.eqb c x) eqn:E; [|reflexivity].
    apply String.eqb_eq in E. subst x. rewrite Hc. split; discriminate. }
  constructor.
  - intros x q Hx. apply Hkey. rewrite Hpar in Hx. destruct (String.eqb c x).
    + assert (q = p) by congruence. subst q. rewrite Hp. discriminate.
    + exact (@inv_closed _ Hinv _ _ Hx).
  - intros x q Hx Hq. rewrite Hpar in Hx. rewrite !Hrk.
    destruct (String.eqb c x) eqn:E.
    + apply String.eqb_eq in E. subst x. assert (q = p) by congruence. subst q.
      rewrite String.eqb_refl.
      destruct (String.eqb p c) eqn:E2; [apply String.eqb_eq in E2; congruence|].
      exact Hk1.
    + pose proof (@inv_rank _ Hinv _ _ Hx Hq) as Hr.
      destruct (String.eqb p x) eqn:E2.
      * apply String.eqb_eq in E2. subst x. congruence.
      * destruct (String.eqb p q) eqn:E3; [|exact Hr].
        apply String.eqb_eq in E3. subst q. lia.
  - intros x Hx. apply Hkey in Hx. destruct (@inv_keys _ Hinv _ Hx) as [H1 H2].
    rewrite Hrank, Hsize. destruct (String.eqb p x); [split; discriminate|].
    split; assumption.
  - intros r Hr.
    assert (Hr0 : par U r = Some r /\ r <> c).
    { rewrite Hpar in Hr. destruct (String.eqb c r) eqn:E.
      - apply String.eqb_eq in E. subst r. congruence.
      - apply String.eqb_neq in E. split; [exact Hr|congruence]. }
    destruct Hr0 as [Hr0 Hrc].
    destruct (@inv_members _ Hinv _ Hr0) as (ms & (Hnd & Hms) & Hsz & Hpow).
    rewrite Hsize, Hrk. destruct (String.eqb p r) eqn:E.
    + apply String.eqb_eq in E. subst r.
      destruct (@inv_members _ Hinv _ Hc) as (mc & (Hndc & Hmc) & Hszc & Hpowc).
      assert (sp = List.length ms) by congruence.
      assert (sc = List.length mc) by congruence. subst sp sc.
      exists (ms ++ mc). split; [split|split].
      * apply NoDup_app; [exact Hnd|exact Hndc|].
        intros b Hb Hb'. apply Hms in Hb. apply Hmc in Hb'.
        apply Hne. exact (rep_unique Hb' Hb).
      * intro b. rewrite in_app_iff, Hms, Hmc, Hrep. split.
        -- intros [H|H]; [left; split; [exact H|congruence]|right; split; [exact H|reflexivity]].
        -- intros [[H _]|[H _]]; [left|right]; exact H.
      * rewrite length_app. reflexivity.
      * rewrite length_app. destruct Hk2 as [->|[-> Hk2]]; [lia|].
        rewrite Nat.add_1_r, Nat.pow_succ_r'. rewrite Hk2 in Hpowc. lia.
    + exists ms. split; [split; [exact Hnd|]|split; assumption].
      intro b. rewrite Hms, Hrep. split; [intro H; left; split; [exact H|exact Hrc]|].
      intros [[H _]|[_ C]]; [exact H|]. apply String.eqb_neq in E. congruence.
Qed.

Lemma same_cluster_rep (U : UnionFind) (a r x : string) :
  rep U a r -> (same_cluster U x a <-> rep U x r).
Proof.
  intro Ha. split.
  - intros (r' & Hx & Ha'). assert (r' = r) by exact (rep_unique Ha' Ha).
    subst r'. exact Hx.
  - intro Hx. exists r. auto.
Qed.

Lemma link_clusters (U U' : UnionFind) (c p : string) :
  par U c = Some c -> par U p = Some p -> c <> p ->
  (forall x y, rep U' x y <-> (rep U x y /\ y <> c) \/ (rep U x c /\ y = p)) ->
  forall x y,
    same_cluster U' x y
    <-> same_cluster U x y \/ (rep U x c /\ rep U y p) \/ (rep U x p /\ rep U y c).
Proof.
  intros Hc Hp Hne Hrep x y. split.
  - intros (r & Hx & Hy). apply Hrep in Hx. apply Hrep in Hy.
    destruct Hx as [[Hx Hxr]|[Hx ->]]; destruct Hy as [[Hy Hyr]|[Hy E]].
    + left. exists r. auto.
    + subst r. right. right. auto.
    + right. left. auto.
    + left. exists c. auto.
  - intros [(r & Hx & Hy)|[[Hx Hy]|[Hx Hy]]].
    + destruct (String.eqb r c) eqn:E.
      * apply String.eqb_eq in E. subst r. exists p. split; apply Hrep; right; auto.
      * apply String.eqb_neq in E. exists r. split; apply Hrep; left; auto.
    + exists p. split; apply Hrep; [right|left]; auto.
    + exists p. split; apply Hrep; [left|right]; auto.
Qed.

Lemma union_spec (limit : nat) (a b : string) (uf : UnionFind) :
  UFInv uf -> (max_rank uf < limit)%nat ->
  exists merged uf',
    union limit a b uf = Returned (merged, uf')
    /\ UFInv uf'
    /\ (merged = false <-> same_cluster (add b (add a uf)) a b)
    /\ forall x y,
         same_cluster uf' x y
         <-> same_cluster (add b (add a uf)) x y
             \/ (same_cluster (add b (add a uf)) x a /\ same_cluster (add b (add a uf)) y b)
             \/ (same_cluster (add b (add a uf)) x b /\ same_cluster (add b (add a uf)) y a).
Proof.
  intros Hinv Hlim. unfold union.
  destruct (@find_total limit a uf Hinv Hlim) as (r1 & uf1 & -> & Hr1 & Hc1 & Hinv1 & _).
  destruct (@add_spec uf a Hinv) as (HinvA & HkeyA & HrepA).
  assert (Hlim1 : (max_rank uf1 < limit)%nat).
  { destruct (compressed_rk a Hc1) as [_ ->]. pose proof (add_max_rank uf a). lia. }
  destruct (@find_total limit b uf1 Hinv1 Hlim1) as (r2 & uf2 & -> & Hr2 & Hc2 & Hinv2 & _).
  destruct (@add_spec (add a uf) b HinvA) as (HinvB & HkeyB & HrepB).
  assert (Hc0 : compressed (add b (add a uf)) uf2).
  { apply compressed_trans with (add b uf1); [apply add_compressed; assumption|exact Hc2]. }
  set (U0 := add b (add a uf)) in *.
  pose proof Hc0 as (R0 & S0 & K0 & H0).
  assert (Ha2 : rep uf2 a r1).
  { apply H0. apply HrepB. left. exact Hr1. }
  assert (Hb2 : rep uf2 b r2).
  { destruct Hc2 as (_ & _ & _ & H2). apply H2. exact Hr2. }
  assert (Hsc : forall x y, same_cluster uf2 x y <-> same_cluster U0 x y).
  { intros x y. unfold same_cluster.
    split; intros (r & Hx & Hy); exists r; split; apply H0; assumption. }
  destruct (String.eqb r1 r2) eqn:E.
  - apply String.eqb_eq in E. subst r2. exists false, uf2.
    split; [reflexivity|]. split; [exact Hinv2|]. split.
    + split; [intros _|reflexivity]. apply Hsc. exists r1. auto.
    + intros x y. rewrite <- !Hsc. split; [auto|].
      intros [H|[[Hx Hy]|[Hx Hy]]]; [exact H| |].
      * apply (same_cluster_rep x Ha2) in Hx. apply (same_cluster_rep y Hb2) in Hy.
        exists r1. auto.
      * apply (same_cluster_rep x Hb2) in Hx. apply (same_cluster_rep y Ha2) in Hy.
        exists r1. auto.
  - apply String.eqb_neq in E.
    pose proof (rep_is_root Ha2) as Hroot1. pose proof (rep_is_root Hb2) as Hroot2.
    assert (Hk1 : par uf2 r1 <> None) by congruence.
    assert (Hk2 : par uf2 r2 <> None) by congruence.
    destruct (@inv_keys _ Hinv2 _ Hk1) as [Hrank1 Hsize1].
    destruct (@inv_keys _ Hinv2 _ Hk2) as [Hrank2 Hsize2].
    destruct (Py.dict_lookup (rank uf2) r1) as [rank1|] eqn:Erank1; [|contradiction].
    destruct (Py.dict_lookup (rank uf2) r2) as [rank2|] eqn:Erank2; [|contradiction].
    destruct (Py.dict_lookup (size uf2) r1) as [size1|] eqn:Esize1; [|contradiction].
    destruct (Py.dict_lookup (size uf2) r2) as [size2|] eqn:Esize2; [|contradiction].
    assert (Hrk1 : rk uf2 r1 = rank1).
    { unfold rk. rewrite dict_get_lookup, Erank1. reflexivity. }
    assert (Hrk2 : rk uf2 r2 = rank2).
    { unfold rk. rewrite dict_get_lookup, Erank2. reflexivity. }
    assert (Hfin : forall U',
               UFInv U' ->
               (forall x y,
                   same_cluster U' x y
                   <-> same_cluster uf2 x y
                       \/ (rep uf2 x r1 /\ rep uf2 y r2) \/ (rep uf2 x r2 /\ rep uf2 y r1)) ->
               exists merged uf',
                 Returned (true, U') = Returned (merged, uf')
                 /\ UFInv uf'
                 /\ (merged = false <-> same_cluster U0 a b)
                 /\ forall x y,
                      same_cluster uf' x y
                      <-> same_cluster U0 x y
                          \/ (same_cluster U0 x a /\ same_cluster U0 y b)
                          \/ (same_cluster U0 x b /\ same_cluster U0 y a)).
    { intros U' HU' Hcl. exists true, U'. split; [reflexivity|]. split; [exact HU'|]. split.
      - split; [discriminate|]. intro H. apply Hsc in H. destruct H as (r & Hx & Hy).
        exfalso. apply E. transitivity r; [exact (rep_unique Ha2 Hx)|exact (rep_unique Hy Hb2)].
      - intros x y. rewrite Hcl, <- !Hsc.
        rewrite (same_cluster_rep x Ha2), (same_cluster_rep y Hb2).
        rewrite (same_cluster_rep x Hb2), (same_cluster_rep y Ha2). reflexivity. }
    destruct (rank1 <? rank2)%nat eqn:L1; [|destruct (rank2 <? rank1)%nat eqn:L2].
    + apply Nat.ltb_lt in L1.
      rewrite <- (@set_rank_same (set_parent r1 r2 uf2) r2 rank2) by exact Erank2.
      destruct (linked_fields uf2 r1 r2 rank2 (size2 + size1)) as (F1 & F2 & F3).
      apply Hfin.
      * apply link_inv with (U := uf2) (c := r1) (p := r2) (k := rank2) (sc := size1) (sp := size2);
          try assumption; [lia|left; lia].
      * exact (@link_clusters uf2 _ r1 r2 Hroot1 Hroot2 E
                 (@link_rep uf2 _ r1 r2 Hroot1 Hroot2 E F1)).
    + apply Nat.ltb_lt in L2.
      rewrite <- (@set_rank_same (set_parent r2 r1 uf2) r1 rank1) by exact Erank1.
      destruct (linked_fields uf2 r2 r1 rank1 (size1 + size2)) as (F1 & F2 & F3).
      apply Hfin.
      * apply link_inv with (U := uf2) (c := r2) (p := r1) (k := rank1) (sc := size2) (sp := size1);
          try assumption; [congruence|lia|left; lia].
      * intros x y.
        assert (Hne : r2 <> r1) by congruence.
        rewrite (@link_clusters uf2 _ r2 r1 Hroot2 Hroot1 Hne
                   (@link_rep uf2 _ r2 r1 Hroot2 Hroot1 Hne F1)).
        tauto.
    + apply Nat.ltb_ge in L1. apply Nat.ltb_ge in L2.
      destruct (linked_fields uf2 r2 r1 (rank1 + 1) (size1 + size2)) as (F1 & F2 & F3).
      apply Hfin.
      * apply link_inv with (U := uf2) (c := r2) (p := r1) (k := (rank1 + 1)%nat)
                            (sc := size2) (sp := size1);
          try assumption; [congruence|lia|right; lia].
      * intros x y.
        assert (Hne : r2 <> r1) by congruence.
        rewrite (@link_clusters uf2 _ r2 r1 Hroot2 Hroot1 Hne
                   (@link_rep uf2 _ r2 r1 Hroot2 Hroot1 Hne F1)).
        tauto.
Qed.

Lemma example_inv : UFInv example.
Proof.
  destruct (@union_spec 8 "a"%string "b"%string init init_inv ltac:(cbn; lia)) as (m1 & u1 & E1 & H1 & _).
  vm_compute in E1. injection E1 as <- <-.
  destruct (@union_spec 8 "c"%string "d"%string _ H1 ltac:(cbn; lia)) as (m2 & u2 & E2 & H2 & _).
  vm_compute in E2. injection E2 as <- <-.
  destruct (@union_spec 8 "d"%string "b"%string _ H2 ltac:(cbn; lia)) as (m3 & u3 & E3 & H3 & _).
  vm_compute in E3. injection E3 as <- <-.
  exact H3.
Qed.

(** *** A repeated [find] *)

Lemma set_parent_same (uf : UnionFind) (a r : string) :
  par uf a = Some r -> set_parent a r uf = uf.
Proof.
  intro H. unfold set_parent. rewrite (@dict_set_same _ _ _ _ H). destruct uf; reflexivity.
Qed.

Lemma find_at_root (limit : nat) (r : string) (uf : UnionFind) :
  par uf r = Some r -> find (S limit) r uf = Returned (r, uf).
Proof.
  intro Hr. assert (Hr' : Py.dict_lookup (parent uf) r = Some r) by exact Hr.
  assert (Hc : contains uf r = true) by (unfold contains; rewrite Hr'; reflexivity).
  cbn [find]. cbv zeta. rewrite Hc, Hr', String.eqb_refl. reflexivity.
Qed.

Lemma find_again (limit : nat) (a r : string) (uf : UnionFind) :
  par uf a = Some r -> par uf r = Some r ->
  (1 <= limit)%nat -> (a <> r -> 2 <= limit)%nat ->
  find limit a uf = Returned (r, uf).
Proof.
  intros Ha Hr H1 H2. destruct (String.eqb r a) eqn:E.
  - apply String.eqb_eq in E. subst r. destruct limit; [lia|]. apply find_at_root. exact Ha.
  - destruct limit as [|[|limit]]; [lia| |].
    + exfalso. apply String.eqb_neq in E. assert (H : a <> r) by congruence.
      specialize (H2 H). lia.
    + assert (Ha' : Py.dict_lookup (parent uf) a = Some r) by exact Ha.
      assert (Hc : contains uf a = true) by (unfold contains; rewrite Ha'; reflexivity).
      remember (S limit) as l eqn:El.
      cbn [find]. cbv zeta. rewrite Hc, Ha', E. cbn [negb]. subst l.
      rewrite (@find_at_root limit r uf Hr), (@set_parent_same uf a r Ha), Ha'.
      reflexivity.
Qed.

(** *** Clusters *)

Lemma root_members (uf : UnionFind) (a r : string) :
  UFInv uf -> rep uf a r ->
  exists ms,
    NoDup ms /\ (forall b, In b ms <-> same_cluster uf a b)
    /\ Py.dict_lookup (size uf) r = Some (List.length ms) /\ In a ms.
Proof.
  intros Hinv Ha.
  destruct (@inv_members _ Hinv _ (rep_is_root Ha)) as (ms & (Hnd & Hms) & Hsz & _).
  exists ms. split; [exact Hnd|]. split; [|split; [exact Hsz|apply Hms; exact Ha]].
  intro b. rewrite Hms. split.
  - intro Hb. exists r. auto.
  - intros (r' & Ha' & Hb). rewrite (rep_unique Ha Ha'). exact Hb.
Qed.

Lemma collected_step (uf : UnionFind) (done : list string)
    (clusters : list (string * list string)) (x r : string) :
  collected uf done clusters -> rep uf x r ->
  collected uf (done ++ [x])
    (Py.dict_set clusters r
       (let members := match Py.dict_lookup clusters r with
                       | Some members => members
                       | None => []
                       end in
        if str_in x members then members else members ++ [x])).
Proof.
  intros [H1 H2] Hx. cbv zeta.
  set (members := match Py.dict_lookup clusters r with Some m => m | None => [] end).
  set (members' := if str_in x members then members else members ++ [x]).
  assert (Hm : NoDup members /\ forall b, In b members <-> In b done /\ rep uf b r).
  { unfold members. destruct (Py.dict_lookup clusters r) as [ms|] eqn:E.
    - destruct (H1 r ms E) as (Hnd & _ & Hms). auto.
    - split; [constructor|]. intro b. split; [intros []|].
      intros [Hb Hr]. exfalso. exact (H2 b r Hb Hr E). }
  destruct Hm as [Hnd Hms].
  assert (Hm' : NoDup members' /\ members' <> []
                /\ forall b, In b members' <-> In b (done ++ [x]) /\ rep uf b r).
  { unfold members'. destruct (str_in x members) eqn:E.
    - apply str_in_true in E. split; [exact Hnd|]. split.
      + intro C. rewrite C in E. destruct E.
      + intro b. rewrite Hms, in_app_iff. cbn [In]. split.
        * intros [Hb Hr]. auto.
        * intros [[Hb|[<-|[]]] Hr]; [auto|]. apply Hms. exact E.
    - assert (Hn : ~ In x members).
      { intro C. apply str_in_true in C. congruence. }
      split; [apply NoDup_snoc; assumption|]. split.
      + intro C. apply app_eq_nil in C as [_ C]. discriminate C.
      + intro b. rewrite !in_app_iff, Hms. cbn [In]. split.
        * intros [[Hb Hr]|[<-|[]]]; auto.
        * intros [[Hb|[<-|[]]] Hr]; auto. }
  split.
  - intros r' ms. rewrite dict_lookup_set. destruct (String.eqb r r') eqn:E.
    + apply String.eqb_eq in E. subst r'. intros [= <-]. exact Hm'.
    + apply String.eqb_neq in E. intro Hl. destruct (H1 r' ms Hl) as (Hnd' & Hne' & Hms').
      split; [exact Hnd'|]. split; [exact Hne'|].
      intro b. rewrite Hms', in_app_iff. cbn [In]. split.
      * intros [Hb Hr]. auto.
      * intros [[Hb|[<-|[]]] Hr]; [auto|].
        exfalso. apply E. exact (rep_unique Hx Hr).
  - intros b r' Hb Hr. rewrite dict_lookup_set. destruct (String.eqb r r') eqn:E; [discriminate|].
    apply String.eqb_neq in E. apply in_app_iff in Hb. cbn [In] in Hb.
    destruct Hb as [Hb|[<-|[]]]; [exact (H2 b r' Hb Hr)|].
    exfalso. apply E. exact (rep_unique Hx Hr).
Qed.

Lemma collect_spec (limit : nat) (uf0 : UnionFind) :
  forall addresses done clusters uf,
    UFInv uf -> compressed uf0 uf -> (max_rank uf < limit)%nat ->
    (forall x, In x addresses -> par uf0 x <> None) ->
    collected uf0 done clusters ->
    exists clusters' uf',
      collect_clusters limit addresses clusters uf = Returned (clusters', uf')
      /\ UFInv uf' /\ compressed uf0 uf'
      /\ collected uf0 (done ++ addresses) clusters'.
Proof.
  induction addresses as [|x rest IH]; intros done clusters uf Hinv Hc Hlim Hkeys Hcol.
  - exists clusters, uf. rewrite app_nil_r. auto.
  - cbn [collect_clusters].
    assert (Hx : par uf x <> None).
    { apply (compressed_key x Hc). apply Hkeys. left. reflexivity. }
    destruct (@find_of_key limit x uf Hinv Hx ltac:(lia))
      as (r & uf1 & -> & Hr & Hc1 & Hinv1 & _).
    assert (Hr0 : rep uf0 x r).
    { destruct Hc as (_ & _ & _ & H). apply H. exact Hr. }
    assert (Hlim1 : (max_rank uf1 < limit)%nat).
    { destruct (compressed_rk x Hc1) as [_ ->]. exact Hlim. }
    destruct (IH (done ++ [x]) _ uf1 Hinv1 (compressed_trans Hc Hc1) Hlim1
                 (fun y Hy => Hkeys y (or_intror Hy))
                 (collected_step Hcol Hr0))
      as (clusters' & uf' & Hrun & Hinv' & Hc' & Hcol').
    exists clusters', uf'. rewrite <- app_assoc in Hcol'. auto.
Qed.

Lemma get_clusters_spec (limit : nat) (uf : UnionFind) :
  UFInv uf -> (max_rank uf < limit)%nat ->
  exists clusters uf',
    get_clusters limit uf = Returned (clusters, uf')
    /\ UFInv uf' /\ compressed uf uf'
    /\ (forall r, Py.dict_lookup clusters r <> None <-> par uf r = Some r)
    /\ forall r ms, Py.dict_lookup clusters r = Some ms -> members_of uf r ms.
Proof.
  intros Hinv Hlim. unfold get_clusters.
  assert (Hcol0 : collected uf [] []).
  { split; [intros r ms H; discriminate H|intros b r []]. }
  destruct (@collect_spec limit uf (map fst (parent uf)) [] [] uf Hinv
              (compressed_refl uf) Hlim
              (fun x Hx => proj2 (dict_lookup_key (parent uf) x) Hx) Hcol0)
    as (clusters & uf' & -> & Hinv' & Hc' & [H1 H2]).
  cbn [app] in H1, H2.
  exists clusters, uf'. split; [reflexivity|]. split; [exact Hinv'|]. split; [exact Hc'|].
  split.
  - intro r. split.
    + intro Hl. destruct (Py.dict_lookup clusters r) as [ms|] eqn:E; [|contradiction].
      destruct (H1 r ms E) as (_ & Hne & Hms).
      destruct ms as [|b ms]; [contradiction|].
      destruct (proj1 (Hms b) (or_introl eq_refl)) as [_ Hb].
      exact (rep_is_root Hb).
    + intro Hr. apply (H2 r r); [|apply rep_root; exact Hr].
      apply dict_lookup_key. unfold par in Hr. rewrite Hr. discriminate.
  - intros r ms E. destruct (H1 r ms E) as (Hnd & _ & Hms).
    split; [exact Hnd|]. intro b. rewrite Hms. split; [intros [_ H]; exact H|].
    intro Hb. split; [|exact Hb]. apply dict_lookup_key. exact (rep_is_key Hb).
Qed.

(** *** The operations of the structure *)

(** X27. [find] on a structure kept by these operations, with a recursion
    limit above the binary logarithm of the number of addresses, returns
    the root of the address's cluster (the address itself when it is
    new); only parent pointers move, so every cluster, rank and size is
    kept; and a second [find] returns the same root and changes
    nothing. *)
Theorem find_root (limit : nat) (a : string) (uf : UnionFind) :
  UFInv uf -> deep_enough limit uf ->
  exists r uf',
    find limit a uf = Returned (r, uf')
    /\ rep (add a uf) a r
    /\ compressed (add a uf) uf'
    /\ UFInv uf'
    /\ find limit a uf' = Returned (r, uf').
Proof.
  intros Hinv Hdeep. pose proof (deep_enough_rank Hinv Hdeep) as Hlim.
  destruct (@find_total limit a uf Hinv Hlim) as (r & uf' & E & Hr & Hc & Hinv' & Hp).
  exists r, uf'. split; [exact E|]. split; [exact Hr|]. split; [exact Hc|].
  split; [exact Hinv'|].
  assert (Hr' : rep uf' a r).
  { destruct Hc as (_ & _ & _ & H). apply H. exact Hr. }
  apply find_again; [exact Hp|exact (rep_is_root Hr')|lia|].
  intro Hne. destruct (rep_rank Hinv' Hr') as [_ Hlt]. specialize (Hlt Hne).
  pose proof (@rk_le_max uf' r ltac:(rewrite (rep_is_root Hr'); discriminate)) as Hmax.
  destruct (compressed_rk a Hc) as [_ Hsame]. pose proof (add_max_rank uf a). lia.
Qed.

Lemma find_root_witness :
  UFInv example /\ deep_enough 8 example
  /\ exists r uf',
       find 8 "b"%string example = Returned (r, uf')
       /\ rep (add "b"%string example) "b"%string r
       /\ compressed (add "b"%string example) uf'
       /\ UFInv uf'
       /\ find 8 "b"%string uf' = Returned (r, uf').
Proof.
  assert (Hd : deep_enough 8 example) by (unfold deep_enough; cbn; lia).
  split; [exact example_inv|]. split; [exact Hd|].
  exact (@find_root 8 "b"%string example example_inv Hd).
Defined.

(** X28. [union] returns [False] exactly when the two addresses were in
    one cluster already; afterwards two addresses are in one cluster
    exactly when they were before or one was with the first address and
    the other with the second; the addresses of the structure are the
    earlier ones and the two given. *)
Theorem union_merges (limit : nat) (a b : string) (uf : UnionFind) :
  UFInv uf -> deep_enough limit uf ->
  exists merged uf',
    union limit a b uf = Returned (merged, uf')
    /\ UFInv uf'
    /\ (merged = false <-> same_cluster (add b (add a uf)) a b)
    /\ (forall x y,
          same_cluster uf' x y
          <-> same_cluster (add b (add a uf)) x y
              \/ (same_cluster (add b (add a uf)) x a /\ same_cluster (add b (add a uf)) y b)
              \/ (same_cluster (add b (add a uf)) x b /\ same_cluster (add b (add a uf)) y a))
    /\ forall x, par uf' x <> None <-> par uf x <> None \/ x = a \/ x = b.
Proof.
  intros Hinv Hdeep. pose proof (deep_enough_rank Hinv Hdeep) as Hlim.
  destruct (@union_spec limit a b uf Hinv Hlim) as (merged & uf' & E & Hinv' & Hm & Hcl).
  exists merged, uf'. split; [exact E|]. split; [exact Hinv'|]. split; [exact Hm|].
  split; [exact Hcl|].
  destruct (@add_spec uf a Hinv) as (HinvA & HkeyA & HrepA).
  destruct (@add_spec (add a uf) b HinvA) as (HinvB & HkeyB & HrepB).
  assert (Hself : forall U x, UFInv U -> (par U x <> None <-> same_cluster U x x)).
  { intros U x HU. split.
    - intro Hx. destruct (@rep_exists _ _ HU Hx) as [r Hr]. exists r. auto.
    - intros (r & Hr & _). exact (rep_is_key Hr). }
  assert (Hkeys : forall U c x, UFInv U ->
                    (par (add c U) x <> None <-> par U x <> None \/ x = c)).
  { intros U c x HU. destruct (par U c) as [p|] eqn:Ec.
    - assert (Hk : par U c <> None) by congruence.
      rewrite (@add_key _ _ Hk). split; [auto|]. intros [H| ->]; assumption.
    - rewrite (@par_add _ _ _ Ec). destruct (String.eqb c x) eqn:Ex.
      + apply String.eqb_eq in Ex. split; [auto|discriminate].
      + apply String.eqb_neq in Ex. split; [auto|]. intros [H|H]; [exact H|congruence]. }
  intro x. rewrite (Hself uf' x Hinv'), Hcl, <- !(Hself _ x HinvB).
  rewrite (Hkeys (add a uf) b x HinvA), (Hkeys uf a x Hinv). split.
  - intros [H|[[H _]|[H _]]]; try tauto.
    + destruct H as (r & Hx & _). apply rep_is_key in Hx.
      apply (Hkeys (add a uf) b x HinvA) in Hx. apply or_assoc.
      destruct Hx as [Hx|Hx]; [left; apply (Hkeys uf a x Hinv); exact Hx|auto].
    + destruct H as (r & Hx & _). apply rep_is_key in Hx.
      apply (Hkeys (add a uf) b x HinvA) in Hx. apply or_assoc.
      destruct Hx as [Hx|Hx]; [left; apply (Hkeys uf a x Hinv); exact Hx|auto].
  - intro H. left. tauto.
Qed.

Lemma union_merges_witness :
  UFInv example /\ deep_enough 8 example
  /\ exists merged uf',
       union 8 "b"%string "e"%string example = Returned (merged, uf')
       /\ UFInv uf'
       /\ (merged = false <-> same_cluster (add "e"%string (add "b"%string example)) "b"%string "e"%string)
       /\ (forall x y,
             same_cluster uf' x y
             <-> same_cluster (add "e"%string (add "b"%string example)) x y
                 \/ (same_cluster (add "e"%string (add "b"%string example)) x "b"%string
                     /\ same_cluster (add "e"%string (add "b"%string example)) y "e"%string)
                 \/ (same_cluster (add "e"%string (add "b"%string example)) x "e"%string
                     /\ same_cluster (add "e"%string (add "b"%string example)) y "b"%string))
       /\ forall x, par uf' x <> None <-> par example x <> None \/ x = "b"%string \/ x = "e"%string.
Proof.
  assert (Hd : deep_enough 8 example) by (unfold deep_enough; cbn; lia).
  split; [exact example_inv|]. split; [exact Hd|].
  exact (@union_merges 8 "b"%string "e"%string example example_inv Hd).
Defined.

(** X29. [get_cluster_members] returns the addresses that share the
    cluster of the given address, each once and the address among them,
    and [get_cluster_size] returns their number. *)
Theorem cluster_members_and_size (limit : nat) (a : string) (uf : UnionFind) :
  UFInv uf -> deep_enough limit uf ->
  exists n uf1 ms uf2,
    get_cluster_size limit a uf = Returned (n, uf1)
    /\ get_cluster_members limit a uf = Returned (ms, uf2)
    /\ NoDup ms /\ In a ms
    /\ (forall b, In b ms <-> same_cluster (add a uf) a b)
    /\ n = List.length ms
    /\ compressed (add a uf) uf1 /\ compressed (add a uf) uf2.
Proof.
  intros Hinv Hdeep. pose proof (deep_enough_rank Hinv Hdeep) as Hlim.
  destruct (@find_total limit a uf Hinv Hlim) as (r & uf1 & E & Hr & Hc1 & Hinv1 & _).
  unfold get_cluster_size, get_cluster_members. rewrite E.
  pose proof Hc1 as (_ & _ & _ & H1).
  assert (Hr1 : rep uf1 a r) by (apply H1; exact Hr).
  assert (Hlim1 : (max_rank uf1 < limit)%nat).
  { destruct (compressed_rk a Hc1) as [_ ->]. pose proof (add_max_rank uf a). lia. }
  destruct (@get_clusters_spec limit uf1 Hinv1 Hlim1)
    as (clusters & uf2 & -> & Hinv2 & Hc2 & Hroots & Hmem).
  destruct (Py.dict_lookup clusters r) as [ms|] eqn:El.
  2:{ exfalso. apply (proj2 (Hroots r) (rep_is_root Hr1)). exact El. }
  destruct (Hmem r ms El) as [Hnd Hms].
  destruct (root_members Hinv1 Hr1) as (ms0 & Hnd0 & Hms0 & Hsz & _).
  assert (Hsame : forall b, rep uf1 b r <-> same_cluster (add a uf) a b).
  { intro b. split.
    - intro Hb. exists r. split; [exact Hr|apply H1; exact Hb].
    - intros (r' & Ha & Hb). rewrite (rep_unique Hr Ha). apply H1. exact Hb. }
  exists (List.length ms), uf1, ms, uf2.
  split.
  { assert (Hlen : List.length ms0 = List.length ms).
    { apply Permutation_length. apply NoDup_Permutation; [exact Hnd0|exact Hnd|].
      intro b. rewrite Hms0, Hms. split.
      - intros (r' & Ha & Hb). rewrite (rep_unique Hr1 Ha). exact Hb.
      - intro Hb. exists r. auto. }
    rewrite dict_get_lookup, Hsz, Hlen. reflexivity. }
  split; [reflexivity|]. split; [exact Hnd|]. split; [apply Hms; exact Hr1|].
  split; [intro b; rewrite Hms; apply Hsame|]. split; [reflexivity|].
  split; [exact Hc1|exact (compressed_trans Hc1 Hc2)].
Qed.

Lemma cluster_members_and_size_witness :
  UFInv example /\ deep_enough 8 example
  /\ exists n uf1 ms uf2,
       get_cluster_size 8 "b"%string example = Returned (n, uf1)
       /\ get_cluster_members 8 "b"%string example = Returned (ms, uf2)
       /\ NoDup ms /\ In "b"%string ms
       /\ (forall b, In b ms <-> same_cluster (add "b"%string example) "b"%string b)
       /\ n = List.length ms
       /\ compressed (add "b"%string example) uf1 /\ compressed (add "b"%string example) uf2.
Proof.
  assert (Hd : deep_enough 8 example) by (unfold deep_enough; cbn; lia).
  split; [exact example_inv|]. split; [exact Hd|].
  exact (@cluster_members_and_size 8 "b"%string example example_inv Hd).
Defined.

(** X30. [get_clusters] returns one entry for each root, holding the
    addresses of its cluster, each once; so every address of the
    structure is in the entry of its root and in no other, and the
    clusters stay as they were. *)
Theorem clusters_partition (limit : nat) (uf : UnionFind) :
  UFInv uf -> deep_enough limit uf ->
  exists clusters uf',
    get_clusters limit uf = Returned (clusters, uf')
    /\ compressed uf uf' /\ UFInv uf'
    /\ (forall r, Py.dict_lookup clusters r <> None <-> par uf r = Some r)
    /\ (forall r ms, Py.dict_lookup clusters r = Some ms -> members_of uf r ms)
    /\ (forall b, par uf b <> None ->
          exists r ms, Py.dict_lookup clusters r = Some ms /\ In b ms)
    /\ forall b r1 r2 ms1 ms2,
         Py.dict_lookup clusters r1 = Some ms1 -> Py.dict_lookup clusters r2 = Some ms2 ->
         In b ms1 -> In b ms2 -> r1 = r2.
Proof.
  intros Hinv Hdeep. pose proof (deep_enough_rank Hinv Hdeep) as Hlim.
  destruct (@get_clusters_spec limit uf Hinv Hlim)
    as (clusters & uf' & E & Hinv' & Hc & Hroots & Hmem).
  exists clusters, uf'. split; [exact E|]. split; [exact Hc|]. split; [exact Hinv'|].
  split; [exact Hroots|]. split; [exact Hmem|]. split.
  - intros b Hb. destruct (@rep_exists _ _ Hinv Hb) as [r Hr].
    pose proof (proj2 (Hroots r) (rep_is_root Hr)) as Hl.
    destruct (Py.dict_lookup clusters r) as [ms|] eqn:El; [|contradiction].
    exists r, ms. split; [exact El|]. destruct (Hmem r ms El) as [_ Hms].
    apply Hms. exact Hr.
  - intros b r1 r2 ms1 ms2 E1 E2 H1 H2.
    destruct (Hmem r1 ms1 E1) as [_ Hms1]. destruct (Hmem r2 ms2 E2) as [_ Hms2].
    apply Hms1 in H1. apply Hms2 in H2. exact (rep_unique H1 H2).
Qed.

Lemma clusters_partition_witness :
  UFInv example /\ deep_enough 8 example
  /\ exists clusters uf',
       get_clusters 8 example = Returned (clusters, uf')
       /\ compressed example uf' /\ UFInv uf'
       /\ (forall r, Py.dict_lookup clusters r <> None <-> par example r = Some r)
       /\ (forall r ms, Py.dict_lookup clusters r = Some ms -> members_of example r ms)
       /\ (forall b, par example b <> None ->
             exists r ms, Py.dict_lookup clusters r = Some ms /\ In b ms)
       /\ forall b r1 r2 ms1 ms2,
            Py.dict_lookup clusters r1 = Some ms1 -> Py.dict_lookup clusters r2 = Some ms2 ->
            In b ms1 -> In b ms2 -> r1 = r2.
Proof.
  assert (Hd : deep_enough 8 example) by (unfold deep_enough; cbn; lia).
  split; [exact example_inv|]. split; [exact Hd|].
  exact (@clusters_partition 8 example example_inv Hd).
Defined.

End UnionFindFacts.
